(** * The elephant document repository: write path of the PostgreSQL store

    A shallow embedding of [postgres/query.sql.go]: the generated query
    layer (package [postgres]) and the document store built on it
    ([PGDocStore]: [Update], [Delete], [updateACL], [updatePreflight],
    [GetActiveSchemas]), together with the archiver's selector and its
    marking statements.

    Tables are lists of rows in insertion order.  Go's [int64] is [Z] with
    the wrap-around of [+ 1] written out.  A transaction runs on a working
    copy of the database and records every database call it makes; the
    committed database changes at [Commit] only. *)

From stdpp Require Import base option list gmap strings.
From Stdlib Require Import ZArith Lia.

Local Open Scope string_scope.
Local Open Scope list_scope.
Local Open Scope Z_scope.

(** ** Scalars *)

Definition UUID := string.
Definition Time := Z.
(** Serialised JSON, as [[]byte]; a nil slice (SQL NULL) is [None]. *)
Definition JSON := string.
(** [pgtype.Text]: a nullable text column. *)
Definition Text := option string.

Definition int64_min : Z := - 2 ^ 63.
Definition int64_max : Z := 2 ^ 63 - 1.

(** Two's complement reduction of an integer to the [int64] range. *)
Definition wrap64 (z : Z) : Z := (z + 2 ^ 63) mod 2 ^ 64 - 2 ^ 63.

(** [x + 1] and [x++] on an [int64]. *)
Definition int64_succ (x : Z) : Z := wrap64 (x + 1).

(** ** Package [postgres]: rows and queries *)

Module postgres.

(** [type Document struct] (the [type] column plays no part here). *)
Record Document := mkDocument {
  doc_UUID : UUID;
  doc_URI : string;
  doc_Created : Time;
  doc_CreatorUri : string;
  doc_Updated : Time;
  doc_UpdaterUri : string;
  doc_CurrentVersion : Z;
  doc_Deleting : bool
}.

(** [type DocumentVersion struct]. *)
Record DocumentVersion := mkDocumentVersion {
  ver_UUID : UUID;
  ver_Version : Z;
  ver_Created : Time;
  ver_CreatorUri : string;
  ver_Meta : option JSON;
  ver_DocumentData : option JSON;
  ver_Archived : bool;
  ver_Signature : Text
}.

(** [type DocumentStatus struct]. *)
Record DocumentStatus := mkDocumentStatus {
  st_UUID : UUID;
  st_Name : string;
  st_ID : Z;
  st_Version : Z;
  st_Created : Time;
  st_CreatorUri : string;
  st_Meta : option JSON;
  st_Archived : bool;
  st_Signature : Text
}.

(** A row of [status_heads], with the columns the queries name. *)
Record StatusHead := mkStatusHead {
  head_UUID : UUID;
  head_Name : string;
  head_ID : Z;
  head_Updated : Time;
  head_UpdaterUri : string
}.

(** [type Acl struct]. *)
Record Acl := mkAcl {
  acl_UUID : UUID;
  acl_URI : string;
  acl_Permissions : list string
}.

(** [type AclAudit struct]; [State] is [json_agg] over the (uri,
    permissions) rows of the document, NULL when there is none. *)
Record AclAudit := mkAclAudit {
  audit_UUID : UUID;
  audit_Updated : Time;
  audit_UpdaterUri : string;
  audit_State : option (list (string * list string))
}.

(** [type DeleteRecord struct]. *)
Record DeleteRecord := mkDeleteRecord {
  del_ID : Z;
  del_UUID : UUID;
  del_URI : string;
  del_Version : Z;
  del_Created : Time;
  del_CreatorUri : string;
  del_Meta : option JSON
}.

(** The relational state the queries of this file read and write. *)
Record DB := mkDB {
  document : list Document;
  document_version : list DocumentVersion;
  document_status : list DocumentStatus;
  status_heads : list StatusHead;
  acl : list Acl;
  acl_audit : list AclAudit;
  delete_record : list DeleteRecord
}.

Definition empty_db : DB := mkDB [] [] [] [] [] [] [].

(** *** GetDocumentForUpdate *)

Record GetDocumentForUpdateRow := mkGetDocumentForUpdateRow {
  Uri : string;
  CurrentVersion : Z;
  Deleting : bool
}.

(** The zero value Go leaves in the row when [Scan] finds nothing. *)
Definition zero_GetDocumentForUpdateRow : GetDocumentForUpdateRow :=
  mkGetDocumentForUpdateRow "" 0 false.

(** [SELECT uri, current_version, deleting FROM document WHERE uuid = $1
    FOR UPDATE] with [:one]: the first matching row, [None] standing for
    [pgx.ErrNoRows]. *)
Definition GetDocumentForUpdate (db : DB) (uuid : UUID)
  : option GetDocumentForUpdateRow :=
  match List.find (fun d => String.eqb (doc_UUID d) uuid) (document db) with
  | Some d => Some (mkGetDocumentForUpdateRow
                      (doc_URI d) (doc_CurrentVersion d) (doc_Deleting d))
  | None => None
  end.

(** *** GetDocumentHeads *)

Record GetDocumentHeadsRow := mkGetDocumentHeadsRow {
  Name : string;
  ID : Z
}.

(** [SELECT name, id FROM status_heads WHERE uuid = $1]. *)
Definition GetDocumentHeads (db : DB) (uuid : UUID) : list GetDocumentHeadsRow :=
  List.map (fun h => mkGetDocumentHeadsRow (head_Name h) (head_ID h))
    (List.filter (fun h => String.eqb (head_UUID h) uuid) (status_heads db)).

(** *** CreateStatus *)

Definition status_key (uuid : UUID) (name : string) (id : Z)
    (s : DocumentStatus) : bool :=
  String.eqb (st_UUID s) uuid && String.eqb (st_Name s) name && (st_ID s =? id).

Definition head_key (uuid : UUID) (name : string) (h : StatusHead) : bool :=
  String.eqb (head_UUID h) uuid && String.eqb (head_Name h) name.

(** The head of (uuid, name) is set to [id]: the existing row is updated,
    or a row is added when there is none. *)
Definition upsert_head (uuid : UUID) (name : string) (id : Z)
    (updated : Time) (updater : string) (hs : list StatusHead)
  : list StatusHead :=
  if List.existsb (head_key uuid name) hs
  then List.map (fun h => if head_key uuid name h
                          then mkStatusHead uuid name id updated updater
                          else h) hs
  else hs ++ [mkStatusHead uuid name id updated updater].

(** Modelled from the spec: the stored procedure [create_status], which
    [CreateStatus] calls and which is not part of the sources.  The spec
    gives a status the key (document UUID, name, id), so a second row
    with the same key is refused ([None]); it has the head of (document,
    name) "updated transactionally whenever a status row is added"; a new
    row is neither archived nor signed. *)
Definition CreateStatus (db : DB) (uuid : UUID) (name : string)
    (id version : Z) (created : Time) (creatorUri : string)
    (meta : option JSON) : option DB :=
  if List.existsb (status_key uuid name id) (document_status db) then None
  else Some (mkDB (document db) (document_version db)
               (document_status db ++
                  [mkDocumentStatus uuid name id version created creatorUri
                     meta false None])
               (upsert_head uuid name id created creatorUri (status_heads db))
               (acl db) (acl_audit db) (delete_record db)).

(** *** CreateVersion *)

Definition version_key (uuid : UUID) (version : Z) (v : DocumentVersion) : bool :=
  String.eqb (ver_UUID v) uuid && (ver_Version v =? version).

Definition document_key (uuid : UUID) (d : Document) : bool :=
  String.eqb (doc_UUID d) uuid.

(** Modelled from the spec: the stored procedure [create_version], which
    [CreateVersion] calls and which is not part of the sources.  A version
    has the key (document UUID, version); the document row is created by
    the first version and afterwards carries the latest version as its
    current version, with the update time and updater; a new version is
    neither archived nor signed.  [document_uri] reads the URI out of the
    stored payload. *)
Definition CreateVersion (document_uri : option JSON -> string) (db : DB)
    (uuid : UUID) (version : Z) (created : Time) (creatorUri : string)
    (meta documentData : option JSON) : option DB :=
  if List.existsb (version_key uuid version) (document_version db) then None
  else
    let docs :=
      if List.existsb (document_key uuid) (document db)
      then List.map (fun d => if document_key uuid d
                              then mkDocument uuid (document_uri documentData)
                                     (doc_Created d) (doc_CreatorUri d)
                                     created creatorUri version (doc_Deleting d)
                              else d) (document db)
      else document db ++
             [mkDocument uuid (document_uri documentData) created creatorUri
                created creatorUri version false] in
    Some (mkDB docs
            (document_version db ++
               [mkDocumentVersion uuid version created creatorUri meta
                  documentData false None])
            (document_status db) (status_heads db)
            (acl db) (acl_audit db) (delete_record db)).

(** *** ACL statements *)

Definition acl_key (uuid : UUID) (uri : string) (a : Acl) : bool :=
  String.eqb (acl_UUID a) uuid && String.eqb (acl_URI a) uri.

(** [DELETE FROM acl WHERE uuid = $1 AND uri = $2]. *)
Definition DropACL (db : DB) (uuid : UUID) (uri : string) : DB :=
  mkDB (document db) (document_version db) (document_status db)
    (status_heads db)
    (List.filter (fun a => negb (acl_key uuid uri a)) (acl db))
    (acl_audit db) (delete_record db).

Definition upsert_acl (uuid : UUID) (entry : string * list string)
    (rows : list Acl) : list Acl :=
  if List.existsb (acl_key uuid (fst entry)) rows
  then List.map (fun a => if acl_key uuid (fst entry) a
                          then mkAcl uuid (fst entry) (snd entry) else a) rows
  else rows ++ [mkAcl uuid (fst entry) (snd entry)].

(** Modelled from the spec: the batch statement [ACLUpdate], which is not
    part of the sources.  Each entry "replaces the grantee's row (upsert
    by (UUID, grantee URI))", in the order of the batch. *)
Definition ACLUpdate (db : DB) (uuid : UUID)
    (entries : list (string * list string)) : DB :=
  mkDB (document db) (document_version db) (document_status db)
    (status_heads db)
    (List.fold_left (fun rows e => upsert_acl uuid e rows) entries (acl db))
    (acl_audit db) (delete_record db).

(** The rows [SELECT uri, permissions FROM acl WHERE uuid = $1]. *)
Definition acl_state (db : DB) (uuid : UUID) : list (string * list string) :=
  List.map (fun a => (acl_URI a, acl_Permissions a))
    (List.filter (fun a => String.eqb (acl_UUID a) uuid) (acl db)).

(** [INSERT INTO acl_audit(uuid, updated, updater_uri, state) SELECT $1,
    $2, $3, json_agg(l) FROM (...) AS l]: an aggregate without GROUP BY
    yields one row whatever the input, and [json_agg] of no row is NULL. *)
Definition InsertACLAuditEntry (db : DB) (uuid : UUID) (updated : Time)
    (updaterUri : string) : DB :=
  let state := match acl_state db uuid with
               | [] => None
               | l => Some l
               end in
  mkDB (document db) (document_version db) (document_status db)
    (status_heads db) (acl db)
    (acl_audit db ++ [mkAclAudit uuid updated updaterUri state])
    (delete_record db).

(** *** Delete statements *)

(** The next value of the [delete_record.id] sequence: above every id in
    the table. *)
Definition next_delete_record_id (db : DB) : Z :=
  1 + List.fold_right (fun r m => Z.max (del_ID r) m) 0 (delete_record db).

(** [INSERT INTO delete_record(uuid, uri, version, created, creator_uri,
    meta) VALUES (...) RETURNING id]. *)
Definition InsertDeleteRecord (db : DB) (uuid : UUID) (uri : string)
    (version : Z) (created : Time) (creatorUri : string) (meta : option JSON)
  : Z * DB :=
  let id := next_delete_record_id db in
  (id,
   mkDB (document db) (document_version db) (document_status db)
     (status_heads db) (acl db) (acl_audit db)
     (delete_record db ++
        [mkDeleteRecord id uuid uri version created creatorUri meta])).

(** Modelled from the spec: the stored procedure [delete_document], which
    [DeleteDocument] calls and which is not part of the sources.  It "sets
    deleting=true and stores the delete-record id on the document row" and
    "does not remove rows".  The id goes to [current_version], the column
    [GetDocumentForDeletion] reads it back from
    ([current_version AS delete_record_id]). *)
Definition DeleteDocument (db : DB) (uuid : UUID) (uri : string)
    (recordID : Z) : DB :=
  mkDB (List.map (fun d => if document_key uuid d
                           then mkDocument uuid uri (doc_Created d)
                                  (doc_CreatorUri d) (doc_Updated d)
                                  (doc_UpdaterUri d) recordID true
                           else d) (document db))
    (document_version db) (document_status db) (status_heads db)
    (acl db) (acl_audit db) (delete_record db).

(** [SELECT SUM(num) FROM (SELECT COUNT( * ) ... document_status ... UNION
    SELECT COUNT( * ) ... document_version ...)]: [UNION] keeps one of two
    equal counts. *)
Definition GetDocumentUnarchivedCount (db : DB) (uuid : UUID) : Z :=
  let statuses :=
    Z.of_nat (List.length (List.filter
      (fun s => String.eqb (st_UUID s) uuid && negb (st_Archived s))
      (document_status db))) in
  let versions :=
    Z.of_nat (List.length (List.filter
      (fun v => String.eqb (ver_UUID v) uuid && negb (ver_Archived v))
      (document_version db))) in
  if statuses =? versions then statuses else statuses + versions.

(** *** Archiver statements *)

Record GetDocumentStatusForArchivingRow := mkGetDocumentStatusForArchivingRow {
  sfa_Uuid : UUID;
  sfa_Name : string;
  sfa_ID : Z;
  sfa_Version : Z;
  sfa_Created : Time;
  sfa_CreatorUri : string;
  sfa_Meta : option JSON;
  sfa_ParentSignature : Text;
  sfa_VersionSignature : Text
}.

(** [INNER JOIN document_version AS v ON v.uuid = s.uuid AND v.version =
    s.version AND v.signature IS NOT NULL]. *)
Definition pinned_version_on (s : DocumentStatus) (v : DocumentVersion) : bool :=
  String.eqb (ver_UUID v) (st_UUID s) && (ver_Version v =? st_Version s)
  && match ver_Signature v with Some _ => true | None => false end.

(** [LEFT JOIN document_status AS p ON p.uuid = s.uuid AND p.name = s.name
    AND p.id = s.id-1]. *)
Definition parent_on (s p : DocumentStatus) : bool :=
  String.eqb (st_UUID p) (st_UUID s) && String.eqb (st_Name p) (st_Name s)
  && (st_ID p =? st_ID s - 1).

(** The joined rows, a status without parent keeping one row with a NULL
    [p]. *)
Definition status_join (db : DB)
  : list (DocumentStatus * DocumentVersion * option DocumentStatus) :=
  List.flat_map (fun s =>
    List.flat_map (fun v =>
      match List.filter (parent_on s) (document_status db) with
      | [] => [(s, v, None)]
      | ps => List.map (fun p => (s, v, Some p)) ps
      end)
      (List.filter (pinned_version_on s) (document_version db)))
    (document_status db).

(** [WHERE s.archived = false AND (s.id = 1 OR p.archived = true)]; a
    comparison with the NULL parent is not true. *)
Definition archiving_where
    (r : DocumentStatus * DocumentVersion * option DocumentStatus) : bool :=
  let '(s, _, p) := r in
  negb (st_Archived s)
  && ((st_ID s =? 1) || match p with Some p => st_Archived p | None => false end).

(** [ORDER BY s.created ... LIMIT 1]: a row with the least creation time,
    the first such row of the input. *)
Fixpoint earliest
    (rows : list (DocumentStatus * DocumentVersion * option DocumentStatus))
  : option (DocumentStatus * DocumentVersion * option DocumentStatus) :=
  match rows with
  | [] => None
  | r :: rest =>
    match earliest rest with
    | Some r' =>
      if st_Created (fst (fst r)) <=? st_Created (fst (fst r'))
      then Some r else Some r'
    | None => Some r
    end
  end.

(** [GetDocumentStatusForArchiving], [None] standing for [pgx.ErrNoRows].
    The statement is read on a database no other transaction holds row
    locks on, so that [SKIP LOCKED] passes over nothing. *)
Definition GetDocumentStatusForArchiving (db : DB)
  : option GetDocumentStatusForArchivingRow :=
  match earliest (List.filter archiving_where (status_join db)) with
  | Some (s, v, p) =>
    Some (mkGetDocumentStatusForArchivingRow
            (st_UUID s) (st_Name s) (st_ID s) (st_Version s) (st_Created s)
            (st_CreatorUri s) (st_Meta s)
            (match p with Some p => st_Signature p | None => None end)
            (ver_Signature v))
  | None => None
  end.

(** [UPDATE document_status SET archived = true, signature = $1::text
    WHERE uuid = $2 AND id = $3]. *)
Definition SetDocumentStatusAsArchived (db : DB) (signature : string)
    (uuid : UUID) (id : Z) : DB :=
  mkDB (document db) (document_version db)
    (List.map (fun s =>
       if String.eqb (st_UUID s) uuid && (st_ID s =? id)
       then mkDocumentStatus (st_UUID s) (st_Name s) (st_ID s) (st_Version s)
              (st_Created s) (st_CreatorUri s) (st_Meta s) true (Some signature)
       else s) (document_status db))
    (status_heads db) (acl db) (acl_audit db) (delete_record db).

(** [UPDATE document_version SET archived = true, signature = $1::text
    WHERE uuid = $2 AND version = $3]. *)
Definition SetDocumentVersionAsArchived (db : DB) (signature : string)
    (uuid : UUID) (version : Z) : DB :=
  mkDB (document db)
    (List.map (fun v =>
       if String.eqb (ver_UUID v) uuid && (ver_Version v =? version)
       then mkDocumentVersion (ver_UUID v) (ver_Version v) (ver_Created v)
              (ver_CreatorUri v) (ver_Meta v) (ver_DocumentData v) true
              (Some signature)
       else v) (document_version db))
    (document_status db) (status_heads db) (acl db) (acl_audit db)
    (delete_record db).

(** [type DocumentSchema struct], the row of [GetActiveSchemas]. *)
Record DocumentSchema := mkDocumentSchema {
  sch_Name : string;
  sch_Version : string;
  sch_Spec : JSON
}.

(** *** Reader queries *)

(** [ORDER BY key ... LIMIT 1]: a row with the least key, the first such
    row of the input. *)
Fixpoint earliest_by {A : Type} (key : A -> Z) (rows : list A) : option A :=
  match rows with
  | [] => None
  | r :: rest =>
    match earliest_by key rest with
    | Some r' => if key r <=? key r' then Some r else Some r'
    | None => Some r
    end
  end.

(** [pgtype.Array[string]]: the elements, whether the array is not NULL,
    and the length of its one dimension. *)
Record TextArray := mkTextArray {
  Elements : list string;
  Valid : bool;
  DimsLength : Z
}.

(** [x = ANY(arr)], which is not true for a NULL array. *)
Definition any_of (x : string) (arr : TextArray) : bool :=
  Valid arr && List.existsb (String.eqb x) (Elements arr).

Record CheckPermissionParams := mkCheckPermissionParams {
  cp_Uri : TextArray;
  cp_Permission : string;
  cp_Uuid : UUID
}.

(** [LEFT JOIN acl ON acl.uuid = d.uuid AND acl.uri = ANY($1::text[]) AND
    $2::text = ANY(permissions)]. *)
Definition permission_on (arg : CheckPermissionParams) (d : Document)
    (a : Acl) : bool :=
  String.eqb (acl_UUID a) (doc_UUID d) && any_of (acl_URI a) (cp_Uri arg)
  && List.existsb (String.eqb (cp_Permission arg)) (acl_Permissions a).

(** [SELECT (acl.uri IS NOT NULL) = true AS has_access FROM document AS d
    LEFT JOIN acl ON ... WHERE d.uuid = $3] with [:one]: a document without
    matching ACL row keeps one row with a NULL [acl]; the first row is
    scanned, [None] standing for [pgx.ErrNoRows]. *)
Definition CheckPermission (db : DB) (arg : CheckPermissionParams)
  : option bool :=
  List.head
    (List.flat_map (fun d =>
       match List.filter (permission_on arg d) (acl db) with
       | [] => [false]
       | rows => List.map (fun _ => true) rows
       end)
       (List.filter (fun d => String.eqb (doc_UUID d) (cp_Uuid arg))
          (document db))).

(** [SELECT uri FROM acl WHERE uuid = $1 AND $2::text = ANY(permissions)]. *)
Definition GranteesWithPermission (db : DB) (uuid : UUID)
    (permission : string) : list string :=
  List.map acl_URI
    (List.filter (fun a => String.eqb (acl_UUID a) uuid
                           && List.existsb (String.eqb permission)
                                (acl_Permissions a)) (acl db)).

(** [SELECT uuid, uri, permissions FROM acl WHERE uuid = $1]. *)
Definition GetDocumentACL (db : DB) (uuid : UUID) : list Acl :=
  List.filter (fun a => String.eqb (acl_UUID a) uuid) (acl db).

(** [SELECT uuid, uri, created, creator_uri, updated, updater_uri,
    current_version, deleting FROM document WHERE uuid = $1] with [:one]. *)
Definition GetDocumentInfo (db : DB) (uuid : UUID) : option Document :=
  List.find (fun d => String.eqb (doc_UUID d) uuid) (document db).

(** [SELECT v.document_data FROM document as d INNER JOIN document_version
    AS v ON v.uuid = d.uuid And v.version = d.current_version WHERE d.uuid
    = $1] with [:one]; the column is nullable. *)
Definition GetDocumentData (db : DB) (uuid : UUID) : option (option JSON) :=
  List.head
    (List.flat_map (fun d =>
       List.map ver_DocumentData
         (List.filter (fun v => String.eqb (ver_UUID v) (doc_UUID d)
                                && (ver_Version v =? doc_CurrentVersion d))
            (document_version db)))
       (List.filter (fun d => String.eqb (doc_UUID d) uuid) (document db))).

(** [SELECT document_data FROM document_version WHERE uuid = $1 AND
    version = $2] with [:one]. *)
Definition GetDocumentVersionData (db : DB) (uuid : UUID) (version : Z)
  : option (option JSON) :=
  List.head
    (List.map ver_DocumentData
       (List.filter (version_key uuid version) (document_version db))).

Record GetVersionRow := mkGetVersionRow {
  gv_Created : Time;
  gv_CreatorUri : string;
  gv_Meta : option JSON;
  gv_Archived : bool
}.

(** [SELECT created, creator_uri, meta, archived FROM document_version
    WHERE uuid = $1 AND version = $2] with [:one]. *)
Definition GetVersion (db : DB) (uuid : UUID) (version : Z)
  : option GetVersionRow :=
  List.head
    (List.map (fun v => mkGetVersionRow (ver_Created v) (ver_CreatorUri v)
                          (ver_Meta v) (ver_Archived v))
       (List.filter (version_key uuid version) (document_version db))).

Record GetVersionsRow := mkGetVersionsRow {
  gvs_Version : Z;
  gvs_Created : Time;
  gvs_CreatorUri : string;
  gvs_Meta : option JSON;
  gvs_Archived : bool
}.

(** [ORDER BY key DESC]: insertion into a list that is in descending
    order, behind the rows with the same key. *)
Fixpoint insert_desc {A : Type} (key : A -> Z) (x : A) (l : list A) : list A :=
  match l with
  | [] => [x]
  | y :: rest =>
    if key y <? key x then x :: y :: rest
    else y :: insert_desc key x rest
  end.

Definition order_by_desc {A : Type} (key : A -> Z) (l : list A) : list A :=
  List.fold_right (insert_desc key) [] l.

(** [LIMIT n]: an error for a negative [n], which [None] stands for. *)
Definition limit {A : Type} (n : Z) (rows : list A) : option (list A) :=
  if n <? 0 then None else Some (List.firstn (Z.to_nat n) rows).

(** [SELECT version, created, creator_uri, meta, archived FROM
    document_version WHERE uuid = $1 AND ($2::bigint = 0 OR version <
    $2::bigint) ORDER BY version DESC LIMIT $3]; [None] is the error the
    database raises for a negative [LIMIT]. *)
Definition GetVersions (db : DB) (uuid : UUID) (before count : Z)
  : option (list GetVersionsRow) :=
  limit count
    (order_by_desc gvs_Version
       (List.map (fun v => mkGetVersionsRow (ver_Version v) (ver_Created v)
                             (ver_CreatorUri v) (ver_Meta v) (ver_Archived v))
          (List.filter (fun v => String.eqb (ver_UUID v) uuid
                                 && ((before =? 0) || (ver_Version v <? before)))
             (document_version db)))).

Record GetStatusesRow := mkGetStatusesRow {
  gs_Uuid : UUID;
  gs_Name : string;
  gs_ID : Z;
  gs_Version : Z;
  gs_Created : Time;
  gs_CreatorUri : string;
  gs_Meta : option JSON
}.

(** [SELECT uuid, name, id, version, created, creator_uri, meta FROM
    document_status WHERE uuid = $1 AND name = $2 AND ($3 = 0 OR id < $3)
    ORDER BY id DESC LIMIT $4]. *)
Definition GetStatuses (db : DB) (uuid : UUID) (name : string)
    (before lim : Z) : option (list GetStatusesRow) :=
  limit lim
    (order_by_desc gs_ID
       (List.map (fun s => mkGetStatusesRow (st_UUID s) (st_Name s) (st_ID s)
                             (st_Version s) (st_Created s) (st_CreatorUri s)
                             (st_Meta s))
          (List.filter (fun s => String.eqb (st_UUID s) uuid
                                 && String.eqb (st_Name s) name
                                 && ((before =? 0) || (st_ID s <? before)))
             (document_status db)))).

(** [SELECT s.* FROM status_heads AS h INNER JOIN document_status AS s ON
    s.uuid = h.uuid AND s.name = h.name AND s.id = h.id WHERE h.uuid =
    $1]. *)
Definition GetFullDocumentHeads (db : DB) (uuid : UUID) : list DocumentStatus :=
  List.flat_map (fun h =>
    List.filter (fun s => String.eqb (st_UUID s) (head_UUID h)
                          && String.eqb (st_Name s) (head_Name h)
                          && (st_ID s =? head_ID h))
      (document_status db))
    (List.filter (fun h => String.eqb (head_UUID h) uuid) (status_heads db)).

(** *** The deleter's statements *)

Record GetDocumentForDeletionRow := mkGetDocumentForDeletionRow {
  gfd_Uuid : UUID;
  gfd_DeleteRecordID : Z
}.

(** [SELECT uuid, current_version AS delete_record_id FROM document WHERE
    deleting = true ORDER BY created FOR UPDATE SKIP LOCKED LIMIT 1], read
    on a database no other transaction holds row locks on. *)
Definition GetDocumentForDeletion (db : DB) : option GetDocumentForDeletionRow :=
  match earliest_by doc_Created (List.filter doc_Deleting (document db)) with
  | Some d => Some (mkGetDocumentForDeletionRow (doc_UUID d) (doc_CurrentVersion d))
  | None => None
  end.

(** [DELETE FROM document WHERE uuid = $1 AND deleting = true] with
    [:execrows]: the number of rows removed and the [document] table that
    is left. *)
Definition FinaliseDelete (db : DB) (uuid : UUID) : Z * list Document :=
  (Z.of_nat (length (List.filter
     (fun d => String.eqb (doc_UUID d) uuid && doc_Deleting d) (document db))),
   List.filter (fun d => negb (String.eqb (doc_UUID d) uuid && doc_Deleting d))
     (document db)).

(** *** The archiver's version selector *)

Record GetDocumentVersionForArchivingRow := mkGetDocumentVersionForArchivingRow {
  vfa_Uuid : UUID;
  vfa_Version : Z;
  vfa_Created : Time;
  vfa_CreatorUri : string;
  vfa_Meta : option JSON;
  vfa_DocumentData : option JSON;
  vfa_ParentSignature : Text
}.

(** [LEFT JOIN document_version AS p ON p.uuid = v.uuid AND p.version =
    v.version-1]. *)
Definition version_parent_on (v p : DocumentVersion) : bool :=
  String.eqb (ver_UUID p) (ver_UUID v) && (ver_Version p =? ver_Version v - 1).

Definition version_join (db : DB)
  : list (DocumentVersion * option DocumentVersion) :=
  List.flat_map (fun v =>
    match List.filter (version_parent_on v) (document_version db) with
    | [] => [(v, None)]
    | ps => List.map (fun p => (v, Some p)) ps
    end)
    (document_version db).

(** [WHERE v.archived = false AND (v.version = 1 OR p.archived = true)]. *)
Definition version_archiving_where
    (r : DocumentVersion * option DocumentVersion) : bool :=
  negb (ver_Archived (fst r))
  && ((ver_Version (fst r) =? 1)
      || match snd r with Some p => ver_Archived p | None => false end).

(** [GetDocumentVersionForArchiving]: [ORDER BY v.created ... LIMIT 1],
    read on a database no other transaction holds row locks on. *)
Definition GetDocumentVersionForArchiving (db : DB)
  : option GetDocumentVersionForArchivingRow :=
  match earliest_by (fun r => ver_Created (fst r))
          (List.filter version_archiving_where (version_join db)) with
  | Some (v, p) =>
    Some (mkGetDocumentVersionForArchivingRow
            (ver_UUID v) (ver_Version v) (ver_Created v) (ver_CreatorUri v)
            (ver_Meta v) (ver_DocumentData v)
            (match p with Some p => ver_Signature p | None => None end))
  | None => None
  end.

End postgres.

(** ** Package [repository]: errors *)

Inductive ErrCode :=
  | ErrCodeNotFound
  | ErrCodeOptimisticLock
  | ErrCodeDeleteLock
  | ErrCodeExists.

(** The database calls a store operation can make, with the parameters
    that identify the rows they touch. *)
Inductive Call :=
  | CBegin
  | CCommit
  | CRollback
  | CGetDocumentForUpdate (uuid : UUID)
  | CCreateVersion (uuid : UUID) (version : Z)
  | CGetDocumentHeads (uuid : UUID)
  | CCreateStatus (uuid : UUID) (name : string) (id version : Z)
  | CDropACL (uuid : UUID) (uri : string)
  | CACLUpdate (uuid : UUID) (entries : list (string * list string))
  | CInsertACLAuditEntry (uuid : UUID) (updated : Time) (updaterUri : string)
  | CGetDocumentUnarchivedCount (uuid : UUID)
  | CInsertDeleteRecord (uuid : UUID) (version : Z)
  | CDeleteDocument (uuid : UUID) (recordID : Z).

(** Go error values: [DocStoreErrorf(code, ...)], [errors.New(msg)], the
    error of [json.Marshal] or [json.Unmarshal], an error returned by the
    database driver for a call (a fault, or a key the database refuses),
    [ctx.Err()], and [fmt.Errorf("msg: %w", cause)]. *)
Inductive error :=
  | DocStoreErrorf (code : ErrCode)
  | errors_New (msg : string)
  | json_error
  | pg_error (c : Call)
  | pg_key_violation (c : Call)
  | ctx_Err
  | Errorf (msg : string) (cause : error).

(** ** updatePreflight *)

Record updatePrefligthInfo := mkUpdatePrefligthInfo {
  Info : postgres.GetDocumentForUpdateRow;
  Exists : bool
}.

(** What [q.GetDocumentForUpdate] hands back: a row, [pgx.ErrNoRows], or
    another driver error. *)
Inductive QueryRow (A : Type) :=
  | Row (a : A)
  | ErrNoRows
  | QueryErr (e : error).
Arguments Row {A} a.
Arguments ErrNoRows {A}.
Arguments QueryErr {A} e.

(** The body of [updatePreflight] after the query returned. *)
Definition updatePreflight_eval
    (res : QueryRow postgres.GetDocumentForUpdateRow) (ifMatch : Z)
  : error + updatePrefligthInfo :=
  match res with
  | QueryErr e => inl (Errorf "failed to get document information" e)
  | _ =>
    let info := match res with
                | Row r => r
                | _ => postgres.zero_GetDocumentForUpdateRow
                end in
    let exists_ := match res with ErrNoRows => false | _ => true end in
    let currentVersion := postgres.CurrentVersion info in
    if postgres.Deleting info then inl (DocStoreErrorf ErrCodeDeleteLock)
    else
      if ifMatch =? 0 then inr (mkUpdatePrefligthInfo info exists_)
      else if ifMatch =? -1 then
        if exists_ then inl (DocStoreErrorf ErrCodeOptimisticLock)
        else inr (mkUpdatePrefligthInfo info exists_)
      else
        if negb (currentVersion =? ifMatch)
        then inl (DocStoreErrorf ErrCodeOptimisticLock)
        else inr (mkUpdatePrefligthInfo info exists_)
  end.

(** ** Requests and results *)

(** [doc.Document], the payload: the store only serialises it. *)
Definition doc_Document := string.
(** [doc.DataMap], a [map[string]string]: a nil map and an empty map,
    which the store tells apart nowhere but by [len], are both the empty
    map. *)
Abbreviation DataMap := (gmap string string).

Record ACLEntry := mkACLEntry {
  URI : string;
  Permissions : list string
}.

Record StatusUpdate := mkStatusUpdate {
  su_Name : string;
  su_Version : Z;
  su_Meta : DataMap
}.

Record UpdateRequest := mkUpdateRequest {
  ur_UUID : UUID;
  ur_Updated : Time;
  ur_Updater : string;
  ur_Meta : DataMap;
  ur_ACL : list ACLEntry;
  ur_DefaultACL : list ACLEntry;
  ur_Status : list StatusUpdate;
  ur_Document : option doc_Document;
  ur_IfMatch : Z
}.

Record DocumentUpdate := mkDocumentUpdate {
  du_Version : Z;
  du_Creator : string;
  du_Created : Time;
  du_Meta : DataMap
}.

Record DeleteRequest := mkDeleteRequest {
  dr_UUID : UUID;
  dr_Updated : Time;
  dr_Updater : string;
  dr_Meta : DataMap;
  dr_IfMatch : Z
}.

(** ** The world a store operation runs in *)

(** What an operation takes from outside the database: the auth info of
    its context, the behaviour of the serialiser, the clock, and which of
    its database calls fail. *)
Record World := mkWorld {
  (** [GetAuthInfo(ctx)]: the subject claim, [None] when the context
      carries no auth info. *)
  auth_Subject : option string;
  (** Whether the database call made after [n] earlier ones fails. *)
  fault : nat -> bool;
  (** Whether the context is done at the [n]-th wait of [Delete]. *)
  ctx_Done : nat -> bool;
  time_Now : Time;
  json_Marshal_Document : doc_Document -> option JSON;
  json_Marshal_DataMap : DataMap -> option JSON;
  document_uri : option JSON -> string
}.

(** ** Transactions *)

(** The working copy of a transaction and the database calls made so far,
    the latest last. *)
Record TxState := mkTxState {
  tx_db : postgres.DB;
  tx_log : list Call
}.

Definition Tx (A : Type) : Type := TxState -> (error + A) * TxState.

Definition ret {A : Type} (a : A) : Tx A := fun st => (inr a, st).

Definition fail {A : Type} (e : error) : Tx A := fun st => (inl e, st).

Definition bind {A B : Type} (m : Tx A) (k : A -> Tx B) : Tx B :=
  fun st =>
    match m st with
    | (inl e, st') => (inl e, st')
    | (inr a, st') => k a st'
    end.

Notation "x <- m ;; k" := (bind m (fun x => k))
  (at level 100, m at next level, right associativity).
Notation "m ;;; k" := (bind m (fun _ => k))
  (at level 100, right associativity).

(** [if err != nil { return fmt.Errorf("msg: %w", err) }]. *)
Definition wrap_err {A : Type} (msg : string) (m : Tx A) : Tx A :=
  fun st =>
    match m st with
    | (inl e, st') => (inl (Errorf msg e), st')
    | r => r
    end.

(** One database call: it is recorded, fails with the driver's error when
    the world has it fail, and otherwise runs on the working copy, where
    the database itself may refuse it. *)
Definition call {A : Type} (w : World) (c : Call)
    (run : postgres.DB -> error + A * postgres.DB) : Tx A :=
  fun st =>
    let log := tx_log st ++ [c] in
    if fault w (length (tx_log st)) then (inl (pg_error c), mkTxState (tx_db st) log)
    else match run (tx_db st) with
         | inl e => (inl e, mkTxState (tx_db st) log)
         | inr (a, db') => (inr a, mkTxState db' log)
         end.

(** [s.pool.Begin], the body, and [tx.Commit] with the deferred
    [safeRollback]: the result, the committed database and the calls made.
    A rollback drops the working copy; after a commit it finds the
    transaction closed and does nothing. *)
Definition commit {A : Type} (w : World) (db : postgres.DB)
    (commitMsg : string) (a : A) (st : TxState)
  : (error + A) * postgres.DB * list Call :=
  if fault w (length (tx_log st))
  then (inl (Errorf commitMsg (pg_error CCommit)), db,
        tx_log st ++ [CCommit; CRollback])
  else (inr a, tx_db st, tx_log st ++ [CCommit]).

Definition transaction {A : Type} (w : World) (db : postgres.DB)
    (commitMsg : string) (body : Tx A)
  : (error + A) * postgres.DB * list Call :=
  if fault w 0
  then (inl (Errorf "failed to begin transaction" (pg_error CBegin)), db, [CBegin])
  else
    match body (mkTxState db [CBegin]) with
    | (inl e, st) => (inl e, db, tx_log st ++ [CRollback])
    | (inr a, st) => commit w db commitMsg a st
    end.

(** [updatePreflight]: the row is read under the row lock and [ifMatch]
    evaluated against it. *)
Definition updatePreflight (w : World) (uuid : UUID) (ifMatch : Z)
  : Tx updatePrefligthInfo :=
  fun st =>
    let c := CGetDocumentForUpdate uuid in
    let res :=
      if fault w (length (tx_log st)) then QueryErr (pg_error c)
      else match postgres.GetDocumentForUpdate (tx_db st) uuid with
           | Some r => Row r
           | None => ErrNoRows
           end in
    (updatePreflight_eval res ifMatch, mkTxState (tx_db st) (tx_log st ++ [c])).

(** ** updateACL *)

(** The loop of [updateACL]: an entry without permissions is dropped at
    once, the others are collected for the batch. *)
Fixpoint dropEmptyEntries (w : World) (docUUID : UUID)
    (updateACL : list ACLEntry) : Tx (list (string * list string)) :=
  match updateACL with
  | [] => ret []
  | acl :: rest =>
    match Permissions acl with
    | [] =>
      wrap_err "failed to drop entry for %q"
        (call w (CDropACL docUUID (URI acl))
           (fun db => inr (tt, postgres.DropACL db docUUID (URI acl)))) ;;;
      dropEmptyEntries w docUUID rest
    | _ =>
      acls <- dropEmptyEntries w docUUID rest ;;
      ret ((URI acl, Permissions acl) :: acls)
    end
  end.

Definition updateACL (w : World) (docUUID : UUID) (updateACL : list ACLEntry)
  : Tx unit :=
  match updateACL with
  | [] => ret tt
  | _ =>
    match auth_Subject w with
    | None => fail (errors_New "unauthenticated context")
    | Some subject =>
      acls <- dropEmptyEntries w docUUID updateACL ;;
      match acls with
      | [] => ret tt
      | _ =>
        wrap_err "failed to update entries"
          (call w (CACLUpdate docUUID acls)
             (fun db => inr (tt, postgres.ACLUpdate db docUUID acls)))
      end ;;;
      wrap_err "failed to record audit trail"
        (call w (CInsertACLAuditEntry docUUID (time_Now w) subject)
           (fun db => inr (tt, postgres.InsertACLAuditEntry db docUUID
                                 (time_Now w) subject)))
    end
  end.

(** ** Update *)

(** [if len(m) > 0 { json.Marshal(m) }], the slice staying nil for an
    empty map. *)
Definition marshalMeta (w : World) (msg : string) (m : DataMap)
  : error + option JSON :=
  if Nat.eqb (size m) 0 then inr None
  else match json_Marshal_DataMap w m with
       | Some j => inr (Some j)
       | None => inl (Errorf msg json_error)
       end.

(** [statusMeta], one slot for each status of the request. *)
Fixpoint marshalStatusMeta (w : World) (status : list StatusUpdate)
  : error + list (option JSON) :=
  match status with
  | [] => inr []
  | stat :: rest =>
    match marshalMeta w "failed to marshal %q status metadata for storage"
            (su_Meta stat) with
    | inl e => inl e
    | inr d =>
      match marshalStatusMeta w rest with
      | inl e => inl e
      | inr ds => inr (d :: ds)
      end
    end
  end.

(** The serialisation [Update] does before it begins its transaction. *)
Definition marshalUpdate (w : World) (update : UpdateRequest)
  : error + option JSON * option JSON * list (option JSON) :=
  match
    match ur_Document update with
    | None => inr None
    | Some d =>
      match json_Marshal_Document w d with
      | Some dj => inr (Some dj)
      | None => inl (Errorf "failed to marshal document for storage" json_error)
      end
    end
  with
  | inl e => inl e
  | inr docJSON =>
    match marshalMeta w "failed to marshal metadata for storage"
            (ur_Meta update) with
    | inl e => inl e
    | inr metaJSON =>
      match marshalStatusMeta w (ur_Status update) with
      | inl e => inl e
      | inr statusMeta => inr (docJSON, metaJSON, statusMeta)
      end
    end
  end.

(** [for _, head := range heads { statusHeads[head.Name] = head.ID }]. *)
Definition loadHeads (heads : list postgres.GetDocumentHeadsRow) : gmap string Z :=
  List.fold_left (fun m head => <[postgres.Name head := postgres.ID head]> m)
    heads ∅.

(** [statusHeads[stat.Name] + 1], a missing key reading as 0. *)
Definition nextStatusID (statusHeads : gmap string Z) (name : string) : Z :=
  int64_succ (default 0 (statusHeads !! name)).

(** [if status.Version == 0 { status.Version = up.Version }]. *)
Definition pinnedVersion (upVersion : Z) (stat : StatusUpdate) : Z :=
  if su_Version stat =? 0 then upVersion else su_Version stat.

(** The status loop of [Update], over the statuses with their slot of
    [statusMeta]. *)
Fixpoint createStatuses (w : World) (update : UpdateRequest) (upVersion : Z)
    (statusHeads : gmap string Z) (status : list (StatusUpdate * option JSON))
  : Tx unit :=
  match status with
  | [] => ret tt
  | (stat, meta) :: rest =>
    let statusID := nextStatusID statusHeads (su_Name stat) in
    let c := CCreateStatus (ur_UUID update) (su_Name stat) statusID
               (pinnedVersion upVersion stat) in
    wrap_err "failed to update %q status"
      (call w c
         (fun db =>
            match postgres.CreateStatus db (ur_UUID update) (su_Name stat)
                    statusID (pinnedVersion upVersion stat)
                    (ur_Updated update) (ur_Updater update) meta with
            | Some db' => inr (tt, db')
            | None => inl (pg_key_violation c)
            end)) ;;;
    createStatuses w update upVersion statusHeads rest
  end.

(** [up.Version]: the current version, incremented when the request
    carries a document. *)
Definition updateVersion (update : UpdateRequest) (info : updatePrefligthInfo) : Z :=
  match ur_Document update with
  | Some _ => int64_succ (postgres.CurrentVersion (Info info))
  | None => postgres.CurrentVersion (Info info)
  end.

(** The ACL list [Update] hands to [updateACL]. *)
Definition effectiveACL (update : UpdateRequest) (exists_ : bool) : list ACLEntry :=
  match ur_ACL update with
  | [] => if negb exists_ then ur_DefaultACL update else ur_ACL update
  | _ => ur_ACL update
  end.

(** [if update.Document != nil { ... q.CreateVersion(...) }]. *)
Definition createVersion (w : World) (update : UpdateRequest) (up : DocumentUpdate)
    (docJSON metaJSON : option JSON) : Tx unit :=
  match ur_Document update with
  | Some _ =>
    let c := CCreateVersion (ur_UUID update) (du_Version up) in
    wrap_err "failed to create version in database"
      (call w c
         (fun db =>
            match postgres.CreateVersion (document_uri w) db (ur_UUID update)
                    (du_Version up) (du_Created up) (du_Creator up)
                    metaJSON docJSON with
            | Some db' => inr (tt, db')
            | None => inl (pg_key_violation c)
            end))
  | None => ret tt
  end.

(** [statusHeads], loaded when the request has statuses. *)
Definition getStatusHeads (w : World) (update : UpdateRequest) : Tx (gmap string Z) :=
  match ur_Status update with
  | [] => ret ∅
  | _ =>
    heads <- wrap_err "failed to get current document status heads"
               (call w (CGetDocumentHeads (ur_UUID update))
                  (fun db => inr (postgres.GetDocumentHeads db (ur_UUID update), db))) ;;
    ret (loadHeads heads)
  end.

(** The transaction of [Update]. *)
Definition updateBody (w : World) (update : UpdateRequest)
    (docJSON metaJSON : option JSON) (statusMeta : list (option JSON))
  : Tx DocumentUpdate :=
  info <- updatePreflight w (ur_UUID update) (ur_IfMatch update) ;;
  let up := mkDocumentUpdate (updateVersion update info) (ur_Updater update)
              (ur_Updated update) (ur_Meta update) in
  createVersion w update up docJSON metaJSON ;;;
  statusHeads <- getStatusHeads w update ;;
  createStatuses w update (du_Version up) statusHeads
    (List.combine (ur_Status update) statusMeta) ;;;
  wrap_err "failed to update ACL"
    (updateACL w (ur_UUID update) (effectiveACL update (Exists info))) ;;;
  ret up.

(** [Update]: the result, the committed database and the database calls
    made. *)
Definition Update (w : World) (db : postgres.DB) (update : UpdateRequest)
  : (error + DocumentUpdate) * postgres.DB * list Call :=
  match marshalUpdate w update with
  | inl e => (inl e, db, [])
  | inr (docJSON, metaJSON, statusMeta) =>
    transaction w db "failed to commit"
      (updateBody w update docJSON metaJSON statusMeta)
  end.

(** ** Delete *)

(** The waiting loop of [Delete]: it polls the number of unarchived rows
    until that is zero, and gives up when the context is done.  The
    transaction sees its own working copy, so that a count that is not
    zero stays so; [fuel] bounds the number of polls, and [false] says
    that the loop was still waiting when it ran out. *)
Fixpoint awaitArchived (fuel : nat) (w : World) (uuid : UUID) (waits : nat)
  : Tx bool :=
  match fuel with
  | O => ret false
  | S fuel' =>
    remaining <- wrap_err "failed to check archiving status"
                   (call w (CGetDocumentUnarchivedCount uuid)
                      (fun db => inr (postgres.GetDocumentUnarchivedCount db uuid, db))) ;;
    if remaining =? 0 then ret true
    else if ctx_Done w waits then fail ctx_Err
    else awaitArchived fuel' w uuid (S waits)
  end.

(** How the transaction of [Delete] ends when it does not fail: with the
    early [return nil] for a missing document, with the document marked
    and ready to commit, or still waiting for the archiver. *)
Inductive deleteStep :=
  | NotExists
  | Marked
  | StillWaiting.

Definition deleteBody (fuel : nat) (w : World) (req : DeleteRequest)
    (metaJSON : option JSON) : Tx deleteStep :=
  info <- updatePreflight w (dr_UUID req) (dr_IfMatch req) ;;
  if negb (Exists info) then ret NotExists
  else
    ready <- awaitArchived fuel w (dr_UUID req) 0 ;;
    if negb ready then ret StillWaiting
    else
      recordID <-
        wrap_err "failed to create delete record"
          (call w (CInsertDeleteRecord (dr_UUID req)
                     (postgres.CurrentVersion (Info info)))
             (fun db =>
                inr (postgres.InsertDeleteRecord db (dr_UUID req)
                       (postgres.Uri (Info info))
                       (postgres.CurrentVersion (Info info))
                       (dr_Updated req) (dr_Updater req) metaJSON))) ;;
      wrap_err "failed to delete document from database"
        (call w (CDeleteDocument (dr_UUID req) recordID)
           (fun db =>
              inr (tt, postgres.DeleteDocument db (dr_UUID req)
                         (postgres.Uri (Info info)) recordID))) ;;;
      ret Marked.

(** [Delete]: the result, the committed database and the database calls
    made; [None] when the waiting loop outlasts [fuel]. *)
Definition Delete (fuel : nat) (w : World) (db : postgres.DB)
    (req : DeleteRequest)
  : option ((error + unit) * postgres.DB * list Call) :=
  match marshalMeta w "failed to marshal metadata for storage" (dr_Meta req) with
  | inl e => Some (inl e, db, [])
  | inr metaJSON =>
    if fault w 0
    then Some (inl (Errorf "failed to begin transaction" (pg_error CBegin)),
               db, [CBegin])
    else
      match deleteBody fuel w req metaJSON (mkTxState db [CBegin]) with
      | (inl e, st) => Some (inl e, db, tx_log st ++ [CRollback])
      | (inr NotExists, st) => Some (inr tt, db, tx_log st ++ [CRollback])
      | (inr Marked, st) => Some (commit w db "failed to commit delete" tt st)
      | (inr StillWaiting, _) => None
      end
  end.

(** ** GetActiveSchemas *)

(** [revisor.ConstraintSet], which the store only deserialises. *)
Definition ConstraintSet := string.

Record Schema := mkSchema {
  Name : string;
  Version : string;
  Specification : ConstraintSet
}.

(** The loop of [GetActiveSchemas] over the rows still to read, [res]
    being the slice built so far; a nil [*Schema] is [None]. *)
Fixpoint appendSchemas (json_Unmarshal : JSON -> option ConstraintSet)
    (rows : list postgres.DocumentSchema) (res : list (option Schema))
  : error + list (option Schema) :=
  match rows with
  | [] => inr res
  | row :: rest =>
    match json_Unmarshal (postgres.sch_Spec row) with
    | None => inl (Errorf "invalid specification for %s@%s in database" json_error)
    | Some spec =>
      appendSchemas json_Unmarshal rest
        (res ++ [Some (mkSchema (postgres.sch_Name row)
                         (postgres.sch_Version row) spec)])
    end
  end.

(** [GetActiveSchemas], on what [s.reader.GetActiveSchemas] returned:
    [res := make([]*Schema, len(rows))], then one [append] for each row. *)
Definition GetActiveSchemas (json_Unmarshal : JSON -> option ConstraintSet)
    (rows : error + list postgres.DocumentSchema)
  : error + list (option Schema) :=
  match rows with
  | inl err => inl (Errorf "failed to fetch active schemas" err)
  | inr rows =>
    appendSchemas json_Unmarshal rows (List.repeat None (length rows))
  end.

(** ** The archiver's conditions *)

(** The status with the id before that of [s], for the same document and
    name, is archived. *)
Definition parent_archived (db : postgres.DB) (s : postgres.DocumentStatus) : bool :=
  List.existsb (fun p => postgres.parent_on s p && postgres.st_Archived p)
    (postgres.document_status db).

(** The version [s] pins exists and carries a signature. *)
Definition pinned_version_signed (db : postgres.DB) (s : postgres.DocumentStatus)
  : bool :=
  List.existsb (postgres.pinned_version_on s) (postgres.document_version db).

Definition eligible (db : postgres.DB) (s : postgres.DocumentStatus) : bool :=
  negb (postgres.st_Archived s)
  && ((postgres.st_ID s =? 1) || parent_archived db s)
  && pinned_version_signed db s.

(** Only archived versions are signed: what [create_version] and
    [SetDocumentVersionAsArchived], the writers of the two columns, keep. *)
Definition signed_versions_archived (db : postgres.DB) : Prop :=
  forall v, In v (postgres.document_version db) ->
    is_Some (postgres.ver_Signature v) -> postgres.ver_Archived v = true.

(** ** What a successful update writes *)

(** The version row of an update that carries a document. *)
Definition versionRows (update : UpdateRequest) (up : DocumentUpdate)
    (docJSON metaJSON : option JSON) : list postgres.DocumentVersion :=
  match ur_Document update with
  | Some _ => [postgres.mkDocumentVersion (ur_UUID update) (du_Version up)
                 (du_Created up) (du_Creator up) metaJSON docJSON false None]
  | None => []
  end.

(** The status row the loop of [Update] asks the database to store for a
    status of the request, and the call it makes for it. *)
Definition statusRow (update : UpdateRequest) (upVersion : Z)
    (statusHeads : gmap string Z) (sm : StatusUpdate * option JSON)
  : postgres.DocumentStatus :=
  postgres.mkDocumentStatus (ur_UUID update) (su_Name (fst sm))
    (nextStatusID statusHeads (su_Name (fst sm)))
    (pinnedVersion upVersion (fst sm)) (ur_Updated update) (ur_Updater update)
    (snd sm) false None.

Definition statusCall (update : UpdateRequest) (upVersion : Z)
    (statusHeads : gmap string Z) (sm : StatusUpdate * option JSON) : Call :=
  CCreateStatus (ur_UUID update) (su_Name (fst sm))
    (nextStatusID statusHeads (su_Name (fst sm)))
    (pinnedVersion upVersion (fst sm)).

(** The (name, id) pairs of the [CreateStatus] calls among [log]. *)
Fixpoint statusWrites (log : list Call) : list (string * Z) :=
  match log with
  | [] => []
  | CCreateStatus _ name id _ :: rest => (name, id) :: statusWrites rest
  | _ :: rest => statusWrites rest
  end.

Definition noPermissions (e : ACLEntry) : bool :=
  match Permissions e with [] => true | _ => false end.

(** The entries [updateACL] batches, and the rows left once it has dropped
    the grantees listed without permissions. *)
Definition keptEntries (entries : list ACLEntry) : list (string * list string) :=
  List.map (fun e => (URI e, Permissions e))
    (List.filter (fun e => negb (noPermissions e)) entries).

Definition droppedRows (uuid : UUID) (entries : list ACLEntry)
    (rows : list postgres.Acl) : list postgres.Acl :=
  List.fold_left
    (fun rows e => List.filter (fun a => negb (postgres.acl_key uuid (URI e) a)) rows)
    (List.filter noPermissions entries) rows.

(** The ACL rows after [updateACL] with a list that is not empty. *)
Definition aclRows (uuid : UUID) (entries : list ACLEntry)
    (rows : list postgres.Acl) : list postgres.Acl :=
  List.fold_left (fun rows e => postgres.upsert_acl uuid e rows)
    (keptEntries entries) (droppedRows uuid entries rows).

(** The database calls of [updateACL] with a list that is not empty. *)
Definition aclCalls (w : World) (uuid : UUID) (subject : string)
    (entries : list ACLEntry) : list Call :=
  List.map (fun e => CDropACL uuid (URI e)) (List.filter noPermissions entries)
  ++ match keptEntries entries with
     | [] => []
     | acls => [CACLUpdate uuid acls]
     end
  ++ [CInsertACLAuditEntry uuid (time_Now w) subject].

(** The audit entry of a document: the state is that of its ACL rows. *)
Definition auditEntry (w : World) (uuid : UUID) (subject : string)
    (rows : list postgres.Acl) : postgres.AclAudit :=
  postgres.mkAclAudit uuid (time_Now w) subject
    match List.map (fun a => (postgres.acl_URI a, postgres.acl_Permissions a))
            (List.filter (fun a => String.eqb (postgres.acl_UUID a) uuid) rows) with
    | [] => None
    | l => Some l
    end.

(** Two databases that differ at most in the ACL rows and the audit log. *)
Definition same_but_acl (a b : postgres.DB) : Prop :=
  postgres.document a = postgres.document b
  /\ postgres.document_version a = postgres.document_version b
  /\ postgres.document_status a = postgres.document_status b
  /\ postgres.status_heads a = postgres.status_heads b
  /\ postgres.delete_record a = postgres.delete_record b.

(** The heads the status loop of an update works with, on the database
    the update starts from. *)
Definition headsFor (db : postgres.DB) (update : UpdateRequest) : gmap string Z :=
  match ur_Status update with
  | [] => ∅
  | _ => loadHeads (postgres.GetDocumentHeads db (ur_UUID update))
  end.

(** The database calls of a successful update up to its ACL step. *)
Definition updateCalls (update : UpdateRequest) (up : DocumentUpdate)
    (h : gmap string Z) (statusMeta : list (option JSON)) : list Call :=
  [CBegin; CGetDocumentForUpdate (ur_UUID update)]
  ++ match ur_Document update with
     | Some _ => [CCreateVersion (ur_UUID update) (du_Version up)]
     | None => []
     end
  ++ match ur_Status update with
     | [] => []
     | _ => [CGetDocumentHeads (ur_UUID update)]
     end
  ++ List.map (statusCall update (du_Version up) h)
       (List.combine (ur_Status update) statusMeta).

(** The same world with another auth info in the context. *)
Definition with_auth (auth : option string) (w : World) : World :=
  mkWorld auth (fault w) (ctx_Done w) (time_Now w) (json_Marshal_Document w)
    (json_Marshal_DataMap w) (document_uri w).

(** ** The status chain *)

(** The ids of the statuses of (uuid, name), in the order of insertion. *)
Definition status_ids (db : postgres.DB) (uuid : UUID) (name : string) : list Z :=
  List.map postgres.st_ID
    (List.filter
       (fun s => String.eqb (postgres.st_UUID s) uuid
                 && String.eqb (postgres.st_Name s) name)
       (postgres.document_status db)).

(** The value the head rows give for a name, the last row winning as in
    the loop that fills [statusHeads]. *)
Fixpoint last_head (name : string) (heads : list postgres.GetDocumentHeadsRow)
  : option Z :=
  match heads with
  | [] => None
  | r :: rest =>
    match last_head name rest with
    | Some v => Some v
    | None => if String.eqb (postgres.Name r) name then Some (postgres.ID r)
              else None
    end
  end.

(** The head of (uuid, name) as [Update] reads it: 0 when there is none. *)
Definition head_of (db : postgres.DB) (uuid : UUID) (name : string) : Z :=
  default 0 (loadHeads (postgres.GetDocumentHeads db uuid) !! name).

(** The ids 1, ..., k. *)
Definition ids_upto (k : Z) : list Z :=
  List.map Z.of_nat (List.seq 1 (Z.to_nat k)).

(** For each document and name the status ids are 1..K without gap, in
    this order, K being the head. *)
Definition chain_ok (db : postgres.DB) : Prop :=
  forall uuid name,
    0 <= head_of db uuid name
    /\ status_ids db uuid name = ids_upto (head_of db uuid name).

(** The heads an update touches are below the greatest int64. *)
Definition heads_in_range (db : postgres.DB) (update : UpdateRequest) : Prop :=
  forall stat, In stat (ur_Status update) ->
    head_of db (ur_UUID update) (su_Name stat) < int64_max.

(** The stores reached from the empty store by successful updates, of
    whatever requests in whatever worlds. *)
Inductive reached : postgres.DB -> Prop :=
  | reached_empty : reached postgres.empty_db
  | reached_step w db update up db' log :
      reached db ->
      Update w db update = (inr up, db', log) ->
      reached db'.

(** The status table holds fewer rows than the greatest int64, so that
    no status id has reached the end of the int64 range. *)
Definition status_rows_in_range (db : postgres.DB) : Prop :=
  Z.of_nat (length (postgres.document_status db)) < int64_max.

(** The head of (uuid, name) read off the rows of [status_heads]. *)
Definition head_rows_lookup (uuid : UUID) (name : string)
    (hs : list postgres.StatusHead) : option Z :=
  last_head name
    (List.map (fun h => postgres.mkGetDocumentHeadsRow
                          (postgres.head_Name h) (postgres.head_ID h))
       (List.filter (fun h => String.eqb (postgres.head_UUID h) uuid) hs)).

(** Whether (uuid', name') is the pair (uuid, name). *)
Definition same_key (uuid' : UUID) (name' : string) (uuid : UUID) (name : string)
  : bool :=
  String.eqb uuid' uuid && String.eqb name' name.

(** ** Sample data *)

(** A world without faults: every call succeeds, the context is never
    done, everything marshals. *)
Definition quiet (auth : option string) : World :=
  mkWorld auth (fun _ => false) (fun _ => false) 1000
    (fun d => Some d) (fun _ => Some "{}") (fun _ => "core://article/1").

(** A world without faults whose context is done at the first wait of
    [Delete]. *)
Definition cancelled : World :=
  mkWorld (Some "user://alice") (fun _ => false) (fun _ => true) 1000
    (fun d => Some d) (fun _ => Some "{}") (fun _ => "core://article/1").

(** A world in which exactly the database call made after [n] earlier
    ones fails. *)
Definition failing_at (n : nat) (auth : option string) : World :=
  mkWorld auth (fun k => Nat.eqb k n) (fun _ => false) 1000
    (fun d => Some d) (fun _ => Some "{}") (fun _ => "core://article/1").

(** A store that holds one live document with its first version. *)
Definition db_one_document : postgres.DB :=
  postgres.mkDB
    [postgres.mkDocument "u1" "core://article/1" 10 "user://alice" 10
       "user://alice" 1 false]
    [postgres.mkDocumentVersion "u1" 1 10 "user://alice" None (Some "A")
       false None]
    [] [] [] [] [].

(** A transaction that has just begun on it. *)
Definition tx_one_document : TxState := mkTxState db_one_document [CBegin].

(** The same document once its version is archived. *)
Definition db_archived : postgres.DB :=
  postgres.SetDocumentVersionAsArchived db_one_document "sig-v1" "u1" 1.

(** A document with the first status of two names, both waiting for the
    archiver, and its version archived. *)
Definition db_two_names : postgres.DB :=
  postgres.mkDB
    [postgres.mkDocument "u1" "core://article/1" 10 "user://alice" 10
       "user://alice" 1 false]
    [postgres.mkDocumentVersion "u1" 1 10 "user://alice" None (Some "A")
       true (Some "sig-v1")]
    [postgres.mkDocumentStatus "u1" "usable" 1 1 11 "user://alice" None false None;
     postgres.mkDocumentStatus "u1" "done" 1 1 12 "user://alice" None false None]
    [postgres.mkStatusHead "u1" "usable" 1 11 "user://alice";
     postgres.mkStatusHead "u1" "done" 1 12 "user://alice"]
    [] [] [].

(** The creation of the document u1, with the status "usable". *)
Definition req1 : UpdateRequest :=
  mkUpdateRequest "u1" 10 "user://alice" ∅ [] []
    [mkStatusUpdate "usable" 0 ∅] (Some "A") (-1).

(** An update of u1 at version 1, without payload, that sets two
    statuses. *)
Definition req2 : UpdateRequest :=
  mkUpdateRequest "u1" 20 "user://bob" ∅ [] []
    [mkStatusUpdate "usable" 0 ∅; mkStatusUpdate "done" 1 ∅] None 1.

(** The creation of u1 by a request without ACL and without default
    ACL. *)
Definition req_no_acl : UpdateRequest :=
  mkUpdateRequest "u1" 10 "user://alice" ∅ [] [] [] (Some "A") (-1).

(** An update of u1 that grants alice two permissions and lists bob
    without any. *)
Definition req_acl : UpdateRequest :=
  mkUpdateRequest "u1" 20 "user://bob" ∅
    [mkACLEntry "user://alice" ["r"; "w"]; mkACLEntry "user://bob" []] []
    [] None 0.

(** The creation of u1 by a request that lists the status "usable"
    twice. *)
Definition req_twice : UpdateRequest :=
  mkUpdateRequest "u1" 10 "user://alice" ∅ [] []
    [mkStatusUpdate "usable" 0 ∅; mkStatusUpdate "usable" 0 ∅] (Some "A") (-1).

(** Delete requests for u1: with IfMatch 1, and without precondition. *)
Definition del_if_match_1 : DeleteRequest :=
  mkDeleteRequest "u1" 30 "user://alice" ∅ 1.

Definition del_any : DeleteRequest :=
  mkDeleteRequest "u1" 30 "user://alice" ∅ 0.

(** ** The reading side of the store *)

(** What a read takes from outside the database: the error of the [n]-th
    query the operation sends through [s.reader], when that query fails,
    and the behaviour of [json.Unmarshal]. *)
Record Reader := mkReader {
  query_error : nat -> option error;
  json_Unmarshal_Document : JSON -> option doc_Document;
  json_Unmarshal_DataMap : JSON -> option DataMap
}.

(** A [:one] query. *)
Definition queryRow {A : Type} (r : Reader) (n : nat) (res : option A)
  : QueryRow A :=
  match query_error r n with
  | Some e => QueryErr e
  | None => match res with
            | Some a => Row a
            | None => ErrNoRows
            end
  end.

(** A [:many] query; [res] is [None] when the database refuses the
    statement. *)
Definition queryRows {A : Type} (r : Reader) (n : nat) (refused : error)
    (res : option (list A)) : error + list A :=
  match query_error r n with
  | Some e => inl e
  | None => match res with
            | Some rows => inr rows
            | None => inl refused
            end
  end.

(** An error the database raises when it runs a statement. *)
Definition pg_refused : error := errors_New "LIMIT must not be negative".

(** [GetDocument]: version 0 reads the current version. *)
Definition GetDocument (r : Reader) (db : postgres.DB) (uuid : UUID)
    (version : Z) : error + doc_Document :=
  let res :=
    if version =? 0 then queryRow r 0 (postgres.GetDocumentData db uuid)
    else queryRow r 0 (postgres.GetDocumentVersionData db uuid version) in
  match res with
  | ErrNoRows => inl (DocStoreErrorf ErrCodeNotFound)
  | QueryErr e => inl (Errorf "failed to fetch document data" e)
  | Row data =>
    (* json.Unmarshal fails on a nil slice *)
    match from_option (json_Unmarshal_Document r) None data with
    | Some d => inr d
    | None => inl (Errorf "got an unreadable document from the database"
                     json_error)
    end
  end.

(** [if meta != nil { json.Unmarshal(meta, &m) }], [m] being a nil map
    before. *)
Definition unmarshalMeta (r : Reader) (meta : option JSON) : option DataMap :=
  match meta with
  | None => Some ∅
  | Some j => json_Unmarshal_DataMap r j
  end.

(** [GetVersion] of the store. *)
Definition GetVersion (r : Reader) (db : postgres.DB) (uuid : UUID)
    (version : Z) : error + DocumentUpdate :=
  match queryRow r 0 (postgres.GetVersion db uuid version) with
  | ErrNoRows => inl (DocStoreErrorf ErrCodeNotFound)
  | QueryErr e => inl (Errorf "failed to fetch version info" e)
  | Row v =>
    match unmarshalMeta r (postgres.gv_Meta v) with
    | Some m => inr (mkDocumentUpdate version (postgres.gv_CreatorUri v)
                       (postgres.gv_Created v) m)
    | None => inl (Errorf "failed to unmarshal metadata for version %d"
                     json_error)
    end
  end.

(** Two's complement reduction of an integer to the [int32] range, the
    conversion [int32(count)]. *)
Definition wrap32 (z : Z) : Z := (z + 2 ^ 31) mod 2 ^ 32 - 2 ^ 31.

(** The loop of [GetVersionHistory] over the rows still to read. *)
Fixpoint versionUpdates (r : Reader) (history : list postgres.GetVersionsRow)
  : error + list DocumentUpdate :=
  match history with
  | [] => inr []
  | v :: rest =>
    match unmarshalMeta r (postgres.gvs_Meta v) with
    | None => inl (Errorf "failed to unmarshal metadata for version %d"
                     json_error)
    | Some m =>
      match versionUpdates r rest with
      | inl e => inl e
      | inr ups =>
        inr (mkDocumentUpdate (postgres.gvs_Version v)
               (postgres.gvs_CreatorUri v) (postgres.gvs_Created v) m :: ups)
      end
    end
  end.

(** [GetVersionHistory]. *)
Definition GetVersionHistory (r : Reader) (db : postgres.DB) (uuid : UUID)
    (before count : Z) : error + list DocumentUpdate :=
  match queryRows r 0 pg_refused
          (postgres.GetVersions db uuid before (wrap32 count)) with
  | inl e => inl (Errorf "failed to fetch version history" e)
  | inr history => versionUpdates r history
  end.

(** [type Status struct] of the store. *)
Record Status := mkStatus {
  status_ID : Z;
  status_Version : Z;
  status_Creator : string;
  status_Created : Time;
  status_Meta : DataMap
}.

(** [type DocumentMeta struct]; a nil [Statuses] map reads as the empty
    one. *)
Record DocumentMeta := mkDocumentMeta {
  meta_Created : Time;
  meta_Modified : Time;
  meta_CurrentVersion : Z;
  meta_Statuses : gmap string Status;
  meta_Deleting : bool
}.

(** The loop of [GetDocumentMeta] over the heads still to read, [statuses]
    being [meta.Statuses] so far. *)
Fixpoint loadStatuses (r : Reader) (heads : list postgres.DocumentStatus)
    (statuses : gmap string Status) : error + gmap string Status :=
  match heads with
  | [] => inr statuses
  | head :: rest =>
    match unmarshalMeta r (postgres.st_Meta head) with
    | None => inl (Errorf "failed to decode %q metadata" json_error)
    | Some m =>
      loadStatuses r rest
        (<[postgres.st_Name head :=
             mkStatus (postgres.st_ID head) (postgres.st_Version head)
               (postgres.st_CreatorUri head) (postgres.st_Created head) m]>
           statuses)
    end
  end.

(** [GetDocumentMeta]. *)
Definition GetDocumentMeta (r : Reader) (db : postgres.DB) (uuid : UUID)
  : error + DocumentMeta :=
  match queryRow r 0 (postgres.GetDocumentInfo db uuid) with
  | ErrNoRows => inl (DocStoreErrorf ErrCodeNotFound)
  | QueryErr e => inl (Errorf "failed to fetch document info" e)
  | Row info =>
    if postgres.doc_Deleting info
    then inr (mkDocumentMeta 0 0 0 ∅ true)
    else
      match queryRows r 1 pg_refused
              (Some (postgres.GetFullDocumentHeads db uuid)) with
      | inl e => inl (Errorf "failed to fetch document heads" e)
      | inr heads =>
        match loadStatuses r heads ∅ with
        | inl e => inl e
        | inr statuses =>
          inr (mkDocumentMeta (postgres.doc_Created info)
                 (postgres.doc_Updated info) (postgres.doc_CurrentVersion info)
                 statuses (postgres.doc_Deleting info))
        end
      end
  end.

(** ** CheckPermission *)

Inductive CheckPermissionResult :=
  | PermissionCheckDenied
  | PermissionCheckAllowed
  | PermissionCheckNoSuchDocument.

(** [type CheckPermissionRequest struct]; a nil [GranteeURIs] is [None]. *)
Record CheckPermissionRequest := mkCheckPermissionRequest {
  cpr_UUID : UUID;
  cpr_GranteeURIs : option (list string);
  cpr_Permission : string
}.

(** [pgStringArray]. *)
Definition pgStringArray (v : option (list string)) : postgres.TextArray :=
  postgres.mkTextArray (default [] v)
    (match v with Some _ => true | None => false end)
    (wrap32 (Z.of_nat (length (default [] v)))).

(** [CheckPermission] of the store: the result and the error. *)
Definition CheckPermission (r : Reader) (db : postgres.DB)
    (req : CheckPermissionRequest) : CheckPermissionResult * option error :=
  match queryRow r 0
          (postgres.CheckPermission db
             (postgres.mkCheckPermissionParams
                (pgStringArray (cpr_GranteeURIs req)) (cpr_Permission req)
                (cpr_UUID req))) with
  | ErrNoRows => (PermissionCheckNoSuchDocument, None)
  | QueryErr e => (PermissionCheckDenied, Some (Errorf "failed check acl" e))
  | Row access =>
    if negb access then (PermissionCheckDenied, None)
    else (PermissionCheckAllowed, None)
  end.

(** ** One round of the archiver and of the deleter *)

(** The version the selector hands out is marked archived, with the
    signature computed for it. *)
Definition archiveVersion (sign : postgres.GetDocumentVersionForArchivingRow -> string)
    (db : postgres.DB) : option postgres.DB :=
  match postgres.GetDocumentVersionForArchiving db with
  | Some v =>
    Some (postgres.SetDocumentVersionAsArchived db (sign v)
            (postgres.vfa_Uuid v) (postgres.vfa_Version v))
  | None => None
  end.

(** ** Conditions on versions *)

(** The predecessor of [v], the version before it of the same document,
    is archived. *)
Definition version_parent_archived (db : postgres.DB)
    (v : postgres.DocumentVersion) : bool :=
  List.existsb (fun p => postgres.version_parent_on v p && postgres.ver_Archived p)
    (postgres.document_version db).

(** A version may be archived: it is not yet, and it is the first or
    follows an archived one. *)
Definition version_eligible (db : postgres.DB) (v : postgres.DocumentVersion)
  : bool :=
  negb (postgres.ver_Archived v)
  && ((postgres.ver_Version v =? 1) || version_parent_archived db v).

(** Every archived version is the first or follows an archived one. *)
Definition version_chain_archived (db : postgres.DB) : Prop :=
  forall v, In v (postgres.document_version db) ->
    postgres.ver_Archived v = true ->
    postgres.ver_Version v = 1 \/ version_parent_archived db v = true.

(** The grantee URIs of a request, none for a nil slice. *)
Definition grantees (req : CheckPermissionRequest) : list string :=
  default [] (cpr_GranteeURIs req).

(** Some row of the document grants [permission] to [uri]. *)
Definition granted (db : postgres.DB) (uuid : UUID) (uri permission : string)
  : Prop :=
  exists a, In a (postgres.acl db) /\ postgres.acl_UUID a = uuid
            /\ postgres.acl_URI a = uri
            /\ In permission (postgres.acl_Permissions a).

(** A document row for [uuid] exists. *)
Definition document_exists (db : postgres.DB) (uuid : UUID) : Prop :=
  exists d, In d (postgres.document db) /\ postgres.doc_UUID d = uuid.

(** A reader without failing queries, in which everything unmarshals. *)
Definition sound_reader : Reader :=
  mkReader (fun _ => None) (fun j => Some j) (fun _ => Some ∅).

(** The [document] rows after the version step of an update. *)
Definition documentRows (w : World) (update : UpdateRequest) (up : DocumentUpdate)
    (docJSON : option JSON) (docs : list postgres.Document)
  : list postgres.Document :=
  match ur_Document update with
  | None => docs
  | Some _ =>
    if List.existsb (postgres.document_key (ur_UUID update)) docs
    then List.map (fun d =>
           if postgres.document_key (ur_UUID update) d
           then postgres.mkDocument (ur_UUID update) (document_uri w docJSON)
                  (postgres.doc_Created d) (postgres.doc_CreatorUri d)
                  (du_Created up) (du_Creator up) (du_Version up)
                  (postgres.doc_Deleting d)
           else d) docs
    else docs ++ [postgres.mkDocument (ur_UUID update) (document_uri w docJSON)
                    (du_Created up) (du_Creator up) (du_Created up)
                    (du_Creator up) (du_Version up) false]
  end.

(** A check of one permission for one grantee. *)
Definition check_one (uuid : UUID) (uri permission : string)
  : CheckPermissionRequest :=
  mkCheckPermissionRequest uuid (Some [uri]) permission.

(** A document with an ACL row for alice. *)
Definition db_acl : postgres.DB :=
  postgres.mkDB
    [postgres.mkDocument "u1" "core://article/1" 10 "user://alice" 10
       "user://alice" 1 false]
    [postgres.mkDocumentVersion "u1" 1 10 "user://alice" None (Some "A")
       false None]
    [] []
    [postgres.mkAcl "u1" "user://alice" ["r"]] [] [].

(** The unarchived status rows and version rows of a document. *)
Definition unarchived_statuses (db : postgres.DB) (uuid : UUID)
  : list postgres.DocumentStatus :=
  List.filter (fun s => String.eqb (postgres.st_UUID s) uuid
                        && negb (postgres.st_Archived s))
    (postgres.document_status db).

Definition unarchived_versions (db : postgres.DB) (uuid : UUID)
  : list postgres.DocumentVersion :=
  List.filter (fun v => String.eqb (postgres.ver_UUID v) uuid
                        && negb (postgres.ver_Archived v))
    (postgres.document_version db).

(** A document with one unarchived version and one unarchived status. *)
Definition db_one_status : postgres.DB :=
  postgres.mkDB
    [postgres.mkDocument "u1" "core://article/1" 10 "user://alice" 10
       "user://alice" 1 false]
    [postgres.mkDocumentVersion "u1" 1 10 "user://alice" None (Some "A")
       false None]
    [postgres.mkDocumentStatus "u1" "usable" 1 1 11 "user://alice" None false None]
    [postgres.mkStatusHead "u1" "usable" 1 11 "user://alice"]
    [] [] [].

(** A list of numbers in descending order. *)
Fixpoint descending (l : list Z) : Prop :=
  match l with
  | [] => True
  | x :: rest => (forall y, In y rest -> y <= x) /\ descending rest
  end.

(** The versions of the rows of a document, in the order of insertion. *)
Definition version_numbers (db : postgres.DB) (uuid : UUID) : list Z :=
  List.map postgres.ver_Version
    (List.filter (fun v => String.eqb (postgres.ver_UUID v) uuid)
       (postgres.document_version db)).

(** A document with three versions. *)
Definition db_three_versions : postgres.DB :=
  postgres.mkDB
    [postgres.mkDocument "u1" "core://article/1" 10 "user://alice" 30
       "user://bob" 3 false]
    [postgres.mkDocumentVersion "u1" 1 10 "user://alice" None (Some "A")
       true (Some "sig-v1");
     postgres.mkDocumentVersion "u1" 2 20 "user://bob" None (Some "B")
       false None;
     postgres.mkDocumentVersion "u1" 3 30 "user://bob" None (Some "C")
       false None]
    [] [] [] [] [].

(** Every version row other than a first version has a row for the
    version before it. *)
Definition version_contiguous (db : postgres.DB) : Prop :=
  forall v, In v (postgres.document_version db) ->
    postgres.ver_Version v = 1
    \/ exists p, In p (postgres.document_version db)
                 /\ postgres.version_parent_on v p = true.

(** The number of version rows the archiver has still to sign. *)
Definition versions_unarchived (db : postgres.DB) : nat :=
  length (List.filter (fun v => negb (postgres.ver_Archived v))
            (postgres.document_version db)).

(** The pinned version of every status carries a signature. *)
Definition pinned_versions_signed (db : postgres.DB) : Prop :=
  forall s, In s (postgres.document_status db) -> pinned_version_signed db s = true.

(** A list of numbers in ascending order. *)
Fixpoint ascending (l : list Z) : Prop :=
  match l with
  | [] => True
  | x :: rest => (forall y, In y rest -> x <= y) /\ ascending rest
  end.

(** * Package [docformat]: the API server and the planning import

    [cmd/repository/main.go] carries the API server of package
    [docformat] with its conversions between the document format and the
    RPC messages, [planning.go] the import of planning items.  A Go slice
    or map that may be nil is an [option]: [None] is nil, [Some []] the
    empty slice.  A pointer that may be nil is an [option] as well. *)

Module docformat.

(** What a Go function does: it returns, returns with a twirp error, or
    panics on a nil pointer or an index out of range. *)
Inductive twirp_error :=
  | RequiredArgumentError (argument : string)
  | InvalidArgumentError (argument : string) (validationMsg : string)
  | NotFoundError (msg : string)
  | Unimplemented (msg : string)
  | Internal (msg : string).

Inductive Outcome (A : Type) :=
  | Returned (a : A)
  | Failed (e : twirp_error)
  | Panicked.
Arguments Returned {A} a.
Arguments Failed {A} e.
Arguments Panicked {A}.

(** ** Blocks and documents *)

#[local] Set Warnings "-register-all".

(** [BlockData], a [map[string]string]. *)
Abbreviation BlockData := (gmap string string).

(** [type Block struct]. *)
Inductive Block := mkBlock {
  b_ID : string;
  b_UUID : string;
  b_URI : string;
  b_URL : string;
  b_Type : string;
  b_Title : string;
  b_Data : option BlockData;
  b_Rel : string;
  b_Role : string;
  b_Name : string;
  b_Value : string;
  b_ContentType : string;
  b_Links : option (list Block);
  b_Content : option (list Block);
  b_Meta : option (list Block)
}.

(** The zero value of [Block]. *)
Definition zero_Block : Block :=
  mkBlock "" "" "" "" "" "" None "" "" "" "" "" None None None.

(** [repository.Block], the RPC message; its block lists hold pointers. *)
Inductive RBlock := mkRBlock {
  rb_Id : string;
  rb_Uuid : string;
  rb_Uri : string;
  rb_Url : string;
  rb_Type : string;
  rb_Title : string;
  rb_Data : option BlockData;
  rb_Rel : string;
  rb_Role : string;
  rb_Name : string;
  rb_Value : string;
  rb_ContentType : string;
  rb_Links : option (list (option RBlock));
  rb_Content : option (list (option RBlock));
  rb_Meta : option (list (option RBlock))
}.

(** [for k, v := range data { if out == nil { out = make(...) }; out[k] =
    v }]: the copy is nil unless [data] has an entry. *)
Definition copyData (data : option BlockData) : option BlockData :=
  match data with
  | Some m => if Nat.eqb (size m) 0 then None else Some m
  | None => None
  end.

(** [res = make([]T, len(blocks))] only [if len(blocks) > 0], then one
    element for each block. *)
Definition convertSlice {A B : Type} (f : A -> B) (blocks : option (list A))
  : option (list B) :=
  match blocks with
  | Some l => match l with
              | [] => None
              | _ => Some (List.map f l)
              end
  | None => None
  end.

(** The body of the loop of [BlocksToRPC], which converts one block and,
    through [BlocksToRPC], the blocks below it. *)
Fixpoint blockToRPC (b : Block) : RBlock :=
  mkRBlock (b_ID b) (b_UUID b) (b_URI b) (b_URL b) (b_Type b) (b_Title b)
    (copyData (b_Data b)) (b_Rel b) (b_Role b) (b_Name b) (b_Value b)
    (b_ContentType b)
    (convertSlice (fun c => Some (blockToRPC c)) (b_Links b))
    (convertSlice (fun c => Some (blockToRPC c)) (b_Content b))
    (convertSlice (fun c => Some (blockToRPC c)) (b_Meta b)).

(** [BlocksToRPC]: [res[i] = &rb]. *)
Definition BlocksToRPC (blocks : option (list Block))
  : option (list (option RBlock)) :=
  convertSlice (fun b => Some (blockToRPC b)) blocks.

(** The body of the loop of [RPCToBlocks] for an element that is not
    nil. *)
Fixpoint rpcToBlock (rb : RBlock) : Block :=
  mkBlock (rb_Id rb) (rb_Uuid rb) (rb_Uri rb) (rb_Url rb) (rb_Type rb)
    (rb_Title rb) (copyData (rb_Data rb)) (rb_Rel rb) (rb_Role rb)
    (rb_Name rb) (rb_Value rb) (rb_ContentType rb)
    (convertSlice (fun c => match c with
                            | Some c => rpcToBlock c
                            | None => zero_Block
                            end) (rb_Links rb))
    (convertSlice (fun c => match c with
                            | Some c => rpcToBlock c
                            | None => zero_Block
                            end) (rb_Content rb))
    (convertSlice (fun c => match c with
                            | Some c => rpcToBlock c
                            | None => zero_Block
                            end) (rb_Meta rb)).

(** One element of [RPCToBlocks]: [if rb == nil { continue }] leaves the
    zero value of [make] in its place. *)
Definition rpcToBlockAt (rb : option RBlock) : Block :=
  match rb with
  | Some rb => rpcToBlock rb
  | None => zero_Block
  end.

(** [RPCToBlocks]. *)
Definition RPCToBlocks (blocks : option (list (option RBlock)))
  : option (list Block) :=
  convertSlice rpcToBlockAt blocks.

(** [type Document struct]. *)
Record Document := mkDocument {
  d_UUID : string;
  d_Type : string;
  d_URI : string;
  d_URL : string;
  d_Title : string;
  d_Content : option (list Block);
  d_Meta : option (list Block);
  d_Links : option (list Block);
  d_Language : string
}.

(** [repository.Document]. *)
Record RDocument := mkRDocument {
  rd_Uuid : string;
  rd_Type : string;
  rd_Uri : string;
  rd_Url : string;
  rd_Title : string;
  rd_Content : option (list (option RBlock));
  rd_Meta : option (list (option RBlock));
  rd_Links : option (list (option RBlock));
  rd_Language : string
}.

(** [DocumentToRPC]: nil for a nil document. *)
Definition DocumentToRPC (doc : option Document) : option RDocument :=
  match doc with
  | None => None
  | Some doc =>
    Some (mkRDocument (d_UUID doc) (d_Type doc) (d_URI doc) (d_URL doc)
            (d_Title doc) (BlocksToRPC (d_Content doc))
            (BlocksToRPC (d_Meta doc)) (BlocksToRPC (d_Links doc))
            (d_Language doc))
  end.

(** [RPCToDocument]. *)
Definition RPCToDocument (rpcDoc : option RDocument) : option Document :=
  match rpcDoc with
  | None => None
  | Some rpcDoc =>
    Some (mkDocument (rd_Uuid rpcDoc) (rd_Type rpcDoc) (rd_Uri rpcDoc)
            (rd_Url rpcDoc) (rd_Title rpcDoc) (RPCToBlocks (rd_Content rpcDoc))
            (RPCToBlocks (rd_Meta rpcDoc)) (RPCToBlocks (rd_Links rpcDoc))
            (rd_Language rpcDoc))
  end.

(** ** Identity references and update metadata *)

Record IdentityReference := mkIdentityReference {
  ir_URI : string;
  ir_Name : string
}.

Record RIdentityReference := mkRIdentityReference {
  rir_Uri : string;
  rir_Name : string
}.

(** [IdentityReferenceToRPC], a pointer to a new message. *)
Definition IdentityReferenceToRPC (ref : IdentityReference)
  : option RIdentityReference :=
  Some (mkRIdentityReference (ir_URI ref) (ir_Name ref)).

(** [RPCToIdentityReference]: a nil [ref] is dereferenced, [None] being
    the panic. *)
Definition RPCToIdentityReference (ref : option RIdentityReference)
  : option IdentityReference :=
  match ref with
  | Some ref => Some (mkIdentityReference (rir_Uri ref) (rir_Name ref))
  | None => None
  end.

Record UpdateMeta := mkUpdateMeta {
  um_Key : string;
  um_Value : string
}.

Record MetaValue := mkMetaValue {
  mv_Key : string;
  mv_Value : string
}.

(** [var out []T; for ... { out = append(out, x) }]: nil when nothing was
    appended. *)
Definition appended {A : Type} (l : list A) : option (list A) :=
  match l with
  | [] => None
  | _ => Some l
  end.

(** [UpdateMetaToRPC]. *)
Definition UpdateMetaToRPC (meta : option (list UpdateMeta))
  : option (list (option MetaValue)) :=
  appended (List.map (fun m => Some (mkMetaValue (um_Key m) (um_Value m)))
              (default [] meta)).

(** The loop of [RPCToUpdateMeta]: [meta[i].Key] panics on a nil
    element, [None] being the panic. *)
Fixpoint rpcToUpdateMeta (meta : list (option MetaValue))
  : option (list UpdateMeta) :=
  match meta with
  | [] => Some []
  | None :: _ => None
  | Some m :: rest =>
    match rpcToUpdateMeta rest with
    | Some out => Some (mkUpdateMeta (mv_Key m) (mv_Value m) :: out)
    | None => None
    end
  end.

(** [RPCToUpdateMeta]: the result, or [None] for the panic. *)
Definition RPCToUpdateMeta (meta : option (list (option MetaValue)))
  : option (option (list UpdateMeta)) :=
  match rpcToUpdateMeta (default [] meta) with
  | Some out => Some (appended out)
  | None => None
  end.

(** ** The API server *)

(** [DocumentUpdate] and [DocumentMeta] of the store behind the API
    server, with the fields the server reads. *)
Record DocumentUpdate := mkDocumentUpdate {
  up_Version : Z;
  up_Created : Time;
  up_Updater : IdentityReference;
  up_Meta : option (list UpdateMeta)
}.

(** [Status]: one entry of the statuses set under a name. *)
Record Status := mkStatus {
  s_Version : Z;
  s_Updater : IdentityReference;
  s_Created : Time;
  s_Meta : option (list UpdateMeta)
}.

Record ACLEntry := mkACLEntry {
  acl_URI : string;
  acl_Name : string;
  acl_Permissions : option (list string)
}.

Record DocumentMeta := mkDocumentMeta {
  dm_Created : Time;
  dm_Modified : Time;
  dm_CurrentVersion : Z;
  dm_Statuses : gmap string (list Status);
  dm_Updates : list DocumentUpdate;
  dm_ACL : list ACLEntry
}.

(** What [a.store.GetDocumentMeta] hands back: the pointer, nil or not,
    and the error, which is NotFound, another error, or nil. *)
Inductive StoreError :=
  | StoreNotFound
  | StoreOther.

Record GetHistoryRequest := mkGetHistoryRequest {
  ghr_Uuid : string;
  ghr_Before : Z
}.

(** [repository.DocumentVersion]. *)
Record RDocumentVersion := mkRDocumentVersion {
  rdv_Version : Z;
  rdv_Created : string;
  rdv_Creator : option RIdentityReference;
  rdv_Meta : option (list (option MetaValue))
}.

(** [repository.Status], [repository.ACLEntry] and
    [repository.DocumentMeta]; [Heads] holds pointers to new messages. *)
Record RStatus := mkRStatus {
  rs_Id : Z;
  rs_Version : Z;
  rs_Creator : option RIdentityReference;
  rs_Created : string;
  rs_Meta : option (list (option MetaValue))
}.

Record RACLEntry := mkRACLEntry {
  racl_Uri : string;
  racl_Name : string;
  racl_Permissions : option (list string)
}.

Record RDocumentMeta := mkRDocumentMeta {
  rdm_Created : string;
  rdm_Modified : string;
  rdm_CurrentVersion : Z;
  rdm_Heads : option (gmap string RStatus);
  rdm_ALC : option (list RACLEntry)
}.

Section APIServer.

(** [uuid.Parse]: the text of its error, or [u.String()]; and
    [t.Format(time.RFC3339)]. *)
Variable uuid_Parse : string -> string + string.
Variable time_Format : Time -> string.
(** [a.store.GetDocumentMeta]. *)
Variable store_GetDocumentMeta : string -> option DocumentMeta * option StoreError.

(** [validateRequiredUUIDParam]. *)
Definition validateRequiredUUIDParam (v name : string) : twirp_error + string :=
  if String.eqb v "" then inl (RequiredArgumentError name)
  else match uuid_Parse v with
       | inl msg => inl (InvalidArgumentError name msg)
       | inr u => inr u
       end.

(** The loop of [GetHistory], over the updates from the last to the
    first, [res] being [res.Versions] so far. *)
Fixpoint historyLoop (start : Z) (updates : list DocumentUpdate)
    (res : list RDocumentVersion) : list RDocumentVersion :=
  match updates with
  | [] => res
  | up :: rest =>
    if up_Version up >? start then historyLoop start rest res
    else
      let res' := res ++ [mkRDocumentVersion (up_Version up)
                            (time_Format (up_Created up))
                            (IdentityReferenceToRPC (up_Updater up))
                            (UpdateMetaToRPC (up_Meta up))] in
      if Nat.eqb (length res') 10 then res'
      else historyLoop start rest res'
  end.

(** [GetHistory], with [int] as wide as [int64].  The error of the store
    is looked at for NotFound only; [meta.Updates] on a nil [meta] and
    [meta.Updates[len(meta.Updates)-1]] on an empty slice panic. *)
Definition GetHistory (req : GetHistoryRequest)
  : Outcome (list RDocumentVersion) :=
  match validateRequiredUUIDParam (ghr_Uuid req) "uuid" with
  | inl err => Failed err
  | inr docUUID =>
    if negb (ghr_Before req =? 0) && (ghr_Before req <? 2)
    then Failed (InvalidArgumentError "before"
                   "cannot be non-zero and less that 2")
    else
      match store_GetDocumentMeta docUUID with
      | (_, Some StoreNotFound) => Failed (NotFoundError "the document doesn't exist")
      | (None, _) => Panicked
      | (Some meta, _) =>
        let start := ghr_Before req - 1 in
        if start =? 0
        then match last (dm_Updates meta) with
             | None => Panicked
             | Some up =>
               Returned (historyLoop (up_Version up) (List.rev (dm_Updates meta)) [])
             end
        else Returned (historyLoop start (List.rev (dm_Updates meta)) [])
      end
  end.

(** The body of the loop of [GetMeta] over the names of
    [meta.Statuses]: a name without status is passed over, [resp.Heads]
    is made when the first head is stored. *)
Definition addHead (status : string) (statuses : list Status)
    (heads : option (gmap string RStatus)) : option (gmap string RStatus) :=
  match last statuses with
  | None => heads
  | Some head =>
    Some (<[status := mkRStatus (Z.of_nat (length statuses)) (s_Version head)
                        (IdentityReferenceToRPC (s_Updater head))
                        (time_Format (s_Created head))
                        (UpdateMetaToRPC (s_Meta head))]>
            (default ∅ heads))
  end.

(** [GetMeta]: the [Meta] of its response.  As in [GetHistory] the error
    of the store is looked at for NotFound only, and a nil [meta] is
    dereferenced. *)
Definition GetMeta (uuid : string) : Outcome RDocumentMeta :=
  match validateRequiredUUIDParam uuid "uuid" with
  | inl err => Failed err
  | inr docUUID =>
    match store_GetDocumentMeta docUUID with
    | (_, Some StoreNotFound) => Failed (NotFoundError "the document doesn't exist")
    | (None, _) => Panicked
    | (Some meta, _) =>
      Returned
        (mkRDocumentMeta (time_Format (dm_Created meta))
           (time_Format (dm_Modified meta)) (dm_CurrentVersion meta)
           (map_fold addHead None (dm_Statuses meta))
           (appended (List.map (fun acl => mkRACLEntry (acl_URI acl) (acl_Name acl)
                                             (acl_Permissions acl))
                        (dm_ACL meta))))
    end
  end.

End APIServer.

(** ** The planning import *)

(** [type NMLBlock struct]; [Data] is the list of the names and values of
    its [Items]. *)
Inductive NMLBlock := mkNMLBlock {
  nml_ID : string;
  nml_Title : string;
  nml_Type : string;
  nml_Rel : string;
  nml_URI : string;
  nml_URL : string;
  nml_UUID : string;
  nml_Data : list (string * string);
  nml_Links : list NMLBlock;
  nml_Meta : list NMLBlock;
  nml_Content : list NMLBlock
}.

(** [strings.HasPrefix(s, prefix)] and the rest of [s] behind it. *)
Fixpoint trimPrefix (prefix s : string) : option string :=
  match prefix with
  | EmptyString => Some s
  | String c prefix' =>
    match s with
    | EmptyString => None
    | String d s' => if Ascii.eqb c d then trimPrefix prefix' s' else None
    end
  end.

(** [strings.TrimPrefix]. *)
Definition strings_TrimPrefix (s prefix : string) : string :=
  default s (trimPrefix prefix s).

(** [strings.Replace(s, old, new, 1)]: the first occurrence of [old] in
    [s] is replaced. *)
Fixpoint strings_Replace1 (s old new : string) : string :=
  match trimPrefix old s with
  | Some rest => new ++ rest
  | None =>
    match s with
    | EmptyString => EmptyString
    | String c s' => String c (strings_Replace1 s' old new)
    end
  end.

(** The inner loop of [newsMLUnitReference], over the links of an
    organisation. *)
Fixpoint unitOf (links : list NMLBlock) : option IdentityReference :=
  match links with
  | [] => None
  | u :: rest =>
    if negb (String.eqb (nml_Type u) "x-imid/unit")
       || negb (String.eqb (nml_Rel u) "affiliation")
    then unitOf rest
    else Some (mkIdentityReference
                 (strings_Replace1 (nml_URI u) "imid://unit/" "core://unit/")
                 (nml_Title u))
  end.

(** The outer loop, which goes on with the next link when the inner loop
    found no unit. *)
Fixpoint firstUnit (links : list NMLBlock) : option IdentityReference :=
  match links with
  | [] => None
  | l :: rest =>
    if negb (String.eqb (nml_Type l) "x-imid/organisation")
       || negb (String.eqb (nml_Rel l) "affiliation")
    then firstUnit rest
    else match unitOf (nml_Links l) with
         | Some ref => Some ref
         | None => firstUnit rest
         end
  end.

(** [newsMLUnitReference]: the reference and [ok]. *)
Definition newsMLUnitReference (link : NMLBlock) : IdentityReference * bool :=
  match firstUnit (nml_Links link) with
  | Some ref => (ref, true)
  | None => (mkIdentityReference "" "", false)
  end.

(** [type ExtProperty struct]. *)
Record ExtProperty := mkExtProperty {
  ep_Type : string;
  ep_Value : string;
  ep_Literal : string;
  ep_Why : string
}.

(** [type Planning struct], with the qcode of its item class and the role
    and text of its description. *)
Record Planning := mkPlanning {
  pl_GUID : string;
  pl_Headline : string;
  pl_ItemClass : string;
  pl_DescriptionRole : string;
  pl_DescriptionText : string;
  pl_Properties : list ExtProperty;
  pl_Links : list NMLBlock
}.

(** [type ConvertedDoc struct]. *)
Record ConvertedDoc := mkConvertedDoc {
  cd_Document : Document;
  cd_Status : string;
  cd_Updater : IdentityReference;
  cd_Creator : IdentityReference;
  cd_Units : option (list IdentityReference)
}.

(** The errors of the import: the two sentinels, the wrapped error of the
    fetch, the errors [assignmentImport] makes itself, and an error of
    the converter it hands over to. *)
Inductive import_error :=
  | errDeletedInSource
  | errIgnoreDocument
  | fetch_failed
  | unexpected_type (value : string)
  | invalid_timestamp (name : string)
  | unexpected_description_role (role : string)
  | converter_failed.

(** What [opt.Objects.GetObject] did: it failed with the HTTP status 404,
    with an error that mentions an XML syntax error, with another error,
    or decoded the planning item. *)
Inductive FetchResult :=
  | HTTPNotFound
  | XMLSyntaxError
  | FetchError
  | Fetched (assignment : Planning).

(** [Block{Type: type, Value: value}]. *)
Definition typeBlock (value : string) : Block :=
  mkBlock "" "" "" "" "core/assignment-type" "" None "" "" "" value "" None None None.

(** [assignmentTypes] after the switch on the item class. *)
Definition assignmentTypes (qcode : string) : list string :=
  if String.eqb qcode "ninat:composite" then ["video"; "picture"]
  else [strings_TrimPrefix qcode "ninat:"].

(** The block of an assigned-to link; a later item of its data replaces
    an earlier one of the same name. *)
Definition authorBlock (link : NMLBlock) : Block :=
  mkBlock "" (nml_UUID link) "" "" "core/author" (nml_Title link)
    (Some (List.fold_left (fun data kv => <[fst kv := snd kv]> data)
             (nml_Data link) ∅))
    "assigned-to" "" "" "" "" None None None.

(** The state of the loop over the links: [out.Updater], [out.Creator],
    [out.Units] and [doc.Links]. *)
Fixpoint readLinks (links : list NMLBlock) (updater creator : IdentityReference)
    (units : list IdentityReference) (docLinks : list Block)
  : IdentityReference * IdentityReference * list IdentityReference * list Block :=
  match links with
  | [] => (updater, creator, units, docLinks)
  | link :: rest =>
    if String.eqb (nml_Rel link) "updater"
    then readLinks rest (mkIdentityReference (nml_URI link) (nml_Title link))
           creator units docLinks
    else if String.eqb (nml_Rel link) "creator"
    then readLinks rest updater
           (mkIdentityReference (nml_URI link) (nml_Title link))
           (match newsMLUnitReference link with
            | (unit, true) => units ++ [unit]
            | (_, false) => units
            end) docLinks
    else if String.eqb (nml_Rel link) "assigned-to"
    then readLinks rest updater creator units (docLinks ++ [authorBlock link])
    else readLinks rest updater creator units docLinks
  end.

Section Planning.

(** [time.Parse(layout, value)], [t.UTC()] and [t.Format(layout)], on
    times that carry their zone. *)
Variable time_Parse : string -> string -> option Time.
Variable time_UTC : Time -> Time.
Variable time_Format : string -> Time -> string.

Definition RFC3339 : string := "2006-01-02T15:04:05Z07:00".

(** [parseGranularTime]: the time, the date and the granularity, or the
    error of [time.Parse]. *)
Definition parseGranularTime (value name granularity : string)
  : option (Time * string * string) :=
  let layout := RFC3339 in
  let granularity :=
    if String.eqb granularity "" && Nat.eqb (String.length value) 10
    then "date" else granularity in
  let layout :=
    if String.eqb granularity "date" && Nat.eqb (String.length value) 10
    then "2006-01-02" else layout in
  let granularity :=
    if String.eqb granularity "" then "datetime" else granularity in
  match time_Parse layout value with
  | None => None
  | Some t => Some (time_UTC t, time_Format "2006-01-02" t, granularity)
  end.

(** [parseNRPDate]. *)
Definition parseNRPDate (prop : ExtProperty) : option (Time * string * string) :=
  parseGranularTime (ep_Value prop) (ep_Type prop)
    (strings_TrimPrefix (ep_Why prop) "nrpwhy:").

(** The loop of [assignmentImport] over the properties: [out.Status] and
    [planningMeta.Data], or the error it returns with. *)
Fixpoint readProperties (props : list ExtProperty) (status : string)
    (data : BlockData) : import_error + string * BlockData :=
  match props with
  | [] => inr (status, data)
  | prop :: rest =>
    if String.eqb (ep_Type prop) "imext:status"
    then readProperties rest (strings_TrimPrefix (ep_Value prop) "imext:") data
    else if String.eqb (ep_Type prop) "imext:type"
    then if negb (String.eqb (ep_Value prop) "x-im/assignment")
         then inl (unexpected_type (ep_Value prop))
         else readProperties rest status data
    else if String.eqb (ep_Type prop) "nrpdate:start"
    then match parseNRPDate prop with
         | None => inl (invalid_timestamp (ep_Type prop))
         | Some (t, date, granularity) =>
           readProperties rest status
             (<["dateGranularity" := granularity]>
                (<["start" := time_Format RFC3339 t]>
                   (<["startDate" := date]> data)))
         end
    else if String.eqb (ep_Type prop) "nrpdate:end"
    then match parseNRPDate prop with
         | None => inl (invalid_timestamp (ep_Type prop))
         | Some (t, date, _) =>
           readProperties rest status
             (<["end" := time_Format RFC3339 t]> (<["endDate" := date]> data))
         end
    else readProperties rest status data
  end.

(** [assignmentImport], on what [GetObject] did and on the result the
    converter [ccaImport] has for the event: the result, and whether the
    event was added to the blocklist. *)
Definition assignmentImport (fetched : FetchResult) (defaultLanguage : string)
    (ccaImport : import_error + ConvertedDoc)
  : (import_error + ConvertedDoc) * bool :=
  match fetched with
  | HTTPNotFound => (inl errDeletedInSource, false)
  | XMLSyntaxError => (inl errIgnoreDocument, true)
  | FetchError => (inl fetch_failed, false)
  | Fetched assignment =>
    if String.eqb (pl_ItemClass assignment) "plinat:newscoverage"
    then (ccaImport, false)
    else
      let meta := List.map typeBlock (assignmentTypes (pl_ItemClass assignment)) in
      match readProperties (pl_Properties assignment) "draft" ∅ with
      | inl err => (inl err, false)
      | inr (status, data) =>
        let planningMeta :=
          mkBlock "" "" "" "" "core/assignment" "" (Some data) "" "" "" "" ""
            None None None in
        let meta := meta ++ [planningMeta] in
        match
          if negb (String.eqb (pl_DescriptionText assignment) "")
          then if negb (String.eqb (pl_DescriptionRole assignment) "nrpdesc:intern")
               then inl (unexpected_description_role (pl_DescriptionRole assignment))
               else inr (meta ++ [mkBlock "" "" "" "" "core/note" ""
                                    (Some {[ "text" := pl_DescriptionText assignment ]})
                                    "" "internal" "" "" "" None None None])
          else inr meta
        with
        | inl err => (inl err, false)
        | inr meta =>
          let '(updater, creator, units, docLinks) :=
            readLinks (pl_Links assignment) (mkIdentityReference "" "")
              (mkIdentityReference "" "") [] [] in
          (inr (mkConvertedDoc
                  (mkDocument (pl_GUID assignment) "core/assignment"
                     ("core://assignment/" ++ pl_GUID assignment) ""
                     (pl_Headline assignment) None (Some meta)
                     (appended docLinks) defaultLanguage)
                  status updater creator (appended units)),
           false)
        end
      end
  end.

End Planning.

End docformat.

(** ** Conditions on blocks *)

(** [P] holds for the elements of a slice. *)
Definition ForallO {A : Type} (P : A -> Prop) (o : option (list A)) : Prop :=
  match o with
  | Some l => List.Forall P l
  | None => True
  end.

(** A slice or map that is nil or has an element. *)
Definition nil_or_inhabited {A : Type} (o : option (list A)) : bool :=
  match o with
  | Some [] => false
  | _ => true
  end.

Definition nil_or_entries (data : option docformat.BlockData) : bool :=
  match data with
  | Some m => negb (Nat.eqb (size m) 0)
  | None => true
  end.

(** [f] holds for the elements of a slice. *)
Definition forallbO {A : Type} (f : A -> bool) (o : option (list A)) : bool :=
  match o with
  | Some l => List.forallb f l
  | None => true
  end.

(** No slice and no map of the block, or of a block below it, is empty
    without being nil. *)
Fixpoint canonical (b : docformat.Block) : bool :=
  nil_or_entries (docformat.b_Data b)
  && nil_or_inhabited (docformat.b_Links b)
  && forallbO canonical (docformat.b_Links b)
  && nil_or_inhabited (docformat.b_Content b)
  && forallbO canonical (docformat.b_Content b)
  && nil_or_inhabited (docformat.b_Meta b)
  && forallbO canonical (docformat.b_Meta b).

(** The same for a slice of blocks. *)
Definition canonical_blocks (blocks : option (list docformat.Block)) : bool :=
  nil_or_inhabited blocks && forallbO canonical blocks.

(** A block with a link, and a document that holds it. *)
Definition sample_block : docformat.Block :=
  docformat.mkBlock "b1" "" "core://article/1" "" "core/text" "Title"
    (Some {[ "text" := "hello" ]}) "" "" "" "" ""
    (Some [docformat.mkBlock "" "u2" "" "" "core/author" "Alice" None "author"
             "" "" "" "" None None None])
    None None.

(** A document of package docformat with one block of content. *)
Definition sample_document : docformat.Document :=
  docformat.mkDocument "u1" "core/article" "core://article/1" "" "Title"
    (Some [sample_block]) None None "sv".

(** The update behind version [v]. *)
Definition sample_update (v : Z) : docformat.DocumentUpdate :=
  docformat.mkDocumentUpdate v (v * 10)
    (docformat.mkIdentityReference "user://alice" "Alice") None.

(** A store of package docformat that knows one document, with three
    updates. *)
Definition sample_store (uuid : string)
  : option docformat.DocumentMeta * option docformat.StoreError :=
  if String.eqb uuid "u1"
  then (Some (docformat.mkDocumentMeta 10 30 3
                {[ "usable" := [docformat.mkStatus 1
                                  (docformat.mkIdentityReference "user://alice" "Alice")
                                  11 None;
                                docformat.mkStatus 3
                                  (docformat.mkIdentityReference "user://bob" "Bob")
                                  31 None];
                   "done" := [] ]}
                [sample_update 1; sample_update 2; sample_update 3] []), None)
  else (None, Some docformat.StoreNotFound).

(** The entry of the history for an update. *)
Definition historyEntry (time_Format : Time -> string)
    (up : docformat.DocumentUpdate) : docformat.RDocumentVersion :=
  docformat.mkRDocumentVersion (docformat.up_Version up)
    (time_Format (docformat.up_Created up))
    (docformat.IdentityReferenceToRPC (docformat.up_Updater up))
    (docformat.UpdateMetaToRPC (docformat.up_Meta up)).

(** The head of the statuses set under a name: the last of them,
    numbered by how many there are. *)
Definition headOf (time_Format : Time -> string)
    (statuses : list docformat.Status) : option docformat.RStatus :=
  match last statuses with
  | None => None
  | Some head =>
    Some (docformat.mkRStatus (Z.of_nat (length statuses))
            (docformat.s_Version head)
            (docformat.IdentityReferenceToRPC (docformat.s_Updater head))
            (time_Format (docformat.s_Created head))
            (docformat.UpdateMetaToRPC (docformat.s_Meta head)))
  end.

(** A link is an affiliation with an organisation, or with a unit. *)
Definition is_organisation (l : docformat.NMLBlock) : bool :=
  String.eqb (docformat.nml_Type l) "x-imid/organisation"
  && String.eqb (docformat.nml_Rel l) "affiliation".

Definition is_unit (u : docformat.NMLBlock) : bool :=
  String.eqb (docformat.nml_Type u) "x-imid/unit"
  && String.eqb (docformat.nml_Rel u) "affiliation".

(** A creator link with an organisation that has a unit. *)
Definition sample_creator : docformat.NMLBlock :=
  docformat.mkNMLBlock "" "Alice" "x-imid/user" "creator" "imid://user/1" "" "" []
    [docformat.mkNMLBlock "" "Org" "x-imid/organisation" "affiliation"
       "imid://organisation/1" "" "" []
       [docformat.mkNMLBlock "" "Sport" "x-imid/unit" "affiliation"
          "imid://unit/sport" "" "" [] [] [] []] [] []] [] [].

(** A [time.Parse] that tells the two layouts apart. *)
Definition sample_Parse (layout value : string) : option Time :=
  if String.eqb layout "2006-01-02" then Some 1 else Some 2.

(** ** Conditions on planning items *)

Definition hasType (type : string) (prop : docformat.ExtProperty) : bool :=
  String.eqb (docformat.ep_Type prop) type.

Definition hasRel (rel : string) (link : docformat.NMLBlock) : bool :=
  String.eqb (docformat.nml_Rel link) rel.

(** The reference to the person a link names. *)
Definition personOf (link : docformat.NMLBlock) : docformat.IdentityReference :=
  docformat.mkIdentityReference (docformat.nml_URI link) (docformat.nml_Title link).

(** The unit of a link, if it has one. *)
Definition unitsOf (link : docformat.NMLBlock) : list docformat.IdentityReference :=
  match docformat.newsMLUnitReference link with
  | (unit, true) => [unit]
  | (_, false) => []
  end.

(** The planning block and the note of an assignment. *)
Definition planningBlock (data : docformat.BlockData) : docformat.Block :=
  docformat.mkBlock "" "" "" "" "core/assignment" "" (Some data) "" "" "" "" ""
    None None None.

Definition noteBlocks (text : string) : list docformat.Block :=
  if String.eqb text "" then []
  else [docformat.mkBlock "" "" "" "" "core/note" "" (Some {[ "text" := text ]})
          "" "internal" "" "" "" None None None].

(** A planning item for a picture assignment, with two statuses. *)
Definition sample_planning : docformat.Planning :=
  docformat.mkPlanning "a1" "Cup final" "ninat:picture" "nrpdesc:intern" "Bring a long lens"
    [docformat.mkExtProperty "imext:status" "imext:draft" "" "";
     docformat.mkExtProperty "imext:type" "x-im/assignment" "" "";
     docformat.mkExtProperty "nrpdate:start" "2023-05-01" "" "nrpwhy:";
     docformat.mkExtProperty "imext:status" "imext:done" "" ""]
    [sample_creator;
     docformat.mkNMLBlock "" "Bob" "x-imid/user" "assigned-to" "imid://user/2" "" "u7"
       [("email", "bob@example.com")] [] [] []].

(** The current version of every document that is not being deleted is 0
    or has a version row. *)
Definition current_version_stored (db : postgres.DB) : Prop :=
  forall d, In d (postgres.document db) -> postgres.doc_Deleting d = false ->
    postgres.doc_CurrentVersion d = 0
    \/ List.existsb (postgres.version_key (postgres.doc_UUID d)
                       (postgres.doc_CurrentVersion d))
         (postgres.document_version db) = true.

(** An update of u1 at version 1 that carries a new payload. *)
Definition req_next : UpdateRequest :=
  mkUpdateRequest "u1" 20 "user://bob" ∅ [] [] [] (Some "B") 1.

(** * Properties *)

(** ** The preflight *)

Lemma updatePreflight_unfold w uuid ifMatch st :
  fault w (length (tx_log st)) = false ->
  updatePreflight w uuid ifMatch st =
  (updatePreflight_eval
     (match postgres.GetDocumentForUpdate (tx_db st) uuid with
      | Some r => Row r
      | None => ErrNoRows
      end) ifMatch,
   mkTxState (tx_db st) (tx_log st ++ [CGetDocumentForUpdate uuid])).
Proof. intros Hf. unfold updatePreflight. now rewrite Hf. Qed.

(** C1.  The preflight reads the document row and evaluates IfMatch
    against it.  A row marked deleting fails with DeleteLock, whatever
    IfMatch is.  For a row that is not, or no row: IfMatch = 0 imposes no
    precondition; IfMatch = -1 fails with OptimisticLock if and only if
    the document exists; IfMatch > 0 fails with OptimisticLock if and only
    if the current version (0 when there is no row) differs from it. *)
Theorem updatePreflight_IfMatch w uuid ifMatch st :
  fault w (length (tx_log st)) = false ->
  let row := postgres.GetDocumentForUpdate (tx_db st) uuid in
  let res := fst (updatePreflight w uuid ifMatch st) in
  let current := from_option postgres.CurrentVersion 0 row in
  let deleting := from_option postgres.Deleting false row in
  (deleting = true -> res = inl (DocStoreErrorf ErrCodeDeleteLock))
  /\ (deleting = false ->
      (ifMatch = 0 ->
         res = inr (mkUpdatePrefligthInfo
                      (default postgres.zero_GetDocumentForUpdateRow row)
                      (bool_decide (is_Some row))))
      /\ (ifMatch = -1 ->
          (res = inl (DocStoreErrorf ErrCodeOptimisticLock) <-> is_Some row))
      /\ (0 < ifMatch ->
          (res = inl (DocStoreErrorf ErrCodeOptimisticLock)
           <-> current <> ifMatch))).
Proof.
  intros Hf row res current deleting.
  subst res. rewrite (updatePreflight_unfold _ _ _ _ Hf). cbn [fst].
  subst current deleting. fold row.
  destruct row as [r|]; cbn [from_option default updatePreflight_eval].
  - split; [intros ->; reflexivity|]. intros ->.
    split; [intros ->; reflexivity|].
    split.
    + intros ->. cbn. split; [eauto|reflexivity].
    + intros Hpos.
      destruct (ifMatch =? 0) eqn:E0; [lia|].
      destruct (ifMatch =? -1) eqn:E1; [lia|].
      destruct (postgres.CurrentVersion r =? ifMatch) eqn:E; cbn;
        (split; [first [discriminate | lia] | first [reflexivity | lia]]).
  - split; [discriminate|]. intros _.
    split; [intros ->; reflexivity|].
    split.
    + intros ->. cbn. split; [discriminate|]. intros [? [=]].
    + intros Hpos.
      destruct ifMatch as [|p|p]; try lia.
      cbn. split; [intros _; lia | reflexivity].
Qed.

Lemma updatePreflight_IfMatch_witness :
  fault (quiet None) (length (tx_log tx_one_document)) = false
  /\ (fst (updatePreflight (quiet None) "u1" (-1) tx_one_document)
        = inl (DocStoreErrorf ErrCodeOptimisticLock)
      <-> is_Some (postgres.GetDocumentForUpdate (tx_db tx_one_document) "u1")).
Proof.
  split; [reflexivity|].
  destruct (updatePreflight_IfMatch (quiet None) "u1" (-1) tx_one_document
              eq_refl) as [_ H].
  destruct (H eq_refl) as (_ & H1 & _).
  exact (H1 eq_refl).
Defined.

(** ** Marking a status as archived *)

(** The statement leaves alone every status of another document or with
    another id. *)
Lemma SetDocumentStatusAsArchived_frame db signature uuid id s :
  In s (postgres.document_status db) ->
  postgres.st_UUID s <> uuid \/ postgres.st_ID s <> id ->
  In s (postgres.document_status
          (postgres.SetDocumentStatusAsArchived db signature uuid id)).
Proof.
  intros Hin Hne. cbn. apply in_map_iff. exists s. split; [|exact Hin].
  destruct (String.eqb_spec (postgres.st_UUID s) uuid) as [Hu|Hu]; cbn;
    [|reflexivity].
  destruct (Z.eqb_spec (postgres.st_ID s) id) as [Hi|Hi]; [|reflexivity].
  destruct Hne; contradiction.
Qed.

(** It marks every status of the document with that id, whatever its
    name. *)
Lemma SetDocumentStatusAsArchived_any_name db signature uuid id s :
  In s (postgres.document_status db) ->
  postgres.st_UUID s = uuid -> postgres.st_ID s = id ->
  In (postgres.mkDocumentStatus uuid (postgres.st_Name s) id
        (postgres.st_Version s) (postgres.st_Created s)
        (postgres.st_CreatorUri s) (postgres.st_Meta s) true (Some signature))
     (postgres.document_status
        (postgres.SetDocumentStatusAsArchived db signature uuid id)).
Proof.
  intros Hin Hu Hi. cbn. apply in_map_iff. exists s. split; [|exact Hin].
  rewrite Hu, Hi, String.eqb_refl, Z.eqb_refl. reflexivity.
Qed.

(** C3.  The statement marks a status by the document and the id alone.
    When the archiver has it mark the status (uuid, name, id), an
    unarchived status of the same document with another name and the
    same id does not keep its row: it is marked archived as well, and
    given the signature made for the other status. *)
Theorem SetDocumentStatusAsArchived_marks_other_name db signature uuid name id s :
  In s (postgres.document_status db) ->
  postgres.st_UUID s = uuid -> postgres.st_ID s = id ->
  postgres.st_Name s <> name ->
  postgres.st_Archived s = false ->
  In (postgres.mkDocumentStatus uuid (postgres.st_Name s) id
        (postgres.st_Version s) (postgres.st_Created s)
        (postgres.st_CreatorUri s) (postgres.st_Meta s) true (Some signature))
     (postgres.document_status
        (postgres.SetDocumentStatusAsArchived db signature uuid id))
  /\ ~ In s (postgres.document_status
               (postgres.SetDocumentStatusAsArchived db signature uuid id)).
Proof.
  intros Hin Hu Hi _ Harch. split.
  - now apply SetDocumentStatusAsArchived_any_name.
  - cbn. intros H. apply in_map_iff in H as (s0 & Hs0 & _).
    destruct (String.eqb_spec (postgres.st_UUID s0) uuid) as [Hu0|Hu0];
      cbn in Hs0.
    + destruct (Z.eqb_spec (postgres.st_ID s0) id) as [Hi0|Hi0].
      * rewrite <- Hs0 in Harch. discriminate.
      * subst s0. congruence.
    + subst s0. congruence.
Qed.

(** On the document u1 with the unarchived statuses (usable, 1) and
    (done, 1), marking (usable, 1) marks (done, 1) too. *)
Lemma SetDocumentStatusAsArchived_marks_other_name_witness :
  postgres.document_status
    (postgres.SetDocumentStatusAsArchived db_two_names "sig-usable-1" "u1" 1)
  = [postgres.mkDocumentStatus "u1" "usable" 1 1 11 "user://alice" None true
       (Some "sig-usable-1");
     postgres.mkDocumentStatus "u1" "done" 1 1 12 "user://alice" None true
       (Some "sig-usable-1")]
  /\ ~ In (postgres.mkDocumentStatus "u1" "done" 1 1 12 "user://alice" None
             false None)
          (postgres.document_status
             (postgres.SetDocumentStatusAsArchived db_two_names "sig-usable-1"
                "u1" 1)).
Proof.
  split; [reflexivity|].
  refine (proj2 (SetDocumentStatusAsArchived_marks_other_name db_two_names
                   "sig-usable-1" "u1" "usable" 1
                   (postgres.mkDocumentStatus "u1" "done" 1 1 12 "user://alice"
                      None false None) _ eq_refl eq_refl _ eq_refl)).
  - right. left. reflexivity.
  - discriminate.
Defined.

(** ** The active schemas *)

Lemma appendSchemas_result json_Unmarshal rows : forall res out,
  appendSchemas json_Unmarshal rows res = inr out ->
  exists schemas,
    out = res ++ List.map Some schemas
    /\ length schemas = length rows.
Proof.
  induction rows as [|row rest IH]; intros res out H; cbn in H.
  - exists []. inversion H. cbn. now rewrite app_nil_r.
  - destruct (json_Unmarshal (postgres.sch_Spec row)) as [spec|]; [|discriminate].
    apply IH in H as (schemas & -> & Hlen).
    exists (mkSchema (postgres.sch_Name row) (postgres.sch_Version row) spec
              :: schemas).
    split; [now rewrite <- app_assoc | cbn; now rewrite Hlen].
Qed.

(** C10.  Whenever [GetActiveSchemas] succeeds on n rows with n > 0, its
    result is not the list of the n schemas: it has 2n entries, the first
    n of them nil, and the schemas come after these. *)
Theorem GetActiveSchemas_nil_entries json_Unmarshal rows out :
  GetActiveSchemas json_Unmarshal (inr rows) = inr out ->
  length out = (2 * length rows)%nat
  /\ List.firstn (length rows) out = List.repeat None (length rows)
  /\ exists schemas,
       length schemas = length rows
       /\ List.skipn (length rows) out = List.map Some schemas.
Proof.
  unfold GetActiveSchemas. intros H.
  apply appendSchemas_result in H as (schemas & -> & Hlen).
  split; [|split].
  - rewrite List.length_app, List.repeat_length, List.length_map. lia.
  - rewrite List.firstn_app, List.repeat_length, Nat.sub_diag. cbn.
    rewrite app_nil_r. apply List.firstn_all2. rewrite List.repeat_length. lia.
  - exists schemas. split; [exact Hlen|].
    rewrite List.skipn_app, List.repeat_length, Nat.sub_diag. cbn.
    rewrite List.skipn_all2 by (rewrite List.repeat_length; lia). reflexivity.
Qed.

(** With one active schema in the store the result is a nil entry, then
    the schema. *)
Lemma GetActiveSchemas_nil_entries_witness :
  GetActiveSchemas (fun spec => Some spec)
    (inr [postgres.mkDocumentSchema "core/article" "v1.0.0" "{}"])
  = inr [None; Some (mkSchema "core/article" "v1.0.0" "{}")]
  /\ length [None; Some (mkSchema "core/article" "v1.0.0" "{}")] = 2%nat.
Proof.
  split; [reflexivity|].
  exact (proj1 (GetActiveSchemas_nil_entries (fun spec => Some spec)
                  [postgres.mkDocumentSchema "core/article" "v1.0.0" "{}"]
                  [None; Some (mkSchema "core/article" "v1.0.0" "{}")] eq_refl)).
Defined.

(** ** The archiver's status selector *)

Lemma earliest_least rows r :
  postgres.earliest rows = Some r ->
  In r rows
  /\ forall r', In r' rows ->
       postgres.st_Created (fst (fst r)) <= postgres.st_Created (fst (fst r')).
Proof.
  revert r. induction rows as [|a rest IH]; intros r H; cbn in H; [discriminate|].
  destruct (postgres.earliest rest) as [m|] eqn:E.
  - destruct (IH m eq_refl) as [Hin Hle].
    destruct (Z.leb_spec (postgres.st_Created (fst (fst a)))
                (postgres.st_Created (fst (fst m)))) as [Hc|Hc];
      inversion H; subst r.
    + split; [now left|]. intros r' [<-|Hr']; [lia|].
      specialize (Hle r' Hr'). lia.
    + split; [now right|]. intros r' [<-|Hr']; [lia|]. now apply Hle.
  - inversion H; subst r. destruct rest; [|cbn in E; destruct (postgres.earliest rest);
      [destruct (_ <=? _)|]; discriminate].
    split; [now left|]. intros r' [<-|[]]. lia.
Qed.

Lemma earliest_some rows : rows <> [] -> postgres.earliest rows <> None.
Proof.
  destruct rows as [|a rest]; [congruence|]. intros _. cbn.
  destruct (postgres.earliest rest); [destruct (_ <=? _)|]; discriminate.
Qed.

(** What a row of the join holds. *)
Lemma status_join_in db s v p :
  In (s, v, p) (postgres.status_join db) ->
  In s (postgres.document_status db)
  /\ In v (postgres.document_version db)
  /\ postgres.pinned_version_on s v = true
  /\ match p with
     | Some p => In p (postgres.document_status db)
                 /\ postgres.parent_on s p = true
     | None => True
     end.
Proof.
  unfold postgres.status_join. intros H.
  apply in_flat_map in H as (s0 & Hs0 & H).
  apply in_flat_map in H as (v0 & Hv0 & H).
  apply filter_In in Hv0 as [Hv0 Hpin].
  destruct (List.filter (postgres.parent_on s0) (postgres.document_status db))
    as [|p0 ps] eqn:E.
  - destruct H as [H|[]]. inversion H; subst. auto.
  - apply in_map_iff in H as (p1 & H & Hp1). inversion H; subst.
    rewrite <- E in Hp1. apply filter_In in Hp1 as [Hp1 Hpar]. auto.
Qed.

(** Every eligible status has a row in the join that passes the WHERE
    clause. *)
Lemma eligible_in_join db s :
  In s (postgres.document_status db) -> eligible db s = true ->
  exists v p,
    In (s, v, p) (List.filter postgres.archiving_where (postgres.status_join db)).
Proof.
  unfold eligible. intros Hs H.
  apply andb_prop in H as [H Hpin]. apply andb_prop in H as [Harch Hpar].
  apply existsb_exists in Hpin as (v & Hv & Hpin).
  assert (Hvf : In v (List.filter (postgres.pinned_version_on s)
                        (postgres.document_version db)))
    by (apply filter_In; auto).
  destruct (List.existsb (fun p => postgres.parent_on s p && postgres.st_Archived p)
              (postgres.document_status db)) eqn:Ep.
  - apply existsb_exists in Ep as (p & Hp & Hpp).
    apply andb_prop in Hpp as [Hon Hpa].
    exists v, (Some p). apply filter_In. split.
    + unfold postgres.status_join. apply in_flat_map. exists s. split; [exact Hs|].
      apply in_flat_map. exists v. split; [exact Hvf|].
      assert (Hpf : In p (List.filter (postgres.parent_on s)
                            (postgres.document_status db)))
        by (apply filter_In; auto).
      destruct (List.filter (postgres.parent_on s) (postgres.document_status db));
        [destruct Hpf|].
      apply in_map_iff. exists p. auto.
    + cbn. rewrite Harch, Hpa. cbn. apply orb_true_r.
  - unfold parent_archived in Hpar. rewrite Ep, orb_false_r in Hpar.
    destruct (List.filter (postgres.parent_on s) (postgres.document_status db))
      as [|p0 ps] eqn:E.
    + exists v, None. apply filter_In. split.
      * unfold postgres.status_join. apply in_flat_map. exists s. split; [exact Hs|].
        apply in_flat_map. exists v. split; [exact Hvf|]. rewrite E. now left.
      * cbn. rewrite Harch, Hpar. reflexivity.
    + exists v, (Some p0). apply filter_In. split.
      * unfold postgres.status_join. apply in_flat_map. exists s. split; [exact Hs|].
        apply in_flat_map. exists v. split; [exact Hvf|]. rewrite E. now left.
      * cbn. rewrite Harch, Hpar. reflexivity.
Qed.

(** C6.  The status selector returns only a status row that is not
    archived, that has id 1 or whose predecessor (same document and name,
    id - 1) is archived, and whose pinned version exists and carries a
    signature (so is archived, wherever only archived versions are
    signed); and no eligible status has an earlier creation time. *)
Theorem GetDocumentStatusForArchiving_eligible_earliest db r :
  postgres.GetDocumentStatusForArchiving db = Some r ->
  exists s v,
    In s (postgres.document_status db)
    /\ In v (postgres.document_version db)
    /\ (postgres.sfa_Uuid r, postgres.sfa_Name r, postgres.sfa_ID r,
        postgres.sfa_Version r, postgres.sfa_Created r)
       = (postgres.st_UUID s, postgres.st_Name s, postgres.st_ID s,
          postgres.st_Version s, postgres.st_Created s)
    /\ postgres.st_Archived s = false
    /\ (postgres.st_ID s = 1
        \/ exists p, In p (postgres.document_status db)
             /\ postgres.st_UUID p = postgres.st_UUID s
             /\ postgres.st_Name p = postgres.st_Name s
             /\ postgres.st_ID p = postgres.st_ID s - 1
             /\ postgres.st_Archived p = true)
    /\ postgres.ver_UUID v = postgres.st_UUID s
    /\ postgres.ver_Version v = postgres.st_Version s
    /\ is_Some (postgres.ver_Signature v)
    /\ postgres.sfa_VersionSignature r = postgres.ver_Signature v
    /\ (signed_versions_archived db -> postgres.ver_Archived v = true)
    /\ forall s', In s' (postgres.document_status db) ->
         eligible db s' = true ->
         postgres.st_Created s <= postgres.st_Created s'.
Proof.
  unfold postgres.GetDocumentStatusForArchiving. intros H.
  destruct (postgres.earliest _) as [[[s v] p]|] eqn:E; [|discriminate].
  inversion H; subst r; clear H. cbn.
  apply earliest_least in E as [Hin Hleast].
  apply filter_In in Hin as [Hjoin Hwhere].
  apply status_join_in in Hjoin as (Hs & Hv & Hpin & Hp).
  unfold postgres.pinned_version_on in Hpin.
  apply andb_prop in Hpin as [Hpin Hsig]. apply andb_prop in Hpin as [Hvu Hvv].
  apply String.eqb_eq in Hvu. apply Z.eqb_eq in Hvv.
  cbn in Hwhere. apply andb_prop in Hwhere as [Harch Hchain].
  apply negb_true_iff in Harch.
  assert (Hsome : is_Some (postgres.ver_Signature v))
    by (destruct (postgres.ver_Signature v); [eauto|discriminate]).
  exists s, v. repeat (split; [solve [auto]|]).
  split.
  { apply orb_prop in Hchain as [Hone|Hpa]; [left; now apply Z.eqb_eq|].
    right. destruct p as [p|]; [|discriminate]. destruct Hp as [Hp Hon].
    unfold postgres.parent_on in Hon.
    apply andb_prop in Hon as [Hon Hid]. apply andb_prop in Hon as [Hu Hn].
    apply String.eqb_eq in Hu, Hn. apply Z.eqb_eq in Hid.
    exists p. auto. }
  repeat (split; [solve [auto]|]).
  intros s' Hs' Hel.
  destruct (eligible_in_join db s' Hs' Hel) as (v' & p' & Hin').
  exact (Hleast _ Hin').
Qed.

(** Conversely, the selector finds a row whenever a status is eligible. *)
Lemma GetDocumentStatusForArchiving_finds db s :
  In s (postgres.document_status db) -> eligible db s = true ->
  postgres.GetDocumentStatusForArchiving db <> None.
Proof.
  intros Hs Hel. destruct (eligible_in_join db s Hs Hel) as (v & p & Hin).
  unfold postgres.GetDocumentStatusForArchiving.
  destruct (postgres.earliest _) as [[[s0 v0] p0]|] eqn:E; [discriminate|].
  exfalso. revert E. apply earliest_some. intros E. now rewrite E in Hin.
Qed.

Lemma GetDocumentStatusForArchiving_eligible_earliest_witness :
  postgres.GetDocumentStatusForArchiving db_two_names
    = Some (postgres.mkGetDocumentStatusForArchivingRow "u1" "usable" 1 1 11
              "user://alice" None None (Some "sig-v1"))
  /\ exists s v,
       In s (postgres.document_status db_two_names)
       /\ In v (postgres.document_version db_two_names)
       /\ postgres.st_Archived s = false
       /\ is_Some (postgres.ver_Signature v).
Proof.
  split; [reflexivity|].
  destruct (GetDocumentStatusForArchiving_eligible_earliest db_two_names _
              eq_refl)
    as (s & v & Hs & Hv & _ & Harch & _ & _ & _ & Hsig & _).
  exists s, v. auto.
Defined.

(** ** Transactions *)

Lemma bind_inr {A B : Type} (m : Tx A) (k : A -> Tx B) st b st' :
  bind m k st = (inr b, st') ->
  exists a st1, m st = (inr a, st1) /\ k a st1 = (inr b, st').
Proof.
  unfold bind. destruct (m st) as [[e|a] st1]; [discriminate|]. eauto.
Qed.

Lemma wrap_err_inr {A : Type} msg (m : Tx A) st a st' :
  wrap_err msg m st = (inr a, st') -> m st = (inr a, st').
Proof.
  unfold wrap_err. destruct (m st) as [[e|a'] st1]; [discriminate|]. auto.
Qed.

Lemma call_inr {A : Type} w c (run : postgres.DB -> error + A * postgres.DB)
    st a st' :
  call w c run st = (inr a, st') ->
  fault w (length (tx_log st)) = false
  /\ exists db', run (tx_db st) = inr (a, db')
       /\ st' = mkTxState db' (tx_log st ++ [c]).
Proof.
  unfold call. destruct (fault w _); [discriminate|].
  destruct (run (tx_db st)) as [e|[a' db']]; [discriminate|].
  intros H. inversion H; subst. eauto.
Qed.

(** A call that succeeded, under its error wrapper: the database it left
    and what it ran to. *)
Tactic Notation "tx_call" hyp(H) "as" ident(db) ident(Hrun) :=
  apply wrap_err_inr, call_inr in H as (_ & db & Hrun & ->).

(** Whatever a transaction did, an error leaves the committed database as
    it was, and so does a failing begin or commit. *)
Lemma transaction_error {A : Type} w db msg (body : Tx A) e db' log :
  transaction w db msg body = (inl e, db', log) -> db' = db.
Proof.
  unfold transaction, commit. destruct (fault w 0); [now inversion 1|].
  destruct (body _) as [[e'|a] st]; [now inversion 1|].
  destruct (fault w _); now inversion 1.
Qed.

Lemma transaction_inr {A : Type} w db msg (body : Tx A) a db' log :
  transaction w db msg body = (inr a, db', log) ->
  fault w 0 = false
  /\ exists st, body (mkTxState db [CBegin]) = (inr a, st)
       /\ fault w (length (tx_log st)) = false
       /\ db' = tx_db st /\ log = tx_log st ++ [CCommit].
Proof.
  unfold transaction, commit. destruct (fault w 0); [discriminate|].
  destruct (body _) as [[e'|a'] st]; [discriminate|].
  destruct (fault w (length (tx_log st))) eqn:Ef; [discriminate|].
  intros H. inversion H; subst. split; [reflexivity|]. exists st. auto.
Qed.

Lemma updatePreflight_inr w uuid ifMatch st info st' :
  updatePreflight w uuid ifMatch st = (inr info, st') ->
  let row := postgres.GetDocumentForUpdate (tx_db st) uuid in
  fault w (length (tx_log st)) = false
  /\ tx_db st' = tx_db st
  /\ tx_log st' = tx_log st ++ [CGetDocumentForUpdate uuid]
  /\ Info info = default postgres.zero_GetDocumentForUpdateRow row
  /\ Exists info = bool_decide (is_Some row)
  /\ postgres.Deleting (Info info) = false.
Proof.
  unfold updatePreflight. cbv zeta. intros H.
  set (row := postgres.GetDocumentForUpdate (tx_db st) uuid) in *.
  destruct (fault w _); [discriminate|].
  inversion H as [[Heval Hst]]. split; [reflexivity|]. cbn.
  do 2 (split; [reflexivity|]).
  destruct row as [r|]; cbn [updatePreflight_eval default] in Heval |- *.
  - destruct (postgres.Deleting r) eqn:Ed; [discriminate|].
    destruct (ifMatch =? 0); [inversion Heval; auto|].
    destruct (ifMatch =? -1); [discriminate|].
    destruct (negb _); [discriminate|]. inversion Heval; auto.
  - change (postgres.Deleting postgres.zero_GetDocumentForUpdateRow)
      with false in Heval. cbv iota in Heval.
    destruct (ifMatch =? 0); [inversion Heval; auto|].
    destruct (ifMatch =? -1); [inversion Heval; auto|].
    destruct (negb _); [discriminate|]. inversion Heval; auto.
Qed.

(** ** The steps of an update *)

Lemma createVersion_inr w update up docJSON metaJSON st st' :
  createVersion w update up docJSON metaJSON st = (inr tt, st') ->
  postgres.document_version (tx_db st')
    = postgres.document_version (tx_db st)
      ++ versionRows update up docJSON metaJSON
  /\ postgres.document_status (tx_db st') = postgres.document_status (tx_db st)
  /\ postgres.status_heads (tx_db st') = postgres.status_heads (tx_db st)
  /\ postgres.acl (tx_db st') = postgres.acl (tx_db st)
  /\ postgres.acl_audit (tx_db st') = postgres.acl_audit (tx_db st)
  /\ postgres.delete_record (tx_db st') = postgres.delete_record (tx_db st)
  /\ tx_log st'
     = tx_log st ++ match ur_Document update with
                    | Some _ => [CCreateVersion (ur_UUID update) (du_Version up)]
                    | None => []
                    end.
Proof.
  unfold createVersion, versionRows.
  destruct (ur_Document update) as [d|].
  - intros H. apply wrap_err_inr, call_inr in H as (_ & db' & Hrun & ->).
    unfold postgres.CreateVersion in Hrun.
    destruct (List.existsb _ _); [discriminate|].
    inversion Hrun; subst db'. cbn. auto 10.
  - unfold ret. intros H. inversion H; subst st'.
    rewrite !app_nil_r. auto 10.
Qed.

Lemma getStatusHeads_inr w update st h st' :
  getStatusHeads w update st = (inr h, st') ->
  tx_db st' = tx_db st
  /\ h = match ur_Status update with
         | [] => ∅
         | _ => loadHeads (postgres.GetDocumentHeads (tx_db st) (ur_UUID update))
         end
  /\ tx_log st'
     = tx_log st ++ match ur_Status update with
                    | [] => []
                    | _ => [CGetDocumentHeads (ur_UUID update)]
                    end.
Proof.
  unfold getStatusHeads. destruct (ur_Status update) as [|s0 ss].
  - unfold ret. intros H. inversion H; subst. now rewrite app_nil_r.
  - intros H. apply bind_inr in H as (heads & st1 & H1 & H2).
    apply wrap_err_inr, call_inr in H1 as (_ & db' & Hrun & ->).
    inversion Hrun; subst. unfold ret in H2. inversion H2; subst. cbn. auto.
Qed.

Lemma createStatuses_inr w update upVersion h sms : forall st st',
  createStatuses w update upVersion h sms st = (inr tt, st') ->
  postgres.document (tx_db st') = postgres.document (tx_db st)
  /\ postgres.document_version (tx_db st') = postgres.document_version (tx_db st)
  /\ postgres.document_status (tx_db st')
     = postgres.document_status (tx_db st)
       ++ List.map (statusRow update upVersion h) sms
  /\ postgres.acl (tx_db st') = postgres.acl (tx_db st)
  /\ postgres.acl_audit (tx_db st') = postgres.acl_audit (tx_db st)
  /\ postgres.delete_record (tx_db st') = postgres.delete_record (tx_db st)
  /\ tx_log st' = tx_log st ++ List.map (statusCall update upVersion h) sms.
Proof.
  induction sms as [|[stat meta] rest IH]; intros st st' H; cbn in H.
  - unfold ret in H. inversion H; subst. cbn. rewrite !app_nil_r. auto 10.
  - apply bind_inr in H as ([] & st1 & H1 & H2).
    apply wrap_err_inr, call_inr in H1 as (_ & db' & Hrun & ->).
    destruct (postgres.CreateStatus _ _ _ _ _ _ _ _) as [db1|] eqn:Ecs;
      [|discriminate].
    inversion Hrun; subst db'. clear Hrun.
    apply IH in H2 as (Hd & Hv & Hs & Ha & Hau & Hdel & Hlog). cbn in *.
    unfold postgres.CreateStatus in Ecs.
    destruct (List.existsb _ _); [discriminate|]. inversion Ecs; subst db1.
    cbn in *. rewrite Hd, Hv, Hs, Ha, Hau, Hdel, Hlog, <- !app_assoc. cbn.
    auto 10.
Qed.

Lemma same_but_acl_refl db : same_but_acl db db.
Proof. unfold same_but_acl. auto. Qed.

Lemma same_but_acl_trans a b c :
  same_but_acl a b -> same_but_acl b c -> same_but_acl a c.
Proof.
  unfold same_but_acl. intros (H1 & H2 & H3 & H4 & H5) (G1 & G2 & G3 & G4 & G5).
  rewrite H1, H2, H3, H4, H5. auto.
Qed.

Lemma dropEmptyEntries_inr w uuid entries : forall st acls st',
  dropEmptyEntries w uuid entries st = (inr acls, st') ->
  acls = keptEntries entries
  /\ same_but_acl (tx_db st') (tx_db st)
  /\ postgres.acl (tx_db st') = droppedRows uuid entries (postgres.acl (tx_db st))
  /\ postgres.acl_audit (tx_db st') = postgres.acl_audit (tx_db st)
  /\ tx_log st'
     = tx_log st ++ List.map (fun e => CDropACL uuid (URI e))
                      (List.filter noPermissions entries).
Proof.
  induction entries as [|e rest IH]; intros st acls st' H; cbn in H.
  - unfold ret in H. inversion H; subst. cbn. rewrite app_nil_r.
    auto using same_but_acl_refl.
  - unfold keptEntries, droppedRows, noPermissions in *. cbn [List.filter].
    destruct (Permissions e) as [|p ps] eqn:Ep; cbn [negb].
    + apply bind_inr in H as ([] & st1 & H1 & H2).
      apply wrap_err_inr, call_inr in H1 as (_ & db' & Hrun & ->).
      inversion Hrun; subst db'. clear Hrun.
      apply IH in H2 as (-> & Hsame & Hacl & Haud & Hlog). cbn in *.
      rewrite Hacl, Haud, Hlog, <- app_assoc.
      repeat split; try reflexivity; apply Hsame.
    + apply bind_inr in H as (acls' & st1 & H1 & H2).
      unfold ret in H2. inversion H2; subst.
      apply IH in H1 as (-> & Hsame & Hacl & Haud & Hlog).
      cbn. rewrite Ep. auto.
Qed.

Lemma updateACL_nil w uuid st : updateACL w uuid [] st = (inr tt, st).
Proof. reflexivity. Qed.

(** [updateACL] with a list that is not empty succeeds only in an
    authenticated context; it then leaves the ACL rows as the drops and
    the batch make them, and adds one audit entry, in the name of the
    subject of the context, with the state of these rows. *)
Lemma updateACL_inr w uuid entries st st' :
  entries <> [] ->
  updateACL w uuid entries st = (inr tt, st') ->
  exists subject,
    auth_Subject w = Some subject
    /\ same_but_acl (tx_db st') (tx_db st)
    /\ postgres.acl (tx_db st') = aclRows uuid entries (postgres.acl (tx_db st))
    /\ postgres.acl_audit (tx_db st')
       = postgres.acl_audit (tx_db st)
         ++ [auditEntry w uuid subject (postgres.acl (tx_db st'))]
    /\ tx_log st' = tx_log st ++ aclCalls w uuid subject entries.
Proof.
  intros Hne H. unfold updateACL in H.
  destruct entries as [|e0 es]; [congruence|].
  destruct (auth_Subject w) as [subject|]; [|discriminate].
  exists subject. split; [reflexivity|].
  apply bind_inr in H as (acls & st1 & H1 & H2).
  apply dropEmptyEntries_inr in H1 as (-> & Hsame & Hacl & Haud & Hlog).
  apply bind_inr in H2 as ([] & st2 & H2 & H3).
  tx_call H3 as db3 Hrun.
  inversion Hrun; subst db3. clear Hrun.
  unfold aclRows, aclCalls, auditEntry.
  destruct (keptEntries (e0 :: es)) as [|k ks] eqn:Ek.
  - unfold ret in H2. inversion H2; subst st2.
    unfold postgres.InsertACLAuditEntry, postgres.acl_state, same_but_acl.
    cbn -[droppedRows List.filter List.map].
    rewrite Hacl, Haud, Hlog, <- app_assoc.
    split; [exact Hsame|]. auto.
  - tx_call H2 as db2 Hrun.
    inversion Hrun; subst db2. clear Hrun.
    unfold postgres.InsertACLAuditEntry, postgres.ACLUpdate,
      postgres.acl_state, same_but_acl.
    cbn -[droppedRows List.filter List.map List.fold_left].
    rewrite Hacl, Haud, Hlog, <- !app_assoc.
    split; [exact Hsame|]. auto.
Qed.

Lemma marshalStatusMeta_length w status statusMeta :
  marshalStatusMeta w status = inr statusMeta ->
  length statusMeta = length status.
Proof.
  revert statusMeta. induction status as [|stat rest IH]; intros sm H; cbn in H.
  - now inversion H.
  - destruct (marshalMeta _ _ _); [discriminate|].
    destruct (marshalStatusMeta w rest) as [|ds]; [discriminate|].
    inversion H; subst. cbn. now rewrite (IH ds eq_refl).
Qed.

Lemma marshalUpdate_length w update docJSON metaJSON statusMeta :
  marshalUpdate w update = inr (docJSON, metaJSON, statusMeta) ->
  length statusMeta = length (ur_Status update).
Proof.
  unfold marshalUpdate. intros H.
  destruct (match ur_Document update with Some _ => _ | None => _ end);
    [discriminate|].
  destruct (marshalMeta _ _ _); [discriminate|].
  destruct (marshalStatusMeta w (ur_Status update)) eqn:E; [discriminate|].
  inversion H; subst. now apply marshalStatusMeta_length in E.
Qed.

(** The steps a successful transaction of [Update] went through. *)
Lemma updateBody_inr w update docJSON metaJSON statusMeta st up st' :
  updateBody w update docJSON metaJSON statusMeta st = (inr up, st') ->
  exists info st1 st2 h st3 st4,
    updatePreflight w (ur_UUID update) (ur_IfMatch update) st = (inr info, st1)
    /\ up = mkDocumentUpdate (updateVersion update info) (ur_Updater update)
              (ur_Updated update) (ur_Meta update)
    /\ createVersion w update up docJSON metaJSON st1 = (inr tt, st2)
    /\ getStatusHeads w update st2 = (inr h, st3)
    /\ createStatuses w update (du_Version up) h
         (List.combine (ur_Status update) statusMeta) st3 = (inr tt, st4)
    /\ updateACL w (ur_UUID update) (effectiveACL update (Exists info)) st4
       = (inr tt, st').
Proof.
  unfold updateBody. intros H.
  apply bind_inr in H as (info & st1 & H1 & H).
  apply bind_inr in H as ([] & st2 & H2 & H).
  apply bind_inr in H as (h & st3 & H3 & H).
  apply bind_inr in H as ([] & st4 & H4 & H).
  apply bind_inr in H as ([] & st5 & H5 & H).
  unfold ret in H. inversion H; subst. apply wrap_err_inr in H5.
  exists info, st1, st2, h, st3, st4. auto 10.
Qed.

(** What a successful [Update] leaves in the tables, and the calls it
    made. *)
Lemma Update_inr w db update up db' log :
  Update w db update = (inr up, db', log) ->
  exists docJSON metaJSON statusMeta info,
    marshalUpdate w update = inr (docJSON, metaJSON, statusMeta)
    /\ Info info = default postgres.zero_GetDocumentForUpdateRow
                     (postgres.GetDocumentForUpdate db (ur_UUID update))
    /\ Exists info
       = bool_decide (is_Some (postgres.GetDocumentForUpdate db (ur_UUID update)))
    /\ up = mkDocumentUpdate (updateVersion update info) (ur_Updater update)
              (ur_Updated update) (ur_Meta update)
    /\ postgres.document_version db'
       = postgres.document_version db ++ versionRows update up docJSON metaJSON
    /\ postgres.document_status db'
       = postgres.document_status db
         ++ List.map (statusRow update (du_Version up) (headsFor db update))
              (List.combine (ur_Status update) statusMeta)
    /\ postgres.delete_record db' = postgres.delete_record db
    /\ match effectiveACL update (Exists info) with
       | [] =>
         postgres.acl db' = postgres.acl db
         /\ postgres.acl_audit db' = postgres.acl_audit db
         /\ log = updateCalls update up (headsFor db update) statusMeta
                  ++ [CCommit]
       | entries =>
         exists subject,
           auth_Subject w = Some subject
           /\ postgres.acl db' = aclRows (ur_UUID update) entries (postgres.acl db)
           /\ postgres.acl_audit db'
              = postgres.acl_audit db
                ++ [auditEntry w (ur_UUID update) subject (postgres.acl db')]
           /\ log = updateCalls update up (headsFor db update) statusMeta
                    ++ aclCalls w (ur_UUID update) subject entries ++ [CCommit]
       end.
Proof.
  unfold Update. intros H.
  destruct (marshalUpdate w update) as [e|[[docJSON metaJSON] statusMeta]] eqn:Em;
    [now inversion H|].
  apply transaction_inr in H as (_ & st & Hbody & _ & -> & ->).
  apply updateBody_inr in Hbody
    as (info & st1 & st2 & h & st3 & st4 & H1 & Hup & H2 & H3 & H4 & H5).
  apply updatePreflight_inr in H1 as (_ & Hdb1 & Hlog1 & Hinfo & Hex & _).
  apply createVersion_inr in H2 as (Hv2 & Hs2 & Hh2 & Ha2 & Hau2 & Hd2 & Hlog2).
  apply getStatusHeads_inr in H3 as (Hdb3 & Hh & Hlog3).
  apply createStatuses_inr in H4 as (_ & Hv4 & Hs4 & Ha4 & Hau4 & Hd4 & Hlog4).
  cbn [tx_db tx_log] in *.
  assert (Hheads : h = headsFor db update).
  { rewrite Hh. unfold headsFor, postgres.GetDocumentHeads.
    now rewrite Hh2, Hdb1. }
  clear Hh. subst h.
  exists docJSON, metaJSON, statusMeta, info.
  split; [reflexivity|]. do 3 (split; [assumption|]).
  assert (Hlog : tx_log st4
                 = updateCalls update up (headsFor db update) statusMeta).
  { rewrite Hlog4, Hlog3, Hlog2, Hlog1. unfold updateCalls. cbn.
    now rewrite <- !app_assoc. }
  destruct (effectiveACL update (Exists info)) as [|e0 es] eqn:Eeff.
  - rewrite updateACL_nil in H5. inversion H5; subst st.
    rewrite Hv4, Hs4, Ha4, Hau4, Hd4, Hdb3, Hv2, Hs2, Ha2, Hau2, Hd2, Hdb1, Hlog.
    auto 10.
  - apply updateACL_inr in H5 as (subject & Hauth & Hsame & Hacl & Haud & Hlog5);
      [|discriminate].
    destruct Hsame as (_ & Hv5 & Hs5 & _ & Hd5).
    rewrite Hv5, Hs5, Hd5, Hv4, Hs4, Hd4, Hdb3, Hv2, Hs2, Hd2, Hdb1.
    do 3 (split; [reflexivity|]).
    exists subject. split; [assumption|].
    rewrite Haud, Hacl, Hlog5, Hlog, Ha4, Hau4, Hdb3, Ha2, Hau2, Hdb1.
    rewrite <- !app_assoc. auto.
Qed.

(** ** The version of an update and the versions its statuses pin *)

Lemma int64_succ_in_range x :
  int64_min <= x < int64_max -> int64_succ x = x + 1.
Proof.
  unfold int64_succ, wrap64, int64_min, int64_max. intros H.
  rewrite Z.mod_small; lia.
Qed.

Lemma Forall2_map_combine {A B C : Type} (P : A -> C -> Prop) (f : A * B -> C)
    (l : list A) : forall (m : list B),
  length m = length l ->
  (forall a b, P a (f (a, b))) ->
  Forall2 P l (List.map f (List.combine l m)).
Proof.
  induction l as [|a l IH]; intros [|b m] Hlen Hf; cbn in *;
    try discriminate; constructor; auto.
Qed.

(** C5.  A successful [Update] returns the current version (0 for a
    missing document) incremented as an int64 when the request carries a
    document, which is the current version plus one below the greatest
    int64, and the current version itself when it does not; and the rows
    it adds to the statuses are those of the request, in order, a status
    with pinned version 0 pinning the returned version. *)
Theorem Update_version_and_pins w db update up db' log :
  Update w db update = (inr up, db', log) ->
  let current := from_option postgres.CurrentVersion 0
                   (postgres.GetDocumentForUpdate db (ur_UUID update)) in
  du_Version up = match ur_Document update with
                  | Some _ => int64_succ current
                  | None => current
                  end
  /\ (int64_min <= current < int64_max ->
      du_Version up = match ur_Document update with
                      | Some _ => current + 1
                      | None => current
                      end)
  /\ exists rows,
       postgres.document_status db' = postgres.document_status db ++ rows
       /\ Forall2
            (fun stat row =>
               postgres.st_UUID row = ur_UUID update
               /\ postgres.st_Name row = su_Name stat
               /\ (su_Version stat = 0 -> postgres.st_Version row = du_Version up)
               /\ (su_Version stat <> 0 ->
                   postgres.st_Version row = su_Version stat))
            (ur_Status update) rows.
Proof.
  intros H current.
  apply Update_inr in H
    as (docJSON & metaJSON & statusMeta & info & Hm & Hinfo & _ & Hup & _ & Hs & _).
  assert (Hv : du_Version up = match ur_Document update with
                               | Some _ => int64_succ current
                               | None => current
                               end).
  { rewrite Hup. cbn. unfold updateVersion. rewrite Hinfo.
    assert (Hc : postgres.CurrentVersion
                   (default postgres.zero_GetDocumentForUpdateRow
                      (postgres.GetDocumentForUpdate db (ur_UUID update)))
                 = current).
    { subst current.
      now destruct (postgres.GetDocumentForUpdate db (ur_UUID update)). }
    now rewrite Hc. }
  split; [exact Hv|]. split.
  - intros Hrange. rewrite Hv. destruct (ur_Document update); [|reflexivity].
    now apply int64_succ_in_range.
  - eexists. split; [exact Hs|].
    apply Forall2_map_combine; [now apply marshalUpdate_length in Hm|].
    intros stat meta. unfold statusRow, pinnedVersion. cbn.
    do 2 (split; [reflexivity|]).
    split; intros Hz.
    + rewrite Hz. reflexivity.
    + apply Z.eqb_neq in Hz. now rewrite Hz.
Qed.

Lemma Update_version_and_pins_witness :
  Update (quiet None) db_one_document req2
    = (inr (mkDocumentUpdate 1 "user://bob" 20 ∅),
       snd (fst (Update (quiet None) db_one_document req2)),
       snd (Update (quiet None) db_one_document req2))
  /\ exists rows,
       postgres.document_status
         (snd (fst (Update (quiet None) db_one_document req2)))
         = postgres.document_status db_one_document ++ rows
       /\ Forall2
            (fun stat row =>
               postgres.st_UUID row = "u1"
               /\ postgres.st_Name row = su_Name stat
               /\ (su_Version stat = 0 -> postgres.st_Version row = 1)
               /\ (su_Version stat <> 0 ->
                   postgres.st_Version row = su_Version stat))
            (ur_Status req2) rows.
Proof.
  assert (Hrun : Update (quiet None) db_one_document req2
                 = (inr (mkDocumentUpdate 1 "user://bob" 20 ∅),
                    snd (fst (Update (quiet None) db_one_document req2)),
                    snd (Update (quiet None) db_one_document req2)))
    by (vm_compute; reflexivity).
  split; [exact Hrun|].
  exact (proj2 (proj2 (Update_version_and_pins _ _ _ _ _ _ Hrun))).
Defined.

(** ** Atomicity *)

(** C8.  [Update] is atomic.  Whenever it returns an error the committed
    database is the one it started from; a marshalling failure is
    returned before any database call, the begin of the transaction
    included; and a run that changes the committed database is a
    successful one whose last call is the commit, the version, status,
    ACL and audit rows it leaves being those of the whole transaction. *)
Theorem Update_atomic w db update :
  (forall e db' log, Update w db update = (inl e, db', log) -> db' = db)
  /\ (forall e, marshalUpdate w update = inl e ->
        Update w db update = (inl e, db, []))
  /\ (forall up db' log,
        Update w db update = (inr up, db', log) ->
        exists calls docJSON metaJSON statusMeta,
          log = CBegin :: calls ++ [CCommit]
          /\ postgres.document_version db'
             = postgres.document_version db
               ++ versionRows update up docJSON metaJSON
          /\ postgres.document_status db'
             = postgres.document_status db
               ++ List.map (statusRow update (du_Version up) (headsFor db update))
                    (List.combine (ur_Status update) statusMeta)
          /\ match effectiveACL update
                   (bool_decide
                      (is_Some (postgres.GetDocumentForUpdate db (ur_UUID update))))
             with
             | [] => postgres.acl db' = postgres.acl db
                     /\ postgres.acl_audit db' = postgres.acl_audit db
             | entries =>
               exists subject,
                 postgres.acl db'
                 = aclRows (ur_UUID update) entries (postgres.acl db)
                 /\ postgres.acl_audit db'
                    = postgres.acl_audit db
                      ++ [auditEntry w (ur_UUID update) subject (postgres.acl db')]
             end).
Proof.
  split; [|split].
  - intros e db' log. unfold Update.
    destruct (marshalUpdate w update) as [e'|[[dj mj] sm]]; [now inversion 1|].
    apply transaction_error.
  - intros e He. unfold Update. now rewrite He.
  - intros up db' log H.
    apply Update_inr in H
      as (docJSON & metaJSON & statusMeta & info & _ & _ & Hex & _ & Hv & Hs & _ & Hacl).
    rewrite <- Hex.
    destruct (effectiveACL update (Exists info)) as [|e0 es].
    + destruct Hacl as (Ha & Hau & ->).
      exists (tl (updateCalls update up (headsFor db update) statusMeta)),
        docJSON, metaJSON, statusMeta.
      split; [reflexivity|]. auto.
    + destruct Hacl as (subject & _ & Ha & Hau & ->).
      exists (tl (updateCalls update up (headsFor db update) statusMeta)
              ++ aclCalls w (ur_UUID update) subject (e0 :: es)),
        docJSON, metaJSON, statusMeta.
      split; [unfold updateCalls; cbn [app tl]; now rewrite <- !app_assoc|].
      eauto.
Qed.

Lemma Update_atomic_witness :
  snd (fst (Update (failing_at 5 None) postgres.empty_db req1))
  = postgres.empty_db.
Proof.
  eapply (proj1 (Update_atomic (failing_at 5 None) postgres.empty_db req1)).
  vm_compute. reflexivity.
Defined.

(** ** The rows the ACL step leaves *)

Lemma dropped_fold_In uuid (l : list ACLEntry) a : forall rows,
  In a (List.fold_left
          (fun rows e =>
             List.filter (fun a => negb (postgres.acl_key uuid (URI e) a)) rows)
          l rows)
  <-> In a rows /\ forall e, In e l -> postgres.acl_key uuid (URI e) a = false.
Proof.
  induction l as [|e l IH]; intros rows; cbn [List.fold_left].
  - split; [intros H; split; [exact H|intros e []]|now intros [H _]].
  - rewrite IH, filter_In, negb_true_iff. split.
    + intros [[Hin He] Hl]. split; [exact Hin|].
      intros e' [<-|He']; auto.
    + intros [Hin Hl]. split; [split|]; auto.
      * apply Hl. now left.
      * intros e' He'. apply Hl. now right.
Qed.

Lemma droppedRows_In uuid entries rows a :
  In a (droppedRows uuid entries rows)
  <-> In a rows
      /\ forall e, In e entries -> noPermissions e = true ->
           postgres.acl_key uuid (URI e) a = false.
Proof.
  unfold droppedRows. rewrite dropped_fold_In. split; intros [Hin H].
  - split; [exact Hin|]. intros e He Hn. apply H. apply filter_In. auto.
  - split; [exact Hin|]. intros e He. apply filter_In in He as [He Hn]. auto.
Qed.

Lemma acl_key_row uuid uri perms uuid' uri' :
  postgres.acl_key uuid' uri' (postgres.mkAcl uuid uri perms)
  = String.eqb uuid uuid' && String.eqb uri uri'.
Proof. reflexivity. Qed.

(** A row after an upsert is the upserted one or an untouched row of
    another grantee. *)
Lemma upsert_acl_In uuid k rows a :
  In a (postgres.upsert_acl uuid k rows) ->
  a = postgres.mkAcl uuid (fst k) (snd k)
  \/ (In a rows /\ postgres.acl_key uuid (fst k) a = false).
Proof.
  unfold postgres.upsert_acl.
  destruct (List.existsb (postgres.acl_key uuid (fst k)) rows) eqn:Ex.
  - intros H. apply in_map_iff in H as (a0 & Ha & Hin).
    destruct (postgres.acl_key uuid (fst k) a0) eqn:Ek; [now left|].
    subst a0. right. auto.
  - intros H. apply in_app_or in H as [H|[<-|[]]]; [|now left].
    right. split; [exact H|].
    destruct (postgres.acl_key uuid (fst k) a) eqn:Ek; [|reflexivity].
    assert (List.existsb (postgres.acl_key uuid (fst k)) rows = true)
      by (apply existsb_exists; eauto).
    congruence.
Qed.

Lemma upsert_acl_has uuid k rows :
  In (postgres.mkAcl uuid (fst k) (snd k)) (postgres.upsert_acl uuid k rows).
Proof.
  unfold postgres.upsert_acl.
  destruct (List.existsb (postgres.acl_key uuid (fst k)) rows) eqn:Ex.
  - apply existsb_exists in Ex as (a0 & Hin & Hk).
    apply in_map_iff. exists a0. now rewrite Hk.
  - apply in_or_app. right. now left.
Qed.

Lemma upsert_acl_keeps uuid k rows a :
  In a rows -> postgres.acl_key uuid (fst k) a = false ->
  In a (postgres.upsert_acl uuid k rows).
Proof.
  intros Hin Hk. unfold postgres.upsert_acl.
  destruct (List.existsb (postgres.acl_key uuid (fst k)) rows).
  - apply in_map_iff. exists a. now rewrite Hk.
  - apply in_or_app. now left.
Qed.

(** After the batch, a row is an untouched one or that of an entry of the
    batch. *)
Lemma upserts_In uuid kept a : forall rows,
  In a (List.fold_left (fun rows e => postgres.upsert_acl uuid e rows) kept rows) ->
  In a rows
  \/ exists k, In k kept /\ a = postgres.mkAcl uuid (fst k) (snd k).
Proof.
  induction kept as [|k kept IH]; intros rows H; cbn [List.fold_left] in H.
  - now left.
  - apply IH in H as [H|(k' & Hk' & ->)].
    + apply upsert_acl_In in H as [->|[H _]]; [|now left].
      right. exists k. split; [now left|reflexivity].
    + right. exists k'. split; [now right|reflexivity].
Qed.

(** The row of a grantee stays through the batch, with the permissions it
    had or those of a later entry for the same grantee. *)
Lemma upserts_row uuid kept : forall rows uri perms,
  In (postgres.mkAcl uuid uri perms) rows ->
  exists perms',
    In (postgres.mkAcl uuid uri perms')
       (List.fold_left (fun rows e => postgres.upsert_acl uuid e rows) kept rows)
    /\ (perms' = perms \/ In (uri, perms') kept).
Proof.
  induction kept as [|k kept IH]; intros rows uri perms Hin; cbn [List.fold_left].
  - exists perms. auto.
  - destruct (postgres.acl_key uuid (fst k) (postgres.mkAcl uuid uri perms)) eqn:Ek.
    + rewrite acl_key_row in Ek. apply andb_prop in Ek as [_ Hu].
      apply String.eqb_eq in Hu. subst uri.
      destruct (IH _ _ _ (upsert_acl_has uuid k rows)) as (perms' & Hin' & Hp).
      exists perms'. split; [exact Hin'|]. right.
      destruct Hp as [->|Hp]; [left; now destruct k | now right].
    + destruct (IH _ _ _ (upsert_acl_keeps uuid k rows _ Hin Ek))
        as (perms' & Hin' & Hp).
      exists perms'. split; [exact Hin'|].
      destruct Hp as [->|Hp]; [now left | right; now right].
Qed.

Lemma keptEntries_In entries uri perms :
  In (uri, perms) (keptEntries entries)
  <-> exists e, In e entries /\ noPermissions e = false
                /\ URI e = uri /\ Permissions e = perms.
Proof.
  unfold keptEntries. rewrite in_map_iff. split.
  - intros (e & He & Hin). apply filter_In in Hin as [Hin Hn].
    apply negb_true_iff in Hn. inversion He; subst. eauto.
  - intros (e & Hin & Hn & <- & <-). exists e. split; [reflexivity|].
    apply filter_In. split; [exact Hin|]. now rewrite Hn.
Qed.

(** What the ACL step leaves for the grantees of its list: no row for a
    grantee listed without permissions only, and for a grantee listed
    with permissions a row with the permissions of one of its entries. *)
Lemma aclRows_entries uuid entries rows :
  (forall e, In e entries -> noPermissions e = true ->
     (forall e', In e' entries -> URI e' = URI e -> noPermissions e' = true) ->
     forall a, In a (aclRows uuid entries rows) ->
       postgres.acl_key uuid (URI e) a = false)
  /\ (forall e, In e entries -> noPermissions e = false ->
      exists e',
        In e' entries /\ URI e' = URI e /\ noPermissions e' = false
        /\ In (postgres.mkAcl uuid (URI e) (Permissions e'))
              (aclRows uuid entries rows)).
Proof.
  unfold aclRows. split.
  - intros e He Hn Hall a Ha.
    apply upserts_In in Ha as [Ha|(k & Hk & ->)].
    + apply droppedRows_In in Ha as [_ Ha]. now apply Ha.
    + destruct k as [uri perms]. apply keptEntries_In in Hk
        as (e' & He' & Hn' & Hu & _).
      rewrite acl_key_row. cbn [fst].
      destruct (String.eqb_spec uri (URI e)) as [Heq|Hne];
        [|now rewrite andb_false_r].
      rewrite (Hall e' He') in Hn' by congruence. discriminate.
  - intros e He Hn.
    assert (Hk : In (URI e, Permissions e) (keptEntries entries))
      by (apply keptEntries_In; eauto).
    apply List.in_split in Hk as (l1 & l2 & Hk). rewrite Hk.
    rewrite List.fold_left_app. cbn [List.fold_left].
    destruct (upserts_row uuid l2 _ _ _
                (upsert_acl_has uuid (URI e, Permissions e)
                   (List.fold_left (fun rows e0 => postgres.upsert_acl uuid e0 rows)
                      l1 (droppedRows uuid entries rows))))
      as (perms' & Hin & Hp).
    cbn [fst snd] in Hin.
    destruct Hp as [->|Hp].
    + exists e. auto.
    + assert (Hin2 : In (URI e, perms') (keptEntries entries))
        by (rewrite Hk; apply in_or_app; right; now right).
      apply keptEntries_In in Hin2 as (e' & He' & Hn' & Hu & <-).
      exists e'. auto.
Qed.

(** ** The ACL step *)

(** C7, the claim as stated, fails on the creation of a document by a
    request with neither ACL nor default ACL: the document does not exist,
    so this is the "otherwise" case, and yet the update succeeds without
    writing an audit entry. *)
Lemma Update_creation_without_acl_no_audit :
  postgres.GetDocumentForUpdate postgres.empty_db (ur_UUID req_no_acl) = None
  /\ exists up db' log,
       Update (quiet (Some "user://alice")) postgres.empty_db req_no_acl
       = (inr up, db', log)
       /\ postgres.acl_audit db' = []
       /\ ~ In (CInsertACLAuditEntry "u1" 1000 "user://alice") log.
Proof.
  split; [reflexivity|].
  eexists _, _, _. split; [vm_compute; reflexivity|].
  split; [reflexivity|].
  cbn. intros H. repeat (destruct H as [H|H]; [discriminate|]). exact H.
Qed.

(** C7, amended.  A successful [Update] hands [updateACL] the ACL list of
    the request, or the default ACL when that list is empty and the
    document does not exist.  If this list is empty, no ACL row changes
    and no audit entry is written.  Otherwise the context is
    authenticated; the ACL rows are those left by dropping the grantee of
    each entry without permissions and then upserting, by (document UUID,
    grantee URI), each entry with permissions, so that a grantee listed
    without permissions only has no row and a grantee listed with
    permissions has a row with the permissions of one of its entries;
    exactly one audit entry is added, with the state of these rows; and
    the calls made for it are one DropACL for each entry without
    permissions, one batch with the others if there is any, and one
    InsertACLAuditEntry. *)
Theorem Update_acl w db update up db' log :
  Update w db update = (inr up, db', log) ->
  let entries :=
    effectiveACL update
      (bool_decide (is_Some (postgres.GetDocumentForUpdate db (ur_UUID update)))) in
  (entries = [] ->
     postgres.acl db' = postgres.acl db
     /\ postgres.acl_audit db' = postgres.acl_audit db)
  /\ (entries <> [] ->
      exists subject calls,
        auth_Subject w = Some subject
        /\ postgres.acl db' = aclRows (ur_UUID update) entries (postgres.acl db)
        /\ (forall e, In e entries -> noPermissions e = true ->
              (forall e', In e' entries -> URI e' = URI e ->
                 noPermissions e' = true) ->
              forall a, In a (postgres.acl db') ->
                postgres.acl_key (ur_UUID update) (URI e) a = false)
        /\ (forall e, In e entries -> noPermissions e = false ->
              exists e',
                In e' entries /\ URI e' = URI e /\ noPermissions e' = false
                /\ In (postgres.mkAcl (ur_UUID update) (URI e) (Permissions e'))
                      (postgres.acl db'))
        /\ postgres.acl_audit db'
           = postgres.acl_audit db
             ++ [auditEntry w (ur_UUID update) subject (postgres.acl db')]
        /\ log = calls ++ aclCalls w (ur_UUID update) subject entries ++ [CCommit]).
Proof.
  intros H entries.
  apply Update_inr in H
    as (docJSON & metaJSON & statusMeta & info & _ & _ & Hex & _ & _ & _ & _ & Hacl).
  subst entries. rewrite <- Hex.
  destruct (effectiveACL update (Exists info)) as [|e0 es].
  - split; [|congruence]. intros _. destruct Hacl as (Ha & Hau & _). auto.
  - split; [discriminate|]. intros _.
    destruct Hacl as (subject & Hauth & Ha & Hau & Hlog).
    destruct (aclRows_entries (ur_UUID update) (e0 :: es) (postgres.acl db))
      as [Hdrop Hkeep].
    rewrite <- Ha in Hdrop, Hkeep.
    exists subject. eexists. repeat (split; [eassumption|]). exact Hlog.
Qed.

Lemma Update_acl_witness :
  exists up db' log,
    Update (quiet (Some "user://carol")) db_one_document req_acl
    = (inr up, db', log)
    /\ postgres.acl db' = [postgres.mkAcl "u1" "user://alice" ["r"; "w"]]
    /\ postgres.acl_audit db'
       = [postgres.mkAclAudit "u1" 1000 "user://carol"
            (Some [("user://alice", ["r"; "w"])])].
Proof.
  eexists _, _, _.
  assert (Hrun : Update (quiet (Some "user://carol")) db_one_document req_acl
                 = (inr (mkDocumentUpdate 1 "user://bob" 20 ∅),
                    snd (fst (Update (quiet (Some "user://carol"))
                                db_one_document req_acl)),
                    snd (Update (quiet (Some "user://carol"))
                           db_one_document req_acl)))
    by (vm_compute; reflexivity).
  split; [exact Hrun|].
  destruct (Update_acl _ _ _ _ _ _ Hrun) as [_ H].
  destruct H as (subject & calls & Hauth & Ha & _); [discriminate|].
  split; [vm_compute; reflexivity|]. vm_compute. reflexivity.
Defined.

(** ** The auth info of the context *)

Lemma bind_step {A B : Type} (m : Tx A) (k : A -> Tx B) st a st1 :
  m st = (inr a, st1) -> bind m k st = k a st1.
Proof. unfold bind. now intros ->. Qed.

(** Up to the ACL step, an update does not look at the auth info. *)
Lemma createStatuses_with_auth a w update upVersion h sms : forall st,
  createStatuses (with_auth a w) update upVersion h sms st
  = createStatuses w update upVersion h sms st.
Proof.
  induction sms as [|[stat meta] rest IH]; intros st; [reflexivity|].
  cbn [createStatuses]. unfold bind, wrap_err, call. cbn [fault with_auth].
  destruct (fault w _); [reflexivity|].
  destruct (postgres.CreateStatus _ _ _ _ _ _ _ _); [|reflexivity].
  apply IH.
Qed.

Lemma marshalStatusMeta_with_auth a w status :
  marshalStatusMeta (with_auth a w) status = marshalStatusMeta w status.
Proof.
  induction status as [|stat rest IH]; [reflexivity|].
  cbn [marshalStatusMeta]. now rewrite IH.
Qed.

Lemma marshalUpdate_with_auth a w update :
  marshalUpdate (with_auth a w) update = marshalUpdate w update.
Proof.
  unfold marshalUpdate. now rewrite marshalStatusMeta_with_auth.
Qed.

(** An update that succeeds in an authenticated context, with an ACL list
    to apply, fails at the ACL step when the context has no auth info. *)
Lemma Update_without_auth w s db update up db' log :
  auth_Subject w = None ->
  effectiveACL update
    (bool_decide (is_Some (postgres.GetDocumentForUpdate db (ur_UUID update))))
    <> [] ->
  Update (with_auth (Some s) w) db update = (inr up, db', log) ->
  exists log0,
    Update w db update
    = (inl (Errorf "failed to update ACL" (errors_New "unauthenticated context")),
       db, log0).
Proof.
  intros Hauth Hne H. unfold Update in *.
  rewrite marshalUpdate_with_auth in H.
  destruct (marshalUpdate w update) as [e|[[docJSON metaJSON] statusMeta]];
    [discriminate|].
  apply transaction_inr in H as (Hf0 & st & Hbody & _ & _ & _).
  cbn [fault with_auth] in Hf0.
  apply updateBody_inr in Hbody
    as (info & st1 & st2 & h & st3 & st4 & H1 & Hup & H2 & H3 & H4 & H5).
  rewrite createStatuses_with_auth in H4.
  change (updatePreflight w (ur_UUID update) (ur_IfMatch update)
            (mkTxState db [CBegin]) = (inr info, st1)) in H1.
  change (createVersion w update up docJSON metaJSON st1 = (inr tt, st2)) in H2.
  change (getStatusHeads w update st2 = (inr h, st3)) in H3.
  pose proof (updatePreflight_inr _ _ _ _ _ _ H1) as (_ & _ & _ & _ & Hex & _).
  cbn [tx_db] in Hex. rewrite <- Hex in Hne.
  exists (tx_log st4 ++ [CRollback]).
  unfold transaction. rewrite Hf0. unfold updateBody.
  rewrite (bind_step _ _ _ _ _ H1). rewrite <- Hup.
  rewrite (bind_step _ _ _ _ _ H2).
  rewrite (bind_step _ _ _ _ _ H3).
  rewrite (bind_step _ _ _ _ _ H4).
  unfold bind, wrap_err, updateACL.
  destruct (effectiveACL update (Exists info)) as [|e0 es]; [congruence|].
  rewrite Hauth. reflexivity.
Qed.

(** Without database faults the loop of [updateACL] runs to its end. *)
Lemma dropEmptyEntries_runs w uuid entries : forall st,
  (forall n, fault w n = false) ->
  exists st', dropEmptyEntries w uuid entries st = (inr (keptEntries entries), st').
Proof.
  intros st Hquiet. revert st.
  induction entries as [|e rest IH]; intros st; cbn [dropEmptyEntries].
  - now exists st.
  - unfold keptEntries, noPermissions in *. cbn [List.filter].
    destruct (Permissions e) as [|p ps] eqn:Ep; cbn [negb].
    + unfold bind at 1, wrap_err, call. rewrite Hquiet. apply IH.
    + destruct (IH st) as [st' Hrest]. exists st'.
      unfold bind, ret. rewrite Hrest. cbn [List.map]. now rewrite Ep.
Qed.

(** In an authenticated context, and without database faults,
    [updateACL] succeeds on a list that is not empty. *)
Lemma updateACL_runs w uuid entries subject st :
  entries <> [] ->
  auth_Subject w = Some subject ->
  (forall n, fault w n = false) ->
  exists st', updateACL w uuid entries st = (inr tt, st').
Proof.
  intros Hne Hauth Hquiet. unfold updateACL.
  destruct entries as [|e0 es]; [congruence|]. rewrite Hauth.
  destruct (dropEmptyEntries_runs w uuid (e0 :: es) st Hquiet) as [st1 Hdrop].
  unfold bind at 1. rewrite Hdrop.
  destruct (keptEntries (e0 :: es)) as [|k ks];
    unfold bind, ret, wrap_err, call; rewrite ?Hquiet; eauto.
Qed.

(** C9.  When the ACL list an update has to apply (the list of the
    request, or the default ACL on creation) is not empty, [updateACL]
    looks at the auth info of the context and never at the updater of the
    request.  In a context without auth info it fails with
    "unauthenticated context" before any database call; the update then
    never succeeds, and a request that succeeds in an authenticated
    context fails with this error, leaving the database as it was.  In an
    authenticated context, when no database call fails, [updateACL]
    succeeds and writes one audit entry, whose updater is the subject of
    the auth info, its last call being the InsertACLAuditEntry with that
    subject; and the audit entry of every successful update carries the
    subject of the auth info as its updater. *)
Theorem Update_acl_unauthenticated w db update :
  let entries :=
    effectiveACL update
      (bool_decide (is_Some (postgres.GetDocumentForUpdate db (ur_UUID update)))) in
  entries <> [] ->
  (auth_Subject w = None ->
     (forall st,
        updateACL w (ur_UUID update) entries st
        = (inl (errors_New "unauthenticated context"), st))
     /\ (forall up db' log, Update w db update <> (inr up, db', log))
     /\ (forall s up db' log,
           Update (with_auth (Some s) w) db update = (inr up, db', log) ->
           exists log0,
             Update w db update
             = (inl (Errorf "failed to update ACL"
                       (errors_New "unauthenticated context")), db, log0)))
  /\ (forall subject,
        auth_Subject w = Some subject ->
        (forall st,
           (forall n, fault w n = false) ->
           exists st' entry,
             updateACL w (ur_UUID update) entries st = (inr tt, st')
             /\ postgres.acl_audit (tx_db st')
                = postgres.acl_audit (tx_db st) ++ [entry]
             /\ postgres.audit_UpdaterUri entry = subject
             /\ postgres.audit_UUID entry = ur_UUID update
             /\ last (tx_log st')
                = Some (CInsertACLAuditEntry (ur_UUID update) (time_Now w) subject))
        /\ (forall up db' log,
              Update w db update = (inr up, db', log) ->
              exists entry,
                postgres.acl_audit db' = postgres.acl_audit db ++ [entry]
                /\ postgres.audit_UpdaterUri entry = subject
                /\ postgres.audit_UUID entry = ur_UUID update)).
Proof.
  intros entries Hne. subst entries. split.
  - intros Hauth. split; [|split].
    + intros st. unfold updateACL.
      destruct (effectiveACL update _) as [|e0 es]; [congruence|].
      now rewrite Hauth.
    + intros up db' log H.
      apply Update_inr in H
        as (dj & mj & sm & info & _ & _ & Hex & _ & _ & _ & _ & Hacl).
      rewrite <- Hex in Hne.
      destruct (effectiveACL update (Exists info)) as [|e0 es]; [congruence|].
      destruct Hacl as (subject & Hs & _). congruence.
    + intros s up db' log H. now apply (Update_without_auth w s db update up db' log).
  - intros subject Hauth. split.
    + intros st Hquiet.
      destruct (updateACL_runs w (ur_UUID update) _ subject st Hne Hauth Hquiet)
        as [st' Hrun].
      exists st'. eexists. split; [exact Hrun|].
      apply updateACL_inr in Hrun as (subject' & Hs & _ & _ & Hau & Hlog);
        [|exact Hne].
      assert (subject' = subject) by congruence. subst subject'.
      split; [exact Hau|]. split; [reflexivity|]. split; [reflexivity|].
      rewrite Hlog. unfold aclCalls. rewrite !app_assoc. apply last_snoc.
    + intros up db' log H.
      apply Update_inr in H
        as (dj & mj & sm & info & _ & _ & Hex & _ & _ & _ & _ & Hacl).
      rewrite <- Hex in Hne.
      destruct (effectiveACL update (Exists info)) as [|e0 es]; [congruence|].
      destruct Hacl as (subject' & Hs & _ & Hau & _).
      assert (subject' = subject) by congruence. subst subject'.
      eexists. split; [exact Hau|]. split; reflexivity.
Qed.

Lemma Update_acl_unauthenticated_witness :
  ur_Updater req_acl = "user://bob"
  /\ fst (fst (Update (quiet None) db_one_document req_acl))
     = inl (Errorf "failed to update ACL" (errors_New "unauthenticated context"))
  /\ (forall up db' log,
        Update (quiet None) db_one_document req_acl <> (inr up, db', log))
  /\ exists up db' log entry,
       Update (quiet (Some "user://carol")) db_one_document req_acl
       = (inr up, db', log)
       /\ postgres.acl_audit db' = [entry]
       /\ postgres.audit_UpdaterUri entry = "user://carol"
       /\ In (CInsertACLAuditEntry "u1" 1000 "user://carol") log.
Proof.
  assert (Hne : effectiveACL req_acl
                  (bool_decide
                     (is_Some (postgres.GetDocumentForUpdate db_one_document
                                 (ur_UUID req_acl)))) <> [])
    by (vm_compute; discriminate).
  assert (Hrun : Update (quiet (Some "user://carol")) db_one_document req_acl
                 = (inr (mkDocumentUpdate 1 "user://bob" 20 ∅),
                    snd (fst (Update (quiet (Some "user://carol"))
                                db_one_document req_acl)),
                    snd (Update (quiet (Some "user://carol"))
                           db_one_document req_acl)))
    by (vm_compute; reflexivity).
  split; [reflexivity|].
  split; [vm_compute; reflexivity|].
  destruct (Update_acl_unauthenticated (quiet None) db_one_document req_acl Hne)
    as [Hnone _].
  split; [exact (proj1 (proj2 (Hnone eq_refl)))|].
  destruct (Update_acl_unauthenticated (quiet (Some "user://carol"))
              db_one_document req_acl Hne) as [_ Hsome].
  destruct (proj2 (Hsome "user://carol" eq_refl) _ _ _ Hrun)
    as (entry & Hau & Hupdater & _).
  eexists _, _, _, entry. split; [exact Hrun|].
  split; [exact Hau|]. split; [exact Hupdater|].
  vm_compute. auto 10.
Defined.

(** ** The status chain *)

Lemma loadHeads_fold name heads : forall m : gmap string Z,
  List.fold_left (fun m head => <[postgres.Name head := postgres.ID head]> m)
    heads m !! name
  = match last_head name heads with
    | Some v => Some v
    | None => m !! name
    end.
Proof.
  induction heads as [|r rest IH]; intros m; [reflexivity|].
  cbn [List.fold_left last_head]. rewrite IH.
  destruct (last_head name rest); [reflexivity|].
  rewrite lookup_insert.
  destruct (String.eqb_spec (postgres.Name r) name) as [He|He];
    case_decide; congruence.
Qed.

Lemma loadHeads_lookup name heads :
  loadHeads heads !! name = last_head name heads.
Proof.
  unfold loadHeads. rewrite loadHeads_fold, lookup_empty.
  now destruct (last_head name heads).
Qed.

Lemma last_head_app name l1 l2 :
  last_head name (l1 ++ l2)
  = match last_head name l2 with
    | Some v => Some v
    | None => last_head name l1
    end.
Proof.
  induction l1 as [|r l1 IH]; cbn [app last_head].
  - now destruct (last_head name l2).
  - rewrite IH. now destruct (last_head name l2).
Qed.

Lemma head_of_rows db uuid name :
  head_of db uuid name
  = default 0 (head_rows_lookup uuid name (postgres.status_heads db)).
Proof.
  unfold head_of, head_rows_lookup, postgres.GetDocumentHeads.
  now rewrite loadHeads_lookup.
Qed.

Lemma head_rows_lookup_cons uuid name h hs :
  head_rows_lookup uuid name (h :: hs)
  = match head_rows_lookup uuid name hs with
    | Some v => Some v
    | None => if postgres.head_key uuid name h then Some (postgres.head_ID h)
              else None
    end.
Proof.
  unfold head_rows_lookup, postgres.head_key. cbn [List.filter].
  destruct (String.eqb (postgres.head_UUID h) uuid); cbn; [reflexivity|].
  now destruct (last_head name _).
Qed.

Lemma head_rows_lookup_app uuid name h hs :
  head_rows_lookup uuid name (hs ++ [h])
  = if postgres.head_key uuid name h then Some (postgres.head_ID h)
    else head_rows_lookup uuid name hs.
Proof.
  unfold head_rows_lookup, postgres.head_key.
  rewrite List.filter_app, List.map_app, last_head_app. cbn [List.filter].
  destruct (String.eqb (postgres.head_UUID h) uuid); cbn; [|reflexivity].
  now destruct (String.eqb (postgres.head_Name h) name).
Qed.

Lemma head_rows_lookup_none uuid name hs :
  head_rows_lookup uuid name hs = None
  <-> List.existsb (postgres.head_key uuid name) hs = false.
Proof.
  induction hs as [|h hs IH]; [now split|].
  rewrite head_rows_lookup_cons. cbn [List.existsb].
  destruct (head_rows_lookup uuid name hs) as [v|].
  - split; [discriminate|]. intros H. apply orb_false_elim in H as [_ H].
    apply IH in H. discriminate.
  - destruct (postgres.head_key uuid name h); cbn; [split; discriminate|].
    split; intros _; [now apply IH|reflexivity].
Qed.

Lemma head_key_row uuid' name' uuid name id t c :
  postgres.head_key uuid' name' (postgres.mkStatusHead uuid name id t c)
  = same_key uuid' name' uuid name.
Proof.
  unfold postgres.head_key, same_key. cbn.
  now rewrite (String.eqb_sym uuid), (String.eqb_sym name).
Qed.

Lemma head_key_same_key uuid' name' uuid name h :
  postgres.head_key uuid name h = true ->
  postgres.head_key uuid' name' h = same_key uuid' name' uuid name.
Proof.
  unfold postgres.head_key, same_key. intros H.
  apply andb_prop in H as [Hu Hn].
  apply String.eqb_eq in Hu, Hn. rewrite Hu, Hn.
  now rewrite (String.eqb_sym uuid), (String.eqb_sym name).
Qed.

(** The head after [create_status] set it. *)
Lemma head_rows_lookup_upsert uuid' name' uuid name id t c hs :
  head_rows_lookup uuid' name' (postgres.upsert_head uuid name id t c hs)
  = if same_key uuid' name' uuid name then Some id
    else head_rows_lookup uuid' name' hs.
Proof.
  unfold postgres.upsert_head.
  destruct (List.existsb (postgres.head_key uuid name) hs) eqn:Ex.
  - induction hs as [|h hs IH]; [discriminate|].
    cbn [List.map]. rewrite !head_rows_lookup_cons.
    cbn [List.existsb] in Ex.
    destruct (List.existsb (postgres.head_key uuid name) hs) eqn:Ex'.
    + rewrite (IH eq_refl).
      destruct (same_key uuid' name' uuid name) eqn:Ek; [reflexivity|].
      destruct (head_rows_lookup uuid' name' hs); [reflexivity|].
      destruct (postgres.head_key uuid name h) eqn:Eh; [|reflexivity].
      rewrite head_key_row, (head_key_same_key _ _ _ _ _ Eh), Ek. reflexivity.
    + rewrite orb_false_r in Ex. rewrite Ex.
      assert (Hmap : List.map
                (fun h0 => if postgres.head_key uuid name h0
                           then postgres.mkStatusHead uuid name id t c else h0) hs
              = hs).
      { clear IH. induction hs as [|h0 hs IHh]; [reflexivity|].
        cbn [List.existsb] in Ex'. apply orb_false_elim in Ex' as [E0 E1].
        cbn [List.map]. rewrite E0, (IHh E1). reflexivity. }
      rewrite Hmap, head_key_row, (head_key_same_key _ _ _ _ _ Ex).
      destruct (same_key uuid' name' uuid name) eqn:Ek.
      * assert (Hnone : head_rows_lookup uuid' name' hs = None).
        { apply head_rows_lookup_none. unfold same_key in Ek.
          apply andb_prop in Ek as [Hu Hn].
          apply String.eqb_eq in Hu, Hn. now subst. }
        now rewrite Hnone.
      * now destruct (head_rows_lookup uuid' name' hs).
  - rewrite head_rows_lookup_app, head_key_row.
    reflexivity.
Qed.

Lemma ids_upto_succ k : 0 <= k -> ids_upto (k + 1) = ids_upto k ++ [k + 1].
Proof.
  intros Hk. unfold ids_upto.
  replace (Z.to_nat (k + 1)) with (S (Z.to_nat k)) by lia.
  rewrite List.seq_S, List.map_app. cbn [List.map]. f_equal. f_equal. lia.
Qed.

Lemma ids_upto_In k x : In x (ids_upto k) <-> 1 <= x <= k.
Proof.
  unfold ids_upto. rewrite in_map_iff. split.
  - intros (n & <- & Hn). apply List.in_seq in Hn. lia.
  - intros Hx. exists (Z.to_nat x). split; [lia|]. apply List.in_seq. lia.
Qed.

Lemma ids_upto_NoDup k : List.NoDup (ids_upto k).
Proof.
  unfold ids_upto. apply List.NoDup_map_inv with (f := Z.to_nat).
  rewrite List.map_map.
  rewrite (List.map_ext _ (fun n => n)) by (intros; lia).
  rewrite List.map_id. apply List.seq_NoDup.
Qed.

Lemma ascending_seq (a n : nat) : ascending (List.map Z.of_nat (List.seq a n)).
Proof.
  revert a. induction n as [|n IH]; intros a; cbn [List.seq List.map ascending];
    [exact I|].
  split; [|apply IH]. intros y Hy. apply List.in_map_iff in Hy as (k & <- & Hk).
  apply List.in_seq in Hk. lia.
Qed.

(** [create_status] refuses a row exactly when its id is among those of
    the document and name. *)
Lemma status_key_ids db uuid name id :
  List.existsb (postgres.status_key uuid name id) (postgres.document_status db)
    = true
  <-> In id (status_ids db uuid name).
Proof.
  unfold status_ids, postgres.status_key.
  rewrite existsb_exists, in_map_iff. split.
  - intros (s & Hs & Hk). apply andb_prop in Hk as [Hk Hid].
    apply Z.eqb_eq in Hid. exists s. split; [exact Hid|].
    apply filter_In. auto.
  - intros (s & Hid & Hs). apply filter_In in Hs as [Hs Hk].
    exists s. split; [exact Hs|]. rewrite Hk. now apply Z.eqb_eq.
Qed.

(** The ids and the heads after a status was stored. *)
Lemma CreateStatus_effect db uuid name id version created creator meta db' :
  postgres.CreateStatus db uuid name id version created creator meta = Some db' ->
  ~ In id (status_ids db uuid name)
  /\ (forall uuid' name',
        status_ids db' uuid' name'
        = status_ids db uuid' name'
          ++ (if same_key uuid' name' uuid name then [id] else []))
  /\ (forall uuid' name',
        head_of db' uuid' name'
        = if same_key uuid' name' uuid name then id
          else head_of db uuid' name').
Proof.
  unfold postgres.CreateStatus.
  destruct (List.existsb _ _) eqn:Ex; [discriminate|].
  intros H. inversion H; subst db'. clear H. split; [|split].
  - intros Hin. apply status_key_ids in Hin. congruence.
  - intros uuid' name'. unfold status_ids. cbn [postgres.document_status].
    rewrite List.filter_app, List.map_app. cbn. unfold same_key.
    rewrite (String.eqb_sym uuid), (String.eqb_sym name).
    now destruct (String.eqb uuid' uuid && String.eqb name' name).
  - intros uuid' name'. rewrite !head_of_rows. cbn [postgres.status_heads].
    rewrite head_rows_lookup_upsert.
    now destruct (same_key uuid' name' uuid name).
Qed.

(** Storing the status with the id after the head keeps the chain. *)
Lemma CreateStatus_chain db uuid name id version created creator meta db' :
  chain_ok db ->
  id = head_of db uuid name + 1 ->
  postgres.CreateStatus db uuid name id version created creator meta = Some db' ->
  chain_ok db'.
Proof.
  intros Hok Hid Hcs.
  apply CreateStatus_effect in Hcs as (_ & Hids & Hheads).
  intros uuid' name'. rewrite Hids, Hheads.
  destruct (Hok uuid' name') as [Hpos Hchain].
  destruct (same_key uuid' name' uuid name) eqn:Ek.
  - unfold same_key in Ek. apply andb_prop in Ek as [Hu Hn].
    apply String.eqb_eq in Hu, Hn. subst uuid' name' id.
    split; [lia|]. rewrite Hchain. symmetry. now apply ids_upto_succ.
  - rewrite app_nil_r. auto.
Qed.

Lemma chain_ok_same a b :
  postgres.document_status a = postgres.document_status b ->
  postgres.status_heads a = postgres.status_heads b ->
  chain_ok b -> chain_ok a.
Proof.
  intros Hs Hh Hok uuid name. specialize (Hok uuid name).
  rewrite head_of_rows in *. unfold status_ids in *. now rewrite Hs, Hh.
Qed.

Lemma head_of_same a b uuid name :
  postgres.status_heads a = postgres.status_heads b ->
  head_of a uuid name = head_of b uuid name.
Proof. intros Hh. rewrite !head_of_rows. now rewrite Hh. Qed.

(** The status loop keeps the chain: each name it meets is either at the
    head that was loaded, and gets the next id, or was met before, and is
    then refused. *)
Lemma createStatuses_chain w update upVersion h sms : forall st st',
  chain_ok (tx_db st) ->
  (forall sm, In sm sms ->
     let k := default 0 (h !! su_Name (fst sm)) in
     0 <= k < int64_max
     /\ (head_of (tx_db st) (ur_UUID update) (su_Name (fst sm)) = k
         \/ head_of (tx_db st) (ur_UUID update) (su_Name (fst sm)) = k + 1)) ->
  createStatuses w update upVersion h sms st = (inr tt, st') ->
  chain_ok (tx_db st').
Proof.
  induction sms as [|[stat meta] rest IH]; intros st st' Hok Hheads H; cbn in H.
  - unfold ret in H. now inversion H; subst.
  - apply bind_inr in H as ([] & st1 & H1 & H2).
    apply wrap_err_inr, call_inr in H1 as (_ & db' & Hrun & ->).
    destruct (postgres.CreateStatus _ _ _ _ _ _ _ _) as [db1|] eqn:Ecs;
      [|discriminate].
    inversion Hrun; subst db'. clear Hrun.
    destruct (Hheads (stat, meta) (or_introl eq_refl)) as [Hk Hhead].
    cbn [fst] in Hk, Hhead.
    assert (Hid : nextStatusID h (su_Name stat)
                  = default 0 (h !! su_Name stat) + 1).
    { unfold nextStatusID. apply int64_succ_in_range.
      unfold int64_min. lia. }
    pose proof (CreateStatus_effect _ _ _ _ _ _ _ _ _ Ecs) as (Hnew & _ & Hnext).
    destruct Hhead as [Hhead|Hhead].
    + assert (Hok1 : chain_ok db1).
      { eapply CreateStatus_chain; [exact Hok| |exact Ecs].
        rewrite Hid, Hhead. reflexivity. }
      refine (IH _ _ _ _ H2); [exact Hok1|].
      intros sm Hsm. destruct (Hheads sm (or_intror Hsm)) as [Hk' Hhead'].
      split; [exact Hk'|]. cbn [tx_db]. rewrite Hnext.
      destruct (same_key _ _ _ _) eqn:Ek; [|exact Hhead'].
      unfold same_key in Ek. apply andb_prop in Ek as [_ Hn].
      apply String.eqb_eq in Hn. rewrite Hn, Hid. now right.
    + exfalso. apply Hnew. destruct (Hok (ur_UUID update) (su_Name stat)) as [_ Hc].
      rewrite Hc, Hhead, Hid. apply ids_upto_In. lia.
Qed.

(** The status loop succeeds only on names that are pairwise distinct:
    a name met again gets the id it got before. *)
Lemma createStatuses_distinct w update upVersion h sms : forall st st',
  createStatuses w update upVersion h sms st = (inr tt, st') ->
  List.NoDup (List.map (fun sm => su_Name (fst sm)) sms)
  /\ forall sm, In sm sms ->
       ~ In (nextStatusID h (su_Name (fst sm)))
            (status_ids (tx_db st) (ur_UUID update) (su_Name (fst sm))).
Proof.
  induction sms as [|[stat meta] rest IH]; intros st st' H; cbn in H.
  - split; [constructor|]. intros sm [].
  - apply bind_inr in H as ([] & st1 & H1 & H2).
    apply wrap_err_inr, call_inr in H1 as (_ & db' & Hrun & ->).
    destruct (postgres.CreateStatus _ _ _ _ _ _ _ _) as [db1|] eqn:Ecs;
      [|discriminate].
    inversion Hrun; subst db'. clear Hrun.
    apply CreateStatus_effect in Ecs as (Hnew & Hids & _).
    apply IH in H2 as [Hnd Hrest]. cbn [tx_db] in Hrest.
    split.
    + cbn [List.map fst]. constructor; [|exact Hnd].
      intros Hin. apply in_map_iff in Hin as (sm & Hn & Hsm).
      apply (Hrest sm Hsm). rewrite Hids, Hn.
      unfold same_key. rewrite !String.eqb_refl. cbn.
      apply in_or_app. right. now left.
    + intros sm [<-|Hsm]; [exact Hnew|].
      intros Hin. apply (Hrest sm Hsm). rewrite Hids.
      apply in_or_app. now left.
Qed.

Lemma map_fst_combine {A B : Type} (l : list A) : forall (m : list B),
  length m = length l -> List.map fst (List.combine l m) = l.
Proof.
  induction l as [|a l IH]; intros [|b m] Hlen; cbn in *; try discriminate;
    [reflexivity|]. f_equal. apply IH. lia.
Qed.

(** The status loop of a successful update, between the states it ran
    from and to, whose status tables are those of the database before and
    after the update. *)
Lemma Update_status_loop w db update up db' log :
  Update w db update = (inr up, db', log) ->
  exists statusMeta st3 st4,
    length statusMeta = length (ur_Status update)
    /\ postgres.document_status (tx_db st3) = postgres.document_status db
    /\ postgres.status_heads (tx_db st3) = postgres.status_heads db
    /\ createStatuses w update (du_Version up) (headsFor db update)
         (List.combine (ur_Status update) statusMeta) st3 = (inr tt, st4)
    /\ postgres.document_status db' = postgres.document_status (tx_db st4)
    /\ postgres.status_heads db' = postgres.status_heads (tx_db st4).
Proof.
  unfold Update. intros H.
  destruct (marshalUpdate w update) as [e|[[docJSON metaJSON] statusMeta]] eqn:Em;
    [now inversion H|].
  apply transaction_inr in H as (_ & st & Hbody & _ & -> & ->).
  apply updateBody_inr in Hbody
    as (info & st1 & st2 & h & st3 & st4 & H1 & Hup & H2 & H3 & H4 & H5).
  apply updatePreflight_inr in H1 as (_ & Hdb1 & _).
  apply createVersion_inr in H2 as (_ & Hs2 & Hh2 & _).
  apply getStatusHeads_inr in H3 as (Hdb3 & Hh & _).
  cbn [tx_db] in *.
  assert (Hheads : h = headsFor db update).
  { rewrite Hh. unfold headsFor, postgres.GetDocumentHeads.
    now rewrite Hh2, Hdb1. }
  clear Hh. subst h.
  exists statusMeta, st3, st4.
  split; [now apply marshalUpdate_length in Em|].
  rewrite Hdb3, Hs2, Hh2, Hdb1. do 3 (split; [auto|]).
  destruct (effectiveACL update (Exists info)) as [|e0 es] eqn:Eeff.
  - rewrite updateACL_nil in H5. inversion H5; subst st. auto.
  - apply updateACL_inr in H5 as (_ & _ & Hsame & _); [|discriminate].
    destruct Hsame as (_ & _ & Hs5 & Hh5 & _). auto.
Qed.

Lemma headsFor_lookup db update stat :
  In stat (ur_Status update) ->
  default 0 (headsFor db update !! su_Name stat)
  = head_of db (ur_UUID update) (su_Name stat).
Proof.
  unfold headsFor, head_of. now destruct (ur_Status update).
Qed.

(** One successful update keeps the chain. *)
Lemma Update_chain_step w db update up db' log :
  chain_ok db -> heads_in_range db update ->
  Update w db update = (inr up, db', log) ->
  chain_ok db'.
Proof.
  intros Hok Hrange H.
  apply Update_status_loop in H
    as (statusMeta & st3 & st4 & Hlen & Hs3 & Hh3 & Hloop & Hs' & Hh').
  apply (chain_ok_same _ _ Hs' Hh').
  refine (createStatuses_chain _ _ _ _ _ _ _ _ _ Hloop).
  - exact (chain_ok_same _ _ Hs3 Hh3 Hok).
  - intros sm Hsm. cbv zeta.
    assert (Hin : In (fst sm) (ur_Status update)).
    { destruct sm as [stat meta]. now apply List.in_combine_l in Hsm. }
    rewrite (headsFor_lookup _ _ _ Hin), (head_of_same _ _ _ _ Hh3).
    split; [|now left].
    split; [apply Hok | now apply Hrange].
Qed.

(** A successful update names each of its statuses once. *)
Lemma Update_distinct_names w db update up db' log :
  Update w db update = (inr up, db', log) ->
  List.NoDup (List.map su_Name (ur_Status update)).
Proof.
  intros H.
  apply Update_status_loop in H
    as (statusMeta & st3 & st4 & Hlen & _ & _ & Hloop & _).
  apply createStatuses_distinct in Hloop as [Hnd _].
  rewrite <- (List.map_map fst su_Name) in Hnd.
  now rewrite map_fst_combine in Hnd.
Qed.

Lemma chain_ok_empty : chain_ok postgres.empty_db.
Proof.
  intros uuid name. unfold head_of, status_ids. cbn.
  unfold loadHeads. cbn. rewrite lookup_empty. cbn. split; [lia|reflexivity].
Qed.

Lemma statusWrites_app l1 l2 :
  statusWrites (l1 ++ l2) = statusWrites l1 ++ statusWrites l2.
Proof.
  induction l1 as [|c l1 IH]; [reflexivity|].
  destruct c; cbn; now rewrite IH.
Qed.

(** The ids a successful update writes: for each status of the request,
    the successor of the head its name had before the update. *)
Lemma Update_status_writes w db update up db' log :
  Update w db update = (inr up, db', log) ->
  statusWrites log
  = List.map (fun stat =>
                (su_Name stat,
                 int64_succ (head_of db (ur_UUID update) (su_Name stat))))
      (ur_Status update).
Proof.
  intros H.
  apply Update_inr in H
    as (docJSON & metaJSON & statusMeta & info & Hm & _ & _ & _ & _ & _ & _ & Hacl).
  apply marshalUpdate_length in Hm.
  assert (Hcalls : statusWrites
                     (updateCalls update up (headsFor db update) statusMeta)
                   = List.map (fun stat =>
                       (su_Name stat,
                        int64_succ (head_of db (ur_UUID update) (su_Name stat))))
                       (ur_Status update)).
  { unfold updateCalls. rewrite !statusWrites_app.
    replace (statusWrites [CBegin; CGetDocumentForUpdate (ur_UUID update)])
      with (@nil (string * Z)) by reflexivity.
    replace (statusWrites match ur_Document update with
                          | Some _ => [CCreateVersion (ur_UUID update) (du_Version up)]
                          | None => []
                          end)
      with (@nil (string * Z)) by (now destruct (ur_Document update)).
    replace (statusWrites match ur_Status update with
                          | [] => []
                          | _ :: _ => [CGetDocumentHeads (ur_UUID update)]
                          end)
      with (@nil (string * Z)) by (now destruct (ur_Status update)).
    cbn [app].
    assert (Hgen : forall (l : list StatusUpdate) (m : list (option JSON)),
              length m = length l ->
              (forall stat, In stat l -> In stat (ur_Status update)) ->
              statusWrites
                (List.map (statusCall update (du_Version up) (headsFor db update))
                   (List.combine l m))
              = List.map (fun stat =>
                  (su_Name stat,
                   int64_succ (head_of db (ur_UUID update) (su_Name stat)))) l).
    { induction l as [|stat l IH]; intros [|meta m] Hl Hsub; cbn in *;
        try discriminate; [reflexivity|].
      rewrite IH by (auto; lia). unfold nextStatusID.
      rewrite (headsFor_lookup db update stat) by auto. reflexivity. }
    apply Hgen; auto. }
  destruct (effectiveACL update (Exists info)) as [|e0 es].
  - destruct Hacl as (_ & _ & ->). rewrite statusWrites_app, Hcalls.
    cbn. now rewrite app_nil_r.
  - destruct Hacl as (subject & _ & _ & _ & ->).
    rewrite !statusWrites_app, Hcalls. unfold aclCalls.
    rewrite !statusWrites_app.
    assert (Hdrops : forall l : list ACLEntry,
              statusWrites (List.map (fun e => CDropACL (ur_UUID update) (URI e)) l)
              = []).
    { induction l as [|e l IH]; [reflexivity|]. exact IH. }
    rewrite Hdrops. destruct (keptEntries (e0 :: es)); cbn; now rewrite app_nil_r.
Qed.

(** An update that lists the same status name twice: the heads are read
    once, before the loop, so both entries are assigned the id
    head + 1 = 1; the second write is refused by the key of the status
    rows, and the update fails and leaves the store as it was. *)
Lemma Update_repeated_name_same_id :
  statusWrites (snd (Update (quiet None) postgres.empty_db req_twice))
  = [("usable", 1); ("usable", 1)]
  /\ Update (quiet None) postgres.empty_db req_twice
     = (inl (Errorf "failed to update %q status"
               (pg_key_violation (CCreateStatus "u1" "usable" 1 1))),
        postgres.empty_db,
        [CBegin; CGetDocumentForUpdate "u1"; CCreateVersion "u1" 1;
         CGetDocumentHeads "u1"; CCreateStatus "u1" "usable" 1 1;
         CCreateStatus "u1" "usable" 1 1; CRollback]).
Proof.
  assert (Hrun : Update (quiet None) postgres.empty_db req_twice
     = (inl (Errorf "failed to update %q status"
               (pg_key_violation (CCreateStatus "u1" "usable" 1 1))),
        postgres.empty_db,
        [CBegin; CGetDocumentForUpdate "u1"; CCreateVersion "u1" 1;
         CGetDocumentHeads "u1"; CCreateStatus "u1" "usable" 1 1;
         CCreateStatus "u1" "usable" 1 1; CRollback]))
    by (vm_compute; reflexivity).
  rewrite Hrun. cbn [snd statusWrites]. split; reflexivity.
Qed.

(** A head is at most the number of rows of the status table. *)
Lemma chain_heads_in_range db update :
  chain_ok db -> status_rows_in_range db -> heads_in_range db update.
Proof.
  intros Hok Hrange stat _.
  destruct (Hok (ur_UUID update) (su_Name stat)) as [Hpos Hids].
  assert (Hlen : length (status_ids db (ur_UUID update) (su_Name stat))
                 = Z.to_nat (head_of db (ur_UUID update) (su_Name stat))).
  { rewrite Hids. unfold ids_upto. now rewrite List.length_map, List.length_seq. }
  assert (Hle : (length (status_ids db (ur_UUID update) (su_Name stat))
                 <= length (postgres.document_status db))%nat).
  { unfold status_ids. rewrite List.length_map. apply List.filter_length_le. }
  unfold status_rows_in_range in Hrange. lia.
Qed.

(** The chains of a store reached from the empty one are intact. *)
Lemma reached_chain db :
  reached db -> status_rows_in_range db -> chain_ok db.
Proof.
  induction 1 as [|w db update up db' log _ IH Hrun]; intros Hrange.
  - exact chain_ok_empty.
  - assert (Hbefore : status_rows_in_range db).
    { pose proof Hrun as Hinr.
      apply Update_inr in Hinr
        as (dj & mj & sm & info & _ & _ & _ & _ & _ & Hs & _).
      unfold status_rows_in_range in *. rewrite Hs, List.length_app in Hrange.
      lia. }
    specialize (IH Hbefore).
    exact (Update_chain_step _ _ _ _ _ _ IH
             (chain_heads_in_range _ _ IH Hbefore) Hrun).
Qed.

(** C2.  After any sequence of successful updates, starting from the
    empty store and whatever their status lists are, the status ids of
    every document and name are 1, ..., K in this order, K being the
    head: without gap, increasing and pairwise different, so that no two
    status rows of a (document, name) share an id.  Each status entry of
    a successful update is assigned the id head + 1, the head being the
    one its name had before the update.  The store is one whose status
    table holds fewer rows than the greatest int64, so that head + 1 does
    not leave the int64 range. *)
Theorem status_chain_after_updates :
  (forall db,
     reached db -> status_rows_in_range db ->
     forall uuid name,
       0 <= head_of db uuid name
       /\ status_ids db uuid name = ids_upto (head_of db uuid name)
       /\ ascending (status_ids db uuid name)
       /\ List.NoDup (status_ids db uuid name))
  /\ (forall w db update up db' log,
        reached db -> status_rows_in_range db ->
        Update w db update = (inr up, db', log) ->
        statusWrites log
        = List.map (fun stat =>
                      (su_Name stat,
                       head_of db (ur_UUID update) (su_Name stat) + 1))
            (ur_Status update)).
Proof.
  split.
  - intros db Hreached Hrange uuid name.
    destruct (reached_chain db Hreached Hrange uuid name) as [Hpos Hids].
    split; [exact Hpos|]. split; [exact Hids|]. rewrite Hids.
    split; [unfold ids_upto; apply ascending_seq | apply ids_upto_NoDup].
  - intros w db update up db' log Hreached Hrange Hrun.
    rewrite (Update_status_writes _ _ _ _ _ _ Hrun).
    apply List.map_ext_in. intros stat Hstat. f_equal.
    pose proof (reached_chain db Hreached Hrange) as Hok.
    apply int64_succ_in_range.
    destruct (Hok (ur_UUID update) (su_Name stat)) as [Hpos _].
    pose proof (chain_heads_in_range db update Hok Hrange stat Hstat).
    unfold int64_min. lia.
Qed.

Lemma status_chain_after_updates_witness :
  exists db1 log1 db2 log2,
    Update (quiet None) postgres.empty_db req1
    = (inr (mkDocumentUpdate 1 "user://alice" 10 ∅), db1, log1)
    /\ Update (quiet None) db1 req2
       = (inr (mkDocumentUpdate 1 "user://bob" 20 ∅), db2, log2)
    /\ status_ids db2 "u1" "usable" = [1; 2]
    /\ status_ids db2 "u1" "done" = [1]
    /\ List.NoDup (status_ids db2 "u1" "usable")
    /\ statusWrites log2 = [("usable", 2); ("done", 1)].
Proof.
  eexists _, _, _, _.
  assert (Hrun1 : Update (quiet None) postgres.empty_db req1
                  = (inr (mkDocumentUpdate 1 "user://alice" 10 ∅),
                     snd (fst (Update (quiet None) postgres.empty_db req1)),
                     snd (Update (quiet None) postgres.empty_db req1)))
    by (vm_compute; reflexivity).
  assert (Hrun2 : Update (quiet None)
                    (snd (fst (Update (quiet None) postgres.empty_db req1))) req2
                  = (inr (mkDocumentUpdate 1 "user://bob" 20 ∅),
                     snd (fst (Update (quiet None)
                                 (snd (fst (Update (quiet None) postgres.empty_db
                                              req1))) req2)),
                     snd (Update (quiet None)
                            (snd (fst (Update (quiet None) postgres.empty_db
                                         req1))) req2)))
    by (vm_compute; reflexivity).
  split; [exact Hrun1|]. split; [exact Hrun2|].
  pose proof (reached_step _ _ _ _ _ _ reached_empty Hrun1) as Hr1.
  pose proof (reached_step _ _ _ _ _ _ Hr1 Hrun2) as Hr2.
  destruct status_chain_after_updates as [Hchain Hwrites].
  assert (Hrange1 : status_rows_in_range
                      (snd (fst (Update (quiet None) postgres.empty_db req1))))
    by (unfold status_rows_in_range, int64_max; vm_compute; reflexivity).
  assert (Hrange2 : status_rows_in_range
                      (snd (fst (Update (quiet None)
                                   (snd (fst (Update (quiet None)
                                                postgres.empty_db req1))) req2))))
    by (unfold status_rows_in_range, int64_max; vm_compute; reflexivity).
  destruct (Hchain _ Hr2 Hrange2 "u1" "usable") as (_ & Husable & _ & Hnd).
  destruct (Hchain _ Hr2 Hrange2 "u1" "done") as (_ & Hdone & _).
  split; [rewrite Husable; vm_compute; reflexivity|].
  split; [rewrite Hdone; vm_compute; reflexivity|].
  split; [exact Hnd|].
  rewrite (Hwrites _ _ _ _ _ _ Hr1 Hrange1 Hrun2). vm_compute. reflexivity.
Defined.

(** ** Delete *)

(** The waiting loop sees the working copy of its transaction: it goes on
    only when its first poll finds nothing left to archive. *)
Lemma awaitArchived_inr fuel w uuid : forall waits st ready st',
  awaitArchived fuel w uuid waits st = (inr ready, st') ->
  tx_db st' = tx_db st
  /\ (ready = true ->
      postgres.GetDocumentUnarchivedCount (tx_db st) uuid = 0
      /\ tx_log st' = tx_log st ++ [CGetDocumentUnarchivedCount uuid]).
Proof.
  induction fuel as [|fuel IH]; intros waits st ready st' H; cbn in H.
  - unfold ret in H. inversion H; subst. split; [reflexivity|discriminate].
  - apply bind_inr in H as (remaining & st1 & H1 & H2).
    tx_call H1 as db1 Hrun.
    inversion Hrun; subst remaining db1. clear Hrun.
    destruct (Z.eqb_spec (postgres.GetDocumentUnarchivedCount (tx_db st) uuid) 0)
      as [Hz|Hnz].
    + unfold ret in H2. inversion H2; subst. cbn. auto.
    + destruct (ctx_Done w waits); [discriminate|].
      apply IH in H2 as [Hdb Hready]. cbn [tx_db] in *.
      split; [exact Hdb|]. intros Hr. destruct (Hready Hr) as [Hz _].
      contradiction.
Qed.

(** How the transaction of [Delete] went when it did not fail. *)
Lemma deleteBody_inr fuel w req metaJSON st step st' :
  deleteBody fuel w req metaJSON st = (inr step, st') ->
  exists info st1,
    updatePreflight w (dr_UUID req) (dr_IfMatch req) st = (inr info, st1)
    /\ match step with
       | NotExists => Exists info = false /\ st' = st1
       | StillWaiting => Exists info = true
       | Marked =>
         Exists info = true
         /\ postgres.GetDocumentUnarchivedCount (tx_db st1) (dr_UUID req) = 0
         /\ st' = mkTxState
                    (postgres.DeleteDocument
                       (snd (postgres.InsertDeleteRecord (tx_db st1) (dr_UUID req)
                               (postgres.Uri (Info info))
                               (postgres.CurrentVersion (Info info))
                               (dr_Updated req) (dr_Updater req) metaJSON))
                       (dr_UUID req) (postgres.Uri (Info info))
                       (postgres.next_delete_record_id (tx_db st1)))
                    (tx_log st1
                     ++ [CGetDocumentUnarchivedCount (dr_UUID req);
                         CInsertDeleteRecord (dr_UUID req)
                           (postgres.CurrentVersion (Info info));
                         CDeleteDocument (dr_UUID req)
                           (postgres.next_delete_record_id (tx_db st1))])
       end.
Proof.
  unfold deleteBody. intros H.
  apply bind_inr in H as (info & st1 & H1 & H).
  exists info, st1. split; [exact H1|].
  destruct (Exists info); cbn [negb] in H.
  - apply bind_inr in H as (ready & st2 & H2 & H).
    apply awaitArchived_inr in H2 as [Hdb2 Hready].
    destruct ready; cbn [negb] in H.
    + destruct (Hready eq_refl) as [Hz Hlog2].
      apply bind_inr in H as (recordID & st3 & H3 & H).
      tx_call H3 as db3 Hrun3.
      inversion Hrun3; subst recordID db3. clear Hrun3.
      apply bind_inr in H as ([] & st4 & H4 & H).
      tx_call H4 as db4 Hrun4.
      inversion Hrun4; subst db4. clear Hrun4.
      unfold ret in H. inversion H; subst step st'. cbn [tx_db tx_log].
      rewrite Hdb2, Hlog2, <- !app_assoc. cbn. auto.
    + unfold ret in H. now inversion H; subst.
  - unfold ret in H. now inversion H; subst.
Qed.

Lemma DeleteDocument_rows db uuid uri recordID :
  List.map postgres.doc_UUID
    (postgres.document (postgres.DeleteDocument db uuid uri recordID))
  = List.map postgres.doc_UUID (postgres.document db)
  /\ forall d,
       In d (postgres.document (postgres.DeleteDocument db uuid uri recordID)) ->
       postgres.doc_UUID d = uuid ->
       postgres.doc_Deleting d = true
       /\ postgres.doc_CurrentVersion d = recordID.
Proof.
  cbn. split.
  - rewrite List.map_map. apply List.map_ext_in. intros d _.
    unfold postgres.document_key.
    destruct (String.eqb_spec (postgres.doc_UUID d) uuid); cbn; congruence.
  - intros d Hd Hu. apply in_map_iff in Hd as (d0 & Hd0 & _).
    unfold postgres.document_key in Hd0.
    destruct (String.eqb_spec (postgres.doc_UUID d0) uuid) as [He|He].
    + subst d. cbn. auto.
    + subst d0. contradiction.
Qed.

(** A run of [Delete] that returns either leaves the committed database
    as it was, or found the document, nothing left to archive, and
    committed the delete record and the mark. *)
Lemma Delete_cases fuel w db req res db' log :
  Delete fuel w db req = Some (res, db', log) ->
  (db' = db
   /\ (res = inr tt ->
       postgres.GetDocumentForUpdate db (dr_UUID req) = None
       /\ log = [CBegin; CGetDocumentForUpdate (dr_UUID req); CRollback]))
  \/ (res = inr tt
      /\ exists metaJSON row,
           postgres.GetDocumentForUpdate db (dr_UUID req) = Some row
           /\ postgres.GetDocumentUnarchivedCount db (dr_UUID req) = 0
           /\ db' = postgres.DeleteDocument
                      (snd (postgres.InsertDeleteRecord db (dr_UUID req)
                              (postgres.Uri row) (postgres.CurrentVersion row)
                              (dr_Updated req) (dr_Updater req) metaJSON))
                      (dr_UUID req) (postgres.Uri row)
                      (postgres.next_delete_record_id db)
           /\ log = [CBegin; CGetDocumentForUpdate (dr_UUID req);
                     CGetDocumentUnarchivedCount (dr_UUID req);
                     CInsertDeleteRecord (dr_UUID req) (postgres.CurrentVersion row);
                     CDeleteDocument (dr_UUID req)
                       (postgres.next_delete_record_id db);
                     CCommit]).
Proof.
  unfold Delete. intros H.
  destruct (marshalMeta w _ (dr_Meta req)) as [e|metaJSON];
    [inversion H; subst; left; split; [reflexivity|discriminate]|].
  destruct (fault w 0);
    [inversion H; subst; left; split; [reflexivity|discriminate]|].
  destruct (deleteBody fuel w req metaJSON (mkTxState db [CBegin]))
    as [[e|step] st] eqn:Ebody;
    [inversion H; subst; left; split; [reflexivity|discriminate]|].
  apply deleteBody_inr in Ebody as (info & st1 & H1 & Hstep).
  apply updatePreflight_inr in H1 as (_ & Hdb1 & Hlog1 & Hinfo & Hex & _).
  cbn [tx_db tx_log] in *.
  destruct step.
  - injection H as <- <- <-. left. split; [reflexivity|]. intros _.
    destruct Hstep as [Hfalse ->]. rewrite Hfalse in Hex.
    destruct (postgres.GetDocumentForUpdate db (dr_UUID req)) as [row|] eqn:Erow.
    + rewrite bool_decide_eq_true_2 in Hex by eauto. discriminate.
    + rewrite Hlog1. auto.
  - destruct Hstep as (Htrue & Hz & ->). rewrite Htrue in Hex.
    destruct (postgres.GetDocumentForUpdate db (dr_UUID req)) as [row|] eqn:Erow;
      [|rewrite bool_decide_eq_false_2 in Hex by (intros [? [=]]); discriminate].
    cbn [default] in Hinfo. rewrite Hinfo, Hdb1, Hlog1 in *.
    unfold commit in H. cbn [tx_db tx_log] in H.
    destruct (fault w _);
      [injection H as <- <- <-; left; split; [reflexivity|discriminate]|].
    injection H as <- <- <-. right. split; [reflexivity|].
    exists metaJSON, row. auto.
  - discriminate.
Qed.

(** C4, the claim as stated, fails on a delete request with IfMatch = 1
    for a document that does not exist: the preflight compares the
    version 0 of the missing row with IfMatch and the request fails with
    OptimisticLock instead of succeeding. *)
Lemma Delete_missing_document_if_match :
  postgres.GetDocumentForUpdate postgres.empty_db (dr_UUID del_if_match_1) = None
  /\ Delete 1 (quiet None) postgres.empty_db del_if_match_1
     = Some (inl (DocStoreErrorf ErrCodeOptimisticLock), postgres.empty_db,
             [CBegin; CGetDocumentForUpdate "u1"; CRollback]).
Proof. split; vm_compute; reflexivity. Qed.

(** C4, amended.  [Delete] changes nothing when it returns an error.  On
    a document that does not exist it returns whatever the fuel, changes
    nothing, and succeeds when IfMatch is 0 or -1 (and the metadata
    marshals and no call fails); with another IfMatch it fails with
    OptimisticLock.  On an existing document, a successful [Delete] found
    nothing left to archive, inserted a delete record and then, with the
    id of that record, marked the document row deleting; it removed no
    document, version or status row. *)
Theorem Delete_marks fuel w db req :
  (forall e db' log, Delete fuel w db req = Some (inl e, db', log) -> db' = db)
  /\ (postgres.GetDocumentForUpdate db (dr_UUID req) = None ->
      (exists res log, Delete fuel w db req = Some (res, db, log))
      /\ (forall metaJSON,
            marshalMeta w "failed to marshal metadata for storage" (dr_Meta req)
              = inr metaJSON ->
            fault w 0%nat = false -> fault w 1%nat = false ->
            (dr_IfMatch req = 0 \/ dr_IfMatch req = -1 ->
               Delete fuel w db req
               = Some (inr tt, db,
                       [CBegin; CGetDocumentForUpdate (dr_UUID req); CRollback]))
            /\ (dr_IfMatch req <> 0 -> dr_IfMatch req <> -1 ->
                Delete fuel w db req
                = Some (inl (DocStoreErrorf ErrCodeOptimisticLock), db,
                        [CBegin; CGetDocumentForUpdate (dr_UUID req); CRollback]))))
  /\ (forall row db' log,
        postgres.GetDocumentForUpdate db (dr_UUID req) = Some row ->
        Delete fuel w db req = Some (inr tt, db', log) ->
        exists metaJSON,
          let id := postgres.next_delete_record_id db in
          log = [CBegin; CGetDocumentForUpdate (dr_UUID req);
                 CGetDocumentUnarchivedCount (dr_UUID req);
                 CInsertDeleteRecord (dr_UUID req) (postgres.CurrentVersion row);
                 CDeleteDocument (dr_UUID req) id; CCommit]
          /\ postgres.delete_record db'
             = postgres.delete_record db
               ++ [postgres.mkDeleteRecord id (dr_UUID req) (postgres.Uri row)
                     (postgres.CurrentVersion row) (dr_Updated req)
                     (dr_Updater req) metaJSON]
          /\ postgres.document_version db' = postgres.document_version db
          /\ postgres.document_status db' = postgres.document_status db
          /\ List.map postgres.doc_UUID (postgres.document db')
             = List.map postgres.doc_UUID (postgres.document db)
          /\ forall d, In d (postgres.document db') ->
               postgres.doc_UUID d = dr_UUID req ->
               postgres.doc_Deleting d = true
               /\ postgres.doc_CurrentVersion d = id).
Proof.
  split; [|split].
  - intros e db' log H. apply Delete_cases in H as [[-> _]|[[=] _]]. reflexivity.
  - intros Hnone. split.
    + unfold Delete.
      destruct (marshalMeta w _ (dr_Meta req)) as [e|metaJSON]; [eauto|].
      destruct (fault w 0); [eauto|].
      destruct (deleteBody fuel w req metaJSON (mkTxState db [CBegin]))
        as [[e|step] st] eqn:Ebody; [eauto|].
      apply deleteBody_inr in Ebody as (info & st1 & H1 & Hstep).
      apply updatePreflight_inr in H1 as (_ & _ & _ & _ & Hex & _).
      cbn [tx_db] in Hex. rewrite Hnone in Hex.
      rewrite bool_decide_eq_false_2 in Hex by (intros [? [=]]).
      destruct step;
        [eauto | destruct Hstep as [Htrue _]; congruence | congruence].
    + intros metaJSON Hm Hf0 Hf1. unfold Delete, deleteBody, bind.
      rewrite Hm, Hf0.
      rewrite updatePreflight_unfold by exact Hf1. cbn [tx_db tx_log].
      rewrite Hnone. cbn [updatePreflight_eval].
      change (postgres.Deleting postgres.zero_GetDocumentForUpdateRow) with false.
      change (postgres.CurrentVersion postgres.zero_GetDocumentForUpdateRow) with 0.
      cbv iota. split.
      * intros [->| ->]; reflexivity.
      * intros H0 H1.
        destruct (Z.eqb_spec (dr_IfMatch req) 0); [contradiction|].
        destruct (Z.eqb_spec (dr_IfMatch req) (-1)); [contradiction|].
        destruct (Z.eqb_spec 0 (dr_IfMatch req)); [congruence|]. reflexivity.
  - intros row db' log Hrow H.
    apply Delete_cases in H as [[_ H]|[_ H]].
    + destruct (H eq_refl) as [Hnone _]. congruence.
    + destruct H as (metaJSON & row' & Hrow' & _ & -> & ->).
      assert (row' = row) by congruence. subst row'.
      exists metaJSON. cbv zeta. split; [reflexivity|].
      split; [reflexivity|]. split; [reflexivity|]. split; [reflexivity|].
      exact (DeleteDocument_rows
               (snd (postgres.InsertDeleteRecord db (dr_UUID req)
                       (postgres.Uri row) (postgres.CurrentVersion row)
                       (dr_Updated req) (dr_Updater req) metaJSON)) _ _ _).
Qed.

Lemma Delete_marks_witness :
  postgres.GetDocumentForUpdate db_archived (dr_UUID del_any)
    = Some (postgres.mkGetDocumentForUpdateRow "core://article/1" 1 false)
  /\ Delete 1 (quiet None) db_archived del_any
     = Some (inr tt, snd (fst (default (inr tt, db_archived, [])
                                 (Delete 1 (quiet None) db_archived del_any))),
             [CBegin; CGetDocumentForUpdate "u1"; CGetDocumentUnarchivedCount "u1";
              CInsertDeleteRecord "u1" 1; CDeleteDocument "u1" 1; CCommit])
  /\ exists metaJSON,
       postgres.delete_record
         (snd (fst (default (inr tt, db_archived, [])
                      (Delete 1 (quiet None) db_archived del_any))))
       = [postgres.mkDeleteRecord 1 "u1" "core://article/1" 1 30 "user://alice"
            metaJSON].
Proof.
  assert (Hrow : postgres.GetDocumentForUpdate db_archived (dr_UUID del_any)
                 = Some (postgres.mkGetDocumentForUpdateRow "core://article/1" 1 false))
    by reflexivity.
  assert (Hrun : Delete 1 (quiet None) db_archived del_any
     = Some (inr tt, snd (fst (default (inr tt, db_archived, [])
                                 (Delete 1 (quiet None) db_archived del_any))),
             [CBegin; CGetDocumentForUpdate "u1"; CGetDocumentUnarchivedCount "u1";
              CInsertDeleteRecord "u1" 1; CDeleteDocument "u1" 1; CCommit]))
    by (vm_compute; reflexivity).
  split; [exact Hrow|]. split; [exact Hrun|].
  destruct (proj2 (proj2 (Delete_marks 1 (quiet None) db_archived del_any))
              _ _ _ Hrow Hrun) as (metaJSON & _ & Hrec & _).
  exists metaJSON. exact Hrec.
Defined.

(** ** Signed versions *)

Lemma signed_versions_archived_empty : signed_versions_archived postgres.empty_db.
Proof. intros v []. Qed.

Lemma SetDocumentVersionAsArchived_signed db signature uuid version :
  signed_versions_archived db ->
  signed_versions_archived
    (postgres.SetDocumentVersionAsArchived db signature uuid version).
Proof.
  intros Hs v Hv Hsig. cbn in Hv. apply in_map_iff in Hv as (v0 & Hv0 & Hin).
  destruct (String.eqb (postgres.ver_UUID v0) uuid
            && (postgres.ver_Version v0 =? version)).
  - now subst v.
  - subst v0. now apply Hs.
Qed.

Lemma Update_signed w db update up db' log :
  signed_versions_archived db ->
  Update w db update = (inr up, db', log) ->
  signed_versions_archived db'.
Proof.
  intros Hs H v Hv Hsig.
  apply Update_inr in H as (dj & mj & sm & info & _ & _ & _ & _ & Hver & _).
  rewrite Hver in Hv. apply in_app_or in Hv as [Hv|Hv]; [now apply Hs|].
  unfold versionRows in Hv. destruct (ur_Document update); [|destruct Hv].
  destruct Hv as [<-|[]]. destruct Hsig as [? [=]].
Qed.

(** ** Permissions *)

Lemma existsb_filter_nil {A : Type} (f : A -> bool) (l : list A) :
  List.existsb f l = match List.filter f l with [] => false | _ => true end.
Proof.
  induction l as [|a l IH]; cbn; [reflexivity|].
  destruct (f a); cbn; [reflexivity|exact IH].
Qed.

(** The first row of the left join says whether some ACL row matches. *)
Lemma CheckPermission_query (db : postgres.DB) (arg : postgres.CheckPermissionParams) :
  postgres.CheckPermission db arg =
  match List.filter (fun d => String.eqb (postgres.doc_UUID d) (postgres.cp_Uuid arg))
          (postgres.document db) with
  | [] => None
  | d :: _ => Some (List.existsb (postgres.permission_on arg d) (postgres.acl db))
  end.
Proof.
  unfold postgres.CheckPermission.
  destruct (List.filter _ (postgres.document db)) as [|d ds]; [reflexivity|].
  cbn [List.flat_map]. rewrite existsb_filter_nil.
  destruct (List.filter (postgres.permission_on arg d) (postgres.acl db)); reflexivity.
Qed.

Lemma filter_nil_iff {A : Type} (f : A -> bool) (l : list A) :
  List.filter f l = [] <-> forall x, In x l -> f x = false.
Proof.
  induction l as [|a l IH]; cbn.
  - split; [intros _ x []|reflexivity].
  - destruct (f a) eqn:Ha.
    + split; [discriminate|]. intros H. specialize (H a (or_introl eq_refl)). congruence.
    + rewrite IH. split.
      * intros H x [<-|Hx]; auto.
      * intros H x Hx. apply H. right. exact Hx.
Qed.

Lemma document_exists_filter (db : postgres.DB) (uuid : UUID) :
  document_exists db uuid <->
  List.filter (fun d => String.eqb (postgres.doc_UUID d) uuid) (postgres.document db) <> [].
Proof.
  unfold document_exists. split.
  - intros (d & Hin & Hd) Hnil.
    apply filter_nil_iff with (x := d) in Hnil; [|exact Hin].
    apply String.eqb_neq in Hnil. congruence.
  - intros Hne.
    destruct (List.filter _ (postgres.document db)) as [|d ds] eqn:Hf; [congruence|].
    assert (Hd : In d (List.filter (fun d => String.eqb (postgres.doc_UUID d) uuid)
                         (postgres.document db))) by (rewrite Hf; left; reflexivity).
    apply List.filter_In in Hd as [Hin Hd]. apply String.eqb_eq in Hd. eauto.
Qed.

Lemma existsb_eqb_In (x : string) (l : list string) :
  List.existsb (String.eqb x) l = true <-> In x l.
Proof.
  rewrite List.existsb_exists. split.
  - intros (y & Hy & Heq). apply String.eqb_eq in Heq. subst. exact Hy.
  - intros H. exists x. split; [exact H|apply String.eqb_refl].
Qed.

Lemma any_of_pgStringArray (x : string) (v : option (list string)) :
  postgres.any_of x (pgStringArray v) = true <-> In x (default [] v).
Proof.
  unfold postgres.any_of, pgStringArray. cbn.
  destruct v as [l|]; cbn.
  - apply existsb_eqb_In.
  - split; [discriminate|intros []].
Qed.

(** The query finds a matching row exactly when a grantee of the request
    is granted the permission. *)
Lemma permission_on_granted (db : postgres.DB) (req : CheckPermissionRequest)
    (d : postgres.Document) :
  postgres.doc_UUID d = cpr_UUID req ->
  List.existsb
    (postgres.permission_on
       (postgres.mkCheckPermissionParams (pgStringArray (cpr_GranteeURIs req))
          (cpr_Permission req) (cpr_UUID req)) d) (postgres.acl db) = true <->
  exists uri, In uri (grantees req)
              /\ granted db (cpr_UUID req) uri (cpr_Permission req).
Proof.
  intros Hd. rewrite List.existsb_exists. unfold postgres.permission_on, granted, grantees.
  cbn. split.
  - intros (a & Hin & Ha).
    apply andb_prop in Ha as [Ha Hp]. apply andb_prop in Ha as [Hu Hany].
    apply String.eqb_eq in Hu. apply any_of_pgStringArray in Hany.
    apply existsb_eqb_In in Hp.
    exists (postgres.acl_URI a). split; [exact Hany|].
    exists a. repeat split; [exact Hin|congruence|exact Hp].
  - intros (uri & Huri & a & Hin & Hu & Ha & Hp).
    exists a. split; [exact Hin|].
    apply andb_true_intro. split; [apply andb_true_intro; split|].
    + apply String.eqb_eq. congruence.
    + apply any_of_pgStringArray. rewrite Ha. exact Huri.
    + apply existsb_eqb_In. exact Hp.
Qed.

Lemma CheckPermission_cases (r : Reader) (db : postgres.DB)
    (req : CheckPermissionRequest) :
  query_error r 0 = None ->
  (~ document_exists db (cpr_UUID req)
   /\ CheckPermission r db req = (PermissionCheckNoSuchDocument, None))
  \/ (document_exists db (cpr_UUID req)
      /\ (exists uri, In uri (grantees req)
                      /\ granted db (cpr_UUID req) uri (cpr_Permission req))
      /\ CheckPermission r db req = (PermissionCheckAllowed, None))
  \/ (document_exists db (cpr_UUID req)
      /\ ~ (exists uri, In uri (grantees req)
                        /\ granted db (cpr_UUID req) uri (cpr_Permission req))
      /\ CheckPermission r db req = (PermissionCheckDenied, None)).
Proof.
  intros Hq. unfold CheckPermission, queryRow. rewrite Hq.
  rewrite CheckPermission_query. cbn [postgres.cp_Uuid].
  pose proof (document_exists_filter db (cpr_UUID req)) as Hex.
  destruct (List.filter _ (postgres.document db)) as [|d ds] eqn:Hf.
  - left. split; [|reflexivity]. rewrite Hex. intros H. apply H. reflexivity.
  - right.
    assert (Hd : postgres.doc_UUID d = cpr_UUID req).
    { assert (Hin : In d (List.filter
                (fun d => String.eqb (postgres.doc_UUID d) (cpr_UUID req))
                (postgres.document db))) by (rewrite Hf; left; reflexivity).
      apply List.filter_In in Hin as [_ Hin]. apply String.eqb_eq in Hin. exact Hin. }
    pose proof (permission_on_granted db req d Hd) as Hg.
    destruct (List.existsb _ (postgres.acl db)) eqn:He; cbn.
    + left. split; [apply Hex; discriminate|]. split; [|reflexivity].
      apply Hg. reflexivity.
    + right. split; [apply Hex; discriminate|]. split; [|reflexivity].
      intros H. apply Hg in H. discriminate.
Qed.

(** X1. CheckPermission answers NoSuchDocument exactly when the document
    has no row, and Allowed exactly when the document exists and some ACL
    row of it, for one of the grantee URIs of the request, lists the
    permission; it reports no error then.  When the query fails the answer
    is Denied together with the error. *)
Theorem CheckPermission_decides (r : Reader) (db : postgres.DB)
    (req : CheckPermissionRequest) :
  match query_error r 0 with
  | Some e =>
    CheckPermission r db req
    = (PermissionCheckDenied, Some (Errorf "failed check acl" e))
  | None =>
    snd (CheckPermission r db req) = None
    /\ (fst (CheckPermission r db req) = PermissionCheckNoSuchDocument
        <-> ~ document_exists db (cpr_UUID req))
    /\ (fst (CheckPermission r db req) = PermissionCheckAllowed
        <-> document_exists db (cpr_UUID req)
            /\ exists uri, In uri (grantees req)
                 /\ granted db (cpr_UUID req) uri (cpr_Permission req))
  end.
Proof.
  destruct (query_error r 0) as [e|] eqn:Hq.
  - unfold CheckPermission, queryRow. rewrite Hq. reflexivity.
  - destruct (CheckPermission_cases r db req Hq)
      as [[Hno Hrun]|[(Hex & Hg & Hrun)|(Hex & Hg & Hrun)]];
      rewrite Hrun; cbn; (split; [reflexivity|]); split; split;
      try discriminate; try tauto.
Qed.

(** X2. For an existing document CheckPermission allows exactly when one
    of the grantee URIs of the request is among the URIs that
    GranteesWithPermission lists for the document and the permission; a
    request without grantee URIs, nil or empty, is never allowed. *)
Theorem CheckPermission_GranteesWithPermission (r : Reader) (db : postgres.DB)
    (req : CheckPermissionRequest) :
  query_error r 0 = None ->
  document_exists db (cpr_UUID req) ->
  (fst (CheckPermission r db req) = PermissionCheckAllowed
   <-> exists uri, In uri (grantees req)
         /\ In uri (postgres.GranteesWithPermission db (cpr_UUID req)
                      (cpr_Permission req)))
  /\ (grantees req = [] ->
      CheckPermission r db req = (PermissionCheckDenied, None)).
Proof.
  intros Hq Hex.
  assert (Hiff : forall uri,
    granted db (cpr_UUID req) uri (cpr_Permission req)
    <-> In uri (postgres.GranteesWithPermission db (cpr_UUID req) (cpr_Permission req))).
  { intros uri. unfold granted, postgres.GranteesWithPermission.
    rewrite List.in_map_iff. split.
    - intros (a & Hin & Hu & Ha & Hp). exists a. split; [exact Ha|].
      apply List.filter_In. split; [exact Hin|].
      apply andb_true_intro. split; [apply String.eqb_eq; exact Hu|].
      apply existsb_eqb_In. exact Hp.
    - intros (a & Ha & Hin). apply List.filter_In in Hin as [Hin Hb].
      apply andb_prop in Hb as [Hu Hp]. apply String.eqb_eq in Hu.
      apply existsb_eqb_In in Hp. exists a. tauto. }
  destruct (CheckPermission_cases r db req Hq)
    as [[Hno Hrun]|[(_ & Hg & Hrun)|(_ & Hg & Hrun)]]; [tauto| |].
  - rewrite Hrun. cbn. split.
    + split; [intros _|reflexivity].
      destruct Hg as (uri & Huri & Hg). exists uri. split; [exact Huri|].
      apply Hiff. exact Hg.
    + intros Hnil. destruct Hg as (uri & Huri & _). rewrite Hnil in Huri.
      destruct Huri.
  - rewrite Hrun. cbn. split; [|reflexivity].
    split; [discriminate|].
    intros (uri & Huri & Hin). exfalso. apply Hg. exists uri.
    split; [exact Huri|]. apply Hiff. exact Hin.
Qed.

Lemma CheckPermission_GranteesWithPermission_witness :
  (fst (CheckPermission sound_reader db_acl (check_one "u1" "user://alice" "r"))
   = PermissionCheckAllowed
   <-> exists uri, In uri ["user://alice"]
         /\ In uri (postgres.GranteesWithPermission db_acl "u1" "r"))
  /\ (["user://alice"] = [] ->
      CheckPermission sound_reader db_acl (check_one "u1" "user://alice" "r")
      = (PermissionCheckDenied, None)).
Proof.
  apply (CheckPermission_GranteesWithPermission sound_reader db_acl
           (check_one "u1" "user://alice" "r")).
  - reflexivity.
  - eexists. split; [left; reflexivity|reflexivity].
Defined.

(** ** Reading back what an update wrote *)

Lemma createVersion_document w update up docJSON metaJSON st st' :
  createVersion w update up docJSON metaJSON st = (inr tt, st') ->
  postgres.document (tx_db st')
  = documentRows w update up docJSON (postgres.document (tx_db st))
  /\ (ur_Document update <> None ->
      List.existsb (postgres.version_key (ur_UUID update) (du_Version up))
        (postgres.document_version (tx_db st)) = false).
Proof.
  unfold createVersion, documentRows.
  destruct (ur_Document update) as [d|].
  - intros H. apply wrap_err_inr, call_inr in H as (_ & db' & Hrun & ->).
    unfold postgres.CreateVersion in Hrun.
    destruct (List.existsb (postgres.version_key _ _) _); [discriminate|].
    inversion Hrun; subst db'. cbn. auto.
  - unfold ret. intros H. inversion H; subst st'. split; [reflexivity|congruence].
Qed.

(** The [document] rows a successful [Update] leaves. *)
Lemma Update_documents w db update up db' log :
  Update w db update = (inr up, db', log) ->
  exists docJSON metaJSON statusMeta,
    marshalUpdate w update = inr (docJSON, metaJSON, statusMeta)
    /\ postgres.document db'
       = documentRows w update up docJSON (postgres.document db)
    /\ (ur_Document update <> None ->
        List.existsb (postgres.version_key (ur_UUID update) (du_Version up))
          (postgres.document_version db) = false).
Proof.
  unfold Update. intros H.
  destruct (marshalUpdate w update) as [e|[[docJSON metaJSON] statusMeta]] eqn:Em;
    [now inversion H|].
  apply transaction_inr in H as (_ & st & Hbody & _ & -> & ->).
  apply updateBody_inr in Hbody
    as (info & st1 & st2 & h & st3 & st4 & H1 & Hup & H2 & H3 & H4 & H5).
  apply updatePreflight_inr in H1 as (_ & Hdb1 & _).
  apply createVersion_document in H2 as [Hd2 Hk2].
  apply getStatusHeads_inr in H3 as (Hdb3 & _).
  apply createStatuses_inr in H4 as (Hd4 & _).
  cbn [tx_db] in *.
  exists docJSON, metaJSON, statusMeta. split; [reflexivity|].
  rewrite Hdb1 in Hd2, Hk2. split; [|exact Hk2].
  rewrite <- Hd2, <- Hdb3, <- Hd4.
  destruct (effectiveACL update (Exists info)) as [|e0 es] eqn:Eeff.
  - rewrite updateACL_nil in H5. now inversion H5.
  - apply updateACL_inr in H5 as (subject & _ & Hsame & _); [|discriminate].
    destruct Hsame as (Hd5 & _). exact Hd5.
Qed.

Lemma documentRows_exists w update up docJSON docs :
  ur_Document update <> None
  \/ List.existsb (postgres.document_key (ur_UUID update)) docs = true ->
  exists d, In d (documentRows w update up docJSON docs)
            /\ postgres.doc_UUID d = ur_UUID update.
Proof.
  unfold documentRows. intros H.
  destruct (List.existsb (postgres.document_key (ur_UUID update)) docs) eqn:Ex.
  - apply List.existsb_exists in Ex as (d & Hin & Hk).
    destruct (ur_Document update) as [payload|].
    + eexists. split.
      * apply List.in_map_iff. exists d. split; [reflexivity|exact Hin].
      * rewrite Hk. reflexivity.
    + exists d. split; [exact Hin|]. apply String.eqb_eq. exact Hk.
  - destruct H as [H|H]; [|discriminate].
    destruct (ur_Document update) as [payload|]; [|congruence].
    eexists. split; [apply List.in_or_app; right; left; reflexivity|reflexivity].
Qed.

Lemma GetDocumentForUpdate_existsb db uuid :
  is_Some (postgres.GetDocumentForUpdate db uuid)
  <-> List.existsb (postgres.document_key uuid) (postgres.document db) = true.
Proof.
  unfold postgres.GetDocumentForUpdate.
  destruct (List.find _ (postgres.document db)) as [d|] eqn:Ef.
  - split; [intros _|eauto].
    apply List.find_some in Ef as [Hin Hk].
    apply List.existsb_exists. exists d. auto.
  - split; [intros [x Hx]; discriminate|].
    intros Hex. apply List.existsb_exists in Hex as (d & Hin & Hk).
    eapply List.find_none in Ef; [|exact Hin]. cbn in Ef.
    unfold postgres.document_key in Hk. congruence.
Qed.

(** After a batch that names the grantee, each row of the grantee is that
    of an entry of the batch. *)
Lemma upserts_key uuid uri kept : forall rows a,
  In a (List.fold_left (fun rows e => postgres.upsert_acl uuid e rows) kept rows) ->
  postgres.acl_key uuid uri a = true ->
  (exists perms, In (uri, perms) kept) ->
  exists perms, In (uri, perms) kept /\ a = postgres.mkAcl uuid uri perms.
Proof.
  induction kept as [|k kept IH] using List.rev_ind; intros rows a Hin Hk Hex.
  - destruct Hex as (perms & []).
  - rewrite List.fold_left_app in Hin. cbn [List.fold_left] in Hin.
    apply upsert_acl_In in Hin as [->|[Hin Hnk]].
    + rewrite acl_key_row in Hk. apply andb_prop in Hk as [_ Hu].
      apply String.eqb_eq in Hu. exists (snd k).
      split; [|now rewrite Hu].
      apply List.in_or_app. right. left. destruct k; cbn in *. now subst.
    + assert (Hne : fst k <> uri).
      { intros <-. congruence. }
      destruct (IH rows a Hin Hk) as (perms & Hp & ->).
      * destruct Hex as (perms & Hp). exists perms.
        apply List.in_app_or in Hp as [Hp|[Hp|[]]]; [exact Hp|].
        subst k. cbn in Hne. congruence.
      * exists perms. split; [|reflexivity]. apply List.in_or_app. now left.
Qed.

(** X3. After a successful [Update] whose ACL list names a grantee, all
    entries for that grantee carrying the same permissions, a check for
    that grantee alone is allowed for exactly the permissions of the
    entry: a grant can be read back at once, and a grantee listed without
    permissions is denied everything whatever it was granted before. *)
Theorem Update_then_CheckPermission w r db update up db' log uri perms :
  Update w db update = (inr up, db', log) ->
  query_error r 0%nat = None ->
  is_Some (postgres.GetDocumentForUpdate db (ur_UUID update))
  \/ ur_Document update <> None ->
  let entries :=
    effectiveACL update
      (bool_decide (is_Some (postgres.GetDocumentForUpdate db (ur_UUID update)))) in
  (exists e, In e entries /\ URI e = uri) ->
  (forall e, In e entries -> URI e = uri -> Permissions e = perms) ->
  forall permission,
    CheckPermission r db' (check_one (ur_UUID update) uri permission)
    = (if List.existsb (String.eqb permission) perms
       then PermissionCheckAllowed else PermissionCheckDenied, None).
Proof.
  intros Hrun Hq Hdoc entries (e & He & Hu) Hsame permission.
  assert (Hex : document_exists db' (ur_UUID update)).
  { destruct (Update_documents _ _ _ _ _ _ Hrun) as (dj & mj & sm & _ & Hd & _).
    unfold document_exists. rewrite Hd.
    apply documentRows_exists.
    destruct Hdoc as [Hdoc|Hdoc]; [right|now left].
    now apply GetDocumentForUpdate_existsb. }
  apply Update_inr in Hrun
    as (docJSON & metaJSON & statusMeta & info & _ & _ & Hexi & _ & _ & _ & _ & Hacl).
  subst entries. rewrite <- Hexi in He, Hsame.
  destruct (effectiveACL update (Exists info)) as [|e0 es] eqn:Eeff; [destruct He|].
  destruct Hacl as (subject & _ & Ha & _).
  destruct (aclRows_entries (ur_UUID update) (e0 :: es) (postgres.acl db))
    as [Hdrop Hkeep].
  rewrite <- Ha in Hdrop, Hkeep.
  assert (Hgr : (exists uri', In uri' (grantees (check_one (ur_UUID update) uri permission))
                   /\ granted db' (ur_UUID update) uri' permission)
                <-> In permission perms).
  { cbn. split.
    - intros (uri' & [<-|[]] & a & Hin & Hau & Har & Hp).
      assert (Hk : postgres.acl_key (ur_UUID update) uri a = true).
      { unfold postgres.acl_key. rewrite Hau, Har, !String.eqb_refl. reflexivity. }
      destruct (noPermissions e) eqn:Hn.
      + rewrite <- Hu in Hk. rewrite (Hdrop e He Hn) in Hk; [discriminate| |exact Hin].
        intros e' He' Hu'. unfold noPermissions in *.
        rewrite (Hsame e' He') by congruence.
        rewrite (Hsame e He Hu) in Hn. exact Hn.
      + rewrite Ha in Hin. unfold aclRows in Hin.
        destruct (upserts_key _ uri _ _ _ Hin Hk) as (perms' & Hp' & ->).
        * exists (Permissions e). apply keptEntries_In. eauto.
        * apply keptEntries_In in Hp' as (e' & He' & _ & Hu' & <-).
          cbn in Hp. now rewrite (Hsame e' He' Hu') in Hp.
    - intros Hp. exists uri. split; [now left|].
      assert (Hn : noPermissions e = false).
      { unfold noPermissions. rewrite (Hsame e He Hu). now destruct perms. }
      destruct (Hkeep e He Hn) as (e' & He' & Hu' & _ & Hin).
      exists (postgres.mkAcl (ur_UUID update) (URI e) (Permissions e')).
      cbn. repeat split; [exact Hin|exact Hu|].
      rewrite (Hsame e' He') by congruence. exact Hp. }
  destruct (CheckPermission_cases r db' (check_one (ur_UUID update) uri permission) Hq)
    as [[Hno _]|[(_ & Hg & ->)|(_ & Hg & ->)]].
  - contradiction.
  - apply Hgr, existsb_eqb_In in Hg. rewrite Hg. reflexivity.
  - destruct (List.existsb (String.eqb permission) perms) eqn:Hp; [|reflexivity].
    apply existsb_eqb_In, Hgr in Hp. contradiction.
Qed.

Lemma Update_then_CheckPermission_witness :
  exists up db' log,
    Update (quiet (Some "user://carol")) db_one_document req_acl
    = (inr up, db', log)
    /\ forall permission,
         CheckPermission sound_reader db' (check_one "u1" "user://alice" permission)
         = (if List.existsb (String.eqb permission) ["r"; "w"]
            then PermissionCheckAllowed else PermissionCheckDenied, None).
Proof.
  eexists _, _, _.
  assert (Hrun : Update (quiet (Some "user://carol")) db_one_document req_acl
                 = (inr (mkDocumentUpdate 1 "user://bob" 20 ∅),
                    snd (fst (Update (quiet (Some "user://carol"))
                                db_one_document req_acl)),
                    snd (Update (quiet (Some "user://carol"))
                           db_one_document req_acl)))
    by (vm_compute; reflexivity).
  split; [exact Hrun|].
  apply (Update_then_CheckPermission _ sound_reader _ _ _ _ _
           "user://alice" ["r"; "w"] Hrun).
  - reflexivity.
  - left. eexists. reflexivity.
  - exists (mkACLEntry "user://alice" ["r"; "w"]). split; [left|]; reflexivity.
  - intros e [<-|[<-|[]]]; cbn; [reflexivity|discriminate].
Defined.

(** ** The count of unarchived rows and the wait of Delete *)

Lemma GetDocumentUnarchivedCount_lengths db uuid :
  postgres.GetDocumentUnarchivedCount db uuid
  = let statuses := Z.of_nat (length (unarchived_statuses db uuid)) in
    let versions := Z.of_nat (length (unarchived_versions db uuid)) in
    if statuses =? versions then statuses else statuses + versions.
Proof. reflexivity. Qed.

(** X4. GetDocumentUnarchivedCount is zero exactly when the document has
    neither an unarchived status nor an unarchived version.  It never
    exceeds the number of unarchived rows, and, since UNION keeps one of
    two equal counts, it falls short of that number exactly when the
    document has as many unarchived statuses as unarchived versions, and
    at least one. *)
Theorem GetDocumentUnarchivedCount_zero db uuid :
  let statuses := Z.of_nat (length (unarchived_statuses db uuid)) in
  let versions := Z.of_nat (length (unarchived_versions db uuid)) in
  let count := postgres.GetDocumentUnarchivedCount db uuid in
  (count = 0 <-> unarchived_statuses db uuid = [] /\ unarchived_versions db uuid = [])
  /\ Z.max statuses versions <= count <= statuses + versions
  /\ (count < statuses + versions <-> statuses = versions /\ 0 < statuses).
Proof.
  cbv zeta. rewrite GetDocumentUnarchivedCount_lengths. cbv zeta.
  destruct (unarchived_statuses db uuid) as [|s ss];
    destruct (unarchived_versions db uuid) as [|v vs]; cbn [length];
    rewrite ?Nat2Z.inj_succ; cbn [Z.of_nat];
    match goal with |- context [?a =? ?b] => destruct (Z.eqb_spec a b) end;
    (split; [split; [intros Hc|intros [Hs Hv]]
            |split; [|split; [intros Hc|intros [He Hp]]]]);
    try discriminate; try lia; try (split; reflexivity); try (exfalso; lia).
Qed.

Lemma GetDocumentUnarchivedCount_zero_rows db uuid :
  postgres.GetDocumentUnarchivedCount db uuid = 0 ->
  unarchived_statuses db uuid = [] /\ unarchived_versions db uuid = [].
Proof.
  rewrite GetDocumentUnarchivedCount_lengths. cbv zeta.
  destruct (unarchived_statuses db uuid) as [|s ss];
    destruct (unarchived_versions db uuid) as [|v vs]; cbn [length]; auto;
    rewrite ?Nat2Z.inj_succ; cbn [Z.of_nat];
    match goal with |- context [?a =? ?b] => destruct (Z.eqb_spec a b) end; lia.
Qed.

(** The preflight of an existing document reports it as existing. *)
Lemma updatePreflight_eval_exists row ifMatch info :
  updatePreflight_eval (Row row) ifMatch = inr info -> Exists info = true.
Proof.
  unfold updatePreflight_eval.
  destruct (postgres.Deleting row); [discriminate|].
  destruct (ifMatch =? 0); [now intros [= <-]|].
  destruct (ifMatch =? -1); [discriminate|].
  destruct (negb _); [discriminate|]. now intros [= <-].
Qed.

(** X5. A [Delete] whose context is done at its first wait gives up: on
    an existing document with an unarchived version or status it returns
    an error after one poll at most, whatever number of polls it is
    allowed, leaves the database as it was and has asked for neither a
    delete record nor the mark.  When the metadata marshals, no database
    call fails and the preflight passes, the error is that of the
    context, unwrapped, and the calls are the begin, the row read, one
    count and the rollback. *)
Theorem Delete_cancelled_while_waiting fuel w db req row :
  postgres.GetDocumentForUpdate db (dr_UUID req) = Some row ->
  unarchived_versions db (dr_UUID req) <> []
  \/ unarchived_statuses db (dr_UUID req) <> [] ->
  ctx_Done w 0 = true ->
  exists e log,
    Delete (S fuel) w db req = Some (inl e, db, log)
    /\ (forall c, In c log ->
          c = CBegin \/ c = CGetDocumentForUpdate (dr_UUID req)
          \/ c = CGetDocumentUnarchivedCount (dr_UUID req) \/ c = CRollback)
    /\ ((forall n, fault w n = false) ->
        forall metaJSON info,
          marshalMeta w "failed to marshal metadata for storage" (dr_Meta req)
          = inr metaJSON ->
          updatePreflight_eval (Row row) (dr_IfMatch req) = inr info ->
          e = ctx_Err
          /\ log = [CBegin; CGetDocumentForUpdate (dr_UUID req);
                    CGetDocumentUnarchivedCount (dr_UUID req); CRollback]).
Proof.
  intros Hrow Hun Hdone.
  assert (Hcount : (postgres.GetDocumentUnarchivedCount db (dr_UUID req) =? 0)
                   = false).
  { apply Z.eqb_neq. intros Hz.
    apply GetDocumentUnarchivedCount_zero_rows in Hz as [Hs Hv].
    destruct Hun; contradiction. }
  unfold Delete.
  destruct (marshalMeta w _ (dr_Meta req)) as [e0|metaJSON].
  { eexists _, _. split; [reflexivity|]. split; [intros c []|].
    intros _ mj info [=]. }
  destruct (fault w 0) eqn:Hf0.
  { eexists _, _. split; [reflexivity|]. split.
    - intros c [<-|[]]. auto.
    - intros Hquiet. rewrite Hquiet in Hf0. discriminate. }
  unfold deleteBody. unfold bind at 1. unfold updatePreflight.
  cbn [tx_log tx_db length].
  destruct (fault w 1) eqn:Hf1.
  { cbn [updatePreflight_eval]. eexists _, _. split; [reflexivity|]. split.
    - cbn. intros c Hc. intuition.
    - intros Hquiet. rewrite Hquiet in Hf1. discriminate. }
  rewrite Hrow.
  destruct (updatePreflight_eval (Row row) (dr_IfMatch req)) as [e1|info] eqn:Eeval.
  { eexists _, _. split; [reflexivity|]. split.
    - cbn. intros c Hc. intuition.
    - intros _ mj info' _ [=]. }
  rewrite (updatePreflight_eval_exists _ _ _ Eeval). cbn [negb].
  cbn [awaitArchived]. unfold bind, wrap_err, call.
  cbn [tx_log tx_db length app].
  destruct (fault w 2) eqn:Hf2.
  { eexists _, _. split; [reflexivity|]. split.
    - cbn. intros c Hc. intuition.
    - intros Hquiet. rewrite Hquiet in Hf2. discriminate. }
  rewrite Hcount, Hdone. unfold fail.
  eexists _, _. split; [reflexivity|]. split.
  - cbn. intros c Hc. intuition.
  - intros _ mj info' _ _. split; reflexivity.
Qed.

Lemma Delete_cancelled_while_waiting_witness :
  Delete 5 cancelled db_one_document del_any
  = Some (inl ctx_Err, db_one_document,
          [CBegin; CGetDocumentForUpdate "u1";
           CGetDocumentUnarchivedCount "u1"; CRollback]).
Proof.
  assert (Hrow : postgres.GetDocumentForUpdate db_one_document (dr_UUID del_any)
                 = Some (postgres.mkGetDocumentForUpdateRow "core://article/1" 1
                           false))
    by (vm_compute; reflexivity).
  assert (Hun : unarchived_versions db_one_document (dr_UUID del_any) <> []
                \/ unarchived_statuses db_one_document (dr_UUID del_any) <> [])
    by (left; vm_compute; discriminate).
  assert (Hmeta : marshalMeta cancelled "failed to marshal metadata for storage"
                    (dr_Meta del_any) = inr None)
    by (vm_compute; reflexivity).
  assert (Heval : updatePreflight_eval
                    (Row (postgres.mkGetDocumentForUpdateRow "core://article/1" 1
                            false))
                    (dr_IfMatch del_any)
                  = inr (mkUpdatePrefligthInfo
                           (postgres.mkGetDocumentForUpdateRow "core://article/1" 1
                              false) true))
    by (vm_compute; reflexivity).
  destruct (Delete_cancelled_while_waiting 4 cancelled db_one_document del_any
              _ Hrow Hun eq_refl)
    as (e & log & Hrun & _ & Hquiet).
  destruct (Hquiet (fun _ => eq_refl) _ _ Hmeta Heval) as [He Hlog].
  rewrite He, Hlog in Hrun. exact Hrun.
Defined.

(** ** Selectors *)

Lemma earliest_by_least {A : Type} (key : A -> Z) (rows : list A) (r : A) :
  postgres.earliest_by key rows = Some r ->
  In r rows /\ forall r', In r' rows -> key r <= key r'.
Proof.
  revert r. induction rows as [|x rest IH]; intros r H; cbn in H; [discriminate|].
  destruct (postgres.earliest_by key rest) as [r0|] eqn:Er.
  - destruct (IH r0 eq_refl) as [Hin Hle].
    destruct (Z.leb_spec (key x) (key r0)); inversion H; subst r.
    + split; [now left|]. intros r' [<-|Hr']; [lia|]. specialize (Hle r' Hr'). lia.
    + split; [now right|]. intros r' [<-|Hr']; [lia|]. auto.
  - inversion H; subst r. destruct rest as [|y rest].
    + split; [now left|]. intros r' [<-|[]]. lia.
    + cbn in Er. destruct (postgres.earliest_by key rest);
        [destruct (key y <=? key a)|]; discriminate.
Qed.

Lemma earliest_by_none {A : Type} (key : A -> Z) (rows : list A) :
  postgres.earliest_by key rows = None <-> rows = [].
Proof.
  destruct rows as [|x rest]; cbn; [tauto|].
  split; [|discriminate].
  destruct (postgres.earliest_by key rest) as [r0|];
    [destruct (key x <=? key r0)|]; discriminate.
Qed.

(** X6. GetDocumentForDeletion hands out a document only if it is marked
    as deleting, one with the least creation time among those, together
    with its uuid and the value of its current_version column; it finds
    no row exactly when no document is marked. *)
Theorem GetDocumentForDeletion_earliest db :
  match postgres.GetDocumentForDeletion db with
  | Some r =>
    exists d, In d (postgres.document db)
      /\ postgres.doc_Deleting d = true
      /\ postgres.gfd_Uuid r = postgres.doc_UUID d
      /\ postgres.gfd_DeleteRecordID r = postgres.doc_CurrentVersion d
      /\ forall d', In d' (postgres.document db) ->
           postgres.doc_Deleting d' = true ->
           postgres.doc_Created d <= postgres.doc_Created d'
  | None =>
    forall d, In d (postgres.document db) -> postgres.doc_Deleting d = false
  end.
Proof.
  unfold postgres.GetDocumentForDeletion.
  destruct (postgres.earliest_by _ _) as [d|] eqn:He.
  - apply earliest_by_least in He as [Hin Hle].
    apply List.filter_In in Hin as [Hin Hd].
    exists d. cbn. repeat split; auto.
    intros d' Hin' Hd'. apply Hle. apply List.filter_In. auto.
  - apply earliest_by_none in He. intros d Hin.
    destruct (postgres.doc_Deleting d) eqn:Hd; [|reflexivity].
    assert (H : In d (List.filter postgres.doc_Deleting (postgres.document db)))
      by (apply List.filter_In; auto).
    rewrite He in H. destruct H.
Qed.

Lemma filter_length_split {A : Type} (f : A -> bool) (l : list A) :
  length l = (length (List.filter f l)
              + length (List.filter (fun x => negb (f x)) l))%nat.
Proof.
  induction l as [|x l IH]; cbn; [reflexivity|].
  destruct (f x); cbn; lia.
Qed.

Lemma filter_negb_all {A : Type} (f : A -> bool) (l : list A) :
  List.filter f l = [] -> List.filter (fun x => negb (f x)) l = l.
Proof.
  induction l as [|x l IH]; cbn; [reflexivity|].
  destruct (f x); [discriminate|]. cbn. intros H. f_equal. auto.
Qed.

(** X7. FinaliseDelete removes the rows of the document that are marked
    as deleting and no other row: a row stays exactly when it belongs to
    another document or is not marked.  The number it reports is the
    number of rows removed, so that it is zero exactly when the table is
    left as it was. *)
Theorem FinaliseDelete_only_deleting db uuid :
  let n := fst (postgres.FinaliseDelete db uuid) in
  let docs := snd (postgres.FinaliseDelete db uuid) in
  (forall d, In d docs
     <-> In d (postgres.document db)
         /\ (postgres.doc_UUID d <> uuid \/ postgres.doc_Deleting d = false))
  /\ n = Z.of_nat (length (postgres.document db)) - Z.of_nat (length docs)
  /\ (n = 0 <-> docs = postgres.document db).
Proof.
  cbv zeta. unfold postgres.FinaliseDelete. cbn [fst snd].
  pose proof (filter_length_split
                (fun d => String.eqb (postgres.doc_UUID d) uuid
                          && postgres.doc_Deleting d) (postgres.document db)) as Hlen.
  cbv beta in Hlen.
  split; [|split].
  - intros d. rewrite List.filter_In.
    destruct (String.eqb_spec (postgres.doc_UUID d) uuid) as [He|He];
      destruct (postgres.doc_Deleting d); cbn; intuition congruence.
  - lia.
  - split.
    + intros Hz. apply filter_negb_all.
      destruct (List.filter _ (postgres.document db)); [reflexivity|cbn in Hz; lia].
    + intros Heq. rewrite Heq in Hlen. lia.
Qed.

(** ** A document that is marked for deletion *)

Lemma find_DeleteDocument (docs : list postgres.Document) uuid uri id d :
  List.find (fun d => String.eqb (postgres.doc_UUID d) uuid) docs = Some d ->
  List.find (fun d => String.eqb (postgres.doc_UUID d) uuid)
    (List.map (fun d => if postgres.document_key uuid d
                        then postgres.mkDocument uuid uri (postgres.doc_Created d)
                               (postgres.doc_CreatorUri d) (postgres.doc_Updated d)
                               (postgres.doc_UpdaterUri d) id true
                        else d) docs)
  = Some (postgres.mkDocument uuid uri (postgres.doc_Created d)
            (postgres.doc_CreatorUri d) (postgres.doc_Updated d)
            (postgres.doc_UpdaterUri d) id true).
Proof.
  induction docs as [|x docs IH]; cbn; [discriminate|].
  unfold postgres.document_key.
  destruct (String.eqb (postgres.doc_UUID x) uuid) eqn:Ex.
  - intros [= ->]. cbn. rewrite String.eqb_refl. reflexivity.
  - rewrite Ex. exact IH.
Qed.

(** What a successful [Delete] of an existing document leaves: the
    database with the delete record and the mark. *)
Lemma Delete_marked fuel w db req row db' log :
  postgres.GetDocumentForUpdate db (dr_UUID req) = Some row ->
  Delete fuel w db req = Some (inr tt, db', log) ->
  exists metaJSON,
    db' = postgres.DeleteDocument
            (snd (postgres.InsertDeleteRecord db (dr_UUID req)
                    (postgres.Uri row) (postgres.CurrentVersion row)
                    (dr_Updated req) (dr_Updater req) metaJSON))
            (dr_UUID req) (postgres.Uri row)
            (postgres.next_delete_record_id db)
    /\ exists d,
         postgres.GetDocumentInfo db' (dr_UUID req) = Some d
         /\ postgres.doc_Deleting d = true
         /\ postgres.doc_CurrentVersion d = postgres.next_delete_record_id db.
Proof.
  intros Hrow Hrun.
  apply Delete_cases in Hrun as [[_ H]|(_ & metaJSON & row' & Hrow' & _ & -> & _)].
  - destruct (H eq_refl) as [Hnone _]. congruence.
  - rewrite Hrow in Hrow'. injection Hrow' as <-.
    exists metaJSON. split; [reflexivity|].
    unfold postgres.GetDocumentForUpdate in Hrow.
    destruct (List.find _ (postgres.document db)) as [d|] eqn:Ef; [|discriminate].
    unfold postgres.GetDocumentInfo. cbn.
    rewrite (find_DeleteDocument _ _ _ _ _ Ef). eexists. split; [reflexivity|].
    cbn. auto.
Qed.

(** X8. Once [Delete] has marked a document, the store refuses to write
    to it: every [Update] and every further [Delete] of that document
    whose request serialises and whose first two database calls succeed
    fails with DeleteLock, whatever its IfMatch, and leaves the database
    as it is; [GetDocumentMeta] reports the document as deleting, without
    version, times or statuses. *)
Theorem Delete_then_DeleteLock fuel w db req row db' log :
  postgres.GetDocumentForUpdate db (dr_UUID req) = Some row ->
  Delete fuel w db req = Some (inr tt, db', log) ->
  (forall w2 update marshalled,
     ur_UUID update = dr_UUID req ->
     marshalUpdate w2 update = inr marshalled ->
     fault w2 0%nat = false -> fault w2 1%nat = false ->
     Update w2 db' update
     = (inl (DocStoreErrorf ErrCodeDeleteLock), db',
        [CBegin; CGetDocumentForUpdate (dr_UUID req); CRollback]))
  /\ (forall fuel2 w2 req2 metaJSON,
        dr_UUID req2 = dr_UUID req ->
        marshalMeta w2 "failed to marshal metadata for storage" (dr_Meta req2)
        = inr metaJSON ->
        fault w2 0%nat = false -> fault w2 1%nat = false ->
        Delete fuel2 w2 db' req2
        = Some (inl (DocStoreErrorf ErrCodeDeleteLock), db',
                [CBegin; CGetDocumentForUpdate (dr_UUID req); CRollback]))
  /\ (forall r, query_error r 0%nat = None ->
        GetDocumentMeta r db' (dr_UUID req) = inr (mkDocumentMeta 0 0 0 ∅ true)).
Proof.
  intros Hrow Hrun.
  destruct (Delete_marked _ _ _ _ _ _ _ Hrow Hrun) as (mj & _ & d & Hinfo & Hdel & _).
  assert (Hfu : postgres.GetDocumentForUpdate db' (dr_UUID req)
                = Some (postgres.mkGetDocumentForUpdateRow (postgres.doc_URI d)
                          (postgres.doc_CurrentVersion d) true)).
  { unfold postgres.GetDocumentForUpdate. unfold postgres.GetDocumentInfo in Hinfo.
    rewrite Hinfo, Hdel. reflexivity. }
  split; [|split].
  - intros w2 update [[docJSON metaJSON] statusMeta] Hu Hm Hf0 Hf1.
    unfold Update. rewrite Hm. unfold transaction. rewrite Hf0.
    unfold updateBody, bind, updatePreflight. cbn [tx_log tx_db length].
    rewrite Hf1, Hu, Hfu. reflexivity.
  - intros fuel2 w2 req2 metaJSON Hu Hm Hf0 Hf1.
    unfold Delete. rewrite Hm, Hf0.
    unfold deleteBody, bind, updatePreflight. cbn [tx_log tx_db length].
    rewrite Hf1, Hu, Hfu. reflexivity.
  - intros r Hq. unfold GetDocumentMeta, queryRow. rewrite Hq, Hinfo, Hdel.
    reflexivity.
Qed.

Lemma Delete_then_DeleteLock_witness :
  exists db' log,
    Delete 1 (quiet (Some "user://alice")) db_archived del_any
    = Some (inr tt, db', log)
    /\ Update (quiet (Some "user://bob")) db' req2
       = (inl (DocStoreErrorf ErrCodeDeleteLock), db',
          [CBegin; CGetDocumentForUpdate "u1"; CRollback]).
Proof.
  eexists _, _.
  assert (Hrun : Delete 1 (quiet (Some "user://alice")) db_archived del_any
                 = Some (inr tt,
                         match Delete 1 (quiet (Some "user://alice")) db_archived del_any with
                         | Some (_, db', _) => db'
                         | None => db_archived
                         end,
                         match Delete 1 (quiet (Some "user://alice")) db_archived del_any with
                         | Some (_, _, log) => log
                         | None => []
                         end))
    by (vm_compute; reflexivity).
  split; [exact Hrun|].
  refine (proj1 (Delete_then_DeleteLock 1 _ db_archived del_any
                   (postgres.mkGetDocumentForUpdateRow "core://article/1" 1 false)
                   _ _ eq_refl Hrun)
            (quiet (Some "user://bob")) req2 _ eq_refl _ eq_refl eq_refl).
  vm_compute. reflexivity.
Defined.

Lemma FinaliseDelete_DeleteDocument (docs : list postgres.Document) uuid uri id :
  List.filter (fun d => negb (String.eqb (postgres.doc_UUID d) uuid
                              && postgres.doc_Deleting d))
    (List.map (fun d => if postgres.document_key uuid d
                        then postgres.mkDocument uuid uri (postgres.doc_Created d)
                               (postgres.doc_CreatorUri d) (postgres.doc_Updated d)
                               (postgres.doc_UpdaterUri d) id true
                        else d) docs)
  = List.filter (fun d => negb (String.eqb (postgres.doc_UUID d) uuid)) docs.
Proof.
  induction docs as [|x docs IH]; cbn; [reflexivity|].
  unfold postgres.document_key.
  destruct (String.eqb (postgres.doc_UUID x) uuid) eqn:Ex; cbn.
  - rewrite String.eqb_refl. cbn. exact IH.
  - rewrite Ex. cbn. f_equal. exact IH.
Qed.

(** X9. When [Delete] has marked a document, and no other document is
    marked, the deleter's selector [GetDocumentForDeletion] hands out
    this document together with the id of the delete record that
    [Delete] wrote, a record that carries the uuid and the version the
    document had; [FinaliseDelete] then removes at least one row and
    leaves exactly the rows of the other documents. *)
Theorem Delete_then_GetDocumentForDeletion fuel w db req row db' log :
  postgres.GetDocumentForUpdate db (dr_UUID req) = Some row ->
  Delete fuel w db req = Some (inr tt, db', log) ->
  (forall d, In d (postgres.document db) -> postgres.doc_Deleting d = false) ->
  postgres.GetDocumentForDeletion db'
  = Some (postgres.mkGetDocumentForDeletionRow (dr_UUID req)
            (postgres.next_delete_record_id db))
  /\ (exists rec, In rec (postgres.delete_record db')
        /\ postgres.del_ID rec = postgres.next_delete_record_id db
        /\ postgres.del_UUID rec = dr_UUID req
        /\ postgres.del_Version rec = postgres.CurrentVersion row)
  /\ 1 <= fst (postgres.FinaliseDelete db' (dr_UUID req))
  /\ snd (postgres.FinaliseDelete db' (dr_UUID req))
     = List.filter (fun d => negb (String.eqb (postgres.doc_UUID d) (dr_UUID req)))
         (postgres.document db).
Proof.
  intros Hrow Hrun Hnone.
  destruct (Delete_marked _ _ _ _ _ _ _ Hrow Hrun) as (mj & Hdb' & d & Hinfo & Hdel & Hcv).
  assert (Hd : In d (postgres.document db') /\ postgres.doc_UUID d = dr_UUID req).
  { unfold postgres.GetDocumentInfo in Hinfo. apply List.find_some in Hinfo as [Hin Hu].
    apply String.eqb_eq in Hu. auto. }
  destruct Hd as [Hin Hu].
  split; [|split; [|split]].
  - unfold postgres.GetDocumentForDeletion.
    destruct (postgres.earliest_by _ _) as [d'|] eqn:He.
    + apply earliest_by_least in He as [Hin' _].
      apply List.filter_In in Hin' as [Hin' Hdel'].
      rewrite Hdb' in Hin'. cbn in Hin'.
      apply List.in_map_iff in Hin' as (d0 & Hd0 & Hin0).
      destruct (postgres.document_key (dr_UUID req) d0).
      * subst d'. reflexivity.
      * subst d0. rewrite (Hnone d' Hin0) in Hdel'. discriminate.
    + apply earliest_by_none in He.
      assert (H : In d (List.filter postgres.doc_Deleting (postgres.document db')))
        by (apply List.filter_In; auto).
      rewrite He in H. destruct H.
  - rewrite Hdb'. cbn. eexists. split; [apply List.in_or_app; right; left; reflexivity|].
    cbn. auto.
  - unfold postgres.FinaliseDelete. cbn [fst].
    assert (H : In d (List.filter
                        (fun d => String.eqb (postgres.doc_UUID d) (dr_UUID req)
                                  && postgres.doc_Deleting d) (postgres.document db'))).
    { apply List.filter_In. split; [exact Hin|].
      rewrite Hdel, Hu, String.eqb_refl. reflexivity. }
    destruct (List.filter _ (postgres.document db')); [destruct H|]. cbn [length]. lia.
  - unfold postgres.FinaliseDelete. cbn [snd]. rewrite Hdb'. cbn [postgres.document postgres.DeleteDocument postgres.InsertDeleteRecord snd].
    apply FinaliseDelete_DeleteDocument.
Qed.

Lemma Delete_then_GetDocumentForDeletion_witness :
  exists db' log,
    Delete 1 (quiet (Some "user://alice")) db_archived del_any
    = Some (inr tt, db', log)
    /\ postgres.GetDocumentForDeletion db'
       = Some (postgres.mkGetDocumentForDeletionRow "u1" 1).
Proof.
  eexists _, _.
  assert (Hrun : Delete 1 (quiet (Some "user://alice")) db_archived del_any
                 = Some (inr tt,
                         match Delete 1 (quiet (Some "user://alice")) db_archived del_any with
                         | Some (_, db', _) => db'
                         | None => db_archived
                         end,
                         match Delete 1 (quiet (Some "user://alice")) db_archived del_any with
                         | Some (_, _, log) => log
                         | None => []
                         end))
    by (vm_compute; reflexivity).
  split; [exact Hrun|].
  refine (proj1 (Delete_then_GetDocumentForDeletion 1 _ db_archived del_any
                   (postgres.mkGetDocumentForUpdateRow "core://article/1" 1 false)
                   _ _ eq_refl Hrun _)).
  intros d [<-|[]]. reflexivity.
Defined.

(** ** Reading documents and versions *)

Lemma head_flat_map_const {A B : Type} (g : A -> list B) (l : list B) (xs : list A) :
  (forall x, In x xs -> g x = l) -> xs <> [] ->
  List.head (List.flat_map g xs) = List.head l.
Proof.
  induction xs as [|x xs IH]; intros Hg Hne; [congruence|].
  cbn [List.flat_map]. rewrite (Hg x (or_introl eq_refl)).
  destruct l as [|y l]; [|reflexivity]. cbn [app].
  destruct xs as [|x' xs]; [reflexivity|].
  apply IH; [|discriminate]. intros z Hz. apply Hg. now right.
Qed.

(** The join with the current version reads the row the version query
    reads, when the rows of the document agree on the current version. *)
Lemma GetDocumentData_current db uuid cv :
  document_exists db uuid ->
  (forall d, In d (postgres.document db) -> postgres.doc_UUID d = uuid ->
     postgres.doc_CurrentVersion d = cv) ->
  postgres.GetDocumentData db uuid = postgres.GetDocumentVersionData db uuid cv.
Proof.
  intros Hex Hcv. unfold postgres.GetDocumentData, postgres.GetDocumentVersionData.
  apply head_flat_map_const.
  - intros d Hd. apply List.filter_In in Hd as [Hin Hu]. apply String.eqb_eq in Hu.
    f_equal. apply List.filter_ext. intros v. unfold postgres.version_key.
    now rewrite Hu, (Hcv d Hin Hu).
  - now apply document_exists_filter.
Qed.

(** X10. Version 0 stands for the current version: when the rows of the
    document agree on its current version, [GetDocument] with version 0
    returns what it returns for that version, the payload as well as any
    error. *)
Theorem GetDocument_current r db uuid row :
  postgres.GetDocumentForUpdate db uuid = Some row ->
  (forall d, In d (postgres.document db) -> postgres.doc_UUID d = uuid ->
     postgres.doc_CurrentVersion d = postgres.CurrentVersion row) ->
  GetDocument r db uuid 0 = GetDocument r db uuid (postgres.CurrentVersion row).
Proof.
  intros Hrow Hcv.
  destruct (Z.eq_dec (postgres.CurrentVersion row) 0) as [Hz|Hne];
    [rewrite Hz; reflexivity|].
  unfold GetDocument. rewrite (proj2 (Z.eqb_neq _ _) Hne). cbn [Z.eqb].
  rewrite (GetDocumentData_current db uuid (postgres.CurrentVersion row)); auto.
  apply document_exists_filter.
  unfold postgres.GetDocumentForUpdate in Hrow.
  destruct (List.find _ (postgres.document db)) as [d|] eqn:Ef; [|discriminate].
  apply List.find_some in Ef as [Hin Hu]. intros Hnil.
  assert (H : In d (List.filter (fun d => String.eqb (postgres.doc_UUID d) uuid)
                      (postgres.document db))) by (apply List.filter_In; auto).
  rewrite Hnil in H. destruct H.
Qed.

Lemma GetDocument_current_witness :
  GetDocument sound_reader db_one_document "u1" 0
  = GetDocument sound_reader db_one_document "u1" 1.
Proof.
  apply (GetDocument_current sound_reader db_one_document "u1"
           (postgres.mkGetDocumentForUpdateRow "core://article/1" 1 false)).
  - reflexivity.
  - intros d [<-|[]] _. reflexivity.
Defined.

Lemma documentRows_current w update up docJSON docs d :
  ur_Document update <> None ->
  In d (documentRows w update up docJSON docs) ->
  postgres.doc_UUID d = ur_UUID update ->
  postgres.doc_CurrentVersion d = du_Version up.
Proof.
  unfold documentRows. intros Hdoc Hin Hu.
  destruct (ur_Document update) as [payload|]; [|congruence].
  destruct (List.existsb (postgres.document_key (ur_UUID update)) docs) eqn:Ex.
  - apply List.in_map_iff in Hin as (d0 & Hd0 & Hin0).
    destruct (postgres.document_key (ur_UUID update) d0) eqn:Ek.
    + subst d. reflexivity.
    + subst d0. unfold postgres.document_key in Ek.
      apply String.eqb_neq in Ek. contradiction.
  - apply List.in_app_or in Hin as [Hin|[<-|[]]]; [|reflexivity].
    assert (List.existsb (postgres.document_key (ur_UUID update)) docs = true).
    { apply List.existsb_exists. exists d. split; [exact Hin|].
      unfold postgres.document_key. now apply String.eqb_eq. }
    congruence.
Qed.

Lemma marshalMeta_unmarshal w r msg m metaJSON :
  marshalMeta w msg m = inr metaJSON ->
  (forall j, json_Marshal_DataMap w m = Some j -> json_Unmarshal_DataMap r j = Some m) ->
  unmarshalMeta r metaJSON = Some m.
Proof.
  unfold marshalMeta, unmarshalMeta. intros Hm Hround.
  destruct (Nat.eqb_spec (size m) 0) as [Hz|Hnz].
  - inversion Hm; subst. f_equal. symmetry. now apply map_size_empty_inv.
  - destruct (json_Marshal_DataMap w m) as [j|]; [|discriminate].
    inversion Hm; subst. auto.
Qed.

(** X11. What [Update] stores can be read back.  After a successful
    [Update] that carries a document, and with a [json.Unmarshal] that
    inverts [json.Marshal] on the payload and on the metadata of the
    request, [GetDocument] returns the payload, for version 0 as well as
    for the version of the update, and [GetVersion] succeeds for that
    version with the version number [Update] returned, the updater of
    the request as creator, and metadata with the entries of the
    request's (a request without entries reads back as the nil map). *)
Theorem Update_then_GetDocument w r db update up db' log d :
  Update w db update = (inr up, db', log) ->
  ur_Document update = Some d ->
  query_error r 0%nat = None ->
  (forall j, json_Marshal_Document w d = Some j ->
     json_Unmarshal_Document r j = Some d) ->
  (forall j, json_Marshal_DataMap w (ur_Meta update) = Some j ->
     json_Unmarshal_DataMap r j = Some (ur_Meta update)) ->
  GetDocument r db' (ur_UUID update) 0 = inr d
  /\ GetDocument r db' (ur_UUID update) (du_Version up) = inr d
  /\ exists got,
       GetVersion r db' (ur_UUID update) (du_Version up) = inr got
       /\ du_Version got = du_Version up
       /\ du_Creator got = ur_Updater update
       /\ forall key, du_Meta got !! key = ur_Meta update !! key.
Proof.
  intros Hrun Hd Hq Hrd Hrm.
  destruct (Update_documents _ _ _ _ _ _ Hrun) as (dj & mj & sm & Hm & Hdocs & Hkey).
  apply Update_inr in Hrun
    as (docJSON & metaJSON & statusMeta & info & Hm' & _ & _ & Hup & Hver & _).
  rewrite Hm in Hm'. injection Hm' as <- <- <-.
  assert (Hne : ur_Document update <> None) by congruence.
  specialize (Hkey Hne).
  (* the serialised payload and metadata *)
  unfold marshalUpdate in Hm. rewrite Hd in Hm.
  destruct (json_Marshal_Document w d) as [j|] eqn:Ej; [|discriminate].
  destruct (marshalMeta w _ (ur_Meta update)) as [e|mj'] eqn:Emeta; [discriminate|].
  destruct (marshalStatusMeta w (ur_Status update)); [discriminate|].
  injection Hm as <- <- _.
  pose proof (marshalMeta_unmarshal _ r _ _ _ Emeta Hrm) as Hmeta.
  (* the one row of the new version *)
  assert (Hrows : List.filter (postgres.version_key (ur_UUID update) (du_Version up))
                    (postgres.document_version db')
                  = [postgres.mkDocumentVersion (ur_UUID update) (du_Version up)
                       (du_Created up) (du_Creator up) mj' (Some j) false None]).
  { rewrite Hver, List.filter_app. unfold versionRows. rewrite Hd.
    rewrite existsb_filter_nil in Hkey.
    destruct (List.filter _ (postgres.document_version db)); [|discriminate].
    cbn. unfold postgres.version_key. cbn.
    now rewrite String.eqb_refl, Z.eqb_refl. }
  assert (Hvd : postgres.GetDocumentVersionData db' (ur_UUID update) (du_Version up)
                = Some (Some j)).
  { unfold postgres.GetDocumentVersionData. now rewrite Hrows. }
  assert (Hdd : postgres.GetDocumentData db' (ur_UUID update) = Some (Some j)).
  { rewrite (GetDocumentData_current db' (ur_UUID update) (du_Version up)); [exact Hvd| |].
    - unfold document_exists. rewrite Hdocs. apply documentRows_exists. now left.
    - intros d0 Hin Hu. rewrite Hdocs in Hin.
      eapply documentRows_current; eauto. }
  assert (H0 : GetDocument r db' (ur_UUID update) 0 = inr d).
  { unfold GetDocument, queryRow. cbn [Z.eqb]. rewrite Hq, Hdd. cbn.
    now rewrite (Hrd j eq_refl). }
  split; [exact H0|]. split.
  - destruct (Z.eqb_spec (du_Version up) 0) as [Hz|Hnz]; [now rewrite Hz|].
    unfold GetDocument, queryRow.
    destruct (Z.eqb_spec (du_Version up) 0); [contradiction|].
    rewrite Hq, Hvd. cbn. now rewrite (Hrd j eq_refl).
  - eexists. split.
    + unfold GetVersion, queryRow, postgres.GetVersion. rewrite Hq, Hrows.
      cbn. rewrite Hmeta. reflexivity.
    + rewrite Hup. cbn. auto.
Qed.

Lemma Update_then_GetDocument_witness :
  exists up db' log,
    Update (quiet (Some "user://alice")) postgres.empty_db req1 = (inr up, db', log)
    /\ GetDocument sound_reader db' "u1" 0 = inr "A"
    /\ GetDocument sound_reader db' "u1" (du_Version up) = inr "A"
    /\ exists got,
         GetVersion sound_reader db' "u1" (du_Version up) = inr got
         /\ du_Version got = 1
         /\ du_Creator got = "user://alice".
Proof.
  eexists _, _, _.
  assert (Hrun : Update (quiet (Some "user://alice")) postgres.empty_db req1
                 = (inr (mkDocumentUpdate 1 "user://alice" 10 ∅),
                    snd (fst (Update (quiet (Some "user://alice"))
                                postgres.empty_db req1)),
                    snd (Update (quiet (Some "user://alice"))
                           postgres.empty_db req1)))
    by (vm_compute; reflexivity).
  split; [exact Hrun|].
  destruct (Update_then_GetDocument _ sound_reader _ req1 _ _ _ "A" Hrun)
    as (H0 & Hv & got & Hgot & Hversion & Hcreator & _).
  - reflexivity.
  - reflexivity.
  - intros j [= <-]. reflexivity.
  - intros j _. reflexivity.
  - split; [exact H0|]. split; [exact Hv|].
    exists got. split; [exact Hgot|]. split; [exact Hversion|exact Hcreator].
Defined.

(** ** The version history *)

Lemma insert_desc_In {A : Type} (key : A -> Z) (x : A) (l : list A) (y : A) :
  In y (postgres.insert_desc key x l) <-> y = x \/ In y l.
Proof.
  induction l as [|z l IH]; cbn.
  - intuition.
  - destruct (key z <? key x); cbn; [intuition|]. rewrite IH. intuition.
Qed.

Lemma order_by_desc_In {A : Type} (key : A -> Z) (l : list A) (y : A) :
  In y (postgres.order_by_desc key l) <-> In y l.
Proof.
  unfold postgres.order_by_desc. induction l as [|z l IH]; cbn; [tauto|].
  rewrite insert_desc_In, IH. intuition.
Qed.

Lemma insert_desc_descending {A : Type} (key : A -> Z) (x : A) (l : list A) :
  descending (List.map key l) ->
  descending (List.map key (postgres.insert_desc key x l)).
Proof.
  induction l as [|z l IH]; cbn [postgres.insert_desc List.map descending].
  - intros _. split; [intros y []|exact I].
  - intros [Hz Hl]. destruct (Z.ltb_spec (key z) (key x)); cbn [List.map descending].
    + split; [|split; assumption].
      intros y [<-|Hy]; [lia|]. specialize (Hz y Hy). lia.
    + split; [|auto].
      intros y Hy. apply List.in_map_iff in Hy as (a & <- & Ha).
      apply insert_desc_In in Ha as [->|Ha]; [lia|].
      apply Hz. apply List.in_map. exact Ha.
Qed.

Lemma order_by_desc_descending {A : Type} (key : A -> Z) (l : list A) :
  descending (List.map key (postgres.order_by_desc key l)).
Proof.
  unfold postgres.order_by_desc. induction l as [|z l IH]; cbn [List.fold_right].
  - exact I.
  - now apply insert_desc_descending.
Qed.

Lemma descending_app (l1 l2 : list Z) :
  descending (l1 ++ l2)
  <-> descending l1 /\ descending l2
      /\ forall x y, In x l1 -> In y l2 -> y <= x.
Proof.
  induction l1 as [|a l1 IH]; cbn [app descending].
  - split; [intros H; repeat split; auto; intros x y []|tauto].
  - rewrite IH. split.
    + intros (Ha & Hl1 & Hl2 & Hx). repeat split; auto.
      * intros y Hy. apply Ha. apply List.in_or_app. now left.
      * intros x y [<-|Hx'] Hy; [apply Ha, List.in_or_app; now right|auto].
    + intros ((Ha & Hl1) & Hl2 & Hx). repeat split; auto.
      * intros y Hy. apply List.in_app_or in Hy as [Hy|Hy]; [auto|].
        apply Hx; [now left|exact Hy].
      * intros x y Hx' Hy. apply Hx; [now right|exact Hy].
Qed.

(** [LIMIT n] after [ORDER BY key DESC] keeps rows with the greatest
    keys. *)
Lemma firstn_descending {A : Type} (key : A -> Z) (n : nat) (l : list A) :
  descending (List.map key l) ->
  descending (List.map key (List.firstn n l))
  /\ forall y, In y l ->
       In y (List.firstn n l)
       \/ (length (List.firstn n l) = n
           /\ forall x, In x (List.firstn n l) -> key y <= key x).
Proof.
  intros Hd. rewrite <- (List.firstn_skipn n l) in Hd at 1.
  rewrite List.map_app in Hd. apply descending_app in Hd as (H1 & _ & Hx).
  split; [exact H1|]. intros y Hy.
  rewrite <- (List.firstn_skipn n l) in Hy. apply List.in_app_or in Hy as [Hy|Hy];
    [now left|right]. split.
  - apply List.firstn_length_le.
    destruct (Nat.le_gt_cases n (length l)) as [Hle|Hgt]; [exact Hle|].
    rewrite List.skipn_all2 in Hy by lia. destruct Hy.
  - intros x Hx'. apply Hx; now apply List.in_map.
Qed.

Lemma In_firstn {A : Type} (n : nat) (l : list A) (x : A) :
  In x (List.firstn n l) -> In x l.
Proof.
  intros H. rewrite <- (List.firstn_skipn n l). apply List.in_or_app. now left.
Qed.

Lemma versionUpdates_inr r history : forall ups,
  versionUpdates r history = inr ups ->
  List.map du_Version ups = List.map postgres.gvs_Version history
  /\ List.map du_Creator ups = List.map postgres.gvs_CreatorUri history
  /\ List.map du_Created ups = List.map postgres.gvs_Created history.
Proof.
  induction history as [|v rest IH]; intros ups H; cbn in H.
  - inversion H; subst. auto.
  - destruct (unmarshalMeta r (postgres.gvs_Meta v)); [|discriminate].
    destruct (versionUpdates r rest) as [e|ups']; [discriminate|].
    inversion H; subst. destruct (IH ups' eq_refl) as (H1 & H2 & H3).
    cbn. rewrite H1, H2, H3. auto.
Qed.

(** What a successful [GetVersionHistory] read: the query's rows. *)
Lemma GetVersionHistory_inr r db uuid before count ups :
  GetVersionHistory r db uuid before count = inr ups ->
  0 <= wrap32 count
  /\ exists rows,
       let eligible :=
         List.filter (fun v => String.eqb (postgres.ver_UUID v) uuid
                               && ((before =? 0) || (postgres.ver_Version v <? before)))
           (postgres.document_version db) in
       let sorted :=
         postgres.order_by_desc postgres.gvs_Version
           (List.map (fun v => postgres.mkGetVersionsRow (postgres.ver_Version v)
                                 (postgres.ver_Created v) (postgres.ver_CreatorUri v)
                                 (postgres.ver_Meta v) (postgres.ver_Archived v))
              eligible) in
       rows = List.firstn (Z.to_nat (wrap32 count)) sorted
       /\ versionUpdates r rows = inr ups.
Proof.
  unfold GetVersionHistory, queryRows, postgres.GetVersions, postgres.limit.
  destruct (query_error r 0); [discriminate|].
  destruct (Z.ltb_spec (wrap32 count) 0) as [Hlt|Hge]; [discriminate|].
  intros H. split; [lia|]. eexists. split; [reflexivity|exact H].
Qed.

(** The rows behind a successful [GetVersionHistory]. *)
Lemma GetVersionHistory_window r db uuid before count ups :
  GetVersionHistory r db uuid before count = inr ups ->
  descending (List.map du_Version ups)
  /\ (forall u, In u ups ->
        exists v, In v (postgres.document_version db)
          /\ postgres.ver_UUID v = uuid
          /\ postgres.ver_Version v = du_Version u
          /\ (before = 0 \/ du_Version u < before))
  /\ (forall v, In v (postgres.document_version db) ->
        postgres.ver_UUID v = uuid ->
        before = 0 \/ postgres.ver_Version v < before ->
        In (postgres.ver_Version v) (List.map du_Version ups)
        \/ (Z.of_nat (length ups) = wrap32 count
            /\ forall x, In x (List.map du_Version ups) ->
                 postgres.ver_Version v <= x)).
Proof.
  intros H.
  apply GetVersionHistory_inr in H as (Hn & rows & Hrows & Hups). cbv zeta in Hrows.
  apply versionUpdates_inr in Hups as (Hv & _ & _).
  set (eligible := List.filter _ (postgres.document_version db)) in Hrows.
  set (sorted := postgres.order_by_desc _ _) in Hrows.
  destruct (firstn_descending postgres.gvs_Version (Z.to_nat (wrap32 count)) sorted)
    as [Hdesc Htop]; [apply order_by_desc_descending|].
  rewrite <- Hrows in Hdesc, Htop.
  assert (Hlen : length ups = length rows).
  { rewrite <- (List.length_map du_Version ups), Hv. apply List.length_map. }
  assert (Hel : forall v, In v eligible
            <-> In v (postgres.document_version db) /\ postgres.ver_UUID v = uuid
                /\ (before = 0 \/ postgres.ver_Version v < before)).
  { intros v. subst eligible. rewrite List.filter_In.
    destruct (String.eqb_spec (postgres.ver_UUID v) uuid);
      destruct (Z.eqb_spec before 0);
      destruct (Z.ltb_spec (postgres.ver_Version v) before); cbn;
      intuition (try discriminate; try lia). }
  split; [|split].
  - rewrite Hv. exact Hdesc.
  - intros u Hu. apply (List.in_map du_Version) in Hu. rewrite Hv in Hu.
    apply List.in_map_iff in Hu as (row & Hrow & Hin).
    rewrite Hrows in Hin. apply In_firstn in Hin.
    apply order_by_desc_In, List.in_map_iff in Hin as (v & <- & Hin).
    apply Hel in Hin as (Hin & Hu & Hb). exists v. cbn in Hrow.
    rewrite <- Hrow. auto.
  - intros v Hin Hu Hb.
    set (row := postgres.mkGetVersionsRow (postgres.ver_Version v)
                  (postgres.ver_Created v) (postgres.ver_CreatorUri v)
                  (postgres.ver_Meta v) (postgres.ver_Archived v)).
    assert (Hrow : In row sorted).
    { apply order_by_desc_In, List.in_map_iff. exists v. split; [reflexivity|].
      apply Hel. auto. }
    rewrite Hv. destruct (Htop row Hrow) as [Hin'|[Hfull Hle]].
    + left. apply (List.in_map postgres.gvs_Version) in Hin'. exact Hin'.
    + right. split; [rewrite Hlen, Hfull; lia|].
      intros x Hx. apply List.in_map_iff in Hx as (row' & <- & Hin').
      exact (Hle row' Hin').
Qed.

(** X12. A successful [GetVersionHistory] returns versions of the
    document in descending order, each that of a row of it that is below
    [before] unless [before] is 0, and at most [int32(count)] of them, a
    number that is not negative.  It returns the newest such versions: a
    version of the document below [before] that is not returned is at
    most as large as every returned one, and the answer is then full. *)
Theorem GetVersionHistory_newest r db uuid before count ups :
  GetVersionHistory r db uuid before count = inr ups ->
  let n := wrap32 count in
  0 <= n
  /\ Z.of_nat (length ups) <= n
  /\ descending (List.map du_Version ups)
  /\ (forall u, In u ups ->
        exists v, In v (postgres.document_version db)
          /\ postgres.ver_UUID v = uuid
          /\ postgres.ver_Version v = du_Version u
          /\ (before = 0 \/ du_Version u < before))
  /\ (forall v, In v (postgres.document_version db) ->
        postgres.ver_UUID v = uuid ->
        before = 0 \/ postgres.ver_Version v < before ->
        In (postgres.ver_Version v) (List.map du_Version ups)
        \/ (Z.of_nat (length ups) = n
            /\ forall x, In x (List.map du_Version ups) ->
                 postgres.ver_Version v <= x)).
Proof.
  intros H n. subst n.
  pose proof (GetVersionHistory_window _ _ _ _ _ _ H) as Hw.
  apply GetVersionHistory_inr in H as (Hn & rows & Hrows & Hups). cbv zeta in Hrows.
  apply versionUpdates_inr in Hups as (Hv & _ & _).
  split; [exact Hn|]. split; [|exact Hw].
  rewrite <- (List.length_map du_Version ups), Hv, List.length_map, Hrows.
  rewrite List.length_firstn. lia.
Qed.

Lemma GetVersionHistory_newest_witness :
  exists ups,
    GetVersionHistory sound_reader db_three_versions "u1" 3 10 = inr ups
    /\ List.map du_Version ups = [2; 1]
    /\ descending (List.map du_Version ups).
Proof.
  eexists.
  assert (Hrun : GetVersionHistory sound_reader db_three_versions "u1" 3 10
                 = inr [mkDocumentUpdate 2 "user://bob" 20 ∅;
                        mkDocumentUpdate 1 "user://alice" 10 ∅])
    by (vm_compute; reflexivity).
  split; [exact Hrun|]. split; [reflexivity|].
  exact (proj1 (proj2 (proj2 (GetVersionHistory_newest _ _ _ _ _ _ Hrun)))).
Defined.

Lemma descending_last (l : list Z) (m : Z) :
  descending l -> last l = Some m -> forall x, In x l -> m <= x.
Proof.
  induction l as [|a l IH]; intros Hd Hl x Hx; [destruct Hx|].
  destruct Hd as [Ha Hd]. destruct l as [|b l].
  - cbn in Hl. injection Hl as <-. destruct Hx as [<-|[]]. lia.
  - change (last (a :: b :: l)) with (last (b :: l)) in Hl.
    destruct Hx as [<-|Hx]; [|auto].
    assert (Hm : In m (b :: l)).
    { clear -Hl. revert b Hl. induction l as [|c l IHl]; intros b Hl.
      - cbn in Hl. injection Hl as <-. now left.
      - right. apply (IHl c). exact Hl. }
    apply Ha. exact Hm.
Qed.

(** X13. Paging through the history loses nothing.  If a first page is
    read with [before] 0 and the next page with [before] set to the
    oldest version of the first, which is not 0, then the two pages
    together are in descending order, the second page lies strictly below
    the first, and a version of the document that is on neither page is
    at most as large as every version on them, the second page being
    full. *)
Theorem GetVersionHistory_paging r db uuid count page1 page2 oldest :
  GetVersionHistory r db uuid 0 count = inr page1 ->
  last (List.map du_Version page1) = Some oldest ->
  oldest <> 0 ->
  GetVersionHistory r db uuid oldest count = inr page2 ->
  let versions := List.map du_Version (page1 ++ page2) in
  descending versions
  /\ (forall x y, In x (List.map du_Version page1) ->
        In y (List.map du_Version page2) -> y < x)
  /\ (forall x, In x (version_numbers db uuid) ->
        In x versions
        \/ (Z.of_nat (length page2) = wrap32 count
            /\ forall y, In y versions -> x <= y)).
Proof.
  intros H1 Hlast Hne H2 versions. subst versions.
  apply GetVersionHistory_window in H1 as (Hd1 & _ & Htop1).
  apply GetVersionHistory_window in H2 as (Hd2 & Hrow2 & Htop2).
  pose proof (descending_last _ _ Hd1 Hlast) as Hmin.
  assert (Hbelow : forall y, In y (List.map du_Version page2) -> y < oldest).
  { intros y Hy. apply List.in_map_iff in Hy as (u & <- & Hu).
    destruct (Hrow2 u Hu) as (v & _ & _ & _ & [Hz|Hlt]); [contradiction|exact Hlt]. }
  rewrite List.map_app. split; [|split].
  - apply descending_app. split; [exact Hd1|]. split; [exact Hd2|].
    intros x y Hx Hy. specialize (Hmin x Hx). specialize (Hbelow y Hy). lia.
  - intros x y Hx Hy. specialize (Hmin x Hx). specialize (Hbelow y Hy). lia.
  - intros x Hx. unfold version_numbers in Hx.
    apply List.in_map_iff in Hx as (v & <- & Hv).
    apply List.filter_In in Hv as [Hin Hu]. apply String.eqb_eq in Hu.
    destruct (Htop1 v Hin Hu (or_introl eq_refl)) as [Hin1|[_ Hle1]].
    { left. apply List.in_or_app. now left. }
    destruct (Z.eq_dec (postgres.ver_Version v) oldest) as [Heq|Hneq].
    { left. apply List.in_or_app. left. rewrite Heq.
      clear -Hlast. induction (List.map du_Version page1) as [|a l IH]; [discriminate|].
      destruct l as [|b l]; [cbn in Hlast; injection Hlast as <-; now left|].
      right. apply IH. exact Hlast. }
    assert (Hlt : postgres.ver_Version v < oldest).
    { assert (Ho : In oldest (List.map du_Version page1)).
      { clear -Hlast. induction (List.map du_Version page1) as [|a l IH]; [discriminate|].
        destruct l as [|b l]; [cbn in Hlast; injection Hlast as <-; now left|].
        right. apply IH. exact Hlast. }
      specialize (Hle1 oldest Ho). lia. }
    destruct (Htop2 v Hin Hu (or_intror Hlt)) as [Hin2|[Hfull Hle2]].
    { left. apply List.in_or_app. now right. }
    right. split; [exact Hfull|].
    intros y Hy. apply List.in_app_or in Hy as [Hy|Hy]; auto.
Qed.

Lemma GetVersionHistory_paging_witness :
  exists page1 page2,
    GetVersionHistory sound_reader db_three_versions "u1" 0 2 = inr page1
    /\ GetVersionHistory sound_reader db_three_versions "u1" 2 2 = inr page2
    /\ descending (List.map du_Version (page1 ++ page2)).
Proof.
  eexists _, _.
  assert (H1 : GetVersionHistory sound_reader db_three_versions "u1" 0 2
               = inr [mkDocumentUpdate 3 "user://bob" 30 ∅;
                      mkDocumentUpdate 2 "user://bob" 20 ∅])
    by (vm_compute; reflexivity).
  assert (H2 : GetVersionHistory sound_reader db_three_versions "u1" 2 2
               = inr [mkDocumentUpdate 1 "user://alice" 10 ∅])
    by (vm_compute; reflexivity).
  split; [exact H1|]. split; [exact H2|].
  refine (proj1 (GetVersionHistory_paging _ _ _ _ _ _ 2 H1 eq_refl _ H2)).
  discriminate.
Defined.

(** ** The archiver's version selector *)

Lemma version_join_in db v p :
  In (v, p) (postgres.version_join db)
  <-> In v (postgres.document_version db)
      /\ match p with
         | Some p => In p (postgres.document_version db)
                     /\ postgres.version_parent_on v p = true
         | None => forall p, In p (postgres.document_version db) ->
                     postgres.version_parent_on v p = false
         end.
Proof.
  unfold postgres.version_join. rewrite List.in_flat_map. split.
  - intros (v0 & Hv0 & H).
    destruct (List.filter (postgres.version_parent_on v0) (postgres.document_version db))
      as [|p0 ps] eqn:Ef.
    + destruct H as [[= <- <-]|[]]. split; [exact Hv0|].
      now apply filter_nil_iff.
    + apply List.in_map_iff in H as (p' & [= <- <-] & Hp').
      split; [exact Hv0|]. rewrite <- Ef in Hp'.
      now apply List.filter_In in Hp'.
  - intros [Hv Hp]. exists v. split; [exact Hv|].
    destruct p as [p|].
    + assert (Hin : In p (List.filter (postgres.version_parent_on v)
                            (postgres.document_version db)))
        by (apply List.filter_In; exact Hp).
      destruct (List.filter _ _) as [|p0 ps]; [destruct Hin|].
      apply List.in_map_iff. exists p. auto.
    + apply filter_nil_iff in Hp. rewrite Hp. now left.
Qed.

Lemma version_eligible_where db v p :
  In (v, p) (postgres.version_join db) ->
  postgres.version_archiving_where (v, p) = true ->
  version_eligible db v = true.
Proof.
  intros Hin Hw. apply version_join_in in Hin as [Hv Hp].
  unfold postgres.version_archiving_where in Hw. cbn [fst snd] in Hw.
  unfold version_eligible.
  apply andb_prop in Hw as [Ha Hw]. rewrite Ha. cbn [andb].
  apply orb_prop in Hw as [Hw|Hw]; [now rewrite Hw|].
  destruct p as [p|]; [|discriminate]. destruct Hp as [Hp Hon].
  apply orb_true_intro. right. unfold version_parent_archived.
  apply List.existsb_exists. exists p. split; [exact Hp|]. now rewrite Hon, Hw.
Qed.

Lemma version_eligible_in_join db v :
  In v (postgres.document_version db) -> version_eligible db v = true ->
  exists p, In (v, p) (List.filter postgres.version_archiving_where
                         (postgres.version_join db)).
Proof.
  unfold version_eligible. intros Hv H.
  apply andb_prop in H as [Ha H].
  destruct (version_parent_archived db v) eqn:Hpa.
  - unfold version_parent_archived in Hpa.
    apply List.existsb_exists in Hpa as (p & Hp & Hon).
    apply andb_prop in Hon as [Hon Harch].
    exists (Some p). apply List.filter_In. split.
    + apply version_join_in. auto.
    + unfold postgres.version_archiving_where. cbn [fst snd].
      now rewrite Ha, Harch, orb_true_r.
  - rewrite orb_false_r in H.
    destruct (List.filter (postgres.version_parent_on v) (postgres.document_version db))
      as [|p ps] eqn:Ef.
    + exists None. apply List.filter_In. split.
      * apply version_join_in. split; [exact Hv|]. now apply filter_nil_iff.
      * unfold postgres.version_archiving_where. cbn [fst snd]. now rewrite Ha, H.
    + assert (Hp : In p (List.filter (postgres.version_parent_on v)
                           (postgres.document_version db)))
        by (rewrite Ef; now left).
      apply List.filter_In in Hp.
      exists (Some p). apply List.filter_In. split.
      * apply version_join_in. auto.
      * unfold postgres.version_archiving_where. cbn [fst snd]. now rewrite Ha, H.
Qed.

(** What the selector hands out, when it hands out a row. *)
Lemma GetDocumentVersionForArchiving_some db r :
  postgres.GetDocumentVersionForArchiving db = Some r ->
  exists v p,
    In (v, p) (postgres.version_join db)
    /\ postgres.version_archiving_where (v, p) = true
    /\ r = postgres.mkGetDocumentVersionForArchivingRow
             (postgres.ver_UUID v) (postgres.ver_Version v) (postgres.ver_Created v)
             (postgres.ver_CreatorUri v) (postgres.ver_Meta v)
             (postgres.ver_DocumentData v)
             (match p with Some p => postgres.ver_Signature p | None => None end)
    /\ forall v' p', In (v', p') (postgres.version_join db) ->
         postgres.version_archiving_where (v', p') = true ->
         postgres.ver_Created v <= postgres.ver_Created v'.
Proof.
  unfold postgres.GetDocumentVersionForArchiving.
  destruct (postgres.earliest_by _ _) as [[v p]|] eqn:He; [|discriminate].
  intros [= <-]. apply earliest_by_least in He as [Hin Hle].
  apply List.filter_In in Hin as [Hin Hw].
  exists v, p. repeat split; auto.
  intros v' p' Hin' Hw'.
  apply (Hle (v', p')). apply List.filter_In. auto.
Qed.

(** X14. The archiver's version selector hands out only a version that
    may be archived: one that is not archived yet and is a first version
    or follows an archived version of the same document; among those it
    hands out one with the least creation time, with the columns of its
    row, and with the signature of a row of the version before it, or
    none when there is no such row.  It finds no row exactly when no
    version may be archived. *)
Theorem GetDocumentVersionForArchiving_eligible_earliest db :
  match postgres.GetDocumentVersionForArchiving db with
  | Some r =>
    exists v, In v (postgres.document_version db)
      /\ version_eligible db v = true
      /\ postgres.vfa_Uuid r = postgres.ver_UUID v
      /\ postgres.vfa_Version r = postgres.ver_Version v
      /\ postgres.vfa_Created r = postgres.ver_Created v
      /\ postgres.vfa_DocumentData r = postgres.ver_DocumentData v
      /\ (forall v', In v' (postgres.document_version db) ->
            version_eligible db v' = true ->
            postgres.ver_Created v <= postgres.ver_Created v')
      /\ ((exists p, In p (postgres.document_version db)
             /\ postgres.version_parent_on v p = true
             /\ postgres.vfa_ParentSignature r = postgres.ver_Signature p)
          \/ ((forall p, In p (postgres.document_version db) ->
                 postgres.version_parent_on v p = false)
              /\ postgres.vfa_ParentSignature r = None))
  | None =>
    forall v, In v (postgres.document_version db) -> version_eligible db v = false
  end.
Proof.
  destruct (postgres.GetDocumentVersionForArchiving db) as [r|] eqn:Hsel.
  - apply GetDocumentVersionForArchiving_some in Hsel
      as (v & p & Hin & Hw & -> & Hle).
    exists v. cbn.
    pose proof (version_eligible_where db v p Hin Hw) as Hel.
    apply version_join_in in Hin as [Hv Hp].
    repeat (split; [auto; fail|]). split.
    + intros v' Hv' Hel'.
      destruct (version_eligible_in_join db v' Hv' Hel') as (p' & Hin').
      apply List.filter_In in Hin' as [Hin' Hw']. eauto.
    + destruct p as [p|]; [left; exists p; tauto|right; auto].
  - intros v Hv. destruct (version_eligible db v) eqn:Hel; [|reflexivity].
    destruct (version_eligible_in_join db v Hv Hel) as (p & Hin).
    unfold postgres.GetDocumentVersionForArchiving in Hsel.
    destruct (postgres.earliest_by _ _) as [[v0 p0]|] eqn:He; [discriminate|].
    apply earliest_by_none in He. rewrite He in Hin. destruct Hin.
Qed.

(** ** A round of the archiver on versions *)

Lemma SetDocumentVersionAsArchived_rows db signature uuid version v' :
  In v' (postgres.document_version
           (postgres.SetDocumentVersionAsArchived db signature uuid version))
  <-> exists v, In v (postgres.document_version db)
        /\ postgres.ver_UUID v' = postgres.ver_UUID v
        /\ postgres.ver_Version v' = postgres.ver_Version v
        /\ (if postgres.version_key uuid version v
            then postgres.ver_Archived v' = true
                 /\ v' = postgres.mkDocumentVersion (postgres.ver_UUID v)
                           (postgres.ver_Version v) (postgres.ver_Created v)
                           (postgres.ver_CreatorUri v) (postgres.ver_Meta v)
                           (postgres.ver_DocumentData v) true (Some signature)
            else v' = v).
Proof.
  cbn. rewrite List.in_map_iff. unfold postgres.version_key. split.
  - intros (v & <- & Hv). exists v. split; [exact Hv|].
    destruct (String.eqb (postgres.ver_UUID v) uuid && (postgres.ver_Version v =? version));
      cbn; auto.
  - intros (v & Hv & _ & _ & H). exists v. split; [|exact Hv].
    destruct (String.eqb (postgres.ver_UUID v) uuid && (postgres.ver_Version v =? version));
      [destruct H as [_ ->]|subst v']; reflexivity.
Qed.

Lemma filter_map_shrinks {A : Type} (un : A -> bool) (f : A -> A) (l : list A) :
  (forall x, In x l -> un (f x) = true -> un x = true) ->
  (length (List.filter un (List.map f l)) <= length (List.filter un l))%nat
  /\ ((exists x, In x l /\ un x = true /\ un (f x) = false) ->
      (length (List.filter un (List.map f l)) < length (List.filter un l))%nat).
Proof.
  induction l as [|a l IH]; intros Hmono.
  - split; [reflexivity|]. intros (x & [] & _).
  - destruct IH as [IHle IHlt]; [intros x Hx; apply Hmono; now right|].
    cbn [List.map List.filter].
    pose proof (Hmono a (or_introl eq_refl)) as Ha.
    destruct (un (f a)) eqn:Efa.
    + rewrite (Ha eq_refl). cbn [length]. split; [lia|].
      intros (x & [<-|Hx] & Hux & Hfx); [congruence|].
      assert (length (List.filter un (List.map f l)) < length (List.filter un l))%nat
        by (apply IHlt; eauto). lia.
    + destruct (un a) eqn:Ea; cbn [length].
      * split; lia.
      * split; [exact IHle|].
        intros (x & [<-|Hx] & Hux & Hfx); [congruence|]. apply IHlt. eauto.
Qed.

(** X15. A round of the archiver on versions, which marks the version the
    selector hands out, keeps the archive chain: if every archived
    version was a first version or followed an archived one, this holds
    afterwards as well.  The round turns the selected version from
    unarchived to archived and no archived version back, so that the
    number of unarchived versions goes down; it changes no row of another
    document or version, and no table other than the versions. *)
Theorem archiveVersion_chain sign db db' :
  archiveVersion sign db = Some db' ->
  version_chain_archived db ->
  version_chain_archived db'
  /\ (versions_unarchived db' < versions_unarchived db)%nat
  /\ (exists r, postgres.GetDocumentVersionForArchiving db = Some r
        /\ forall v, In v (postgres.document_version db) ->
             postgres.version_key (postgres.vfa_Uuid r) (postgres.vfa_Version r) v
             = false ->
             In v (postgres.document_version db'))
  /\ postgres.document db' = postgres.document db
  /\ postgres.document_status db' = postgres.document_status db
  /\ postgres.status_heads db' = postgres.status_heads db.
Proof.
  unfold archiveVersion. intros Hstep Hchain.
  destruct (postgres.GetDocumentVersionForArchiving db) as [r|] eqn:Hsel; [|discriminate].
  injection Hstep as <-.
  apply GetDocumentVersionForArchiving_some in Hsel as (vs & ps & Hin & Hw & -> & _).
  cbn [postgres.vfa_Uuid postgres.vfa_Version].
  set (sig := sign _).
  apply version_join_in in Hin as [Hvs Hps].
  unfold postgres.version_archiving_where in Hw. cbn [fst snd] in Hw.
  apply andb_prop in Hw as [Hun Hpar]. apply negb_true_iff in Hun.
  (* a row that was archived, or is a predecessor, stays so *)
  assert (Hkeep : forall v p, In p (postgres.document_version db) ->
            postgres.version_parent_on v p = true -> postgres.ver_Archived p = true ->
            exists p', In p' (postgres.document_version
                               (postgres.SetDocumentVersionAsArchived db sig
                                  (postgres.ver_UUID vs) (postgres.ver_Version vs)))
                       /\ postgres.version_parent_on v p' = true
                       /\ postgres.ver_Archived p' = true).
  { intros v p Hp Hon Harch.
    destruct (postgres.version_key (postgres.ver_UUID vs) (postgres.ver_Version vs) p)
      eqn:Ek.
    - exists (postgres.mkDocumentVersion (postgres.ver_UUID p)
                (postgres.ver_Version p) (postgres.ver_Created p)
                (postgres.ver_CreatorUri p) (postgres.ver_Meta p)
                (postgres.ver_DocumentData p) true (Some sig)).
      split; [|split].
      + apply SetDocumentVersionAsArchived_rows. exists p. rewrite Ek.
        split; [exact Hp|]. cbn. auto.
      + exact Hon.
      + reflexivity.
    - exists p. split; [|auto].
      apply SetDocumentVersionAsArchived_rows. exists p. rewrite Ek. auto. }
  split; [|split; [|split]].
  - intros v' Hv' Harch'.
    apply SetDocumentVersionAsArchived_rows in Hv' as (v & Hv & Hu & Hn & Hcase).
    assert (Hpar' : postgres.ver_Version v = 1
                    \/ exists p, In p (postgres.document_version db)
                         /\ postgres.version_parent_on v p = true
                         /\ postgres.ver_Archived p = true).
    { destruct (postgres.version_key (postgres.ver_UUID vs) (postgres.ver_Version vs) v)
        eqn:Ek.
      - unfold postgres.version_key in Ek. apply andb_prop in Ek as [Eu En].
        apply String.eqb_eq in Eu. apply Z.eqb_eq in En.
        apply orb_prop in Hpar as [H1|Hp].
        + left. apply Z.eqb_eq in H1. congruence.
        + right. destruct ps as [p|]; [|discriminate]. destruct Hps as [Hp' Hon].
          exists p. repeat split; auto.
          unfold postgres.version_parent_on in *. now rewrite Eu, En.
      - subst v'. destruct (Hchain v Hv Harch') as [H1|Hpa]; [now left|right].
        unfold version_parent_archived in Hpa.
        apply List.existsb_exists in Hpa as (p & Hp & Hon).
        apply andb_prop in Hon as [Hon Harch]. eauto. }
    destruct Hpar' as [H1|(p & Hp & Hon & Harch)]; [left; congruence|right].
    destruct (Hkeep v p Hp Hon Harch) as (p' & Hp' & Hon' & Hpa').
    unfold version_parent_archived. apply List.existsb_exists.
    exists p'. split; [exact Hp'|].
    unfold postgres.version_parent_on in *. rewrite Hu, Hn. now rewrite Hon', Hpa'.
  - unfold versions_unarchived. cbn [postgres.document_version
      postgres.SetDocumentVersionAsArchived].
    apply filter_map_shrinks.
    + intros x _. destruct (String.eqb _ _ && _); [discriminate|auto].
    + exists vs. split; [exact Hvs|]. split; [now rewrite Hun|].
      now rewrite String.eqb_refl, Z.eqb_refl.
  - eexists. split; [reflexivity|]. cbn [postgres.vfa_Uuid postgres.vfa_Version].
    intros v Hv Hk. apply SetDocumentVersionAsArchived_rows. exists v.
    rewrite Hk. auto.
  - auto.
Qed.

Lemma archiveVersion_chain_witness :
  exists db',
    archiveVersion (fun _ => "sig") db_three_versions = Some db'
    /\ version_chain_archived db'
    /\ (versions_unarchived db' < versions_unarchived db_three_versions)%nat.
Proof.
  eexists.
  assert (Hstep : archiveVersion (fun _ => "sig") db_three_versions
                  = Some (postgres.SetDocumentVersionAsArchived db_three_versions
                            "sig" "u1" 2)) by reflexivity.
  split; [exact Hstep|].
  assert (Hchain : version_chain_archived db_three_versions).
  { intros v [<-|[<-|[<-|[]]]] Harch; try discriminate. now left. }
  destruct (archiveVersion_chain _ _ _ Hstep Hchain) as (H1 & H2 & _).
  split; [exact H1|exact H2].
Defined.

(** X16. The archiver does not get stuck on versions: when every version
    row other than a first version has a row for the version before it,
    the version selector finds no row only if every version is archived;
    and it never finds a row when every version is archived. *)
Theorem GetDocumentVersionForArchiving_none db :
  version_contiguous db ->
  (postgres.GetDocumentVersionForArchiving db = None
   <-> forall v, In v (postgres.document_version db) ->
         postgres.ver_Archived v = true).
Proof.
  intros Hcont. split.
  - intros Hnone v Hv.
    destruct (postgres.ver_Archived v) eqn:Harch; [reflexivity|exfalso].
    destruct (postgres.earliest_by postgres.ver_Version
                (List.filter (fun v => negb (postgres.ver_Archived v))
                   (postgres.document_version db))) as [m|] eqn:Hmin.
    + apply earliest_by_least in Hmin as [Hm Hle].
      apply List.filter_In in Hm as [Hm Hun].
      assert (Hel : version_eligible db m = true).
      { unfold version_eligible. rewrite Hun. cbn [andb].
        destruct (Hcont m Hm) as [H1|(p & Hp & Hon)];
          [apply Z.eqb_eq in H1; now rewrite H1|].
        apply orb_true_intro. right. unfold version_parent_archived.
        apply List.existsb_exists. exists p. split; [exact Hp|]. rewrite Hon.
        destruct (postgres.ver_Archived p) eqn:Hpa; [reflexivity|exfalso].
        assert (Hin : In p (List.filter (fun v => negb (postgres.ver_Archived v))
                              (postgres.document_version db)))
          by (apply List.filter_In; rewrite Hpa; auto).
        specialize (Hle p Hin).
        unfold postgres.version_parent_on in Hon. apply andb_prop in Hon as [_ Hn].
        apply Z.eqb_eq in Hn. lia. }
      destruct (version_eligible_in_join db m Hm Hel) as (p & Hin).
      unfold postgres.GetDocumentVersionForArchiving in Hnone.
      destruct (postgres.earliest_by _ (List.filter postgres.version_archiving_where _))
        as [[v0 p0]|] eqn:He; [discriminate|].
      apply earliest_by_none in He. rewrite He in Hin. destruct Hin.
    + apply earliest_by_none in Hmin.
      assert (Hin : In v (List.filter (fun v => negb (postgres.ver_Archived v))
                            (postgres.document_version db)))
        by (apply List.filter_In; rewrite Harch; auto).
      rewrite Hmin in Hin. destruct Hin.
  - intros Hall.
    destruct (postgres.GetDocumentVersionForArchiving db) as [r|] eqn:Hsel;
      [exfalso|reflexivity].
    apply GetDocumentVersionForArchiving_some in Hsel as (v & p & Hin & Hw & _).
    apply version_join_in in Hin as [Hv _].
    unfold postgres.version_archiving_where in Hw. cbn [fst] in Hw.
    rewrite (Hall v Hv) in Hw. discriminate.
Qed.

Lemma GetDocumentVersionForArchiving_none_witness :
  postgres.GetDocumentVersionForArchiving db_archived = None
  <-> forall v, In v (postgres.document_version db_archived) ->
        postgres.ver_Archived v = true.
Proof.
  apply GetDocumentVersionForArchiving_none.
  intros v [<-|[]]. left. reflexivity.
Defined.

(** X17. The archiver does not get stuck on statuses either: when the
    status ids of every document and name run from 1 to the head without
    gap, and the version each status pins carries a signature, the status
    selector finds no row only if every status is archived; and it never
    finds a row when every status is archived. *)
Theorem GetDocumentStatusForArchiving_none db :
  chain_ok db ->
  pinned_versions_signed db ->
  (postgres.GetDocumentStatusForArchiving db = None
   <-> forall s, In s (postgres.document_status db) ->
         postgres.st_Archived s = true).
Proof.
  intros Hchain Hpinned. split.
  - intros Hnone s Hs.
    destruct (postgres.st_Archived s) eqn:Harch; [reflexivity|exfalso].
    destruct (postgres.earliest_by postgres.st_ID
                (List.filter (fun s => negb (postgres.st_Archived s))
                   (postgres.document_status db))) as [m|] eqn:Hmin.
    + apply earliest_by_least in Hmin as [Hm Hle].
      apply List.filter_In in Hm as [Hm Hun].
      apply (GetDocumentStatusForArchiving_finds db m Hm); [|exact Hnone].
      unfold eligible. rewrite Hun, (Hpinned m Hm), andb_true_r. cbn [andb].
      destruct (Z.eqb_spec (postgres.st_ID m) 1) as [H1|Hn1]; [reflexivity|].
      cbn [orb].
      destruct (Hchain (postgres.st_UUID m) (postgres.st_Name m)) as [_ Hids].
      assert (Hid : In (postgres.st_ID m)
                      (status_ids db (postgres.st_UUID m) (postgres.st_Name m))).
      { unfold status_ids. apply List.in_map. apply List.filter_In.
        split; [exact Hm|]. now rewrite !String.eqb_refl. }
      rewrite Hids in Hid. apply ids_upto_In in Hid.
      assert (Hprev : In (postgres.st_ID m - 1)
                        (status_ids db (postgres.st_UUID m) (postgres.st_Name m))).
      { rewrite Hids. apply ids_upto_In. lia. }
      unfold status_ids in Hprev. apply List.in_map_iff in Hprev as (p & Hpid & Hp).
      apply List.filter_In in Hp as [Hp Hkey]. apply andb_prop in Hkey as [Hu Hn].
      unfold parent_archived. apply List.existsb_exists. exists p.
      split; [exact Hp|]. unfold postgres.parent_on.
      rewrite Hu, Hn, Hpid, Z.eqb_refl. cbn [andb].
      destruct (postgres.st_Archived p) eqn:Hpa; [reflexivity|exfalso].
      assert (Hin : In p (List.filter (fun s => negb (postgres.st_Archived s))
                            (postgres.document_status db)))
        by (apply List.filter_In; rewrite Hpa; auto).
      specialize (Hle p Hin). lia.
    + apply earliest_by_none in Hmin.
      assert (Hin : In s (List.filter (fun s => negb (postgres.st_Archived s))
                            (postgres.document_status db)))
        by (apply List.filter_In; rewrite Harch; auto).
      rewrite Hmin in Hin. destruct Hin.
  - intros Hall. unfold postgres.GetDocumentStatusForArchiving.
    destruct (postgres.earliest _) as [[[s v] p]|] eqn:He; [exfalso|reflexivity].
    apply earliest_least in He as [Hin _].
    apply List.filter_In in Hin as [Hin Hw].
    apply status_join_in in Hin as (Hs & _).
    unfold postgres.archiving_where in Hw.
    rewrite (Hall s Hs) in Hw. discriminate.
Qed.

Lemma GetDocumentStatusForArchiving_none_witness :
  let db := postgres.SetDocumentVersionAsArchived
              (snd (fst (Update (quiet None) postgres.empty_db req1)))
              "sig-v1" "u1" 1 in
  postgres.GetDocumentStatusForArchiving db = None
  <-> forall s, In s (postgres.document_status db) ->
        postgres.st_Archived s = true.
Proof.
  assert (Hrun : Update (quiet None) postgres.empty_db req1
                 = (inr (mkDocumentUpdate 1 "user://alice" 10 ∅),
                    snd (fst (Update (quiet None) postgres.empty_db req1)),
                    snd (Update (quiet None) postgres.empty_db req1)))
    by (vm_compute; reflexivity).
  assert (Hrange : heads_in_range postgres.empty_db req1).
  { intros stat _. unfold head_of. cbn. unfold loadHeads. cbn. rewrite lookup_empty.
    vm_compute. reflexivity. }
  apply GetDocumentStatusForArchiving_none.
  - apply (chain_ok_same _ (snd (fst (Update (quiet None) postgres.empty_db req1))));
      [reflexivity|reflexivity|].
    exact (Update_chain_step _ _ _ _ _ _ chain_ok_empty Hrange Hrun).
  - intros s Hs. vm_compute in Hs. destruct Hs as [<-|[]]. vm_compute. reflexivity.
Defined.

(** ** The heads GetDocumentMeta reports *)

Lemma find_app {A : Type} (p : A -> bool) (l1 l2 : list A) :
  List.find p (l1 ++ l2)
  = match List.find p l1 with
    | Some x => Some x
    | None => List.find p l2
    end.
Proof.
  induction l1 as [|a l1 IH]; cbn; [reflexivity|].
  destruct (p a); [reflexivity|exact IH].
Qed.

(** [meta.Statuses] after the loop: for each name the last row of that
    name wins. *)
Lemma loadStatuses_lookup r name heads : forall m res,
  loadStatuses r heads m = inr res ->
  match List.find (fun s => String.eqb (postgres.st_Name s) name) (List.rev heads) with
  | Some s =>
    exists st, res !! name = Some st
      /\ status_ID st = postgres.st_ID s
      /\ status_Version st = postgres.st_Version s
      /\ status_Creator st = postgres.st_CreatorUri s
      /\ status_Created st = postgres.st_Created s
      /\ unmarshalMeta r (postgres.st_Meta s) = Some (status_Meta st)
  | None => res !! name = m !! name
  end.
Proof.
  induction heads as [|s0 rest IH]; intros m res H; cbn [loadStatuses] in H.
  - inversion H; subst. reflexivity.
  - destruct (unmarshalMeta r (postgres.st_Meta s0)) as [m0|] eqn:Em; [|discriminate].
    specialize (IH _ _ H). cbn [List.rev]. rewrite find_app.
    destruct (List.find _ (List.rev rest)) as [s|]; [exact IH|].
    cbn [List.find]. rewrite IH.
    destruct (String.eqb_spec (postgres.st_Name s0) name) as [He|Hne].
    + subst name. rewrite lookup_insert_eq. eexists. split; [reflexivity|].
      cbn. auto.
    + now rewrite lookup_insert_ne.
Qed.

(** The rows of the join for the head rows [hs]. *)
Lemma GetFullDocumentHeads_app db uuid hs h :
  List.flat_map (fun h =>
    List.filter (fun s => String.eqb (postgres.st_UUID s) (postgres.head_UUID h)
                          && String.eqb (postgres.st_Name s) (postgres.head_Name h)
                          && (postgres.st_ID s =? postgres.head_ID h))
      (postgres.document_status db))
    (List.filter (fun h => String.eqb (postgres.head_UUID h) uuid) (hs ++ [h]))
  = List.flat_map (fun h =>
      List.filter (fun s => String.eqb (postgres.st_UUID s) (postgres.head_UUID h)
                            && String.eqb (postgres.st_Name s) (postgres.head_Name h)
                            && (postgres.st_ID s =? postgres.head_ID h))
        (postgres.document_status db))
      (List.filter (fun h => String.eqb (postgres.head_UUID h) uuid) hs)
    ++ (if String.eqb (postgres.head_UUID h) uuid
        then List.filter
               (fun s => String.eqb (postgres.st_UUID s) (postgres.head_UUID h)
                         && String.eqb (postgres.st_Name s) (postgres.head_Name h)
                         && (postgres.st_ID s =? postgres.head_ID h))
               (postgres.document_status db)
        else []).
Proof.
  rewrite List.filter_app, List.flat_map_app. f_equal. cbn [List.filter].
  destruct (String.eqb (postgres.head_UUID h) uuid); cbn; [apply app_nil_r|reflexivity].
Qed.

Lemma find_rev_filter_none {A : Type} (p q : A -> bool) (l : list A) :
  (forall x, q x = true -> p x = false) ->
  List.find p (List.rev (List.filter q l)) = None.
Proof.
  intros H. destruct (List.find p (List.rev (List.filter q l))) as [x|] eqn:Ef;
    [|reflexivity].
  apply List.find_some in Ef as [Hin Hp]. apply List.in_rev, List.filter_In in Hin.
  rewrite (H x) in Hp; [discriminate|tauto].
Qed.

(** The last row of a name in the join is the status the head of the
    name points to, when there is such a status. *)
Lemma GetFullDocumentHeads_last db uuid name k s hs :
  head_rows_lookup uuid name hs = Some k ->
  In s (postgres.document_status db) ->
  postgres.status_key uuid name k s = true ->
  exists s',
    List.find (fun s => String.eqb (postgres.st_Name s) name)
      (List.rev
         (List.flat_map (fun h =>
            List.filter (fun s => String.eqb (postgres.st_UUID s) (postgres.head_UUID h)
                                  && String.eqb (postgres.st_Name s) (postgres.head_Name h)
                                  && (postgres.st_ID s =? postgres.head_ID h))
              (postgres.document_status db))
            (List.filter (fun h => String.eqb (postgres.head_UUID h) uuid) hs)))
    = Some s'
    /\ In s' (postgres.document_status db)
    /\ postgres.status_key uuid name k s' = true.
Proof.
  intros Hlook Hs Hkey. revert Hlook.
  induction hs as [|h hs IH] using List.rev_ind; [discriminate|].
  rewrite head_rows_lookup_app, GetFullDocumentHeads_app, List.rev_app_distr,
    find_app.
  unfold postgres.head_key.
  destruct (String.eqb_spec (postgres.head_UUID h) uuid) as [Hu|Hu]; cbn [andb].
  - destruct (String.eqb_spec (postgres.head_Name h) name) as [Hn|Hn].
    + intros [= Hk]. rewrite Hu, Hn, Hk.
      destruct (List.find _ (List.rev (List.filter _ (postgres.document_status db))))
        as [s'|] eqn:Ef.
      * exists s'. split; [reflexivity|].
        apply List.find_some in Ef as [Hin _].
        apply List.in_rev, List.filter_In in Hin. exact Hin.
      * exfalso. eapply List.find_none in Ef.
        -- unfold postgres.status_key in Hkey.
           apply andb_prop in Hkey as [Hkey _]. apply andb_prop in Hkey as [_ Hname].
           cbv beta in Ef. rewrite Hname in Ef. discriminate.
        -- apply List.in_rev. rewrite List.rev_involutive.
           apply List.filter_In. split; [exact Hs|exact Hkey].
    + intros Hlook. rewrite find_rev_filter_none; [exact (IH Hlook)|].
      intros x Hx. apply andb_prop in Hx as [Hx _]. apply andb_prop in Hx as [_ Hx].
      apply String.eqb_eq in Hx. apply String.eqb_neq. congruence.
  - cbn [List.rev List.find]. exact IH.
Qed.

Lemma GetFullDocumentHeads_In db uuid s :
  In s (postgres.GetFullDocumentHeads db uuid) ->
  In s (postgres.document_status db) /\ postgres.st_UUID s = uuid.
Proof.
  unfold postgres.GetFullDocumentHeads. intros H.
  apply List.in_flat_map in H as (h & Hh & Hin).
  apply List.filter_In in Hh as [_ Hu]. apply String.eqb_eq in Hu.
  apply List.filter_In in Hin as [Hin Hk].
  apply andb_prop in Hk as [Hk _]. apply andb_prop in Hk as [Hk _].
  apply String.eqb_eq in Hk. split; [exact Hin|congruence].
Qed.

(** X18. For a document that is not being deleted, a successful
    [GetDocumentMeta] reports the document's current version and, for
    every status name, the head of the status chain: when the status ids
    of the document run from 1 to the head without gap, the status
    reported for a name has the head as its id and carries the version,
    creator and time of the status row with that id, and no status is
    reported exactly for the names without statuses. *)
Theorem GetDocumentMeta_heads r db uuid meta :
  chain_ok db ->
  GetDocumentMeta r db uuid = inr meta ->
  meta_Deleting meta = false ->
  (exists row, postgres.GetDocumentForUpdate db uuid = Some row
     /\ postgres.CurrentVersion row = meta_CurrentVersion meta)
  /\ forall name,
       match meta_Statuses meta !! name with
       | Some st =>
         status_ID st = head_of db uuid name
         /\ 1 <= status_ID st
         /\ exists s, In s (postgres.document_status db)
              /\ postgres.status_key uuid name (status_ID st) s = true
              /\ postgres.st_Version s = status_Version st
              /\ postgres.st_CreatorUri s = status_Creator st
              /\ postgres.st_Created s = status_Created st
       | None => head_of db uuid name = 0 /\ status_ids db uuid name = []
       end.
Proof.
  intros Hchain Hrun Hdel. unfold GetDocumentMeta, queryRow in Hrun.
  destruct (query_error r 0) as [e|]; [discriminate|].
  unfold postgres.GetDocumentInfo in Hrun.
  destruct (List.find _ (postgres.document db)) as [info|] eqn:Einfo; [|discriminate].
  destruct (postgres.doc_Deleting info) eqn:Edel;
    [injection Hrun as <-; discriminate|].
  unfold queryRows in Hrun. destruct (query_error r 1) as [e|]; [discriminate|].
  destruct (loadStatuses r (postgres.GetFullDocumentHeads db uuid) ∅)
    as [e|statuses] eqn:Eload; [discriminate|].
  injection Hrun as <-. cbn [meta_CurrentVersion meta_Statuses]. split.
  - unfold postgres.GetDocumentForUpdate. rewrite Einfo. eexists. split; reflexivity.
  - intros name.
    pose proof (loadStatuses_lookup r name _ _ _ Eload) as Hlook.
    destruct (Hchain uuid name) as [Hk Hids].
    destruct (Z.eq_dec (head_of db uuid name) 0) as [Hz|Hnz].
    + (* no status of this name *)
      rewrite Hz in Hids. change (ids_upto 0) with (@nil Z) in Hids.
      destruct (List.find _ (List.rev (postgres.GetFullDocumentHeads db uuid)))
        as [s|] eqn:Ef.
      * exfalso. apply List.find_some in Ef as [Hin Hn].
        apply List.in_rev, GetFullDocumentHeads_In in Hin as [Hin Hu].
        assert (H : In (postgres.st_ID s) (status_ids db uuid name)).
        { unfold status_ids. apply List.in_map, List.filter_In.
          split; [exact Hin|]. rewrite Hn, Hu, String.eqb_refl. reflexivity. }
        rewrite Hids in H. destruct H.
      * rewrite Hlook, lookup_empty. auto.
    + assert (Hrows : head_rows_lookup uuid name (postgres.status_heads db)
                      = Some (head_of db uuid name)).
      { rewrite head_of_rows in *.
        destruct (head_rows_lookup uuid name (postgres.status_heads db));
          [reflexivity|contradiction]. }
      assert (Hin : In (head_of db uuid name) (status_ids db uuid name))
        by (rewrite Hids; apply ids_upto_In; lia).
      unfold status_ids in Hin. apply List.in_map_iff in Hin as (s & Hid & Hs).
      apply List.filter_In in Hs as [Hs Hkey].
      destruct (GetFullDocumentHeads_last db uuid name (head_of db uuid name) s
                  (postgres.status_heads db) Hrows Hs)
        as (s' & Hfind & Hs' & Hkey').
      { unfold postgres.status_key. now rewrite Hkey, Hid, Z.eqb_refl. }
      unfold postgres.GetFullDocumentHeads in Hlook. rewrite Hfind in Hlook.
      destruct Hlook as (st & -> & Hi & Hv & Hc & Ht & _).
      assert (Hid' : postgres.st_ID s' = head_of db uuid name).
      { unfold postgres.status_key in Hkey'. apply andb_prop in Hkey' as [_ H].
        now apply Z.eqb_eq in H. }
      split; [congruence|]. split; [lia|].
      exists s'. rewrite Hi, Hid'. auto.
Qed.

Lemma GetDocumentMeta_heads_witness :
  let db := snd (fst (Update (quiet None) postgres.empty_db req1)) in
  exists meta,
    GetDocumentMeta sound_reader db "u1" = inr meta
    /\ meta_CurrentVersion meta = 1
    /\ exists row, postgres.GetDocumentForUpdate db "u1" = Some row
         /\ postgres.CurrentVersion row = meta_CurrentVersion meta.
Proof.
  cbv zeta.
  assert (Hrun : Update (quiet None) postgres.empty_db req1
                 = (inr (mkDocumentUpdate 1 "user://alice" 10 ∅),
                    snd (fst (Update (quiet None) postgres.empty_db req1)),
                    snd (Update (quiet None) postgres.empty_db req1)))
    by (vm_compute; reflexivity).
  assert (Hrange : heads_in_range postgres.empty_db req1).
  { intros stat _. unfold head_of. cbn. unfold loadHeads. cbn. rewrite lookup_empty.
    vm_compute. reflexivity. }
  pose proof (Update_chain_step _ _ _ _ _ _ chain_ok_empty Hrange Hrun) as Hchain.
  set (db := snd (fst (Update (quiet None) postgres.empty_db req1))) in *.
  assert (Hmeta : GetDocumentMeta sound_reader db "u1"
                  = inr (match GetDocumentMeta sound_reader db "u1" with
                         | inr m => m
                         | inl _ => mkDocumentMeta 0 0 0 ∅ true
                         end))
    by (vm_compute; reflexivity).
  eexists. split; [exact Hmeta|]. split; [vm_compute; reflexivity|].
  refine (proj1 (GetDocumentMeta_heads sound_reader db "u1" _ Hchain Hmeta _)).
  vm_compute. reflexivity.
Defined.

(** ** The status history of a name *)

Lemma insert_desc_least {A : Type} (key : A -> Z) (x : A) (l : list A) :
  (forall y, In y l -> key x <= key y) ->
  postgres.insert_desc key x l = l ++ [x].
Proof.
  induction l as [|z l IH]; intros H; cbn; [reflexivity|].
  destruct (Z.ltb_spec (key z) (key x)) as [Hlt|Hge].
  - specialize (H z (or_introl eq_refl)). lia.
  - f_equal. apply IH. intros y Hy. apply H. now right.
Qed.

(** Rows that come in ascending order leave [ORDER BY key DESC]
    reversed. *)
Lemma order_by_desc_ascending {A : Type} (key : A -> Z) (l : list A) :
  ascending (List.map key l) ->
  postgres.order_by_desc key l = List.rev l.
Proof.
  unfold postgres.order_by_desc.
  induction l as [|x l IH]; cbn [List.map ascending List.fold_right List.rev];
    [reflexivity|].
  intros [Hx Hl]. rewrite (IH Hl). apply insert_desc_least.
  intros y Hy. apply Hx. apply List.in_map. now apply List.in_rev.
Qed.

Lemma ascending_filter (p : Z -> bool) (l : list Z) :
  ascending l -> ascending (List.filter p l).
Proof.
  induction l as [|x l IH]; cbn [List.filter ascending]; [auto|].
  intros [Hx Hl]. destruct (p x); cbn [ascending]; [|auto].
  split; [|auto]. intros y Hy. apply List.filter_In in Hy as [Hy _]. auto.
Qed.

Lemma filter_map_comm {A B : Type} (f : A -> B) (p : B -> bool) (l : list A) :
  List.filter p (List.map f l) = List.map f (List.filter (fun x => p (f x)) l).
Proof.
  induction l as [|x l IH]; cbn; [reflexivity|].
  destruct (p (f x)); cbn; now rewrite IH.
Qed.

Lemma filter_ids_upto (k b : Z) :
  0 <= k ->
  List.filter (fun i => i <? b) (ids_upto k) = ids_upto (Z.min k (b - 1)).
Proof.
  intros Hk. revert k Hk. apply natlike_ind.
  - cbn. destruct (Z.min_spec 0 (b - 1)) as [[_ ->]|[Hle ->]]; [reflexivity|].
    unfold ids_upto. destruct (b - 1) eqn:E; try reflexivity. lia.
  - intros k Hk IH. change (Z.succ k) with (k + 1) at 1.
    replace (Z.succ k) with (k + 1) by lia.
    rewrite ids_upto_succ by exact Hk. rewrite List.filter_app, IH. cbn [List.filter].
    destruct (Z.ltb_spec (k + 1) b) as [Hlt|Hge].
    + rewrite !Z.min_l by lia. symmetry. apply ids_upto_succ. exact Hk.
    + rewrite app_nil_r. f_equal. lia.
Qed.

(** X19. When the status ids of a name run from 1 to the head K without
    gap, [GetStatuses] lists the statuses of the name downwards from the
    head, or from the id before [before] if that is given and smaller:
    the ids of its rows are K, K-1, ..., cut off after [LIMIT] rows; each
    row is the status row with that id.  A negative limit is refused. *)
Theorem GetStatuses_from_head db uuid name before lim :
  chain_ok db ->
  let top := if before =? 0 then head_of db uuid name
             else Z.min (head_of db uuid name) (before - 1) in
  match postgres.GetStatuses db uuid name before lim with
  | Some rows =>
    0 <= lim
    /\ List.map postgres.gs_ID rows
       = List.firstn (Z.to_nat lim) (List.rev (ids_upto top))
    /\ forall row, In row rows ->
         exists s, In s (postgres.document_status db)
           /\ postgres.status_key uuid name (postgres.gs_ID row) s = true
           /\ postgres.gs_Version row = postgres.st_Version s
           /\ postgres.gs_Created row = postgres.st_Created s
           /\ postgres.gs_CreatorUri row = postgres.st_CreatorUri s
  | None => lim < 0
  end.
Proof.
  intros Hchain top. unfold postgres.GetStatuses, postgres.limit.
  destruct (Z.ltb_spec lim 0) as [Hlt|Hge]; [exact Hlt|].
  split; [exact Hge|].
  destruct (Hchain uuid name) as [Hk Hids].
  set (conv := fun s => postgres.mkGetStatusesRow (postgres.st_UUID s)
                          (postgres.st_Name s) (postgres.st_ID s)
                          (postgres.st_Version s) (postgres.st_Created s)
                          (postgres.st_CreatorUri s) (postgres.st_Meta s)).
  set (sel := List.filter _ (postgres.document_status db)).
  assert (Hsel : List.map postgres.gs_ID (List.map conv sel)
                 = List.filter (fun i => (before =? 0) || (i <? before))
                     (status_ids db uuid name)).
  { rewrite List.map_map. unfold status_ids. rewrite filter_map_comm.
    subst sel. cbn [conv postgres.gs_ID]. f_equal.
    clear. induction (postgres.document_status db) as [|s l IH]; cbn; [reflexivity|].
    destruct (String.eqb (postgres.st_UUID s) uuid && String.eqb (postgres.st_Name s) name);
      cbn; [|exact IH].
    destruct ((before =? 0) || (postgres.st_ID s <? before)); cbn; now rewrite IH. }
  assert (Hbound : List.filter (fun i => (before =? 0) || (i <? before))
                     (status_ids db uuid name) = ids_upto top).
  { rewrite Hids. subst top. destruct (before =? 0); cbn [orb].
    - clear. induction (ids_upto _) as [|x l IH]; cbn; [reflexivity|]. now rewrite IH.
    - apply filter_ids_upto. exact Hk. }
  assert (Hasc : ascending (List.map postgres.gs_ID (List.map conv sel))).
  { rewrite Hsel, Hbound. unfold ids_upto. apply ascending_seq. }
  rewrite (order_by_desc_ascending _ _ Hasc). split.
  - rewrite <- List.firstn_map, List.map_rev, Hsel, Hbound. reflexivity.
  - intros row Hrow. apply In_firstn, List.in_rev, List.in_map_iff in Hrow
      as (s & <- & Hs).
    subst sel. apply List.filter_In in Hs as [Hs Hkey].
    apply andb_prop in Hkey as [Hkey _].
    exists s. split; [exact Hs|]. cbn. unfold postgres.status_key.
    rewrite Hkey, Z.eqb_refl. auto.
Qed.

Lemma GetStatuses_from_head_witness :
  let db := snd (fst (Update (quiet None) postgres.empty_db req1)) in
  match postgres.GetStatuses db "u1" "usable" 0 10 with
  | Some rows =>
    0 <= 10
    /\ List.map postgres.gs_ID rows
       = List.firstn (Z.to_nat 10) (List.rev (ids_upto (head_of db "u1" "usable")))
    /\ forall row, In row rows ->
         exists s, In s (postgres.document_status db)
           /\ postgres.status_key "u1" "usable" (postgres.gs_ID row) s = true
           /\ postgres.gs_Version row = postgres.st_Version s
           /\ postgres.gs_Created row = postgres.st_Created s
           /\ postgres.gs_CreatorUri row = postgres.st_CreatorUri s
  | None => 10 < 0
  end.
Proof.
  cbv zeta.
  assert (Hrun : Update (quiet None) postgres.empty_db req1
                 = (inr (mkDocumentUpdate 1 "user://alice" 10 ∅),
                    snd (fst (Update (quiet None) postgres.empty_db req1)),
                    snd (Update (quiet None) postgres.empty_db req1)))
    by (vm_compute; reflexivity).
  assert (Hrange : heads_in_range postgres.empty_db req1).
  { intros stat _. unfold head_of. cbn. unfold loadHeads. cbn. rewrite lookup_empty.
    vm_compute. reflexivity. }
  exact (GetStatuses_from_head _ "u1" "usable" 0 10
           (Update_chain_step _ _ _ _ _ _ chain_ok_empty Hrange Hrun)).
Defined.

(** ** The RPC conversions of package docformat *)

Lemma Block_induction (P : docformat.Block -> Prop) :
  (forall b, ForallO P (docformat.b_Links b) -> ForallO P (docformat.b_Content b) ->
     ForallO P (docformat.b_Meta b) -> P b) ->
  forall b, P b.
Proof.
  intros H. fix IH 1. intros b. apply H; destruct b as [? ? ? ? ? ? ? ? ? ? ? ? links content meta]; cbn.
  - destruct links as [l|]; [|exact I]. induction l; constructor; auto.
  - destruct content as [l|]; [|exact I]. induction l; constructor; auto.
  - destruct meta as [l|]; [|exact I]. induction l; constructor; auto.
Qed.

Lemma RBlock_induction (P : docformat.RBlock -> Prop) :
  (forall rb,
     ForallO (fun c => match c with Some c' => P c' | None => True end)
       (docformat.rb_Links rb) ->
     ForallO (fun c => match c with Some c' => P c' | None => True end)
       (docformat.rb_Content rb) ->
     ForallO (fun c => match c with Some c' => P c' | None => True end)
       (docformat.rb_Meta rb) ->
     P rb) ->
  forall rb, P rb.
Proof.
  intros H. fix IH 1. intros rb. apply H;
    destruct rb as [? ? ? ? ? ? ? ? ? ? ? ? links content meta]; cbn.
  - destruct links as [l|]; [|exact I].
    induction l as [|[c|] l IHl]; constructor; auto.
  - destruct content as [l|]; [|exact I].
    induction l as [|[c|] l IHl]; constructor; auto.
  - destruct meta as [l|]; [|exact I].
    induction l as [|[c|] l IHl]; constructor; auto.
Qed.

Lemma copyData_entries data :
  nil_or_entries (docformat.copyData data) = true.
Proof.
  destruct data as [m|]; cbn; [|reflexivity].
  destruct (Nat.eqb (size m) 0) eqn:E; cbn; [reflexivity|now rewrite E].
Qed.

Lemma copyData_id data :
  nil_or_entries data = true -> docformat.copyData data = data.
Proof.
  destruct data as [m|]; cbn; [|reflexivity].
  destruct (Nat.eqb (size m) 0); [discriminate|reflexivity].
Qed.

Lemma convertSlice_inhabited {A B : Type} (f : A -> B) o :
  nil_or_inhabited (docformat.convertSlice f o) = true.
Proof. destruct o as [[|x l]|]; reflexivity. Qed.

Lemma convertSlice_compose {A B C : Type} (f : A -> B) (g : B -> C) o :
  docformat.convertSlice g (docformat.convertSlice f o)
  = docformat.convertSlice (fun x => g (f x)) o.
Proof.
  destruct o as [[|x l]|]; try reflexivity.
  cbn [docformat.convertSlice List.map]. f_equal. f_equal. apply List.map_map.
Qed.

Lemma convertSlice_ext {A B : Type} (f g : A -> B) o :
  ForallO (fun x => f x = g x) o ->
  docformat.convertSlice f o = docformat.convertSlice g o.
Proof.
  destruct o as [[|x l]|]; cbn [docformat.convertSlice ForallO]; try reflexivity.
  intros H. f_equal. apply List.map_ext_in. now apply List.Forall_forall.
Qed.

Lemma convertSlice_id {A : Type} (f : A -> A) o :
  nil_or_inhabited o = true -> ForallO (fun x => f x = x) o ->
  docformat.convertSlice f o = o.
Proof.
  destruct o as [[|x l]|]; cbn [docformat.convertSlice ForallO nil_or_inhabited];
    try reflexivity; [discriminate|].
  intros _ H. f_equal. rewrite <- (List.map_id (x :: l)) at 2.
  apply List.map_ext_in. now apply List.Forall_forall.
Qed.

Lemma ForallO_forallbO {A : Type} (f : A -> bool) (P : A -> Prop) o :
  ForallO (fun x => f x = true -> P x) o -> forallbO f o = true -> ForallO P o.
Proof.
  destruct o as [l|]; cbn; [|auto]. intros H Hb.
  rewrite List.forallb_forall in Hb. rewrite List.Forall_forall in *. auto.
Qed.

Lemma canonical_unfold b :
  canonical b
  = nil_or_entries (docformat.b_Data b)
    && nil_or_inhabited (docformat.b_Links b)
    && forallbO canonical (docformat.b_Links b)
    && nil_or_inhabited (docformat.b_Content b)
    && forallbO canonical (docformat.b_Content b)
    && nil_or_inhabited (docformat.b_Meta b)
    && forallbO canonical (docformat.b_Meta b).
Proof. destruct b. reflexivity. Qed.

(** A canonical block comes back from the RPC form as it was. *)
Lemma rpcToBlock_blockToRPC b :
  canonical b = true -> docformat.rpcToBlock (docformat.blockToRPC b) = b.
Proof.
  induction b as [b Hl Hc Hm] using Block_induction. rewrite canonical_unfold.
  intros H. repeat (apply andb_prop in H as [H ?]).
  destruct b as [? ? ? ? ? ? data ? ? ? ? ? links content meta]. cbn in *.
  rewrite !convertSlice_compose.
  rewrite copyData_id by (apply copyData_entries).
  rewrite copyData_id by assumption.
  f_equal; (apply convertSlice_id; [assumption|]);
    eapply ForallO_forallbO; eauto.
Qed.

Lemma zero_Block_canonical : canonical docformat.zero_Block = true.
Proof. reflexivity. Qed.

Lemma forallbO_convertSlice {A : Type} (g : A -> docformat.Block) o :
  ForallO (fun x => canonical (g x) = true) o ->
  forallbO canonical (docformat.convertSlice g o) = true.
Proof.
  destruct o as [[|x l]|]; cbn [docformat.convertSlice forallbO ForallO]; auto.
  intros H. apply List.forallb_forall. intros y Hy.
  apply List.in_map_iff in Hy as (z & <- & Hz).
  rewrite List.Forall_forall in H. auto.
Qed.

(** What comes out of the RPC form is canonical. *)
Lemma rpcToBlock_canonical rb : canonical (docformat.rpcToBlock rb) = true.
Proof.
  induction rb as [rb Hl Hc Hm] using RBlock_induction. rewrite canonical_unfold.
  destruct rb as [? ? ? ? ? ? data ? ? ? ? ? links content meta]. cbn in *.
  rewrite copyData_entries, !convertSlice_inhabited. cbn [andb].
  assert (Hall : forall o,
    ForallO (fun c => match c with
                      | Some c' => canonical (docformat.rpcToBlock c') = true
                      | None => True
                      end) o ->
    ForallO (fun c => canonical match c with
                                | Some c => docformat.rpcToBlock c
                                | None => docformat.zero_Block
                                end = true) o).
  { intros [l|]; cbn; [|auto]. intros HF. rewrite List.Forall_forall in *.
    intros [c|] Hin; [exact (HF _ Hin)|reflexivity]. }
  rewrite !forallbO_convertSlice by auto. reflexivity.
Qed.

Lemma blockToRPC_rpcToBlock_blockToRPC b :
  docformat.blockToRPC (docformat.rpcToBlock (docformat.blockToRPC b))
  = docformat.blockToRPC b.
Proof.
  induction b as [b Hl Hc Hm] using Block_induction.
  destruct b as [? ? ? ? ? ? data ? ? ? ? ? links content meta]. cbn in *.
  rewrite !convertSlice_compose.
  rewrite !(copyData_id (docformat.copyData _)) by (apply copyData_entries).
  f_equal; apply convertSlice_ext; cbn.
  - destruct links as [l|]; cbn in *; [|exact I].
    eapply List.Forall_impl; [|exact Hl]. cbn. intros c Hc'. now rewrite Hc'.
  - destruct content as [l|]; cbn in *; [|exact I].
    eapply List.Forall_impl; [|exact Hc]. cbn. intros c Hc'. now rewrite Hc'.
  - destruct meta as [l|]; cbn in *; [|exact I].
    eapply List.Forall_impl; [|exact Hm]. cbn. intros c Hc'. now rewrite Hc'.
Qed.

Lemma RPCToBlocks_BlocksToRPC blocks :
  canonical_blocks blocks = true ->
  docformat.RPCToBlocks (docformat.BlocksToRPC blocks) = blocks.
Proof.
  intros H. unfold canonical_blocks in H. apply andb_prop in H as [Hn Hc].
  unfold docformat.RPCToBlocks, docformat.BlocksToRPC.
  rewrite convertSlice_compose. apply convertSlice_id; [exact Hn|].
  destruct blocks as [l|]; cbn in *; [|exact I].
  rewrite List.forallb_forall in Hc. apply List.Forall_forall.
  intros b Hb. apply rpcToBlock_blockToRPC. auto.
Qed.

Lemma RPCToBlocks_canonical rpcBlocks :
  canonical_blocks (docformat.RPCToBlocks rpcBlocks) = true.
Proof.
  unfold canonical_blocks, docformat.RPCToBlocks.
  rewrite convertSlice_inhabited. cbn [andb]. apply forallbO_convertSlice.
  destruct rpcBlocks as [l|]; cbn; [|exact I]. apply List.Forall_forall.
  intros [c|] _; cbn; [apply rpcToBlock_canonical|reflexivity].
Qed.

(** X20. The conversion of blocks to their RPC form and back is the
    identity on blocks without a slice or map that is empty but not nil,
    at any depth; [RPCToBlocks] only produces such blocks, so that what
    was decoded from RPC survives encoding and decoding unchanged; and on
    any blocks, encoding, decoding and encoding again gives the first
    encoding. *)
Theorem Blocks_round_trip blocks rpcBlocks :
  (canonical_blocks blocks = true ->
     docformat.RPCToBlocks (docformat.BlocksToRPC blocks) = blocks)
  /\ canonical_blocks (docformat.RPCToBlocks rpcBlocks) = true
  /\ docformat.RPCToBlocks (docformat.BlocksToRPC (docformat.RPCToBlocks rpcBlocks))
     = docformat.RPCToBlocks rpcBlocks
  /\ docformat.BlocksToRPC (docformat.RPCToBlocks (docformat.BlocksToRPC blocks))
     = docformat.BlocksToRPC blocks.
Proof.
  split; [apply RPCToBlocks_BlocksToRPC|].
  split; [apply RPCToBlocks_canonical|].
  split; [apply RPCToBlocks_BlocksToRPC, RPCToBlocks_canonical|].
  unfold docformat.RPCToBlocks, docformat.BlocksToRPC.
  rewrite !convertSlice_compose. apply convertSlice_ext.
  destruct blocks as [l|]; cbn; [|exact I]. apply List.Forall_forall.
  intros b _. f_equal. apply blockToRPC_rpcToBlock_blockToRPC.
Qed.

Lemma Blocks_round_trip_witness :
  docformat.RPCToBlocks (docformat.BlocksToRPC (Some [sample_block]))
  = Some [sample_block].
Proof.
  apply (proj1 (Blocks_round_trip (Some [sample_block]) None)).
  vm_compute. reflexivity.
Defined.

Lemma lookup_map {A B : Type} (f : A -> B) (l : list A) (i : nat) :
  List.map f l !! i = f <$> (l !! i).
Proof.
  revert i. induction l as [|x l IH]; intros [|i]; cbn; auto.
Qed.

(** X21. [RPCToBlocks] drops no element: a nil pointer in the RPC list
    leaves the zero Block at its place, so that the result is as long as
    the input.  Neither conversion returns an empty slice that is not
    nil: a nil or empty input gives nil; and [BlocksToRPC] never produces
    a nil pointer. *)
Theorem RPCToBlocks_nil_elements blocks rpcBlocks :
  length (default [] (docformat.RPCToBlocks rpcBlocks))
  = length (default [] rpcBlocks)
  /\ (forall i, default [] rpcBlocks !! i = Some None ->
        default [] (docformat.RPCToBlocks rpcBlocks) !! i
        = Some docformat.zero_Block)
  /\ (docformat.RPCToBlocks rpcBlocks = None <-> default [] rpcBlocks = [])
  /\ (docformat.BlocksToRPC blocks = None <-> default [] blocks = [])
  /\ docformat.RPCToBlocks rpcBlocks <> Some []
  /\ docformat.BlocksToRPC blocks <> Some []
  /\ (forall i, default [] (docformat.BlocksToRPC blocks) !! i <> Some None).
Proof.
  unfold docformat.RPCToBlocks, docformat.BlocksToRPC.
  split; [|split; [|split; [|split; [|split; [|split]]]]].
  - destruct rpcBlocks as [[|x l]|]; cbn [docformat.convertSlice default from_option id];
      try reflexivity. apply List.length_map.
  - intros i Hi.
    destruct rpcBlocks as [[|x l]|]; cbn [docformat.convertSlice default from_option id] in *;
      try (rewrite lookup_nil in Hi; discriminate).
    rewrite lookup_map, Hi. reflexivity.
  - destruct rpcBlocks as [[|x l]|]; cbn; split; congruence.
  - destruct blocks as [[|x l]|]; cbn; split; congruence.
  - destruct rpcBlocks as [[|x l]|]; cbn; congruence.
  - destruct blocks as [[|x l]|]; cbn; congruence.
  - intros i. destruct blocks as [[|x l]|]; cbn [docformat.convertSlice default from_option id];
      try (rewrite lookup_nil; discriminate).
    rewrite lookup_map. destruct ((x :: l) !! i); cbn; congruence.
Qed.

(** X22. [DocumentToRPC] and [RPCToDocument] return nil exactly for nil.
    A document whose block lists hold no slice or map that is empty but
    not nil comes back from the RPC form as it was, and a document decoded
    from RPC survives encoding and decoding unchanged. *)
Theorem Document_round_trip doc rpcDoc :
  (docformat.DocumentToRPC doc = None <-> doc = None)
  /\ (docformat.RPCToDocument rpcDoc = None <-> rpcDoc = None)
  /\ (forall d, doc = Some d ->
        canonical_blocks (docformat.d_Content d) = true ->
        canonical_blocks (docformat.d_Meta d) = true ->
        canonical_blocks (docformat.d_Links d) = true ->
        docformat.RPCToDocument (docformat.DocumentToRPC doc) = doc)
  /\ docformat.RPCToDocument (docformat.DocumentToRPC (docformat.RPCToDocument rpcDoc))
     = docformat.RPCToDocument rpcDoc.
Proof.
  split; [|split; [|split]].
  - destruct doc; cbn; split; congruence.
  - destruct rpcDoc; cbn; split; congruence.
  - intros d -> Hc Hm Hl. destruct d. cbn in *.
    now rewrite !RPCToBlocks_BlocksToRPC.
  - destruct rpcDoc as [rd|]; [|reflexivity]. cbn.
    now rewrite !RPCToBlocks_BlocksToRPC by apply RPCToBlocks_canonical.
Qed.

Lemma Document_round_trip_witness :
  docformat.RPCToDocument (docformat.DocumentToRPC (Some sample_document))
  = Some sample_document.
Proof.
  apply (proj1 (proj2 (proj2 (Document_round_trip (Some sample_document) None)))
           sample_document eq_refl); vm_compute; reflexivity.
Defined.

Lemma rpcToUpdateMeta_map (l : list docformat.UpdateMeta) :
  docformat.rpcToUpdateMeta
    (List.map (fun m => Some (docformat.mkMetaValue (docformat.um_Key m)
                                (docformat.um_Value m))) l)
  = Some l.
Proof.
  induction l as [|[k v] l IH]; cbn; [reflexivity|]. now rewrite IH.
Qed.

Lemma rpcToUpdateMeta_none (l : list (option docformat.MetaValue)) :
  docformat.rpcToUpdateMeta l = None <-> In None l.
Proof.
  induction l as [|[m|] l IH]; cbn.
  - split; [discriminate|intros []].
  - destruct (docformat.rpcToUpdateMeta l).
    + split; [discriminate|]. intros [H|H]; [discriminate|]. apply IH in H.
      discriminate.
    + split; [|reflexivity]. intros _. right. now apply IH.
  - split; auto.
Qed.

(** X23. Update metadata and identity references come back from their
    RPC form as they were, an empty metadata slice coming back as nil.
    [RPCToUpdateMeta] panics exactly when its list holds a nil pointer,
    and returns as many entries as it was given otherwise. *)
Theorem UpdateMeta_round_trip meta rpcMeta ref :
  docformat.RPCToUpdateMeta (docformat.UpdateMetaToRPC meta)
  = Some (match meta with Some [] => None | _ => meta end)
  /\ (docformat.RPCToUpdateMeta rpcMeta = None <-> In None (default [] rpcMeta))
  /\ (forall out, docformat.RPCToUpdateMeta rpcMeta = Some out ->
        length (default [] out) = length (default [] rpcMeta))
  /\ docformat.RPCToIdentityReference (docformat.IdentityReferenceToRPC ref)
     = Some ref.
Proof.
  split; [|split; [|split]].
  - unfold docformat.RPCToUpdateMeta, docformat.UpdateMetaToRPC.
    assert (Happ : forall (A : Type) (l : list A),
              default [] (docformat.appended l) = l) by (now intros A [|x l]).
    rewrite Happ, rpcToUpdateMeta_map.
    destruct meta as [[|m l]|]; reflexivity.
  - unfold docformat.RPCToUpdateMeta.
    rewrite <- rpcToUpdateMeta_none.
    destruct (docformat.rpcToUpdateMeta (default [] rpcMeta)); split; congruence.
  - intros out. unfold docformat.RPCToUpdateMeta.
    destruct (docformat.rpcToUpdateMeta (default [] rpcMeta)) as [l|] eqn:E;
      [|discriminate].
    intros [= <-].
    assert (Hlen : length l = length (default [] rpcMeta)).
    { clear -E. revert l E. induction (default [] rpcMeta) as [|[m|] r IH];
        intros l E; cbn in E; [now inversion E| |discriminate].
      destruct (docformat.rpcToUpdateMeta r); [|discriminate].
      inversion E; subst. cbn. f_equal. now apply IH. }
    destruct l; cbn in *; auto.
  - destruct ref. reflexivity.
Qed.

(** ** The history of the API server *)

(** The loop of [GetHistory] collects the updates that are not above
    [start], in the order it meets them, up to ten entries in all. *)
Lemma historyLoop_firstn time_Format start updates : forall res,
  (length res < 10)%nat ->
  docformat.historyLoop time_Format start updates res
  = res ++ List.map (historyEntry time_Format)
             (List.firstn (10 - length res)
                (List.filter (fun up => docformat.up_Version up <=? start) updates)).
Proof.
  induction updates as [|up rest IH]; intros res Hlen;
    cbn [docformat.historyLoop List.filter].
  - rewrite List.firstn_nil. cbn. now rewrite app_nil_r.
  - destruct (Z.gtb_spec (docformat.up_Version up) start) as [Hgt|Hle].
    + destruct (Z.leb_spec (docformat.up_Version up) start); [lia|]. now apply IH.
    + destruct (Z.leb_spec (docformat.up_Version up) start); [|lia].
      rewrite List.length_app. cbn [length].
      destruct (Nat.eqb_spec (length res + 1) 10) as [Hten|Hnot].
      * replace (10 - length res)%nat with 1%nat by lia. cbn.
        now rewrite List.firstn_0.
      * rewrite IH by (rewrite List.length_app; cbn; lia).
        rewrite List.length_app. cbn [length].
        replace (10 - length res)%nat with (S (10 - (length res + 1))) by lia.
        cbn [List.firstn List.map]. now rewrite <- app_assoc.
Qed.

(** X24. For a request with a valid uuid whose document the store finds,
    [GetHistory] rejects a [before] that is 1 or negative, and otherwise
    lists, from the latest update backwards, the updates with a version
    of at most [before - 1], ten at most.  Since [before] 0 makes this
    bound -1, and not the version of the latest update, a request without
    [before] gets an empty history of a document whose versions are not
    negative. *)
Theorem GetHistory_window uuid_Parse time_Format store req docUUID meta err :
  docformat.validateRequiredUUIDParam uuid_Parse (docformat.ghr_Uuid req) "uuid"
  = inr docUUID ->
  store docUUID = (Some meta, err) ->
  err <> Some docformat.StoreNotFound ->
  let before := docformat.ghr_Before req in
  (before <> 0 -> before < 2 ->
     docformat.GetHistory uuid_Parse time_Format store req
     = docformat.Failed (docformat.InvalidArgumentError "before"
                           "cannot be non-zero and less that 2"))
  /\ (before = 0 \/ 2 <= before ->
      docformat.GetHistory uuid_Parse time_Format store req
      = docformat.Returned
          (List.map (historyEntry time_Format)
             (List.firstn 10
                (List.filter (fun up => docformat.up_Version up <=? before - 1)
                   (List.rev (docformat.dm_Updates meta))))))
  /\ (before = 0 ->
      List.Forall (fun up => 0 <= docformat.up_Version up) (docformat.dm_Updates meta) ->
      docformat.GetHistory uuid_Parse time_Format store req = docformat.Returned []).
Proof.
  intros Hv Hstore Herr before. subst before.
  assert (Hwin : docformat.ghr_Before req = 0 \/ 2 <= docformat.ghr_Before req ->
            docformat.GetHistory uuid_Parse time_Format store req
            = docformat.Returned
                (List.map (historyEntry time_Format)
                   (List.firstn 10
                      (List.filter
                         (fun up => docformat.up_Version up <=? docformat.ghr_Before req - 1)
                         (List.rev (docformat.dm_Updates meta)))))).
  { intros Hb. unfold docformat.GetHistory. rewrite Hv, Hstore.
    destruct (Z.eqb_spec (docformat.ghr_Before req) 0) as [Hz|Hnz];
      destruct (Z.ltb_spec (docformat.ghr_Before req) 2) as [Hlt|Hge];
      cbn [negb andb]; try lia;
      (destruct err as [[|]|]; [congruence| |]);
      (destruct (Z.eqb_spec (docformat.ghr_Before req - 1) 0); [lia|]);
      now rewrite historyLoop_firstn by (cbn; lia). }
  split; [|split; [exact Hwin|]].
  - intros Hnz Hlt. unfold docformat.GetHistory. rewrite Hv.
    destruct (Z.eqb_spec (docformat.ghr_Before req) 0); [contradiction|].
    destruct (Z.ltb_spec (docformat.ghr_Before req) 2); [reflexivity|lia].
  - intros Hz Hall. rewrite Hwin by now left. rewrite Hz. f_equal.
    assert (Hnone : List.filter (fun up => docformat.up_Version up <=? 0 - 1)
                      (List.rev (docformat.dm_Updates meta)) = []).
    { apply filter_nil_iff. intros up Hup. apply List.in_rev in Hup.
      rewrite List.Forall_forall in Hall. specialize (Hall up Hup). lia. }
    now rewrite Hnone.
Qed.

Lemma GetHistory_window_witness :
  docformat.GetHistory (fun v => inr v) (fun _ => "t") sample_store
    (docformat.mkGetHistoryRequest "u1" 3)
  = docformat.Returned
      (List.map (historyEntry (fun _ => "t")) [sample_update 2; sample_update 1]).
Proof.
  refine (proj1 (proj2 (GetHistory_window (fun v => inr v) (fun _ => "t") sample_store
                          (docformat.mkGetHistoryRequest "u1" 3) "u1" _ None
                          eq_refl eq_refl _)) _).
  - discriminate.
  - right. cbn. lia.
Defined.

(** ** The planning import *)

Lemma trimPrefix_app (prefix rest : string) :
  docformat.trimPrefix prefix (prefix ++ rest) = Some rest.
Proof.
  induction prefix as [|c prefix IH]; [reflexivity|].
  change (String c prefix ++ rest)%string with (String c (prefix ++ rest)%string).
  cbn [docformat.trimPrefix]. now rewrite Ascii.eqb_refl.
Qed.

Lemma unitOf_some links ref :
  docformat.unitOf links = Some ref ->
  exists before u after,
    links = before ++ u :: after
    /\ List.forallb (fun u' => negb (is_unit u')) before = true
    /\ is_unit u = true
    /\ ref = docformat.mkIdentityReference
               (docformat.strings_Replace1 (docformat.nml_URI u)
                  "imid://unit/" "core://unit/")
               (docformat.nml_Title u).
Proof.
  induction links as [|u rest IH]; cbn [docformat.unitOf]; [discriminate|].
  rewrite <- negb_andb. fold (is_unit u).
  destruct (is_unit u) eqn:Hu; cbn [negb].
  - intros [= <-]. exists [], u, rest. auto.
  - intros H. destruct (IH H) as (before & u' & after & -> & Hb & Hu' & Href).
    exists (u :: before), u', after. cbn. rewrite Hu. auto.
Qed.

Lemma unitOf_none links :
  docformat.unitOf links = None <->
  List.forallb (fun u => negb (is_unit u)) links = true.
Proof.
  induction links as [|u rest IH]; cbn [docformat.unitOf List.forallb]; [tauto|].
  rewrite <- negb_andb. fold (is_unit u).
  destruct (is_unit u); cbn [negb andb]; [split; discriminate|exact IH].
Qed.

(** X25. [newsMLUnitReference] reports a unit exactly when some link of
    the given link is an affiliation with an organisation that has, among
    its own links, an affiliation with a unit.  It then returns the first
    unit of the first such organisation, with the title of the unit as
    name and its URI with the first "imid://unit/" replaced by
    "core://unit/", so that a URI "imid://unit/x" becomes
    "core://unit/x"; otherwise it returns the zero reference. *)
Theorem newsMLUnitReference_first link :
  let has_unit l := is_organisation l
                    && negb (List.forallb (fun u => negb (is_unit u))
                               (docformat.nml_Links l)) in
  match docformat.newsMLUnitReference link with
  | (ref, true) =>
    exists before l after ubefore u uafter,
      docformat.nml_Links link = before ++ l :: after
      /\ List.forallb (fun l' => negb (has_unit l')) before = true
      /\ is_organisation l = true
      /\ docformat.nml_Links l = ubefore ++ u :: uafter
      /\ List.forallb (fun u' => negb (is_unit u')) ubefore = true
      /\ is_unit u = true
      /\ docformat.ir_Name ref = docformat.nml_Title u
      /\ docformat.ir_URI ref
         = docformat.strings_Replace1 (docformat.nml_URI u)
             "imid://unit/" "core://unit/"
      /\ forall x : string,
           docformat.nml_URI u = ("imid://unit/" ++ x)%string ->
           docformat.ir_URI ref = ("core://unit/" ++ x)%string
  | (ref, false) =>
    ref = docformat.mkIdentityReference "" ""
    /\ List.forallb (fun l => negb (has_unit l)) (docformat.nml_Links link) = true
  end.
Proof.
  intros has_unit. unfold docformat.newsMLUnitReference.
  induction (docformat.nml_Links link) as [|l rest IH]; cbn [docformat.firstUnit].
  - split; reflexivity.
  - rewrite <- negb_andb. fold (is_organisation l).
    assert (Hhas : has_unit l = is_organisation l
                   && match docformat.unitOf (docformat.nml_Links l) with
                      | Some _ => true
                      | None => false
                      end).
    { subst has_unit. cbv beta. f_equal.
      destruct (docformat.unitOf (docformat.nml_Links l)) eqn:Eu.
      - destruct (List.forallb _ (docformat.nml_Links l)) eqn:Ef; [|reflexivity].
        apply unitOf_none in Ef. congruence.
      - apply unitOf_none in Eu. now rewrite Eu. }
    destruct (is_organisation l) eqn:Horg; cbn [negb andb] in *.
    + destruct (docformat.unitOf (docformat.nml_Links l)) as [ref|] eqn:Eu.
      * apply unitOf_some in Eu as (ub & u & ua & Hl & Hub & Hu & ->).
        exists [], l, rest, ub, u, ua. cbn [app List.forallb docformat.ir_Name
          docformat.ir_URI]. repeat (split; [auto; fail|]).
        intros x Hx. rewrite Hx.
        assert (Hrep : forall s old new rest,
                  docformat.trimPrefix old s = Some rest ->
                  docformat.strings_Replace1 s old new = (new ++ rest)%string).
        { intros s old new r Hs. destruct s; cbn [docformat.strings_Replace1];
            now rewrite Hs. }
        apply Hrep, trimPrefix_app.
      * destruct (docformat.firstUnit rest) as [ref|].
        -- destruct IH as (b & l' & a & ub & u & ua & Hr & Hb & IH).
           exists (l :: b), l', a, ub, u, ua. cbn [app List.forallb].
           rewrite Hr, Hhas, Hb. auto.
        -- destruct IH as [Hz Hb]. split; [exact Hz|]. cbn [List.forallb].
           now rewrite Hhas, Hb.
    + destruct (docformat.firstUnit rest) as [ref|].
      * destruct IH as (b & l' & a & ub & u & ua & Hr & Hb & IH).
        exists (l :: b), l', a, ub, u, ua. cbn [app List.forallb].
        rewrite Hr, Hhas, Hb. auto.
      * destruct IH as [Hz Hb]. split; [exact Hz|]. cbn [List.forallb].
        now rewrite Hhas, Hb.
Qed.

Lemma trimPrefix_some (prefix : string) : forall s rest : string,
  docformat.trimPrefix prefix s = Some rest -> s = (prefix ++ rest)%string.
Proof.
  induction prefix as [|c prefix IH]; intros s rest H; cbn in H.
  - now injection H as <-.
  - destruct s as [|d s]; [discriminate|].
    destruct (Ascii.eqb_spec c d) as [<-|]; [|discriminate].
    change (String c prefix ++ rest)%string with (String c (prefix ++ rest)%string).
    f_equal. now apply IH.
Qed.

(** X26. [parseNRPDate] takes as declared granularity the [why] attribute
    without its prefix "nrpwhy:": what follows the prefix when the
    attribute has it, and the whole attribute, which may be missing, when
    it has not.  When it succeeds, the granularity it returns is never
    empty: it is the declared one, and for an undeclared one "date" if
    the value has ten characters and "datetime" otherwise.  The value is
    parsed as a plain date exactly when the returned granularity is
    "date" and the value has ten characters, and as an RFC 3339 time
    otherwise; the time returned is the parsed time in UTC, the date
    returned that of the parsed time in its own zone. *)
Theorem parseNRPDate_granularity time_Parse time_UTC time_Format prop t date
    granularity :
  docformat.parseNRPDate time_Parse time_UTC time_Format prop
  = Some (t, date, granularity) ->
  let declared := docformat.strings_TrimPrefix (docformat.ep_Why prop) "nrpwhy:" in
  let ten := Nat.eqb (String.length (docformat.ep_Value prop)) 10 in
  (forall rest : string,
     docformat.ep_Why prop = ("nrpwhy:" ++ rest)%string -> declared = rest)
  /\ ((forall rest : string, docformat.ep_Why prop <> ("nrpwhy:" ++ rest)%string) ->
      declared = docformat.ep_Why prop)
  /\ granularity <> ""
  /\ (declared <> "" -> granularity = declared)
  /\ (declared = "" -> granularity = if ten then "date" else "datetime")
  /\ exists parsed,
       time_Parse (if String.eqb granularity "date" && ten
                   then "2006-01-02" else docformat.RFC3339)
         (docformat.ep_Value prop) = Some parsed
       /\ t = time_UTC parsed
       /\ date = time_Format "2006-01-02" parsed.
Proof.
  intros Hrun declared ten. subst ten.
  split; [|split].
  { intros rest Hwhy. subst declared. unfold docformat.strings_TrimPrefix.
    now rewrite Hwhy, trimPrefix_app. }
  { intros Hnone. subst declared. unfold docformat.strings_TrimPrefix.
    destruct (docformat.trimPrefix "nrpwhy:" (docformat.ep_Why prop)) as [rest|] eqn:Et;
      [|reflexivity].
    apply trimPrefix_some in Et. now destruct (Hnone rest). }
  unfold docformat.parseNRPDate in Hrun. fold declared in Hrun.
  clearbody declared.
  unfold docformat.parseGranularTime in Hrun. cbv zeta in Hrun.
  destruct (String.eqb_spec declared "") as [Hw|Hw].
  - subst declared. cbn [andb] in Hrun.
    destruct (Nat.eqb (String.length (docformat.ep_Value prop)) 10) eqn:Hten;
      cbn in Hrun;
      (destruct (time_Parse _ (docformat.ep_Value prop)) as [t'|] eqn:Hp;
       [|discriminate]); injection Hrun as <- <- <-;
      (split; [discriminate|]); (split; [congruence|]);
      (split; [reflexivity|]); cbn; eauto.
  - cbn [andb] in Hrun. rewrite (proj2 (String.eqb_neq _ _) Hw) in Hrun.
    destruct (time_Parse _ (docformat.ep_Value prop)) as [t'|] eqn:Hp; [|discriminate].
    injection Hrun as <- <- <-.
    split; [exact Hw|]. split; [reflexivity|]. split; [contradiction|]. eauto.
Qed.

Lemma parseNRPDate_granularity_witness :
  docformat.parseNRPDate sample_Parse (fun t => t) (fun _ _ => "2023-05-01")
    (docformat.mkExtProperty "nrpdate:start" "2023-05-01T10:00:00Z" "" "")
  = Some (2, "2023-05-01", "datetime")
  /\ docformat.parseNRPDate sample_Parse (fun t => t) (fun _ _ => "2023-05-01")
       (docformat.mkExtProperty "nrpdate:start" "2023-05-01" "" "date")
     = Some (1, "2023-05-01", "date")
  /\ "datetime" <> "" /\ "date" <> "".
Proof.
  assert (Hmissing : docformat.parseNRPDate sample_Parse (fun t => t)
                       (fun _ _ => "2023-05-01")
                       (docformat.mkExtProperty "nrpdate:start"
                          "2023-05-01T10:00:00Z" "" "")
                     = Some (2, "2023-05-01", "datetime")) by reflexivity.
  assert (Hbare : docformat.parseNRPDate sample_Parse (fun t => t)
                    (fun _ _ => "2023-05-01")
                    (docformat.mkExtProperty "nrpdate:start" "2023-05-01" "" "date")
                  = Some (1, "2023-05-01", "date")) by reflexivity.
  split; [exact Hmissing|]. split; [exact Hbare|]. split.
  - exact (proj1 (proj2 (proj2 (parseNRPDate_granularity _ _ _ _ _ _ _ Hmissing)))).
  - exact (proj1 (proj2 (proj2 (parseNRPDate_granularity _ _ _ _ _ _ _ Hbare)))).
Defined.

(** ** The import of an assignment *)

Lemma default_last_cons {A : Type} (d x : A) (l : list A) :
  default d (last (x :: l)) = default x (last l).
Proof. rewrite last_cons. now destruct (last l). Qed.

(** The loop over the links: the last updater and the last creator, the
    units of the creators and the blocks of the assigned. *)
Lemma readLinks_spec links : forall updater creator units docLinks,
  docformat.readLinks links updater creator units docLinks
  = (default updater (last (List.map personOf (List.filter (hasRel "updater") links))),
     default creator (last (List.map personOf (List.filter (hasRel "creator") links))),
     units ++ List.flat_map unitsOf (List.filter (hasRel "creator") links),
     docLinks ++ List.map docformat.authorBlock
                   (List.filter (hasRel "assigned-to") links)).
Proof.
  induction links as [|link rest IH]; intros updater creator units docLinks;
    cbn [docformat.readLinks List.filter].
  - cbn. now rewrite !app_nil_r.
  - assert (Hr : forall r, hasRel r link = String.eqb (docformat.nml_Rel link) r)
      by reflexivity.
    rewrite !Hr. clear Hr.
    destruct (String.eqb_spec (docformat.nml_Rel link) "updater") as [Hu|Hu].
    + rewrite Hu. cbn [String.eqb Ascii.eqb Bool.eqb andb]. rewrite IH.
      cbn [List.map]. now rewrite default_last_cons.
    + destruct (String.eqb_spec (docformat.nml_Rel link) "creator") as [Hc|Hc].
      * rewrite Hc. cbn [String.eqb Ascii.eqb Bool.eqb andb]. rewrite IH.
        cbn [List.map List.flat_map]. rewrite default_last_cons.
        unfold unitsOf at 2.
        destruct (docformat.newsMLUnitReference link) as [unit [|]];
          now rewrite <- ?app_assoc, ?app_nil_r.
      * destruct (String.eqb_spec (docformat.nml_Rel link) "assigned-to") as [Ha|Ha].
        -- rewrite IH. cbn [List.map]. now rewrite <- app_assoc.
        -- apply IH.
Qed.

Ltac split_type H prop :=
  cbn [docformat.readProperties List.filter] in H |- *;
  assert (Hr : forall r, hasType r prop = String.eqb (docformat.ep_Type prop) r)
    by reflexivity;
  rewrite ?Hr; clear Hr; revert H;
  destruct (String.eqb_spec (docformat.ep_Type prop) "imext:status") as [Hs|Hs];
  destruct (String.eqb_spec (docformat.ep_Type prop) "imext:type") as [Ht|Ht];
  destruct (String.eqb_spec (docformat.ep_Type prop) "nrpdate:start") as [Hst|Hst];
  destruct (String.eqb_spec (docformat.ep_Type prop) "nrpdate:end") as [He|He];
  try congruence; intros H.

(** The loop over the properties, when it does not fail: the status of
    the last status property, and each property passed its check. *)
Lemma readProperties_status tp tu tf props : forall status data status' data',
  docformat.readProperties tp tu tf props status data = inr (status', data') ->
  status'
  = default status
      (last (List.map (fun p => docformat.strings_TrimPrefix (docformat.ep_Value p)
                                  "imext:")
               (List.filter (hasType "imext:status") props)))
  /\ List.Forall (fun p => hasType "imext:type" p = true ->
                           docformat.ep_Value p = "x-im/assignment") props
  /\ List.Forall (fun p => hasType "nrpdate:start" p || hasType "nrpdate:end" p = true ->
                           is_Some (docformat.parseNRPDate tp tu tf p)) props.
Proof.
  induction props as [|prop rest IH]; intros status data status' data' H.
  - cbn in H. inversion H; subst. cbn. auto.
  - assert (Hty : forall r, hasType r prop = String.eqb (docformat.ep_Type prop) r)
      by reflexivity.
    split_type H prop.
    + apply IH in H as (H1 & H2 & H3). cbn [List.map]. rewrite default_last_cons.
      split; [exact H1|]. split; constructor; auto; rewrite ?Hty, Hs; discriminate.
    + destruct (String.eqb_spec (docformat.ep_Value prop) "x-im/assignment") as [Hv|Hv];
        cbn [negb] in H; [|discriminate].
      apply IH in H as (H1 & H2 & H3).
      split; [exact H1|]. split; constructor; auto; rewrite ?Hty, Ht; discriminate.
    + destruct (docformat.parseNRPDate tp tu tf prop) as [[[t date] g]|] eqn:Hp;
        [|discriminate].
      apply IH in H as (H1 & H2 & H3).
      split; [exact H1|]. split; (constructor; [|assumption]).
      * rewrite Hty, Hst. discriminate.
      * intros _. eauto.
    + destruct (docformat.parseNRPDate tp tu tf prop) as [[[t date] g]|] eqn:Hp;
        [|discriminate].
      apply IH in H as (H1 & H2 & H3).
      split; [exact H1|]. split; (constructor; [|assumption]).
      * rewrite Hty, He. discriminate.
      * intros _. eauto.
    + apply IH in H as (H1 & H2 & H3).
      split; [exact H1|]. split; (constructor; [|assumption]).
      * rewrite Hty. intros Hx. apply String.eqb_eq in Hx. contradiction.
      * rewrite !Hty. intros Hx. apply orb_prop in Hx as [Hx|Hx];
          apply String.eqb_eq in Hx; contradiction.
Qed.

(** The data of the planning block: its keys, and the dates of the last
    start and of the last end property. *)
Lemma readProperties_data tp tu tf props : forall status data status' data',
  docformat.readProperties tp tu tf props status data = inr (status', data') ->
  (forall k, is_Some (data' !! k) ->
     is_Some (data !! k)
     \/ In k ["startDate"; "start"; "dateGranularity"; "endDate"; "end"])
  /\ match last (List.filter (hasType "nrpdate:start") props) with
     | Some p =>
       exists t date g,
         docformat.parseNRPDate tp tu tf p = Some (t, date, g)
         /\ data' !! "startDate" = Some date
         /\ data' !! "start" = Some (tf docformat.RFC3339 t)
         /\ data' !! "dateGranularity" = Some g
     | None =>
       data' !! "startDate" = data !! "startDate"
       /\ data' !! "start" = data !! "start"
       /\ data' !! "dateGranularity" = data !! "dateGranularity"
     end
  /\ match last (List.filter (hasType "nrpdate:end") props) with
     | Some p =>
       exists t date g,
         docformat.parseNRPDate tp tu tf p = Some (t, date, g)
         /\ data' !! "endDate" = Some date
         /\ data' !! "end" = Some (tf docformat.RFC3339 t)
     | None =>
       data' !! "endDate" = data !! "endDate"
       /\ data' !! "end" = data !! "end"
     end.
Proof.
  induction props as [|prop rest IH]; intros status data status' data' H.
  - cbn in H. inversion H; subst. cbn. auto.
  - split_type H prop.
    + exact (IH _ _ _ _ H).
    + destruct (String.eqb_spec (docformat.ep_Value prop) "x-im/assignment") as [Hv|Hv];
        cbn [negb] in H; [|discriminate].
      exact (IH _ _ _ _ H).
    + destruct (docformat.parseNRPDate tp tu tf prop) as [[[t date] g]|] eqn:Hp;
        [|discriminate].
      apply IH in H as (Hk & Hstart & Hend). split; [|split].
      * intros k Hsome. destruct (Hk k Hsome) as [Hin|Hin]; [|now right].
        repeat (apply lookup_insert_is_Some in Hin as [<-|[_ Hin]];
                [right; cbn; tauto|]).
        now left.
      * rewrite last_cons.
        destruct (last (List.filter (hasType "nrpdate:start") rest)); [exact Hstart|].
        destruct Hstart as (H1 & H2 & H3). exists t, date, g.
        rewrite H1, H2, H3. split; [exact Hp|].
        rewrite lookup_insert_eq.
        rewrite !lookup_insert_ne by discriminate. rewrite lookup_insert_eq.
        rewrite lookup_insert_ne by discriminate. rewrite lookup_insert_eq. auto.
      * destruct (last (List.filter (hasType "nrpdate:end") rest)); [exact Hend|].
        destruct Hend as (H1 & H2). rewrite H1, H2.
        now rewrite !lookup_insert_ne by discriminate.
    + destruct (docformat.parseNRPDate tp tu tf prop) as [[[t date] g]|] eqn:Hp;
        [|discriminate].
      apply IH in H as (Hk & Hstart & Hend). split; [|split].
      * intros k Hsome. destruct (Hk k Hsome) as [Hin|Hin]; [|now right].
        repeat (apply lookup_insert_is_Some in Hin as [<-|[_ Hin]];
                [right; cbn; tauto|]).
        now left.
      * destruct (last (List.filter (hasType "nrpdate:start") rest)); [exact Hstart|].
        destruct Hstart as (H1 & H2 & H3). rewrite H1, H2, H3.
        now rewrite !lookup_insert_ne by discriminate.
      * rewrite last_cons.
        destruct (last (List.filter (hasType "nrpdate:end") rest)); [exact Hend|].
        destruct Hend as (H1 & H2). exists t, date, g.
        rewrite H1, H2. split; [exact Hp|].
        rewrite lookup_insert_ne by discriminate. rewrite !lookup_insert_eq. auto.
    + exact (IH _ _ _ _ H).
Qed.

(** What a successful import of an item that is not news coverage went
    through. *)
Lemma assignmentImport_inr tp tu tf assignment lang cca out blocklisted :
  docformat.assignmentImport tp tu tf (docformat.Fetched assignment) lang cca
  = (inr out, blocklisted) ->
  docformat.pl_ItemClass assignment <> "plinat:newscoverage" ->
  exists status data,
    docformat.readProperties tp tu tf (docformat.pl_Properties assignment) "draft" ∅
    = inr (status, data)
    /\ (docformat.pl_DescriptionText assignment <> "" ->
        docformat.pl_DescriptionRole assignment = "nrpdesc:intern")
    /\ blocklisted = false
    /\ out = docformat.mkConvertedDoc
               (docformat.mkDocument (docformat.pl_GUID assignment) "core/assignment"
                  ("core://assignment/" ++ docformat.pl_GUID assignment) ""
                  (docformat.pl_Headline assignment) None
                  (Some (List.map docformat.typeBlock
                           (docformat.assignmentTypes (docformat.pl_ItemClass assignment))
                         ++ [planningBlock data]
                         ++ noteBlocks (docformat.pl_DescriptionText assignment)))
                  (docformat.appended
                     (List.map docformat.authorBlock
                        (List.filter (hasRel "assigned-to") (docformat.pl_Links assignment))))
                  lang)
               status
               (default (docformat.mkIdentityReference "" "")
                  (last (List.map personOf
                           (List.filter (hasRel "updater") (docformat.pl_Links assignment)))))
               (default (docformat.mkIdentityReference "" "")
                  (last (List.map personOf
                           (List.filter (hasRel "creator") (docformat.pl_Links assignment)))))
               (docformat.appended
                  (List.flat_map unitsOf
                     (List.filter (hasRel "creator") (docformat.pl_Links assignment)))).
Proof.
  unfold docformat.assignmentImport. intros H Hclass.
  rewrite (proj2 (String.eqb_neq _ _) Hclass) in H. cbv zeta in H.
  destruct (docformat.readProperties tp tu tf _ "draft" ∅) as [e|[status data]] eqn:Hprops;
    [discriminate|].
  exists status, data. split; [reflexivity|].
  rewrite readLinks_spec in H. cbn [app] in H. unfold noteBlocks.
  destruct (String.eqb_spec (docformat.pl_DescriptionText assignment) "") as [Ht|Ht];
    cbn [negb] in H.
  - injection H as <- <-. split; [contradiction|]. split; [reflexivity|].
    now rewrite app_nil_r.
  - destruct (String.eqb_spec (docformat.pl_DescriptionRole assignment) "nrpdesc:intern")
      as [Hrole|Hrole]; cbn [negb] in H; [|discriminate].
    injection H as <- <-. split; [auto|]. split; [reflexivity|].
    now rewrite <- app_assoc.
Qed.

(** X27. A successful import of a planning item that is not news
    coverage adds nothing to the blocklist and gives a document of type
    "core/assignment" with the GUID of the item as uuid, the URI
    "core://assignment/" followed by the GUID, the headline as title and
    no content.  Its meta blocks are, in this order: the assignment types
    ("video" and "picture" for a composite, the item class without its
    prefix "ninat:" otherwise), one planning block, and a note with the
    description if that is not empty, which then has the role
    "nrpdesc:intern".  The data of the planning block has no other keys
    than the five date keys and carries the dates of the last start and
    of the last end property, every date property having parsed and
    every type property naming "x-im/assignment". *)
Theorem assignmentImport_document tp tu tf assignment lang cca out blocklisted :
  docformat.assignmentImport tp tu tf (docformat.Fetched assignment) lang cca
  = (inr out, blocklisted) ->
  docformat.pl_ItemClass assignment <> "plinat:newscoverage" ->
  let doc := docformat.cd_Document out in
  let props := docformat.pl_Properties assignment in
  blocklisted = false
  /\ docformat.d_UUID doc = docformat.pl_GUID assignment
  /\ docformat.d_Type doc = "core/assignment"
  /\ docformat.d_URI doc = ("core://assignment/" ++ docformat.pl_GUID assignment)%string
  /\ docformat.d_Title doc = docformat.pl_Headline assignment
  /\ docformat.d_Language doc = lang
  /\ docformat.d_Content doc = None
  /\ (docformat.pl_DescriptionText assignment <> "" ->
      docformat.pl_DescriptionRole assignment = "nrpdesc:intern")
  /\ List.Forall (fun p => hasType "imext:type" p = true ->
                           docformat.ep_Value p = "x-im/assignment") props
  /\ List.Forall (fun p => hasType "nrpdate:start" p || hasType "nrpdate:end" p = true ->
                           is_Some (docformat.parseNRPDate tp tu tf p)) props
  /\ exists data,
       docformat.d_Meta doc
       = Some (List.map docformat.typeBlock
                 (if String.eqb (docformat.pl_ItemClass assignment) "ninat:composite"
                  then ["video"; "picture"]
                  else [docformat.strings_TrimPrefix
                          (docformat.pl_ItemClass assignment) "ninat:"])
               ++ [planningBlock data]
               ++ noteBlocks (docformat.pl_DescriptionText assignment))
       /\ (forall k, is_Some (data !! k) ->
             In k ["startDate"; "start"; "dateGranularity"; "endDate"; "end"])
       /\ match last (List.filter (hasType "nrpdate:start") props) with
          | Some p =>
            exists t date g,
              docformat.parseNRPDate tp tu tf p = Some (t, date, g)
              /\ data !! "startDate" = Some date
              /\ data !! "start" = Some (tf docformat.RFC3339 t)
              /\ data !! "dateGranularity" = Some g
          | None =>
            data !! "startDate" = None /\ data !! "start" = None
            /\ data !! "dateGranularity" = None
          end
       /\ match last (List.filter (hasType "nrpdate:end") props) with
          | Some p =>
            exists t date g,
              docformat.parseNRPDate tp tu tf p = Some (t, date, g)
              /\ data !! "endDate" = Some date
              /\ data !! "end" = Some (tf docformat.RFC3339 t)
          | None => data !! "endDate" = None /\ data !! "end" = None
          end.
Proof.
  intros H Hclass doc props. subst doc props.
  apply assignmentImport_inr in H as (status & data & Hprops & Hrole & -> & ->);
    [|exact Hclass].
  cbn [docformat.cd_Document docformat.d_UUID docformat.d_Type docformat.d_URI
       docformat.d_Title docformat.d_Language docformat.d_Content docformat.d_Meta].
  pose proof (readProperties_status _ _ _ _ _ _ _ _ Hprops) as (_ & Htypes & Hdates).
  pose proof (readProperties_data _ _ _ _ _ _ _ _ Hprops) as (Hkeys & Hstart & Hend).
  repeat (split; [assumption || reflexivity|]).
  exists data. split; [reflexivity|]. split; [|split].
  - intros k Hk. destruct (Hkeys k Hk) as [Hin|Hin]; [|exact Hin].
    rewrite lookup_empty in Hin. destruct Hin as [? [=]].
  - destruct (last (List.filter (hasType "nrpdate:start") _)); [exact Hstart|].
    now rewrite !lookup_empty in Hstart.
  - destruct (last (List.filter (hasType "nrpdate:end") _)); [exact Hend|].
    now rewrite !lookup_empty in Hend.
Qed.

(** X28. A successful import of a planning item that is not news
    coverage takes its status from the last status property, without the
    prefix "imext:", and is a draft when there is none; its updater and
    its creator are those of the last updater link and of the last
    creator link; its units are the units of the creator links that have
    one, in the order of the links; and the links of its document are the
    author blocks of the assigned-to links, in their order.  The lists
    are nil when they have no element. *)
Theorem assignmentImport_people tp tu tf assignment lang cca out blocklisted :
  docformat.assignmentImport tp tu tf (docformat.Fetched assignment) lang cca
  = (inr out, blocklisted) ->
  docformat.pl_ItemClass assignment <> "plinat:newscoverage" ->
  let links := docformat.pl_Links assignment in
  docformat.cd_Status out
  = default "draft"
      (last (List.map (fun p => docformat.strings_TrimPrefix (docformat.ep_Value p)
                                  "imext:")
               (List.filter (hasType "imext:status") (docformat.pl_Properties assignment))))
  /\ docformat.cd_Updater out
     = default (docformat.mkIdentityReference "" "")
         (last (List.map personOf (List.filter (hasRel "updater") links)))
  /\ docformat.cd_Creator out
     = default (docformat.mkIdentityReference "" "")
         (last (List.map personOf (List.filter (hasRel "creator") links)))
  /\ docformat.cd_Units out
     = docformat.appended (List.flat_map unitsOf (List.filter (hasRel "creator") links))
  /\ docformat.d_Links (docformat.cd_Document out)
     = docformat.appended
         (List.map docformat.authorBlock (List.filter (hasRel "assigned-to") links))
  /\ docformat.cd_Units out <> Some []
  /\ docformat.d_Links (docformat.cd_Document out) <> Some [].
Proof.
  intros H Hclass links. subst links.
  apply assignmentImport_inr in H as (status & data & Hprops & _ & _ & ->);
    [|exact Hclass].
  cbn [docformat.cd_Status docformat.cd_Updater docformat.cd_Creator
       docformat.cd_Units docformat.cd_Document docformat.d_Links].
  apply readProperties_status in Hprops as (Hstatus & _).
  split; [exact Hstatus|]. do 4 (split; [reflexivity|]).
  split.
  - destruct (List.flat_map unitsOf _); discriminate.
  - destruct (List.map docformat.authorBlock _); discriminate.
Qed.

Lemma assignmentImport_document_witness :
  exists out,
    docformat.assignmentImport sample_Parse (fun t => t) (fun _ _ => "2023-05-01")
      (docformat.Fetched sample_planning) "sv" (inl docformat.converter_failed)
    = (inr out, false)
    /\ docformat.d_Type (docformat.cd_Document out) = "core/assignment".
Proof.
  eexists.
  assert (Hrun :
    docformat.assignmentImport sample_Parse (fun t => t) (fun _ _ => "2023-05-01")
      (docformat.Fetched sample_planning) "sv" (inl docformat.converter_failed)
    = (inr (match fst (docformat.assignmentImport sample_Parse (fun t => t)
                         (fun _ _ => "2023-05-01")
                         (docformat.Fetched sample_planning) "sv"
                         (inl docformat.converter_failed)) with
            | inr out => out
            | inl _ => docformat.mkConvertedDoc
                         (docformat.mkDocument "" "" "" "" "" None None None "")
                         "" (docformat.mkIdentityReference "" "")
                         (docformat.mkIdentityReference "" "") None
            end), false)) by reflexivity.
  split; [exact Hrun|].
  refine (proj1 (proj2 (proj2 (assignmentImport_document _ _ _ _ _ _ _ _ Hrun _)))).
  discriminate.
Defined.

Lemma assignmentImport_people_witness :
  exists out,
    docformat.assignmentImport sample_Parse (fun t => t) (fun _ _ => "2023-05-01")
      (docformat.Fetched sample_planning) "sv" (inl docformat.converter_failed)
    = (inr out, false)
    /\ docformat.cd_Status out = "done"
    /\ docformat.cd_Units out
       = Some [docformat.mkIdentityReference "core://unit/sport" "Sport"].
Proof.
  eexists.
  assert (Hrun :
    docformat.assignmentImport sample_Parse (fun t => t) (fun _ _ => "2023-05-01")
      (docformat.Fetched sample_planning) "sv" (inl docformat.converter_failed)
    = (inr (match fst (docformat.assignmentImport sample_Parse (fun t => t)
                         (fun _ _ => "2023-05-01")
                         (docformat.Fetched sample_planning) "sv"
                         (inl docformat.converter_failed)) with
            | inr out => out
            | inl _ => docformat.mkConvertedDoc
                         (docformat.mkDocument "" "" "" "" "" None None None "")
                         "" (docformat.mkIdentityReference "" "")
                         (docformat.mkIdentityReference "" "") None
            end), false)) by reflexivity.
  split; [exact Hrun|].
  assert (Hclass : docformat.pl_ItemClass sample_planning <> "plinat:newscoverage")
    by discriminate.
  destruct (assignmentImport_people _ _ _ _ _ _ _ _ Hrun Hclass)
    as (Hs & _ & _ & Hu & _).
  split; [rewrite Hs; reflexivity|rewrite Hu; reflexivity].
Defined.

(** ** Versions stay without gap *)

(** A successful [Update] found the document, if at all, not marked for
    deletion. *)
Lemma Update_not_deleting w db update up db' log row :
  Update w db update = (inr up, db', log) ->
  postgres.GetDocumentForUpdate db (ur_UUID update) = Some row ->
  postgres.Deleting row = false.
Proof.
  unfold Update. intros H Hrow.
  destruct (marshalUpdate w update) as [e|[[docJSON metaJSON] statusMeta]];
    [now inversion H|].
  apply transaction_inr in H as (_ & st & Hbody & _).
  apply updateBody_inr in Hbody as (info & st1 & _ & _ & _ & _ & H1 & _).
  apply updatePreflight_inr in H1 as (_ & _ & _ & Hinfo & _ & Hdel).
  cbn [tx_db] in Hinfo. rewrite Hrow in Hinfo. cbn in Hinfo. congruence.
Qed.

Lemma existsb_app_l {A : Type} (f : A -> bool) (l1 l2 : list A) :
  List.existsb f l1 = true -> List.existsb f (l1 ++ l2) = true.
Proof. intros H. rewrite List.existsb_app, H. reflexivity. Qed.

(** X29. The versions of a document stay without gap.  If every version
    row other than a first version has a row for the version before it,
    and the current version of every document that is not being deleted
    is 0 or has a row, then both hold again after a successful [Update]
    of a document whose current version is within the int64 range and
    below its maximum, and after a round of the archiver on versions. *)
Theorem versions_stay_contiguous db :
  version_contiguous db ->
  current_version_stored db ->
  (forall w update up db' log,
     Update w db update = (inr up, db', log) ->
     (forall row, postgres.GetDocumentForUpdate db (ur_UUID update) = Some row ->
        int64_min <= postgres.CurrentVersion row < int64_max) ->
     version_contiguous db' /\ current_version_stored db')
  /\ (forall sign db',
        archiveVersion sign db = Some db' ->
        version_contiguous db' /\ current_version_stored db').
Proof.
  intros Hcont Hcur. split.
  - intros w update up db' log Hrun Hrange.
    pose proof (fun row => Update_not_deleting _ _ _ _ _ _ row Hrun) as Hlive.
    destruct (Update_documents _ _ _ _ _ _ Hrun) as (dj & mj & sm & Hm & Hdocs & _).
    apply Update_inr in Hrun
      as (docJSON & metaJSON & statusMeta & info & Hm' & Hinfo & _ & Hup & Hver & _).
    rewrite Hm in Hm'. injection Hm' as <- <- <-.
    unfold versionRows in Hver. unfold documentRows in Hdocs.
    destruct (ur_Document update) as [payload|] eqn:Hpay.
    2:{ rewrite app_nil_r in Hver. split.
        - intros v Hv. rewrite Hver in *. exact (Hcont v Hv).
        - intros d Hd Hdel. rewrite Hver, Hdocs in *. exact (Hcur d Hd Hdel). }
    set (new := postgres.mkDocumentVersion (ur_UUID update) (du_Version up)
                  (du_Created up) (du_Creator up) mj dj false None) in *.
    (* the version of the update follows the current version *)
    assert (Hnew : du_Version up = 1
                   \/ List.existsb
                        (postgres.version_key (ur_UUID update) (du_Version up - 1))
                        (postgres.document_version db) = true).
    { rewrite Hup. cbn [du_Version]. unfold updateVersion. rewrite Hpay, Hinfo.
      unfold postgres.GetDocumentForUpdate in *.
      destruct (List.find _ (postgres.document db)) as [d|] eqn:Hfind;
        cbn [default from_option id]; [|left; reflexivity].
      cbn [postgres.CurrentVersion].
      rewrite int64_succ_in_range by (apply (Hrange _ eq_refl)).
      apply List.find_some in Hfind as [Hd Hu]. apply String.eqb_eq in Hu.
      destruct (Hcur d Hd (Hlive _ eq_refl)) as [Hz|Hrowv].
      - left. lia.
      - right. rewrite <- Hu. replace (postgres.doc_CurrentVersion d + 1 - 1)
          with (postgres.doc_CurrentVersion d) by lia. exact Hrowv. }
    assert (Hstored : List.existsb
                        (postgres.version_key (ur_UUID update) (du_Version up))
                        (postgres.document_version db') = true).
    { rewrite Hver, List.existsb_app. apply orb_true_intro. right. cbn.
      unfold postgres.version_key. cbn. now rewrite String.eqb_refl, Z.eqb_refl. }
    split.
    + intros v Hv. rewrite Hver in Hv.
      apply List.in_app_or in Hv as [Hv|[<-|[]]].
      * destruct (Hcont v Hv) as [H1|(p0 & Hp & Hon)]; [now left|right].
        exists p0. split; [rewrite Hver; apply List.in_or_app; now left|exact Hon].
      * destruct Hnew as [H1|Hprev]; [now left|right].
        apply List.existsb_exists in Hprev as (p0 & Hp & Hk).
        exists p0. split; [rewrite Hver; apply List.in_or_app; now left|].
        exact Hk.
    + intros d Hd Hdel. rewrite Hdocs in Hd.
      assert (Hold : forall d0, In d0 (postgres.document db) ->
                postgres.doc_Deleting d0 = false ->
                postgres.doc_CurrentVersion d0 = 0
                \/ List.existsb (postgres.version_key (postgres.doc_UUID d0)
                                   (postgres.doc_CurrentVersion d0))
                     (postgres.document_version db') = true).
      { intros d0 Hd0 Hdel0. destruct (Hcur d0 Hd0 Hdel0) as [Hz|Hrow0];
          [now left|right]. rewrite Hver. now apply existsb_app_l. }
      destruct (List.existsb (postgres.document_key (ur_UUID update))
                  (postgres.document db)) eqn:Hex.
      * apply List.in_map_iff in Hd as (d0 & Hd0 & Hin0).
        destruct (postgres.document_key (ur_UUID update) d0) eqn:Hk.
        -- subst d. right. exact Hstored.
        -- subst d0. now apply Hold.
      * apply List.in_app_or in Hd as [Hd|[<-|[]]]; [now apply Hold|].
        right. exact Hstored.
  - intros sign db' Hstep. unfold archiveVersion in Hstep.
    destruct (postgres.GetDocumentVersionForArchiving db) as [r|]; [|discriminate].
    injection Hstep as <-.
    assert (Hkeep : forall uuid version,
              List.existsb (postgres.version_key uuid version)
                (postgres.document_version db) = true ->
              List.existsb (postgres.version_key uuid version)
                (postgres.document_version
                   (postgres.SetDocumentVersionAsArchived db (sign r)
                      (postgres.vfa_Uuid r) (postgres.vfa_Version r))) = true).
    { intros uuid version Hex. apply List.existsb_exists in Hex as (v & Hv & Hk).
      apply List.existsb_exists.
      destruct (postgres.version_key (postgres.vfa_Uuid r) (postgres.vfa_Version r) v)
        eqn:Hsel.
      - exists (postgres.mkDocumentVersion (postgres.ver_UUID v)
                  (postgres.ver_Version v) (postgres.ver_Created v)
                  (postgres.ver_CreatorUri v) (postgres.ver_Meta v)
                  (postgres.ver_DocumentData v) true (Some (sign r))).
        split; [|exact Hk].
        apply SetDocumentVersionAsArchived_rows. exists v. rewrite Hsel. cbn. auto.
      - exists v. split; [|exact Hk].
        apply SetDocumentVersionAsArchived_rows. exists v. rewrite Hsel. auto. }
    split.
    + intros v' Hv'.
      apply SetDocumentVersionAsArchived_rows in Hv' as (v & Hv & Hu & Hn & _).
      destruct (Hcont v Hv) as [H1|(p0 & Hp & Hon)]; [left; congruence|right].
      assert (Hex : List.existsb
                      (postgres.version_key (postgres.ver_UUID v)
                         (postgres.ver_Version v - 1))
                      (postgres.document_version db) = true).
      { apply List.existsb_exists. exists p0. split; [exact Hp|exact Hon]. }
      apply Hkeep, List.existsb_exists in Hex as (p1 & Hp1 & Hk1).
      exists p1. split; [exact Hp1|].
      unfold postgres.version_parent_on. rewrite Hu, Hn. exact Hk1.
    + intros d Hd Hdel. destruct (Hcur d Hd Hdel) as [Hz|Hrow0]; [now left|right].
      now apply Hkeep.
Qed.

Lemma versions_stay_contiguous_witness :
  exists up db' log,
    Update (quiet (Some "user://bob")) db_one_document req_next = (inr up, db', log)
    /\ version_contiguous db' /\ current_version_stored db'.
Proof.
  eexists _, _, _.
  assert (Hrun : Update (quiet (Some "user://bob")) db_one_document req_next
                 = (inr (mkDocumentUpdate 2 "user://bob" 20 ∅),
                    snd (fst (Update (quiet (Some "user://bob"))
                                db_one_document req_next)),
                    snd (Update (quiet (Some "user://bob"))
                           db_one_document req_next)))
    by (vm_compute; reflexivity).
  split; [exact Hrun|].
  refine (proj1 (versions_stay_contiguous db_one_document _ _) _ _ _ _ _ Hrun _).
  - intros v [<-|[]]. left. reflexivity.
  - intros d [<-|[]] _. right. reflexivity.
  - intros row [= <-]. unfold int64_min, int64_max. cbn. lia.
Defined.

(** The heads after the loop of [GetMeta], whatever the order in which
    the names are visited. *)
Lemma addHead_fold time_Format (statuses : gmap string (list docformat.Status)) :
  let heads := map_fold (docformat.addHead time_Format) None statuses in
  (forall name, default ∅ heads !! name = statuses !! name ≫= headOf time_Format)
  /\ (heads = None <-> forall name l, statuses !! name = Some l -> l = []).
Proof.
  cbv zeta.
  apply (map_fold_weak_ind
           (fun (r : option (gmap string docformat.RStatus))
                (m : gmap string (list docformat.Status)) =>
              (forall name, default ∅ r !! name = m !! name ≫= headOf time_Format)
              /\ (r = None <-> forall name l, m !! name = Some l -> l = [])));
    clear statuses.
  - split.
    + intros name. cbn. now rewrite !lookup_empty.
    + split; [|reflexivity]. intros _ name l Hl. now rewrite lookup_empty in Hl.
  - intros i x m r Hi [Hlook Hnone].
    unfold docformat.addHead. destruct (last x) as [head|] eqn:Hlast.
    + split.
      * intros name. cbn [default from_option id].
        destruct (decide (i = name)) as [->|Hne].
        -- rewrite !lookup_insert_eq. cbn. unfold headOf. now rewrite Hlast.
        -- rewrite !lookup_insert_ne by exact Hne. apply Hlook.
      * split; [discriminate|]. intros Hall.
        specialize (Hall i x (lookup_insert_eq _ _ _)). subst x. discriminate.
    + assert (Hx : x = []) by (now apply last_None).
      split.
      * intros name. destruct (decide (i = name)) as [->|Hne].
        -- rewrite lookup_insert_eq. cbn. unfold headOf. rewrite Hlast.
           rewrite Hlook, Hi. reflexivity.
        -- rewrite lookup_insert_ne by exact Hne. apply Hlook.
      * rewrite Hnone. split.
        -- intros Hall name l Hl. destruct (decide (i = name)) as [->|Hne].
           ++ rewrite lookup_insert_eq in Hl. congruence.
           ++ rewrite lookup_insert_ne in Hl by exact Hne. eauto.
        -- intros Hall name l Hl. apply (Hall name l).
           rewrite lookup_insert_ne; [exact Hl|]. intros ->. congruence.
Qed.

(** X30. For a request with a valid uuid whose document the store finds,
    [GetMeta] answers, whatever other error the store gave with it: the
    heads hold, for a name with statuses, the last status under the name
    with the number of statuses as its id, and nothing for a name without;
    the heads are nil exactly when no name has a status; the entries of the
    ACL are kept in their order. *)
Theorem GetMeta_heads uuid_Parse time_Format store uuid docUUID meta err :
  docformat.validateRequiredUUIDParam uuid_Parse uuid "uuid" = inr docUUID ->
  store docUUID = (Some meta, err) ->
  err <> Some docformat.StoreNotFound ->
  exists resp,
    docformat.GetMeta uuid_Parse time_Format store uuid = docformat.Returned resp
    /\ docformat.rdm_CurrentVersion resp = docformat.dm_CurrentVersion meta
    /\ (forall name,
          default ∅ (docformat.rdm_Heads resp) !! name
          = docformat.dm_Statuses meta !! name ≫= headOf time_Format)
    /\ (docformat.rdm_Heads resp = None
        <-> forall name l, docformat.dm_Statuses meta !! name = Some l -> l = [])
    /\ List.map docformat.racl_Uri (default [] (docformat.rdm_ALC resp))
       = List.map docformat.acl_URI (docformat.dm_ACL meta).
Proof.
  intros Hv Hstore Herr. unfold docformat.GetMeta. rewrite Hv, Hstore.
  destruct (addHead_fold time_Format (docformat.dm_Statuses meta)) as [Hlook Hnone].
  assert (Happ : forall A (l : list A), default [] (docformat.appended l) = l)
    by (intros A [|? ?]; reflexivity).
  destruct err as [[|]|]; [congruence| |];
    (eexists; split; [reflexivity|]; cbn [docformat.rdm_CurrentVersion
       docformat.rdm_Heads docformat.rdm_ALC];
     repeat split; try apply Hlook; try apply Hnone;
     rewrite Happ, List.map_map; reflexivity).
Qed.

Lemma GetMeta_heads_witness :
  exists resp,
    docformat.GetMeta (fun v => inr v) (fun _ => "t") sample_store "u1"
    = docformat.Returned resp
    /\ default ∅ (docformat.rdm_Heads resp) !! "usable"
       = Some (docformat.mkRStatus 2 3
                 (Some (docformat.mkRIdentityReference "user://bob" "Bob"))
                 "t" None)
    /\ default ∅ (docformat.rdm_Heads resp) !! "done" = None.
Proof.
  destruct (GetMeta_heads (fun v => inr v) (fun _ => "t") sample_store "u1" "u1"
              (docformat.mkDocumentMeta 10 30 3
                {[ "usable" := [docformat.mkStatus 1
                                  (docformat.mkIdentityReference "user://alice" "Alice")
                                  11 None;
                                docformat.mkStatus 3
                                  (docformat.mkIdentityReference "user://bob" "Bob")
                                  31 None];
                   "done" := [] ]}
                [sample_update 1; sample_update 2; sample_update 3] [])
              None eq_refl eq_refl ltac:(discriminate))
    as (resp & Hrun & _ & Hlook & _).
  exists resp. split; [exact Hrun|]. rewrite !Hlook. split; vm_compute; reflexivity.
Defined.
